(* ===== verification/_CoqProject ===== *)
-Q . S2P
Prelude.v
GoStrings.v
Base64.v
Types.v
Codecs.v
Bindings.v
StoreApi.v
MemoryStore.v
MemoryInv.v
MemoryProps.v
StoreRefine.v
Server.v
ServerSpec.v
RedisApi.v
Manifests.v
RedisStore.v
RedisSort.v
RedisInv.v
RedisSpec.v
StoresAgree.v
RedisProps.v
RedisExamples.v
Substrate.v
ModelConfig.v
ModelClient.v
Sha256.v
Reconciler.v
Worker.v
ReconcilerSpec.v
TemplateSpec.v
WorkerSpec.v
QueueSpec.v
SystemSpec.v
ClientSpec.v
ModelSpec.v
Paths.v
Metadata.v
Container.v
Connect.v
ConnectSpec.v
Secrets.v
Bootstrap.v
Setup.v
BootstrapSpec.v
SetupSpec.v
Runner.v
RunnerSpec.v
SandboxExamples.v
Tunnel.v
Guest.v
AxClient.v
Cli.v
TunnelSpec.v
Kinds.v
Desk.v
ApplySpec.v
DeleteSpec.v
MemoryQueue.v
RedisQueue.v
CliSpec.v
Flags.v
Mains.v
MainsSpec.v
SshSpec.v
MemoryExamples.v
QueueExamples.v
CliExamples.v
ProgramExamples.v
