(* ===== verification/Prelude.v ===== *)
(** * A verification library for AX

    AX runs agent tasks in sandboxes. An API server (internal/server) keeps
    tasks, gateways, workspaces and models in a store (internal/store: an
    in-memory one and one on Redis); saving or deleting a task publishes an event;
    a controller (internal/controller) takes the events off a consumer group,
    reconciles the task on Agent Substrate through a client (internal/substrate)
    and writes the status back. In the sandbox a task runner (runner) prepares the
    bound workspaces (internal/workspace), if asked with the help of a model
    (internal/model), serves metadata (internal/metadata) and supervises the task's
    command. The command line (cmd/ax) applies manifests, lists, watches and deletes
    resources through the API server, which it may reach through a tunnel
    (internal/tunnel), and runs commands in a task's container (internal/guest).
    This library models these parts and proves what makes them correct.

    ** The files

    Shared by all:
    - [Prelude]: the state monad with panics ([go], [M]), errors as Go builds and
      inspects them, int64 arithmetic, the clock, the unspecified order of map
      iteration ([MapRange]); [returns I m P], the triple the controller is
      verified with; tactics and the hint databases [go] and [gorw].
    - [GoStrings], [Paths], [Base64], [Sha256], [Flags]: what the code uses of the
      packages strings, fmt, net, path/filepath, encoding/base64, crypto/sha256,
      strconv and flag, executable, with lemmas.

    Messages and manifests (pkg/apis/v1alpha1):
    - [Types]: the messages of ax.pb.go as records, and the constants of types.go. A
      nil pointer is [None]. [Codecs]: a codec of every message that loses nothing.
    - [Bindings]: workspace bindings, their validation and the legacy manifest
      shapes (types.go), with the declarative reading [valid_bindings].
    - [Manifests]: reading and printing YAML (types.go) over yaml.v3 and protojson;
      what is printed keeps the whole JSON document.

    Stores (internal/store):
    - [StoreApi]: the interface of store.go as the class [Store], and its contract as
      the class [StoreLaws]: laws over a view of the stored resources ([StoreView]).
      The server, the worker and the command line are verified against the contract,
      the two stores are verified to keep it.
    - [MemoryStore]: memory/store.go over an explicit heap of task and status
      objects, so that sharing is visible; [MemoryInv]: its invariant and the contract
      ([mem_store_laws]); [MemoryProps]: reachability and safety, listing, events,
      watches.
    - [RedisApi]: the go-redis client and the protojson codec as interfaces, the
      documented behaviour of Redis as laws over a reference server, which is an
      instance itself; [RedisStore]: redis/store.go; [RedisSort], [RedisInv],
      [RedisSpec]: sorted sets, the invariant of the keyspace and the contract
      ([redis_store_laws], for a codec that loses nothing); [RedisProps]: round trips,
      listings, consumer groups.
    - [StoreRefine], [StoresAgree]: both stores answer sequences of operations as one
      abstract store does, as long as the messages written along them survive the
      JSON codec.

    API server (internal/server/server.go):
    - [Server]: the handlers over any store, and the routing of requests;
      [ServerSpec]: what the handlers guarantee over a store that keeps the contract.
    - [Kinds]: the handlers of the four kinds behind one interface, for their clients.

    Controller (internal/controller, internal/substrate):
    - [Substrate]: the requests and retries of client.go over an abstract control
      service ([Control]); [Connect], [ConnectSpec]: how it is connected to.
    - [Reconciler]: reconciler.go; [ReconcilerSpec]: outcome, sticky and unique
      conditions, confinement, for a control plane whose workers have addresses that a
      request can be made to ([Addressed]), and the panic without
      ([unaddressable_worker_panics]); [TemplateSpec]: template names.
    - [Worker]: worker.go; [WorkerSpec]: the end of one event in the store, under a
      condition of the state that the rest keeps ([Framed]), and the safety of the loop.
    - [QueueSpec]: what a run of the loop makes of the stored tasks
      ([events_effect]), over a queue that delivers in order and keeps account of what
      was handed out and not acknowledged ([Delivering]) and is fed by the store
      ([Publishing]); [SystemSpec]: API server and controller as a step
      relation; [MemoryQueue], [RedisQueue]: the channel of the in-memory store and the
      stream of the Redis store are such queues.

    Models (internal/model):
    - [ModelConfig]: configurations and options (client.go and the endpoint part of
      provider.go); [Secrets]: the reading of Kubernetes secrets; [ModelClient]:
      generation requests and answers for every protocol, and the retries;
      [ModelSpec], [ClientSpec]: their properties.

    Sandbox (runner, internal/workspace, internal/metadata):
    - [Container]: files, commands, variables and processes as interfaces; the events
      these calls leave, and [emits], the triple over them.
    - [Metadata]: metadata/server.go. [Bootstrap]: model_bootstrap.go and planner.go;
      [Setup]: setup.go; [Runner]: runner.go and the loading of specs in
      cmd/ax-task-runner; [BootstrapSpec], [SetupSpec], [RunnerSpec]: bounds and shape of
      the bootstrap conversation, clones and markers, the order of a run, readiness and
      who reaches the guest services.

    Command line (cmd/ax, internal/tunnel, internal/guest):
    - [Tunnel]: tunnel.go and context.go; [TunnelSpec]: where a server address comes
      from, and that the search ends. [Guest]: guest/client.go. [AxClient]: the
      generated client as an interface. [Cli]: cmd/ax/main.go.
    - [Desk]: the command line against the API server itself, with the rest of the
      system going on while it waits, and a transport that may lose a request or a
      reply ([Line]); [ApplySpec], [DeleteSpec]: ax apply and ax delete on the stored
      resources, the latter over such a transport and with the controller at work;
      [CliSpec], [SshSpec]: global flags, commands in a container, ax ssh.

    Programs (cmd/ax-server, cmd/ax-controller, cmd/ax-task-runner):
    - [Mains]: their flags, their environment, and how they put the parts together;
      [MainsSpec]: the settings ax-server runs with, and its end.

    [MemoryExamples], [RedisExamples], [SandboxExamples], [QueueExamples], [CliExamples]
    and [ProgramExamples] apply every theorem with hypotheses at a concrete input.

    ** How the code is read

    A handler or method is a computation in [M S A := S → go A * S]: it ends with a
    value or a panic, and leaves a state. A method that mutates the message it is
    given returns the message next to its error. Locked sections of the in-memory
    store are one step. Calls that leave the repository are classes with laws
    where a theorem needs them; each class has an instance in the examples. A
    goroutine is the sequence of what the select next to it sees.

    ** From an update to its record

    The theorems about the parts meet in [SystemSpec.system_converges]: calls of users,
    turns of the controller and the rest of the system are steps that come in any order
    (each a single step: a call between the reads and the writes of one turn is not
    covered), every change is accounted for by a pending event, and the turns for the
    pending events leave every task at rest and no event unacknowledged. It takes room
    in the queue, specifications on the tasks and workers with proper addresses; the
    theorems say where. In [QueueSpec.update_settles] an accepted
    update is stored and its event queued, the turns of the controller for the
    queued events and for this one end, and a read of the task returns what was stored
    with a status that is Failed, Suspended or Running as its specification asks.
    [RedisQueue.redis_update_settles] is the same over Redis, from the subscription of
    the controller on, with an idealised codec that loses no message at all, whereas
    protojson refuses strings that are not UTF-8; [DeleteSpec.delete_with_controller] is the counterpart for a
    deletion the command line waits for.

    ** Bounds and fuel

    - [Worker.run_loop], [Worker.Run], [Mains.ax_controller_main]: the number of turns of
      an infinite loop.
    - [RedisStore.Next], [Reconciler.poll], [Guest.exec_stream], [Guest.exec_poll],
      [Cli.watch_stream], [Cli.waitForDeletion]: what ends the loop of the code (what
      the context reports before each read, ticks, answers of the other side) is the
      input that bounds it, or the number of turns after which it is looked at; the
      theorems about them are about the turns until they end.
    - [Tunnel.wait_port] and [Tunnel.wait_healthy] run until a deadline of the clock;
      101 turns are enough for 100 looks at the log and 30 health checks ([TunnelSpec.EnsureServerURL_ends]).
    - [Bootstrap.bootstrap_turns] counts the 24 turns the code counts;
      [Substrate.recreate], [Reconciler.delete_template], [ModelClient.post_attempts] and
      [Setup.retry] the attempts the code counts.
    - [Manifests.readJSONValue] has twice the number of tokens and two as fuel, which is
      enough ([Manifests.jsonToYAMLNode_lossless]). Flags and arguments are parsed by
      structural recursion.

    ** Not modelled

    Generated code (stubs, descriptors, getters); the TLS and gRPC transports, JSON
    and HTTP themselves (classes [Control], [Dialer], [Json], [HttpClient]); the
    rendering of errors and YAML (classes [ErrorText], [Yaml]); the layout of tables by
    text/tabwriter; the registration of signals, whose arrival is the end of a
    context; time limits of contexts beyond being arguments of a call; records that
    expire in Redis (the theorems ask for no TTL); log lines. *)

From Stdlib Require Export Ascii.
From stdpp Require Export base strings numbers pretty option gmap.
From stdpp Require Export list.

Declare Scope go_scope.
Delimit Scope go_scope with go.
Open Scope string_scope.
Open Scope list_scope.

(** ** Outcomes and the state monad

    A Go call ends with a value or with a panic (a nil dereference, a slice
    bound out of range); the store it worked on keeps the effects made so far. *)
Inductive go (A : Type) : Type :=
| Ret (a : A)
| Panic.
Arguments Ret {A} a.
Arguments Panic {A}.

Definition M (S A : Type) : Type := S → go A * S.

Definition ret {S A} (a : A) : M S A := λ s, (Ret a, s).
Definition bind {S A B} (m : M S A) (k : A → M S B) : M S B := λ s,
  match m s with
  | (Ret a, s') => k a s'
  | (Panic, s') => (Panic, s')
  end.
Definition panic {S A} : M S A := λ s, (Panic, s).
Definition get {S} : M S S := λ s, (Ret s, s).
Definition put {S} (s' : S) : M S unit := λ _, (Ret tt, s').
Definition modify {S} (f : S → S) : M S unit := λ s, (Ret tt, f s).
Definition gets {S A} (f : S → A) : M S A := λ s, (Ret (f s), s).

(** A pointer dereference. *)
Definition deref {S A} (p : option A) : M S A :=
  match p with Some a => ret a | None => panic end.

Notation "'let!' x ':=' m 'in' k" := (bind m (λ x, k))
  (at level 10, x pattern, m at level 100, k at level 200,
   format "'[v' 'let!'  x  ':='  m  'in' '/' k ']'") : go_scope.
Notation "m ;;; k" := (bind m (λ _, k))
  (at level 100, right associativity) : go_scope.
Open Scope go_scope.

(** Running a computation for its result or for the state it leaves. *)
Definition result_of {S A} (m : M S A) (s : S) : go A := fst (m s).
Definition state_of {S A} (m : M S A) (s : S) : S := snd (m s).

(** A loop over a slice that carries an accumulator and may stop early with
    [inr]: the body of a Go [for range] with an early return. *)
Fixpoint for_range {S A B R} (body : B → A → M S (B + R)) (acc : B) (l : list A)
    : M S (B + R) :=
  match l with
  | [] => ret (inl acc)
  | x :: l' =>
      let! r := body acc x in
      match r with
      | inl acc' => for_range body acc' l'
      | inr out => ret (inr out)
      end
  end.

(** ** Errors

    Errors keep the format and the arguments they were built from; the rendered
    text is only needed where the code stores it, see [ErrorText]. *)
Inductive code :=
| CodeOK | CodeUnknown | CodeInvalidArgument | CodeNotFound
| CodeAlreadyExists | CodeInternal | CodeOther (n : N).

#[global] Instance code_eq_dec : EqDecision code.
Proof. solve_decision. Defined.

Inductive error :=
| ErrNotFound                                   (* store.ErrNotFound *)
| ErrCtx                                        (* ctx.Err() of a done context *)
| Errorf (fmt : string) (args : list arg)       (* fmt.Errorf, errors.New *)
| ErrStatus (c : code) (fmt : string) (args : list arg) (* status.Error, status.Errorf *)
| ErrJoin (errs : list error)                   (* errors.Join *)
| ErrForeign (tag : N)                          (* an error of a library or of the OS *)
with arg :=
| AStr (s : string)                             (* %s, %q, %v of a string *)
| AInt (z : Z)                                  (* %d *)
| AErr (e : error)                              (* %v of an error: not wrapped *)
| AWrap (e : error).                            (* %w of an error *)

(** The (value, error) pair of a Go function of which exactly one is meaningful. *)
Inductive res (A : Type) : Type :=
| Ok (a : A)
| Err (e : error).
Arguments Ok {A} a.
Arguments Err {A} e.

(** errors.Is(err, target) for a sentinel error without fields. *)
Fixpoint is_sentinel (eq : error → bool) (e : error) : bool :=
  eq e ||
  match e with
  | Errorf _ args => existsb (λ a, match a with AWrap e' => is_sentinel eq e' | _ => false end) args
  | ErrJoin es => existsb (is_sentinel eq) es
  | _ => false
  end.

Definition errors_Is_NotFound : error → bool :=
  is_sentinel (λ e, match e with ErrNotFound => true | _ => false end).

(** errors.Join drops nil errors and is nil when nothing is left. *)
Definition errors_Join (es : list error) : option error :=
  match es with [] => None | _ => Some (ErrJoin es) end.

(** The text err.Error() renders, and the code the gRPC status package reads
    off an error: formatting of foreign errors is outside this repository. *)
Class ErrorText := error_text : error → string.

Class GrpcStatus := {
  status_Code : error → code;
  status_Code_status : ∀ c f a, status_Code (ErrStatus c f a) = c;
}.

(** ** Machine integers *)
Definition int64_min : Z := - 2 ^ 63.
Definition int64_max : Z := 2 ^ 63 - 1.
Definition int64 (z : Z) : Z := (z + 2 ^ 63) mod 2 ^ 64 - 2 ^ 63.

(** ** The clock

    Every time.Now() takes the next reading of an arbitrary sequence. *)
Record clock := mkClock { clock_readings : nat → Z; clock_reads : nat }.
Definition clock_now (c : clock) : Z := clock_readings c (clock_reads c).
Definition clock_tick (c : clock) : clock :=
  mkClock (clock_readings c) (S (clock_reads c)).

(** ** Go map iteration

    The order of a [range] over a map is unspecified: any enumeration of its
    entries may come out. *)
Class MapRange := {
  map_range : ∀ {V : Type}, gmap string V → list (string * V);
  map_range_perm : ∀ {V : Type} (m : gmap string V), map_range m ≡ₚ map_to_list m;
}.

(** * Lemmas and automation *)

Create HintDb go discriminated.

Lemma bind_ret_l {S A B} (a : A) (k : A → M S B) s : bind (ret a) k s = k a s.
Proof. reflexivity. Qed.

Lemma bind_get {S B} (k : S → M S B) s : bind get k s = k s s.
Proof. reflexivity. Qed.
Lemma bind_gets {S A B} (f : S → A) (k : A → M S B) s : bind (gets f) k s = k (f s) s.
Proof. reflexivity. Qed.
Lemma bind_modify {S B} (f : S → S) (k : unit → M S B) s : bind (modify f) k s = k tt (f s).
Proof. reflexivity. Qed.
Lemma bind_put {S B} s' (k : unit → M S B) s : bind (put s') k s = k tt s'.
Proof. reflexivity. Qed.
Lemma bind_deref_Some {S A B} (a : A) (k : A → M S B) s : bind (deref (Some a)) k s = k a s.
Proof. reflexivity. Qed.
Lemma bind_deref_None {S A B} (k : A → M S B) s : bind (deref None) k s = (Panic, s).
Proof. reflexivity. Qed.
Lemma bind_panic {S A B} (k : A → M S B) s : bind panic k s = (Panic, s).
Proof. reflexivity. Qed.

Lemma bind_assoc {S A B C} (m : M S A) (f : A → M S B) (g : B → M S C) s :
  bind (bind m f) g s = bind m (λ a, bind (f a) g) s.
Proof. unfold bind. by destruct (m s) as [[]]. Qed.

Lemma bind_Ret {S A B} (m : M S A) (k : A → M S B) s a s' :
  m s = (Ret a, s') → bind m k s = k a s'.
Proof. unfold bind. by intros ->. Qed.

Lemma bind_Ret_inv {S A B} (m : M S A) (k : A → M S B) s b s' :
  bind m k s = (Ret b, s') → ∃ a s1, m s = (Ret a, s1) ∧ k a s1 = (Ret b, s').
Proof. unfold bind. destruct (m s) as [[a|] s1]; naive_solver. Qed.

Lemma int64_id z : (int64_min ≤ z ≤ int64_max)%Z → int64 z = z.
Proof.
  unfold int64, int64_min, int64_max. intros.
  rewrite Z.mod_small by lia. lia.
Qed.

Lemma int64_range z : (int64_min ≤ int64 z ≤ int64_max)%Z.
Proof.
  unfold int64, int64_min, int64_max.
  pose proof (Z.mod_pos_bound (z + 2 ^ 63) (2 ^ 64)). lia.
Qed.

#[global] Instance canonical_map_range : MapRange | 10.
Proof. exists (λ V m, map_to_list m). done. Defined.

Lemma filter_all {A} (P : A → Prop) `{!∀ x, Decision (P x)} (l : list A) :
  (∀ x, P x) → filter P l = l.
Proof. intros HP. induction l as [|x l IH]; [done|]. by rewrite filter_cons_True, IH. Qed.

(** From a state of [I] the computation returns, in a state of [I] again, with a
    result that satisfies [P]. *)
Definition returns {S A} (I : S → Prop) (m : M S A) (P : A → Prop) : Prop :=
  ∀ s, I s → ∃ a s', m s = (Ret a, s') ∧ I s' ∧ P a.

(** A computation that returns from every state of [I], whatever the result. *)
Abbreviation total I m := (returns I m (λ _, True)).

Section Returns.
Context {S : Type} {I : S → Prop}.

Lemma returns_ret {A} (a : A) (P : A → Prop) : P a → returns I (ret a) P.
Proof. intros HP s Hs. by exists a, s. Qed.
Lemma returns_bind {A B} (m : M S A) (k : A → M S B) P Q :
  returns I m P → (∀ a, P a → returns I (k a) Q) → returns I (bind m k) Q.
Proof.
  intros Hm Hk s Hs. destruct (Hm s Hs) as (a & s1 & Hm1 & Hs1 & HP).
  destruct (Hk a HP s1 Hs1) as (b & s2 & Hk1 & Hs2 & HQ). exists b, s2.
  by rewrite (bind_Ret _ _ _ _ _ Hm1).
Qed.
Lemma returns_weaken {A} (m : M S A) (P Q : A → Prop) :
  returns I m P → (∀ a, P a → Q a) → returns I m Q.
Proof. intros Hm HPQ s Hs. destruct (Hm s Hs) as (a & s1 & ? & ? & ?). exists a, s1. auto. Qed.
Lemma total_then {A B} (m : M S A) (k : A → M S B) Q :
  total I m → (∀ a, returns I (k a) Q) → returns I (bind m k) Q.
Proof. intros Hm Hk. by eapply returns_bind; [exact Hm|]. Qed.
Lemma returns_assoc {A B C} (m : M S A) (f : A → M S B) (g : B → M S C) Q :
  returns I (bind m (λ a, bind (f a) g)) Q → returns I (bind (bind m f) g) Q.
Proof. intros H s Hs. destruct (H s Hs) as (c & s' & ? & ?). exists c, s'. by rewrite bind_assoc. Qed.
Lemma returns_pure {A B} (a : A) (k : A → M S B) Q :
  returns I (k a) Q → returns I (bind (ret a) k) Q.
Proof. done. Qed.
End Returns.
#[export] Hint Resolve returns_ret : go.

(** Symbolic execution: unfold the monad and step through it. *)
Ltac munfold := unfold bind, ret, panic, get, put, modify, gets, deref in *.
Create Rewrite HintDb gorw.
#[export] Hint Rewrite @bind_ret_l @bind_get @bind_gets @bind_modify @bind_put
  @bind_deref_Some @bind_deref_None @bind_panic : gorw.

(** Steps through the commands whose result is known: the primitive ones, and
    those an equation [m s = (Ret a, s')] of the context gives. *)
Ltac mstep :=
  repeat first
    [ progress autorewrite with gorw
    | match goal with
      | H : ?m ?s = (Ret ?a, ?s') |- context [bind ?m ?k ?s] =>
          rewrite (bind_Ret m k s a s' H)
      end ].
(** Case analysis on the scrutinee of a match in the goal. *)
Ltac mcase :=
  match goal with
  | |- context [match ?x with _ => _ end] =>
      lazymatch x with
      | context [match _ with _ => _ end] => fail
      | _ => destruct x eqn:?
      end
  end.
(** One step through a computation whose calls are known to return. *)
Ltac go_step :=
  lazymatch goal with
  | |- returns _ (bind (bind _ _) _) _ => apply returns_assoc
  | |- returns _ (bind (ret _) _) _ => apply returns_pure
  | |- returns _ (bind (match ?x with _ => _ end) _) _ => destruct x eqn:?
  | |- returns _ (match ?x with _ => _ end) _ => destruct x eqn:?
  | |- returns _ (let _ := _ in _) _ => cbv zeta
  | |- returns _ (ret _) _ => apply returns_ret
  | |- returns _ (bind _ _) _ => eapply total_then; [solve [eauto with go]|intros ?]
  end.
Ltac minv :=
  repeat match goal with
  | H : bind _ _ _ = (Ret _, _) |- _ =>
      let a := fresh "a" in let s := fresh "s" in
      let H1 := fresh "Hm" in
      destruct (bind_Ret_inv _ _ _ _ _ H) as (a & s & H1 & ?); clear H
  | H : ret _ _ = (Ret _, _) |- _ => unfold ret in H; simplify_eq
  end.
