(* ===== verification/GoStrings.v ===== *)
(** Byte strings as the Go standard library handles them: the functions of the
    packages strings, net (SplitHostPort) and fmt (%d, %x) the program uses, on
    Rocq strings read as byte sequences, with the lemmas the components share. *)

From S2P Require Import Prelude.

(** ** Basic byte-string functions *)

Fixpoint string_in (c : ascii) (s : string) : bool :=
  match s with
  | EmptyString => false
  | String d s' => Ascii.eqb c d || string_in c s'
  end.

(** The rest of [s] after the prefix [p]. *)
Fixpoint strip_prefix (p s : string) : option string :=
  match p, s with
  | EmptyString, _ => Some s
  | String a p', String b s' => if Ascii.eqb a b then strip_prefix p' s' else None
  | String _ _, EmptyString => None
  end.

Fixpoint srev_app (s acc : string) : string :=
  match s with
  | EmptyString => acc
  | String c s' => srev_app s' (String c acc)
  end.
Definition srev (s : string) : string := srev_app s "".

Fixpoint smap (f : ascii → ascii) (s : string) : string :=
  match s with
  | EmptyString => ""
  | String c s' => String (f c) (smap f s')
  end.

Fixpoint sall (p : ascii → bool) (s : string) : bool :=
  match s with
  | EmptyString => true
  | String c s' => p c && sall p s'
  end.

Definition HasPrefix (s p : string) : bool :=
  match strip_prefix p s with Some _ => true | None => false end.
Definition TrimPrefix (s p : string) : string :=
  match strip_prefix p s with Some r => r | None => s end.
Definition HasSuffix (s p : string) : bool := HasPrefix (srev s) (srev p).
Definition TrimSuffix (s p : string) : string :=
  match strip_prefix (srev p) (srev s) with Some r => srev r | None => s end.

(** strings.Contains *)
Fixpoint Contains (s sub : string) : bool :=
  HasPrefix s sub ||
  match s with
  | EmptyString => false
  | String _ s' => Contains s' sub
  end.

(** strings.TrimLeft / TrimRight / Trim with a one-byte cutset. *)
Fixpoint TrimLeftByte (c : ascii) (s : string) : string :=
  match s with
  | EmptyString => ""
  | String d s' => if Ascii.eqb c d then TrimLeftByte c s' else s
  end.
Fixpoint TrimRightByte (c : ascii) (s : string) : string :=
  match s with
  | EmptyString => ""
  | String d s' =>
      match TrimRightByte c s' with
      | EmptyString => if Ascii.eqb c d then "" else String d ""
      | t => String d t
      end
  end.
Definition TrimByte (c : ascii) (s : string) : string :=
  TrimRightByte c (TrimLeftByte c s).

(** strings.ReplaceAll of one byte by another. *)
Definition ReplaceByte (from to : ascii) (s : string) : string :=
  smap (λ c, if Ascii.eqb c from then to else c) s.

(** strings.Cut / strings.SplitN(s, sep, 2) with a one-byte separator. *)
Fixpoint cut (c : ascii) (s : string) : option (string * string) :=
  match s with
  | EmptyString => None
  | String d s' =>
      if Ascii.eqb c d then Some ("", s')
      else match cut c s' with
           | Some (a, b) => Some (String d a, b)
           | None => None
           end
  end.
Definition SplitN2 (c : ascii) (s : string) : list string :=
  match cut c s with Some (a, b) => [a; b] | None => [s] end.

(** The bytes before and after the last occurrence of one of the bytes of a set
    (strings.LastIndexAny, strings.LastIndexByte). *)
Fixpoint rcut (p : ascii → bool) (s : string) : option (string * string) :=
  match s with
  | EmptyString => None
  | String d s' =>
      match rcut p s' with
      | Some (a, b) => Some (String d a, b)
      | None => if p d then Some ("", s') else None
      end
  end.

(** strings.Join *)
Fixpoint Join (sep : string) (l : list string) : string :=
  match l with
  | [] => ""
  | [x] => x
  | x :: l' => x +:+ sep +:+ Join sep l'
  end.

(** ** Unicode-aware functions *)

Definition byte (n : nat) : ascii := ascii_of_nat n.
Definition bytes (l : list nat) : string := String.string_of_list_ascii (byte <$> l).

Definition is_ascii (s : string) : bool := sall (λ c, Nat.ltb (nat_of_ascii c) 128) s.

(** The UTF-8 encodings of the runes unicode.IsSpace accepts. *)
Definition space_runes : list string :=
  (λ n, bytes [n]) <$> [9; 10; 11; 12; 13; 32].
Definition wide_space_runes : list string :=
  [bytes [194; 133]; bytes [194; 160]; bytes [225; 154; 128]]
  ++ ((λ n, bytes [226; 128; n]) <$> seq 128 11)
  ++ [bytes [226; 128; 168]; bytes [226; 128; 169]; bytes [226; 128; 175];
      bytes [226; 129; 159]; bytes [227; 128; 128]].

Fixpoint strip_one (ps : list string) (s : string) : option string :=
  match ps with
  | [] => None
  | p :: ps' => match strip_prefix p s with Some r => Some r | None => strip_one ps' s end
  end.
(** Each step removes at least one byte, so the length of the string is enough. *)
Fixpoint strip_many (ps : list string) (n : nat) (s : string) : string :=
  match n with
  | O => s
  | S n' => match strip_one ps s with Some r => strip_many ps n' r | None => s end
  end.
Definition TrimSpace (s : string) : string :=
  let ps := space_runes ++ wide_space_runes in
  let t := strip_many ps (String.length s) s in
  srev (strip_many (srev <$> ps) (String.length t) (srev t)).

Definition lower_byte (c : ascii) : ascii :=
  let n := nat_of_ascii c in
  if Nat.leb 65 n && Nat.leb n 90 then ascii_of_nat (n + 32) else c.

(** The case mapping of strings that hold a byte outside ASCII needs the Unicode
    tables; strings.ToLower maps ASCII strings byte by byte. *)
Class UnicodeTables := unicode_lower : string → string.
Definition ToLower `{UnicodeTables} (s : string) : string :=
  if is_ascii s then smap lower_byte s else unicode_lower s.

(** ** Runes

    How many bytes the rune at the start of a string takes (unicode/utf8): one for
    a byte that does not start a valid encoding. *)
Definition byte_in (lo hi : nat) (s : string) : bool :=
  match s with
  | EmptyString => false
  | String c _ => let n := nat_of_ascii c in Nat.leb lo n && Nat.leb n hi
  end.
Definition stail (s : string) : string := match s with EmptyString => "" | String _ s' => s' end.
Definition cont (s : string) : bool := byte_in 128 191 s.

Definition rune_size (s : string) : nat :=
  let s1 := stail s in let s2 := stail s1 in let s3 := stail s2 in
  if byte_in 194 223 s then (if cont s1 then 2 else 1)
  else if byte_in 224 239 s then
    let second := if byte_in 224 224 s then byte_in 160 191 s1
                  else if byte_in 237 237 s then byte_in 128 159 s1 else cont s1 in
    if second && cont s2 then 3 else 1
  else if byte_in 240 244 s then
    let second := if byte_in 240 240 s then byte_in 144 191 s1
                  else if byte_in 244 244 s then byte_in 128 143 s1 else cont s1 in
    if second && cont s2 && cont s3 then 4 else 1
  else 1.

(** The first byte of every rune of a string, as [for range] visits them. *)
Fixpoint rune_starts (skip : nat) (s : string) : list ascii :=
  match s with
  | EmptyString => []
  | String c s' =>
      match skip with
      | S k => rune_starts k s'
      | O => c :: rune_starts (Nat.pred (rune_size s)) s'
      end
  end.
(** utf8.RuneCountInString, and the verb %-ns, which pads to n runes. *)
Definition RuneCount (s : string) : nat := length (rune_starts 0 s).
Definition pad_right (n : nat) (s : string) : string :=
  s +:+ String.string_of_list_ascii (repeat " "%char (n - RuneCount s)).

(** ** Numbers *)

(** fmt's %d. *)
Definition dec (z : Z) : string := pretty z.

Definition hex_digit (n : N) : ascii :=
  if (n <? 10)%N then ascii_of_N (48 + n) else ascii_of_N (87 + n).
(** fmt's %x of a byte slice, each byte given as a number below 256. *)
Fixpoint hex (l : list N) : string :=
  match l with
  | [] => ""
  | b :: l' => String (hex_digit (b / 16)) (String (hex_digit (b mod 16)) (hex l'))
  end.
Definition is_hex_lower (c : ascii) : bool :=
  let n := N_of_ascii c in
  ((48 <=? n) && (n <=? 57) || (97 <=? n) && (n <=? 102))%N.

(** ** net.SplitHostPort: the host and the port, or [None] for its errors. *)
Definition SplitHostPort (hostport : string) : option (string * string) :=
  let colon := ":"%char in let lb := "["%char in let rb := "]"%char in
  match rcut (Ascii.eqb colon) hostport with
  | None => None                                     (* missing port *)
  | Some (before, port) =>
      match hostport with
      | String c inner =>
          if Ascii.eqb c lb then
            (* the first ']' must stand just before the last ':' *)
            match cut rb inner with
            | None => None
            | Some (host, after) =>
                match after with
                | String d port' =>
                    if Ascii.eqb d colon then
                      if string_in colon port' then None
                      else if string_in lb inner then None
                      else if string_in rb after then None
                      else Some (host, port')
                    else None
                | EmptyString => None
                end
            end
          else if string_in colon before then None
          else if string_in lb hostport then None
          else if string_in rb hostport then None
          else Some (before, port)
      | EmptyString => None
      end
  end.

(** strconv.Atoi on a 64-bit platform: an optional sign and decimal digits, within
    the range of int. *)
Fixpoint digits_value (s : string) (acc : Z) : option Z :=
  match s with
  | EmptyString => Some acc
  | String c s' =>
      let n := Z.of_N (N_of_ascii c) in
      if ((48 <=? n) && (n <=? 57))%Z then digits_value s' (10 * acc + (n - 48))%Z else None
  end.
Definition unsigned_value (s : string) : option Z :=
  match s with EmptyString => None | _ => digits_value s 0 end.
Definition Atoi (s : string) : option Z :=
  let v := match s with
           | String "-" s' => Z.opp <$> unsigned_value s'
           | String "+" s' => unsigned_value s'
           | _ => unsigned_value s
           end in
  match v with
  | Some z => if decide (int64_min ≤ z ≤ int64_max)%Z then Some z else None
  | None => None
  end.

(** strings.ContainsAny *)
Definition ContainsAny (s chars : string) : bool := negb (sall (λ c, negb (string_in c chars)) s).

(** The canonical form of a header name (net/textproto): letters are upper case
    at the start and after a hyphen and lower case elsewhere; a name with a byte
    that is not allowed in one stays as it is. *)
Definition is_token_byte (c : ascii) : bool :=
  let n := nat_of_ascii c in
  (Nat.leb 48 n && Nat.leb n 57) || (Nat.leb 65 n && Nat.leb n 90) || (Nat.leb 97 n && Nat.leb n 122)
  || string_in c "!#$%&'*+-.^_`|~".
Definition upper_byte (c : ascii) : ascii :=
  let n := nat_of_ascii c in
  if Nat.leb 97 n && Nat.leb n 122 then ascii_of_nat (n - 32) else c.
Fixpoint canonical_from (upper : bool) (s : string) : string :=
  match s with
  | EmptyString => ""
  | String c s' =>
      String (if upper then upper_byte c else lower_byte c) (canonical_from (Ascii.eqb c "-") s')
  end.
Definition CanonicalHeaderKey (s : string) : string :=
  if sall is_token_byte s then canonical_from true s else s.

(** * Lemmas *)

Lemma string_in_app c a b : string_in c (a +:+ b) = string_in c a || string_in c b.
Proof. induction a as [|d a IH]; simpl; [done|]. rewrite IH. by destruct (Ascii.eqb c d). Qed.

Lemma strip_prefix_Some p s r : strip_prefix p s = Some r ↔ s = p +:+ r.
Proof.
  revert s. induction p as [|a p IH]; intros s; simpl.
  - split; [by intros [= ->]|by intros ->].
  - destruct s as [|b s]; [done|].
    destruct (Ascii.eqb_spec a b) as [->|Hne]; [rewrite IH|].
    + split; [by intros ->|by intros [= ->]].
    + split; [done|]. by intros [= <- _].
Qed.

Lemma strip_prefix_app p r : strip_prefix p (p +:+ r) = Some r.
Proof. by apply strip_prefix_Some. Qed.

Lemma HasPrefix_spec s p : HasPrefix s p = true ↔ ∃ r, s = p +:+ r.
Proof.
  unfold HasPrefix. destruct (strip_prefix p s) as [r|] eqn:E.
  - apply strip_prefix_Some in E. split; eauto.
  - split; [done|]. intros [r Hr]. apply strip_prefix_Some in Hr. congruence.
Qed.

Lemma cut_app c a b : string_in c a = false → cut c (a +:+ String c b) = Some (a, b).
Proof.
  induction a as [|d a IH]; simpl; intros H.
  - by rewrite Ascii.eqb_refl.
  - apply orb_false_iff in H as [-> H]. by rewrite IH.
Qed.

Lemma cut_Some c s a b : cut c s = Some (a, b) ↔ s = a +:+ String c b ∧ string_in c a = false.
Proof.
  split; [|intros [-> ?]; by apply cut_app].
  revert a. induction s as [|d s IH]; intros a; simpl; [done|].
  destruct (Ascii.eqb_spec c d) as [->|Hne]; [by intros; simplify_eq|].
  destruct (cut c s) as [[a' b']|]; [|done]. intros ?; simplify_eq/=.
  destruct (IH a' eq_refl) as [-> ->]. by destruct (Ascii.eqb_spec c d).
Qed.

Lemma cut_None c s : cut c s = None ↔ string_in c s = false.
Proof.
  induction s as [|d s IH]; simpl; [done|].
  destruct (Ascii.eqb c d); simpl; [done|]. rewrite <- IH.
  by destruct (cut c s) as [[]|].
Qed.

Lemma sapp_assoc (a b c : string) : (a +:+ b) +:+ c = a +:+ b +:+ c.
Proof. induction a as [|x a IH]; [done|]. exact (f_equal (String x) IH). Qed.

Lemma string_app_inj_l (a b c : string) : a +:+ b = a +:+ c → b = c.
Proof. induction a; simpl; [done|]. intros H. by injection H as H%IHa. Qed.

(** Splitting at a byte that the first part does not hold is unambiguous. *)
Lemma string_length_app (a b : string) : String.length (a +:+ b) = (String.length a + String.length b)%nat.
Proof. induction a as [|c a IH]; [done|]. change (S (String.length (a +:+ b)) = S (String.length a + String.length b)). by rewrite IH. Qed.
Lemma string_app_inj_r (a b c : string) : a +:+ c = b +:+ c → a = b.
Proof.
  revert b. induction a as [|x a IH]; intros [|y b] H; [done|..].
  - apply (f_equal String.length) in H. rewrite !string_length_app in H. cbn in H. lia.
  - apply (f_equal String.length) in H. rewrite !string_length_app in H. cbn in H. lia.
  - injection H as -> H. by rewrite (IH b).
Qed.

Lemma app_sep_inj c a a' b b' :
  string_in c a = false → string_in c a' = false →
  a +:+ String c b = a' +:+ String c b' → a = a' ∧ b = b'.
Proof.
  intros Ha Ha' H.
  pose proof (cut_app c a b Ha) as E. pose proof (cut_app c a' b' Ha') as E'.
  rewrite H, E' in E. by injection E as <- <-.
Qed.

(** Go's order of strings is transitive; the Standard Library has the rest. *)
Lemma string_leb_trans s1 s2 s3 :
  String.leb s1 s2 = true → String.leb s2 s3 = true → String.leb s1 s3 = true.
Proof.
  unfold String.leb. revert s2 s3.
  induction s1 as [|a s1 IH]; intros [|b s2] [|c s3]; cbn; try done.
  unfold Ascii.compare.
  destruct (N.compare_spec (Ascii.N_of_ascii a) (Ascii.N_of_ascii b)) as [E1|E1|E1]; try done;
  destruct (N.compare_spec (Ascii.N_of_ascii b) (Ascii.N_of_ascii c)) as [E2|E2|E2]; try done;
  destruct (N.compare_spec (Ascii.N_of_ascii a) (Ascii.N_of_ascii c)); try done; try lia.
  apply IH.
Qed.

Lemma sapp_nil_r (a : string) : a +:+ "" = a.
Proof. induction a as [|c a IH]; [done|]. change (String c (a +:+ "") = String c a). by rewrite IH. Qed.

(** ** Order: sort.Strings sorts by bytes. *)
Definition string_le (a b : string) : Prop := String.leb a b = true.
#[export] Instance string_le_dec : RelDecision string_le.
Proof. intros a b. unfold string_le. apply _. Defined.
#[export] Instance string_le_trans : Transitive string_le.
Proof. intros a b c. apply string_leb_trans. Qed.
#[export] Instance string_le_total : Total string_le.
Proof. intros a b. unfold string_le. apply String.leb_total. Qed.
#[export] Instance string_le_antisymm : AntiSymm (=) string_le.
Proof. intros a b. apply String.leb_antisym. Qed.
