(* ===== verification/Base64.v ===== *)
(** encoding/base64: the standard encoding with padding. [EncodeToString] is the
    reference, [DecodeString] what the code calls; the second takes back the
    first, wherever line breaks were inserted. *)

From Stdlib Require Import ZifyN.
From S2P Require Import Prelude GoStrings.

Section Base64.
#[local] Ltac Zify.zify_post_hook ::= Z.to_euclidean_division_equations.
Local Open Scope N_scope.

(** The digits of the alphabet. *)
Definition digit_char (n : N) : ascii :=
  ascii_of_N (if n <? 26 then n + 65
              else if n <? 52 then n + 71
              else if n <? 62 then n - 4
              else if n =? 62 then 43 else 47).
Definition char_digit (c : ascii) : option N :=
  let n := N_of_ascii c in
  if (65 <=? n) && (n <=? 90) then Some (n - 65)
  else if (97 <=? n) && (n <=? 122) then Some (n - 71)
  else if (48 <=? n) && (n <=? 57) then Some (n + 4)
  else if n =? 43 then Some 62
  else if n =? 47 then Some 63
  else None.

Definition pad_char : ascii := "=".
Definition line_break (c : ascii) : bool := Ascii.eqb c (byte 10) || Ascii.eqb c (byte 13).

Fixpoint EncodeToString (s : string) : string :=
  match s with
  | String a (String b (String c rest)) =>
      let '(x, y, z) := (N_of_ascii a, N_of_ascii b, N_of_ascii c) in
      String (digit_char (x / 4)) (String (digit_char (x mod 4 * 16 + y / 16))
        (String (digit_char (y mod 16 * 4 + z / 64)) (String (digit_char (z mod 64)) (EncodeToString rest))))
  | String a (String b EmptyString) =>
      let '(x, y) := (N_of_ascii a, N_of_ascii b) in
      String (digit_char (x / 4)) (String (digit_char (x mod 4 * 16 + y / 16))
        (String (digit_char (y mod 16 * 4)) (String pad_char "")))
  | String a EmptyString =>
      let x := N_of_ascii a in
      String (digit_char (x / 4)) (String (digit_char (x mod 4 * 16)) (String pad_char (String pad_char "")))
  | EmptyString => ""
  end.

(** The bytes of a group of 24 bits. *)
Definition group (w x y z : N) : N := w * 262144 + x * 4096 + y * 64 + z.
Definition group_byte (k g : N) : ascii := ascii_of_N (g / 2 ^ (16 - 8 * k) mod 256).

(** Groups of four digits; padding only in the last one, and nothing after it. *)
Fixpoint decode_groups (s : string) : option string :=
  match s with
  | EmptyString => Some ""
  | String a (String b (String c (String d rest))) =>
      match char_digit a, char_digit b with
      | Some w, Some x =>
          match char_digit c with
          | Some y =>
              match char_digit d with
              | Some z =>
                  let g := group w x y z in
                  match decode_groups rest with
                  | Some t => Some (String (group_byte 0 g) (String (group_byte 1 g) (String (group_byte 2 g) t)))
                  | None => None
                  end
              | None =>
                  let g := group w x y 0 in
                  if Ascii.eqb d pad_char && bool_decide (rest = "")
                  then Some (String (group_byte 0 g) (String (group_byte 1 g) "")) else None
              end
          | None =>
              if Ascii.eqb c pad_char && Ascii.eqb d pad_char && bool_decide (rest = "")
              then Some (String (group_byte 0 (group w x 0 0)) "") else None
          end
      | _, _ => None
      end
  | _ => None
  end.

Fixpoint strip_breaks (s : string) : string :=
  match s with
  | EmptyString => ""
  | String c s => if line_break c then strip_breaks s else String c (strip_breaks s)
  end.

Definition DecodeString (s : string) : option string := decode_groups (strip_breaks s).

(** ** The round trip *)

(** Every digit, by enumeration. *)
Definition digits_ok : bool :=
  forallb (λ n, bool_decide (char_digit (digit_char n) = Some n) && negb (line_break (digit_char n)))
    (N.of_nat <$> seq 0 64).
Lemma digit_char_ok n : n < 64 → char_digit (digit_char n) = Some n ∧ line_break (digit_char n) = false.
Proof.
  intros Hn. assert (digits_ok = true) as Hall by (vm_compute; reflexivity).
  unfold digits_ok in Hall. rewrite forallb_forall in Hall.
  assert (In n (N.of_nat <$> seq 0 64)) as Hin.
  { apply list_elem_of_In, list_elem_of_fmap. exists (N.to_nat n).
    split; [lia|]. apply elem_of_seq. lia. }
  specialize (Hall n Hin). apply andb_true_iff in Hall as [H1 H2].
  apply bool_decide_eq_true in H1. by apply negb_true_iff in H2.
Qed.

Lemma digit_value n : n < 64 → char_digit (digit_char n) = Some n.
Proof. apply digit_char_ok. Qed.

Lemma byte_range a : N_of_ascii a < 256.
Proof. apply N_ascii_bounded. Qed.

Lemma group_byte_is k g a : g / 2 ^ (16 - 8 * k) mod 256 = N_of_ascii a → group_byte k g = a.
Proof. unfold group_byte. intros ->. apply ascii_N_embedding. Qed.

(** The three bytes of a group, and those of a shorter last one. *)
Lemma group_bytes x y z : x < 256 → y < 256 → z < 256 →
  group (x / 4) (x mod 4 * 16 + y / 16) (y mod 16 * 4 + z / 64) (z mod 64) = x * 65536 + y * 256 + z.
Proof. unfold group. intros. lia. Qed.

Lemma bytes_of x y z : x < 256 → y < 256 → z < 256 →
  let g := x * 65536 + y * 256 + z in
  g / 2 ^ (16 - 8 * 0) mod 256 = x ∧ g / 2 ^ (16 - 8 * 1) mod 256 = y ∧ g / 2 ^ (16 - 8 * 2) mod 256 = z.
Proof.
  intros Hx Hy Hz g. subst g. change (2 ^ (16 - 8 * 0)) with 65536. change (2 ^ (16 - 8 * 1)) with 256.
  change (2 ^ (16 - 8 * 2)) with 1. lia.
Qed.

Lemma strip_digit n s : n < 64 →
  strip_breaks (String (digit_char n) s) = String (digit_char n) (strip_breaks s).
Proof. intros Hn. cbn. by rewrite (proj2 (digit_char_ok n Hn)). Qed.

(** Three bytes at a time. *)
Lemma string_ind3 (P : string → Prop) :
  P "" → (∀ a, P (String a "")) → (∀ a b, P (String a (String b ""))) →
  (∀ a b c s, P s → P (String a (String b (String c s)))) → ∀ s, P s.
Proof.
  intros H0 H1 H2 H3. fix IH 1. intros [|a [|b [|c s]]]; [exact H0|apply H1|apply H2|].
  apply H3, IH.
Qed.

Lemma strip_EncodeToString s : strip_breaks (EncodeToString s) = EncodeToString s.
Proof.
  induction s as [|a|a b|a b c s IH] using string_ind3; [done|..]; cbn [EncodeToString];
    pose proof (byte_range a); try pose proof (byte_range b); try pose proof (byte_range c);
    rewrite !strip_digit by lia; [done..|]. by rewrite IH.
Qed.

(** What was encoded is decoded, wherever line breaks were inserted. *)
Lemma DecodeString_EncodeToString s t : strip_breaks t = EncodeToString s → DecodeString t = Some s.
Proof.
  unfold DecodeString. intros ->. clear t.
  induction s as [|a|a b|a b c s IH] using string_ind3; [done|..]; cbn [EncodeToString decode_groups];
    pose proof (byte_range a) as Ha; try pose proof (byte_range b) as Hb; try pose proof (byte_range c) as Hc.
  - rewrite !digit_value by lia. cbn. do 2 f_equal.
    apply group_byte_is. replace (group _ _ _ _) with (N_of_ascii a * 65536 + 0 * 256 + 0) by (unfold group; lia).
    by apply bytes_of.
  - rewrite !digit_value by lia. cbn. do 2 f_equal; [|f_equal].
    all: apply group_byte_is.
    all: replace (group _ _ _ _) with (N_of_ascii a * 65536 + N_of_ascii b * 256 + 0) by (unfold group; lia).
    all: by apply bytes_of.
  - rewrite !digit_value by lia. cbv beta iota zeta. rewrite IH, group_bytes by done.
    destruct (bytes_of _ _ _ Ha Hb Hc) as (H1 & H2 & H3).
    by rewrite (group_byte_is _ _ _ H1), (group_byte_is _ _ _ H2), (group_byte_is _ _ _ H3).
Qed.

Example encode_man : EncodeToString "Man" = "TWFu" ∧ EncodeToString "light w" = "bGlnaHQgdw==".
Proof. split; reflexivity. Qed.
Example decode_strict : DecodeString "bGlnaHQgdw=" = None ∧ DecodeString "TWFu=" = None
  ∧ DecodeString "bGlnaHQgdw==x" = None.
Proof. repeat split. Qed.

End Base64.
