(* ===== verification/Types.v ===== *)
(** The API types (pkg/apis/v1alpha1): the resource messages with the structure
    of ax.pb.go, the workspace bindings of a task and their validation
    (types.go), and the rewriting of legacy manifest shapes.

    A pointer field is an [option]; a repeated message field is a list of
    messages, except spec.workspaces, whose nil entries the code handles. *)

From S2P Require Import Prelude GoStrings.

(** ** Generic values

    Go's [any] as encoding/json, yaml.v3 and structpb produce it. *)
Inductive any :=
| ANil
| ABool (b : bool)
| AInteger (z : Z)
| AFloat (text : string)
| AString (s : string)
| ASlice (l : list any)
| AMap (m : gmap string any).

(** ** Messages *)

Record ObjectMeta := mkObjectMeta {
  om_name : string;
  om_atespace : string;
  om_creation : option Z;
}.

Record EnvVar := mkEnvVar { env_name : string; env_value : string }.
Record ResourceList := mkResourceList { rl_cpu : string; rl_memory : string }.
Record ResourceReqs := mkResourceReqs {
  rr_requests : option ResourceList;
  rr_limits : option ResourceList;
}.
Record WorkspaceRef := mkWorkspaceRef {
  wr_name : string;
  wr_path : string;
  wr_goal : string;
}.
Record GatewayRef := mkGatewayRef { gr_name : string }.

Record TaskSpec := mkTaskSpec {
  ts_suspend : bool;
  ts_image : string;
  ts_command : list string;
  ts_env : list EnvVar;
  ts_resources : option ResourceReqs;
  ts_workspaces : list (option WorkspaceRef);
  ts_gateway : option GatewayRef;
  ts_debug : bool;
}.

Record PendingApproval := mkPendingApproval {
  pa_id : string;
  pa_action : string;
  pa_requested_at : option Z;
}.
Record UsageStats := mkUsageStats { us_prompt_tokens : Z; us_completion_tokens : Z }.
Record Condition := mkCondition {
  cond_type : string;
  cond_status : string;
  cond_last_transition : option Z;
  cond_reason : string;
  cond_message : string;
}.

Record TaskStatus := mkTaskStatus {
  st_phase : string;
  st_id : string;
  st_actor : string;
  st_worker_ip : string;
  st_pending_approval : option PendingApproval;
  st_usage : option UsageStats;
  st_conditions : list Condition;
}.

Record Task := mkTask {
  task_api_version : string;
  task_kind : string;
  task_metadata : option ObjectMeta;
  task_spec : option TaskSpec;
  task_status : option TaskStatus;
}.

Record Listener := mkListener { li_name : string; li_port : Z; li_protocol : string }.
Record HostRule := mkHostRule { hr_host : string; hr_port : Z }.
Record EgressAllowlist := mkEgressAllowlist { ea_hosts : list HostRule }.
Record EgressConfig := mkEgressConfig { ec_allowlist : option EgressAllowlist }.
Record GatewaySpec := mkGatewaySpec {
  gs_listeners : list Listener;
  gs_egress : option EgressConfig;
}.
Record Gateway := mkGateway {
  gw_api_version : string;
  gw_kind : string;
  gw_metadata : option ObjectMeta;
  gw_spec : option GatewaySpec;
}.

Record GitRepo := mkGitRepo {
  git_name : string;
  git_repo : string;
  git_branch : string;
  git_dir : string;
  git_depth : Z;
}.
Record MCPServer := mkMCPServer {
  mcp_name : string;
  mcp_endpoint : string;
  mcp_command : string;
  mcp_args : list string;
}.
Record MCPRegistry := mkMCPRegistry {
  mr_provider : string;
  mr_project : string;
  mr_query : string;
  mr_servers : list MCPServer;
}.
Record MCPConfig := mkMCPConfig {
  mc_registries : list MCPRegistry;
  mc_servers : list MCPServer;
}.
Record SkillRegistry := mkSkillRegistry {
  sr_provider : string;
  sr_project : string;
  sr_query : string;
}.
Record SkillsConfig := mkSkillsConfig {
  sc_registries : list SkillRegistry;
  sc_path : string;
}.
Record WorkspaceSpec := mkWorkspaceSpec {
  wss_git : list (option GitRepo);
  wss_mcp : option MCPConfig;
  wss_skills : option SkillsConfig;
}.
Record Workspace := mkWorkspace {
  ws_api_version : string;
  ws_kind : string;
  ws_metadata : option ObjectMeta;
  ws_spec : option WorkspaceSpec;
}.

Record SecretKeyRef := mkSecretKeyRef { sk_name : string; sk_key : string }.
Record ModelSpec := mkModelSpec {
  ms_provider : string;
  ms_model : string;
  ms_secret_key : option SecretKeyRef;
  ms_parameters : option (gmap string any);
  ms_protocol : string;
  ms_base_url : string;
  ms_headers : gmap string string;
  ms_api_key_header : string;
  ms_api_key_prefix : string;
}.
Record Model := mkModel {
  model_api_version : string;
  model_kind : string;
  model_metadata : option ObjectMeta;
  model_spec : option ModelSpec;
}.

(** ** Zero values and field updates *)

Definition zero_ObjectMeta : ObjectMeta := mkObjectMeta "" "" None.
Definition zero_TaskSpec : TaskSpec := mkTaskSpec false "" [] [] None [] None false.
Definition zero_TaskStatus : TaskStatus := mkTaskStatus "" "" "" "" None None [].

Definition om_set_atespace (a : string) (m : ObjectMeta) : ObjectMeta :=
  mkObjectMeta (om_name m) a (om_creation m).
Definition om_set_creation (c : option Z) (m : ObjectMeta) : ObjectMeta :=
  mkObjectMeta (om_name m) (om_atespace m) c.

Definition ts_set_suspend (b : bool) (s : TaskSpec) : TaskSpec :=
  mkTaskSpec b (ts_image s) (ts_command s) (ts_env s) (ts_resources s)
    (ts_workspaces s) (ts_gateway s) (ts_debug s).
Definition ts_set_image (i : string) (s : TaskSpec) : TaskSpec :=
  mkTaskSpec (ts_suspend s) i (ts_command s) (ts_env s) (ts_resources s)
    (ts_workspaces s) (ts_gateway s) (ts_debug s).

Definition st_set_phase (p : string) (s : TaskStatus) : TaskStatus :=
  mkTaskStatus p (st_id s) (st_actor s) (st_worker_ip s) (st_pending_approval s)
    (st_usage s) (st_conditions s).
Definition st_set_id (i : string) (s : TaskStatus) : TaskStatus :=
  mkTaskStatus (st_phase s) i (st_actor s) (st_worker_ip s) (st_pending_approval s)
    (st_usage s) (st_conditions s).
Definition st_set_actor (a : string) (s : TaskStatus) : TaskStatus :=
  mkTaskStatus (st_phase s) (st_id s) a (st_worker_ip s) (st_pending_approval s)
    (st_usage s) (st_conditions s).
Definition st_set_worker_ip (w : string) (s : TaskStatus) : TaskStatus :=
  mkTaskStatus (st_phase s) (st_id s) (st_actor s) w (st_pending_approval s)
    (st_usage s) (st_conditions s).
Definition st_set_conditions (c : list Condition) (s : TaskStatus) : TaskStatus :=
  mkTaskStatus (st_phase s) (st_id s) (st_actor s) (st_worker_ip s)
    (st_pending_approval s) (st_usage s) c.

Definition task_set_metadata (m : option ObjectMeta) (t : Task) : Task :=
  mkTask (task_api_version t) (task_kind t) m (task_spec t) (task_status t).
Definition task_set_spec (s : option TaskSpec) (t : Task) : Task :=
  mkTask (task_api_version t) (task_kind t) (task_metadata t) s (task_status t).
Definition task_set_status (s : option TaskStatus) (t : Task) : Task :=
  mkTask (task_api_version t) (task_kind t) (task_metadata t) (task_spec t) s.
Definition gw_set_metadata (m : option ObjectMeta) (g : Gateway) : Gateway :=
  mkGateway (gw_api_version g) (gw_kind g) m (gw_spec g).
Definition ws_set_metadata (m : option ObjectMeta) (w : Workspace) : Workspace :=
  mkWorkspace (ws_api_version w) (ws_kind w) m (ws_spec w).
Definition model_set_metadata (m : option ObjectMeta) (x : Model) : Model :=
  mkModel (model_api_version x) (model_kind x) m (model_spec x).

(** ** Constants *)

Definition APIVersion : string := "ax.io/v1alpha1".
Definition KindTask : string := "Task".
Definition KindGateway : string := "Gateway".
Definition KindWorkspace : string := "Workspace".
Definition KindModel : string := "Model".
Definition DefaultTaskImage : string := "gcr.io/ax-substrate/ate-images/ax-task-runner".
Definition PhaseTerminating : string := "Terminating".
Definition DefaultWorkspacePath : string := "/workspace".
