(* ===== verification/Codecs.v ===== *)
(** Decidable equality and countability of the generic values and of the messages,
    and with them a codec for every message that loses nothing. *)

From Stdlib Require Import DecimalString DecimalPos.
From stdpp Require Import countable.
From S2P Require Import Prelude GoStrings Types.

(** ** Generic values

    Induction over values nested in lists and maps, by their size. *)
Fixpoint any_size (a : any) : nat :=
  match a with
  | ASlice l => S (sum_list_with any_size l)
  | AMap m => S (map_fold (λ _ v n, any_size v + n)%nat 0%nat m)
  | _ => 0%nat
  end.

Lemma size_in_list l a : a ∈ l → (any_size a < any_size (ASlice l))%nat.
Proof. intros Ha. apply (sum_list_with_in a any_size) in Ha. cbn. lia. Qed.

Lemma size_in_map m k a : m !! k = Some a → (any_size a < any_size (AMap m))%nat.
Proof.
  intros Ha. cbn. enough (any_size a ≤ map_fold (λ _ v n, any_size v + n)%nat 0%nat m)%nat by lia.
  revert Ha. apply (map_fold_weak_ind (λ r m, m !! k = Some a → (any_size a ≤ r)%nat)); [done|].
  intros i x m' r _ IH. destruct (decide (i = k)) as [->|Hne].
  - rewrite lookup_insert_eq. intros [= ->]. lia.
  - rewrite lookup_insert_ne by done. intros Ha%IH. lia.
Qed.

Lemma any_nested_ind (P : any → Prop) :
  P ANil → (∀ b, P (ABool b)) → (∀ z, P (AInteger z)) → (∀ t, P (AFloat t)) → (∀ s, P (AString s)) →
  (∀ l, Forall P l → P (ASlice l)) → (∀ m, map_Forall (λ _, P) m → P (AMap m)) → ∀ a, P a.
Proof.
  intros H1 H2 H3 H4 H5 Hl Hm a. remember (any_size a) as n eqn:Hn. revert a Hn.
  induction (lt_wf n) as [n _ IH]. intros a ->. destruct a as [|b|z|t|s|l|m]; auto.
  - apply Hl, Forall_forall. intros x Hx. eapply IH; [by eapply size_in_list|done].
  - apply Hm. intros k x Hx. eapply IH; [by eapply size_in_map|done].
Qed.

(** Values as trees, and back. *)
Definition leaf : Type := bool + Z + string.

Fixpoint any_tree (a : any) : gen_tree leaf :=
  match a with
  | ANil => GenNode 0 []
  | ABool b => GenNode 1 [GenLeaf (inl (inl b))]
  | AInteger z => GenNode 2 [GenLeaf (inl (inr z))]
  | AFloat t => GenNode 3 [GenLeaf (inr t)]
  | AString s => GenNode 4 [GenLeaf (inr s)]
  | ASlice l => GenNode 5 (any_tree <$> l)
  | AMap m => GenNode 6 (map_fold (λ k v l, GenLeaf (inr k) :: any_tree v :: l) [] m)
  end.

Fixpoint tree_any (t : gen_tree leaf) : any :=
  match t with
  | GenNode 1 [GenLeaf (inl (inl b))] => ABool b
  | GenNode 2 [GenLeaf (inl (inr z))] => AInteger z
  | GenNode 3 [GenLeaf (inr t)] => AFloat t
  | GenNode 4 [GenLeaf (inr s)] => AString s
  | GenNode 5 l => ASlice (tree_any <$> l)
  | GenNode 6 l =>
      AMap (list_to_map ((fix pairs l :=
        match l with
        | GenLeaf (inr k) :: v :: l => (k, tree_any v) :: pairs l
        | _ => []
        end) l))
  | _ => ANil
  end.

Lemma tree_any_tree a : tree_any (any_tree a) = a.
Proof.
  induction a as [| | | | |l IH|m IH] using any_nested_ind; try done.
  - cbn. f_equal. induction IH as [|x l Hx Hl IHl]; [done|]. cbn. by rewrite Hx, IHl.
  - cbn [any_tree tree_any]. f_equal. rewrite <- (list_to_map_to_list m) at 2. f_equal.
    rewrite map_fold_foldr. assert (Forall (λ p, tree_any (any_tree (snd p)) = snd p) (map_to_list m)) as Hl.
    { apply Forall_forall. intros [k v] Hin%elem_of_map_to_list. by apply (IH k v). }
    induction Hl as [|[k v] l Hv Hl IHl]; [done|]. cbn in Hv |- *. by rewrite Hv, IHl.
Qed.

#[export] Instance any_eq_dec : EqDecision any.
Proof.
  intros a b. destruct (decide (any_tree a = any_tree b)) as [H|H]; [left|right; congruence].
  by rewrite <- (tree_any_tree a), <- (tree_any_tree b), H.
Defined.
#[export] Instance any_countable : Countable any := inj_countable' any_tree tree_any tree_any_tree.

(** ** Messages *)

#[export] Instance ObjectMeta_eq_dec : EqDecision ObjectMeta.
Proof. solve_decision. Defined.
#[export] Instance ObjectMeta_countable : Countable ObjectMeta.
Proof.
  refine (inj_countable' (λ x, (om_name x, om_atespace x, om_creation x)) (λ '(a0, a1, a2), mkObjectMeta a0 a1 a2) _). by intros [].
Defined.
#[export] Instance EnvVar_eq_dec : EqDecision EnvVar.
Proof. solve_decision. Defined.
#[export] Instance EnvVar_countable : Countable EnvVar.
Proof.
  refine (inj_countable' (λ x, (env_name x, env_value x)) (λ '(a0, a1), mkEnvVar a0 a1) _). by intros [].
Defined.
#[export] Instance ResourceList_eq_dec : EqDecision ResourceList.
Proof. solve_decision. Defined.
#[export] Instance ResourceList_countable : Countable ResourceList.
Proof.
  refine (inj_countable' (λ x, (rl_cpu x, rl_memory x)) (λ '(a0, a1), mkResourceList a0 a1) _). by intros [].
Defined.
#[export] Instance ResourceReqs_eq_dec : EqDecision ResourceReqs.
Proof. solve_decision. Defined.
#[export] Instance ResourceReqs_countable : Countable ResourceReqs.
Proof.
  refine (inj_countable' (λ x, (rr_requests x, rr_limits x)) (λ '(a0, a1), mkResourceReqs a0 a1) _). by intros [].
Defined.
#[export] Instance WorkspaceRef_eq_dec : EqDecision WorkspaceRef.
Proof. solve_decision. Defined.
#[export] Instance WorkspaceRef_countable : Countable WorkspaceRef.
Proof.
  refine (inj_countable' (λ x, (wr_name x, wr_path x, wr_goal x)) (λ '(a0, a1, a2), mkWorkspaceRef a0 a1 a2) _). by intros [].
Defined.
#[export] Instance GatewayRef_eq_dec : EqDecision GatewayRef.
Proof. solve_decision. Defined.
#[export] Instance GatewayRef_countable : Countable GatewayRef.
Proof.
  refine (inj_countable' (λ x, (gr_name x)) (λ '(a0), mkGatewayRef a0) _). by intros [].
Defined.
#[export] Instance TaskSpec_eq_dec : EqDecision TaskSpec.
Proof. solve_decision. Defined.
#[export] Instance TaskSpec_countable : Countable TaskSpec.
Proof.
  refine (inj_countable' (λ x, (ts_suspend x, ts_image x, ts_command x, ts_env x, ts_resources x, ts_workspaces x, ts_gateway x, ts_debug x)) (λ '(a0, a1, a2, a3, a4, a5, a6, a7), mkTaskSpec a0 a1 a2 a3 a4 a5 a6 a7) _). by intros [].
Defined.
#[export] Instance PendingApproval_eq_dec : EqDecision PendingApproval.
Proof. solve_decision. Defined.
#[export] Instance PendingApproval_countable : Countable PendingApproval.
Proof.
  refine (inj_countable' (λ x, (pa_id x, pa_action x, pa_requested_at x)) (λ '(a0, a1, a2), mkPendingApproval a0 a1 a2) _). by intros [].
Defined.
#[export] Instance UsageStats_eq_dec : EqDecision UsageStats.
Proof. solve_decision. Defined.
#[export] Instance UsageStats_countable : Countable UsageStats.
Proof.
  refine (inj_countable' (λ x, (us_prompt_tokens x, us_completion_tokens x)) (λ '(a0, a1), mkUsageStats a0 a1) _). by intros [].
Defined.
#[export] Instance Condition_eq_dec : EqDecision Condition.
Proof. solve_decision. Defined.
#[export] Instance Condition_countable : Countable Condition.
Proof.
  refine (inj_countable' (λ x, (cond_type x, cond_status x, cond_last_transition x, cond_reason x, cond_message x)) (λ '(a0, a1, a2, a3, a4), mkCondition a0 a1 a2 a3 a4) _). by intros [].
Defined.
#[export] Instance TaskStatus_eq_dec : EqDecision TaskStatus.
Proof. solve_decision. Defined.
#[export] Instance TaskStatus_countable : Countable TaskStatus.
Proof.
  refine (inj_countable' (λ x, (st_phase x, st_id x, st_actor x, st_worker_ip x, st_pending_approval x, st_usage x, st_conditions x)) (λ '(a0, a1, a2, a3, a4, a5, a6), mkTaskStatus a0 a1 a2 a3 a4 a5 a6) _). by intros [].
Defined.
#[export] Instance Task_eq_dec : EqDecision Task.
Proof. solve_decision. Defined.
#[export] Instance Task_countable : Countable Task.
Proof.
  refine (inj_countable' (λ x, (task_api_version x, task_kind x, task_metadata x, task_spec x, task_status x)) (λ '(a0, a1, a2, a3, a4), mkTask a0 a1 a2 a3 a4) _). by intros [].
Defined.
#[export] Instance Listener_eq_dec : EqDecision Listener.
Proof. solve_decision. Defined.
#[export] Instance Listener_countable : Countable Listener.
Proof.
  refine (inj_countable' (λ x, (li_name x, li_port x, li_protocol x)) (λ '(a0, a1, a2), mkListener a0 a1 a2) _). by intros [].
Defined.
#[export] Instance HostRule_eq_dec : EqDecision HostRule.
Proof. solve_decision. Defined.
#[export] Instance HostRule_countable : Countable HostRule.
Proof.
  refine (inj_countable' (λ x, (hr_host x, hr_port x)) (λ '(a0, a1), mkHostRule a0 a1) _). by intros [].
Defined.
#[export] Instance EgressAllowlist_eq_dec : EqDecision EgressAllowlist.
Proof. solve_decision. Defined.
#[export] Instance EgressAllowlist_countable : Countable EgressAllowlist.
Proof.
  refine (inj_countable' (λ x, (ea_hosts x)) (λ '(a0), mkEgressAllowlist a0) _). by intros [].
Defined.
#[export] Instance EgressConfig_eq_dec : EqDecision EgressConfig.
Proof. solve_decision. Defined.
#[export] Instance EgressConfig_countable : Countable EgressConfig.
Proof.
  refine (inj_countable' (λ x, (ec_allowlist x)) (λ '(a0), mkEgressConfig a0) _). by intros [].
Defined.
#[export] Instance GatewaySpec_eq_dec : EqDecision GatewaySpec.
Proof. solve_decision. Defined.
#[export] Instance GatewaySpec_countable : Countable GatewaySpec.
Proof.
  refine (inj_countable' (λ x, (gs_listeners x, gs_egress x)) (λ '(a0, a1), mkGatewaySpec a0 a1) _). by intros [].
Defined.
#[export] Instance Gateway_eq_dec : EqDecision Gateway.
Proof. solve_decision. Defined.
#[export] Instance Gateway_countable : Countable Gateway.
Proof.
  refine (inj_countable' (λ x, (gw_api_version x, gw_kind x, gw_metadata x, gw_spec x)) (λ '(a0, a1, a2, a3), mkGateway a0 a1 a2 a3) _). by intros [].
Defined.
#[export] Instance GitRepo_eq_dec : EqDecision GitRepo.
Proof. solve_decision. Defined.
#[export] Instance GitRepo_countable : Countable GitRepo.
Proof.
  refine (inj_countable' (λ x, (git_name x, git_repo x, git_branch x, git_dir x, git_depth x)) (λ '(a0, a1, a2, a3, a4), mkGitRepo a0 a1 a2 a3 a4) _). by intros [].
Defined.
#[export] Instance MCPServer_eq_dec : EqDecision MCPServer.
Proof. solve_decision. Defined.
#[export] Instance MCPServer_countable : Countable MCPServer.
Proof.
  refine (inj_countable' (λ x, (mcp_name x, mcp_endpoint x, mcp_command x, mcp_args x)) (λ '(a0, a1, a2, a3), mkMCPServer a0 a1 a2 a3) _). by intros [].
Defined.
#[export] Instance MCPRegistry_eq_dec : EqDecision MCPRegistry.
Proof. solve_decision. Defined.
#[export] Instance MCPRegistry_countable : Countable MCPRegistry.
Proof.
  refine (inj_countable' (λ x, (mr_provider x, mr_project x, mr_query x, mr_servers x)) (λ '(a0, a1, a2, a3), mkMCPRegistry a0 a1 a2 a3) _). by intros [].
Defined.
#[export] Instance MCPConfig_eq_dec : EqDecision MCPConfig.
Proof. solve_decision. Defined.
#[export] Instance MCPConfig_countable : Countable MCPConfig.
Proof.
  refine (inj_countable' (λ x, (mc_registries x, mc_servers x)) (λ '(a0, a1), mkMCPConfig a0 a1) _). by intros [].
Defined.
#[export] Instance SkillRegistry_eq_dec : EqDecision SkillRegistry.
Proof. solve_decision. Defined.
#[export] Instance SkillRegistry_countable : Countable SkillRegistry.
Proof.
  refine (inj_countable' (λ x, (sr_provider x, sr_project x, sr_query x)) (λ '(a0, a1, a2), mkSkillRegistry a0 a1 a2) _). by intros [].
Defined.
#[export] Instance SkillsConfig_eq_dec : EqDecision SkillsConfig.
Proof. solve_decision. Defined.
#[export] Instance SkillsConfig_countable : Countable SkillsConfig.
Proof.
  refine (inj_countable' (λ x, (sc_registries x, sc_path x)) (λ '(a0, a1), mkSkillsConfig a0 a1) _). by intros [].
Defined.
#[export] Instance WorkspaceSpec_eq_dec : EqDecision WorkspaceSpec.
Proof. solve_decision. Defined.
#[export] Instance WorkspaceSpec_countable : Countable WorkspaceSpec.
Proof.
  refine (inj_countable' (λ x, (wss_git x, wss_mcp x, wss_skills x)) (λ '(a0, a1, a2), mkWorkspaceSpec a0 a1 a2) _). by intros [].
Defined.
#[export] Instance Workspace_eq_dec : EqDecision Workspace.
Proof. solve_decision. Defined.
#[export] Instance Workspace_countable : Countable Workspace.
Proof.
  refine (inj_countable' (λ x, (ws_api_version x, ws_kind x, ws_metadata x, ws_spec x)) (λ '(a0, a1, a2, a3), mkWorkspace a0 a1 a2 a3) _). by intros [].
Defined.
#[export] Instance SecretKeyRef_eq_dec : EqDecision SecretKeyRef.
Proof. solve_decision. Defined.
#[export] Instance SecretKeyRef_countable : Countable SecretKeyRef.
Proof.
  refine (inj_countable' (λ x, (sk_name x, sk_key x)) (λ '(a0, a1), mkSecretKeyRef a0 a1) _). by intros [].
Defined.
#[export] Instance ModelSpec_eq_dec : EqDecision ModelSpec.
Proof. solve_decision. Defined.
#[export] Instance ModelSpec_countable : Countable ModelSpec.
Proof.
  refine (inj_countable' (λ x, (ms_provider x, ms_model x, ms_secret_key x, ms_parameters x, ms_protocol x, ms_base_url x, ms_headers x, ms_api_key_header x, ms_api_key_prefix x)) (λ '(a0, a1, a2, a3, a4, a5, a6, a7, a8), mkModelSpec a0 a1 a2 a3 a4 a5 a6 a7 a8) _). by intros [].
Defined.
#[export] Instance Model_eq_dec : EqDecision Model.
Proof. solve_decision. Defined.
#[export] Instance Model_countable : Countable Model.
Proof.
  refine (inj_countable' (λ x, (model_api_version x, model_kind x, model_metadata x, model_spec x)) (λ '(a0, a1, a2, a3), mkModel a0 a1 a2 a3) _). by intros [].
Defined.

(** ** A codec

    Values of a countable type as decimal numbers. *)
Definition number_text (p : positive) : string := NilEmpty.string_of_uint (Pos.to_uint p).
Definition text_number (s : string) : option positive :=
  match NilEmpty.uint_of_string s with
  | Some u => match Pos.of_uint u with Npos p => Some p | N0 => None end
  | None => None
  end.

Lemma text_number_text p : text_number (number_text p) = Some p.
Proof. unfold text_number, number_text. by rewrite NilEmpty.usu, Unsigned.of_to. Qed.

Definition to_text {A} `{Countable A} (x : A) : string := number_text (encode x).
Definition of_text {A} `{Countable A} (s : string) : option A := text_number s ≫= decode.

Lemma of_text_to_text {A} `{Countable A} (x : A) : of_text (to_text x) = Some x.
Proof. unfold of_text, to_text. rewrite text_number_text. apply decode_encode. Qed.
