(* ===== verification/Bindings.v ===== *)
(** Workspace bindings of a task (pkg/apis/v1alpha1/types.go): the bound
    workspaces, their mount paths, the validation the API server runs before a
    save, and the normalizers of legacy manifest shapes. *)

From S2P Require Import Prelude GoStrings Types.

(** ** Bindings *)

(** [WorkspaceRefs]: the bound workspaces in declaration order, nil entries dropped. *)
Fixpoint drop_nils {A} (l : list (option A)) : list A :=
  match l with
  | [] => []
  | Some r :: l' => r :: drop_nils l'
  | None :: l' => drop_nils l'
  end.

Definition WorkspaceRefs (s : option TaskSpec) : list WorkspaceRef :=
  match s with
  | None => []
  | Some s => drop_nils (ts_workspaces s)
  end.

Definition workspace_path (r : WorkspaceRef) : string :=
  if decide (wr_path r = "") then DefaultWorkspacePath +:+ "/" +:+ wr_name r
  else wr_path r.

Definition WorkspacePaths (s : option TaskSpec) : list string :=
  workspace_path <$> WorkspaceRefs s.

(** ** Validation *)

(** The key a mount path is compared by. *)
Definition path_key (p : string) : string :=
  let t := TrimRightByte "/"%char p in
  if decide (t = "") then "/" else t.

Inductive bind_error :=
| NameRequired
| BoundTwice (name : string)
| NotAbsolute (path : string)
| PathTaken (path other : string).

(** The loop of [ValidateTask] from index [i], with the names and the path keys
    seen so far; the error carries the index its text names. *)
Fixpoint validate_refs (i : nat) (refs : list (WorkspaceRef * string))
    (names : gset string) (seen : gmap string string) : option (nat * bind_error) :=
  match refs with
  | [] => None
  | (r, path) :: rest =>
      if decide (wr_name r = "") then Some (i, NameRequired)
      else if decide (wr_name r ∈ names) then Some (i, BoundTwice (wr_name r))
      else if negb (bool_decide (wr_path r = "")) && negb (HasPrefix (wr_path r) "/")
        then Some (i, NotAbsolute (wr_path r))
      else match seen !! path_key path with
           | Some other => Some (i, PathTaken path other)
           | None => validate_refs (S i) rest ({[wr_name r]} ∪ names)
                       (<[path_key path := wr_name r]> seen)
           end
  end.

Definition bind_error_text (i : nat) (e : bind_error) : error :=
  let field := AStr ("spec.workspaces[" +:+ pretty i +:+ "]") in
  match e with
  | NameRequired => Errorf "%s: name is required" [field]
  | BoundTwice n => Errorf "%s: workspace %q is bound more than once" [field; AStr n]
  | NotAbsolute p => Errorf "%s: path %q must be absolute" [field; AStr p]
  | PathTaken p o => Errorf "%s: path %q is already used by workspace %q" [field; AStr p; AStr o]
  end.

Definition ValidateTask (t : option Task) : option error :=
  match t ≫= task_spec with
  | None => None
  | Some spec =>
      let refs := WorkspaceRefs (Some spec) in
      let paths := WorkspacePaths (Some spec) in
      match validate_refs 0 (zip refs paths) ∅ ∅ with
      | None => None
      | Some (i, e) => Some (bind_error_text i e)
      end
  end.

(** What the API promises of the bindings of an accepted task. *)
Record valid_bindings (refs : list WorkspaceRef) : Prop := {
  vb_named : Forall (λ r, wr_name r ≠ "") refs;
  vb_names : NoDup (wr_name <$> refs);
  vb_absolute : Forall (λ r, wr_path r = "" ∨ ∃ p, wr_path r = "/" +:+ p) refs;
  vb_paths : NoDup ((λ r, path_key (workspace_path r)) <$> refs);
}.

(** ** Legacy manifest shapes *)

(** A value asserted to be a map; the assertion's second result is [None]. *)
Definition as_map (v : option any) : option (gmap string any) :=
  match v with Some (AMap m) => Some m | _ => None end.

(** [normalizeWorkspace]: spec.mcp written as a bare list of servers. *)
Definition normalizeWorkspace (doc : gmap string any) : gmap string any :=
  match as_map (doc !! "spec") with
  | Some spec =>
      match spec !! "mcp" with
      | Some (ASlice l) =>
          <["spec" := AMap (<["mcp" := AMap {["servers" := ASlice l]}]> spec)]> doc
      | _ => doc
      end
  | None => doc
  end.

(** The assignment of spec.secretKey from the older spellings. *)
Definition adopt_secret (spec : gmap string any) : gmap string any :=
  match spec !! "secretKey" with
  | Some _ => spec
  | None =>
      match spec !! "secretKeyRef" with
      | Some ref => <["secretKey" := ref]> spec
      | None =>
          match as_map (spec !! "apiKey") with
          | Some apiKey =>
              match apiKey !! "secretKeyRef" with
              | Some ref => <["secretKey" := ref]> spec
              | None => spec
              end
          | None => spec
          end
      end
  end.

Definition expand_secret (spec : gmap string any) : gmap string any :=
  match spec !! "secretKey" with
  | Some (AString s) =>
      <["secretKey" := AMap (<["name" := AString s]> {["key" := AString s]})]> spec
  | _ => spec
  end.

Definition normalizeModel (doc : gmap string any) : gmap string any :=
  match as_map (doc !! "spec") with
  | None => doc
  | Some spec =>
      let spec := adopt_secret spec in
      let spec := delete "apiKey" (delete "secretKeyRef" spec) in
      <["spec" := AMap (expand_secret spec)]> doc
  end.

(** * Theorems *)

Lemma validate_refs_None i refs names seen :
  validate_refs i refs names seen = None ↔
    Forall (λ rp, wr_name rp.1 ≠ "" ∧ wr_name rp.1 ∉ names) refs ∧
    NoDup (wr_name ∘ fst <$> refs) ∧
    Forall (λ rp, wr_path rp.1 = "" ∨ ∃ p, wr_path rp.1 = "/" +:+ p) refs ∧
    Forall (λ rp, seen !! path_key rp.2 = None) refs ∧
    NoDup (path_key ∘ snd <$> refs).
Proof.
  revert i names seen.
  induction refs as [|[r path] refs IH]; intros i names seen; simpl.
  { split; [|done]. intros _. repeat split; auto using NoDup_nil_2. }
  rewrite !Forall_cons, !NoDup_cons. simpl.
  case_decide as Hn; [naive_solver|].
  case_decide as Hin; [naive_solver|].
  destruct (negb _ && negb _) eqn:Habs; simpl.
  { apply andb_true_iff in Habs as [H1 H2]. rewrite negb_true_iff in H1, H2.
    apply bool_decide_eq_false in H1. split; [done|].
    intros (_ & _ & [[?|[p Hp]] _] & _); [done|].
    assert (HasPrefix (wr_path r) "/" = true) by (apply HasPrefix_spec; eauto). congruence. }
  assert (wr_path r = "" ∨ ∃ p, wr_path r = "/" +:+ p) as Hp.
  { apply andb_false_iff in Habs as [H|H]; apply negb_false_iff in H.
    - left. by apply bool_decide_eq_true in H.
    - right. by apply HasPrefix_spec in H. }
  destruct (seen !! path_key path) eqn:Hs; [naive_solver|].
  rewrite IH. setoid_rewrite not_elem_of_union. setoid_rewrite not_elem_of_singleton.
  setoid_rewrite lookup_insert_None.
  rewrite !Forall_forall, !list_elem_of_fmap. simpl.
  split; intros; destruct_and!; split_and!; naive_solver.
Qed.

(** The first rejected binding: everything before it was accepted. *)
Lemma validate_refs_Some i refs names seen j e :
  validate_refs i refs names seen = Some (j, e) →
  (i ≤ j)%nat ∧
  validate_refs i (take (j - i) refs) names seen = None ∧
  validate_refs i (take (S (j - i)) refs) names seen = Some (j, e).
Proof.
  revert i names seen.
  induction refs as [|[r path] refs IH]; intros i names seen H; [done|].
  cbn [validate_refs] in H.
  repeat match type of H with context [if ?b then _ else _] => destruct b eqn:? end;
    [injection H as <- <-; rewrite Nat.sub_diag; cbn [take validate_refs];
     repeat match goal with H : ?b = _ |- context [?b] => rewrite H end; auto..|].
  destruct (seen !! path_key path) eqn:Hs.
  { injection H as <- <-. rewrite Nat.sub_diag. cbn [take validate_refs].
    repeat match goal with H : ?b = _ |- context [?b] => rewrite H end; auto. }
  apply IH in H as (Hle & H1 & H2). replace (j - i)%nat with (S (j - S i)) by lia.
  cbn [take validate_refs] in *.
  repeat match goal with H : ?b = _ |- context [?b] => rewrite H end.
  split; [lia|auto].
Qed.

Lemma zip_fst_snd_map {A B} (f : A → B) (l : list A) : zip l (f <$> l) = (λ x, (x, f x)) <$> l.
Proof. induction l; simpl; [done|]. by f_equal. Qed.

Lemma validate_refs_valid refs :
  validate_refs 0 ((λ r, (r, workspace_path r)) <$> refs) ∅ ∅ = None ↔ valid_bindings refs.
Proof.
  rewrite validate_refs_None, !Forall_fmap, <- !list_fmap_compose.
  split.
  - intros (H1 & H2 & H3 & _ & H5). split; try done.
    eapply Forall_impl; [exact H1|]. naive_solver.
  - intros [H1 H2 H3 H4]. split_and!; try done.
    + eapply Forall_impl; [exact H1|]. set_solver.
    + apply Forall_true. intros. apply lookup_empty.
Qed.

(** C36: the API server accepts a task exactly when its bindings are named,
    distinct by name, absolute where explicit, and mounted at distinct paths up
    to trailing slashes. *)
Theorem ValidateTask_accepts t :
  ValidateTask (Some t) = None ↔
  match task_spec t with
  | None => True
  | Some spec => valid_bindings (WorkspaceRefs (Some spec))
  end.
Proof.
  unfold ValidateTask, WorkspacePaths. simpl. destruct (task_spec t) as [spec|]; [|done].
  rewrite zip_fst_snd_map, <- validate_refs_valid.
  destruct (validate_refs _ _ _ _) as [[]|]; done.
Qed.

(** A rejected task is rejected for its first offending binding: the
    bindings before it are valid, and with it they are not. *)
Theorem ValidateTask_first_error t spec i e :
  task_spec t = Some spec →
  validate_refs 0 (zip (WorkspaceRefs (Some spec)) (WorkspacePaths (Some spec))) ∅ ∅ = Some (i, e) →
  ValidateTask (Some t) = Some (bind_error_text i e) ∧
  valid_bindings (take i (WorkspaceRefs (Some spec))) ∧
  ¬ valid_bindings (take (S i) (WorkspaceRefs (Some spec))).
Proof.
  intros Hspec. unfold ValidateTask, WorkspacePaths. cbn [mbind option_bind].
  rewrite Hspec, zip_fst_snd_map. intros H. split; [by rewrite H|].
  apply validate_refs_Some in H as (_ & H1 & H2).
  rewrite Nat.sub_0_r, <- fmap_take in *.
  rewrite <- !validate_refs_valid. by rewrite H1, H2.
Qed.

Lemma as_map_expand v m : as_map v = Some m → v = Some (AMap m).
Proof. destruct v as [[]|]; naive_solver. Qed.

Lemma adopt_secret_key spec s : spec !! "secretKey" = Some s → adopt_secret spec = spec.
Proof. unfold adopt_secret. by intros ->. Qed.

Lemma expand_secret_shape spec s : expand_secret spec !! "secretKey" ≠ Some (AString s).
Proof.
  unfold expand_secret. destruct (spec !! "secretKey") as [[]|] eqn:E; try congruence.
  by rewrite lookup_insert_eq.
Qed.

Lemma expand_secret_other spec k : k ≠ "secretKey" → expand_secret spec !! k = spec !! k.
Proof.
  intros. unfold expand_secret. repeat case_match; try done. by rewrite lookup_insert_ne.
Qed.

Lemma expand_secret_id spec :
  (∀ s, spec !! "secretKey" ≠ Some (AString s)) → expand_secret spec = spec.
Proof. unfold expand_secret. intros H. repeat case_match; naive_solver. Qed.

(** After normalization a Model manifest has none of the legacy spellings
    left, and normalizing it again changes nothing. *)
Theorem normalizeModel_normal doc :
  let doc' := normalizeModel doc in
  (∀ spec, doc' !! "spec" = Some (AMap spec) →
     spec !! "secretKeyRef" = None ∧ spec !! "apiKey" = None ∧
     ∀ s, spec !! "secretKey" ≠ Some (AString s)) ∧
  normalizeModel doc' = doc'.
Proof.
  cbn. unfold normalizeModel at 1 2 3 4.
  destruct (as_map (doc !! "spec")) as [spec|] eqn:Hspec.
  2:{ split; [|unfold normalizeModel; by rewrite Hspec].
      intros spec Hs. by rewrite Hs in Hspec. }
  set (spec' := expand_secret _).
  assert (spec' !! "secretKeyRef" = None ∧ spec' !! "apiKey" = None ∧
          ∀ s, spec' !! "secretKey" ≠ Some (AString s)) as (H1 & H2 & H3).
  { unfold spec'. rewrite !expand_secret_other by done.
    rewrite lookup_delete_ne, !lookup_delete_eq by done.
    split_and!; [done..|]. intros s. apply expand_secret_shape. }
  split.
  - intros ? Hs. rewrite lookup_insert_eq in Hs. by injection Hs as <-.
  - unfold normalizeModel. rewrite lookup_insert_eq. cbn [as_map].
    assert (adopt_secret spec' = spec') as ->.
    { unfold adopt_secret. rewrite H1, H2. by destruct (spec' !! "secretKey"). }
    rewrite !delete_id by (rewrite ?lookup_delete_ne by done; done).
    by rewrite expand_secret_id, insert_insert_eq.
Qed.
