(* ===== verification/StoreApi.v ===== *)
(** The storage interface (internal/store/store.go): task events, the operations
    of a store over an abstract state, and the contract the API server and the
    controller rely on, as laws over a view of the stored resources. *)

From S2P Require Import Prelude GoStrings Types.

Record TaskEvent := mkTaskEvent {
  ev_id : string;
  ev_atespace : string;
  ev_name : string;
  ev_action : string;
}.

(** The wall clock as a state component: time.Now() in nanoseconds. *)
Class TimeNow (S : Type) := time_Now : M S Z.

(** ** Operations

    A Save mutates the message it is given (defaults are filled in), so it
    returns the message next to the error. *)
Class Store (S : Type) := {
  SaveTask : Task → M S (option error * Task);
  GetTask : string → string → M S (res Task);
  ListTasks : string → Z → Z → M S (res (list Task));
  UpdateTaskStatus : string → string → option TaskStatus → M S (option error);
  MarkTaskDeleting : string → string → M S (option error);
  DeleteTask : string → string → M S (option error);

  SaveGateway : Gateway → M S (option error * Gateway);
  GetGateway : string → string → M S (res Gateway);
  ListGateways : string → M S (res (list Gateway));
  DeleteGateway : string → string → M S (option error);

  SaveWorkspace : Workspace → M S (option error * Workspace);
  GetWorkspace : string → string → M S (res Workspace);
  ListWorkspaces : string → M S (res (list Workspace));
  DeleteWorkspace : string → string → M S (option error);

  SaveModel : Model → M S (option error * Model);
  GetModel : string → string → M S (res Model);
  ListModels : string → M S (res (list Model));
  DeleteModel : string → string → M S (option error);
}.

(** ** The contract *)

Definition default_atespace (a : string) : string :=
  if decide (a = "") then "default" else a.

(** Resources are addressed by atespace and name. *)
Definition res_key (atespace name : string) : string :=
  default_atespace atespace +:+ ":" +:+ name.

Record StoreView := mkStoreView {
  v_tasks : gmap string Task;
  v_gateways : gmap string Gateway;
  v_workspaces : gmap string Workspace;
  v_models : gmap string Model;
}.
Definition v_set_tasks (m : gmap string Task) (v : StoreView) : StoreView :=
  mkStoreView m (v_gateways v) (v_workspaces v) (v_models v).
Definition v_set_gateways (m : gmap string Gateway) (v : StoreView) : StoreView :=
  mkStoreView (v_tasks v) m (v_workspaces v) (v_models v).
Definition v_set_workspaces (m : gmap string Workspace) (v : StoreView) : StoreView :=
  mkStoreView (v_tasks v) (v_gateways v) m (v_models v).
Definition v_set_models (m : gmap string Model) (v : StoreView) : StoreView :=
  mkStoreView (v_tasks v) (v_gateways v) (v_workspaces v) m.

Definition found {A} (o : option A) : res A :=
  match o with Some a => Ok a | None => Err ErrNotFound end.

(** The metadata a save leaves in the message. *)
Definition saved_meta (m : ObjectMeta) : ObjectMeta :=
  om_set_atespace (default_atespace (om_atespace m)) m.
Definition meta_key (m : ObjectMeta) : string := res_key (om_atespace m) (om_name m).

(** The status a save leaves: a task without a phase is pending. *)
Definition pending_status (st : option TaskStatus) : TaskStatus :=
  let st := default zero_TaskStatus st in
  if decide (st_phase st = "") then st_set_phase "Pending" st else st.

(** A task that is marked for deletion. *)
Definition marked_deleting (t : Task) : Task :=
  task_set_status (Some (st_set_phase PhaseTerminating (default zero_TaskStatus (task_status t)))) t.

(** A call that returns [r], keeps the invariant and changes the view to [v]. *)
Definition runs_to {S A} (inv : S → Prop) (view : S → StoreView)
    (m : M S A) (s : S) (r : A) (v : StoreView) : Prop :=
  ∃ s', m s = (Ret r, s') ∧ inv s' ∧ view s' = v.

(** What a reliable store promises. [saved_task], [saved_gateway], ... are the
    messages with the defaults of the implementation filled in. *)
Class StoreLaws (S : Type) `{!Store S} := {
  s_inv : S → Prop;
  s_view : S → StoreView;
  saved_task : Task → Task;
  saved_gateway : Gateway → Gateway;
  saved_workspace : Workspace → Workspace;
  saved_model : Model → Model;

  saved_task_metadata t m :
    task_metadata t = Some m → task_metadata (saved_task t) = Some (saved_meta m);
  saved_task_spec t : task_spec (saved_task t) = task_spec t;
  saved_task_status t : task_status (saved_task t) = Some (pending_status (task_status t));
  saved_gateway_metadata g m :
    gw_metadata g = Some m → gw_metadata (saved_gateway g) = Some (saved_meta m);
  saved_gateway_spec g : gw_spec (saved_gateway g) = gw_spec g;
  saved_workspace_metadata w m :
    ws_metadata w = Some m → ws_metadata (saved_workspace w) = Some (saved_meta m);
  saved_workspace_spec w : ws_spec (saved_workspace w) = ws_spec w;
  saved_model_metadata x m :
    model_metadata x = Some m → model_metadata (saved_model x) = Some (saved_meta m);
  saved_model_spec x : model_spec (saved_model x) = model_spec x;

  law_filed s k t : s_inv s → v_tasks (s_view s) !! k = Some t →
    ∃ m, task_metadata t = Some m ∧ meta_key m = k ∧ om_name m ≠ "";

  law_SaveTask s t m : s_inv s → task_metadata t = Some m → om_name m ≠ "" →
    runs_to s_inv s_view (SaveTask t) s (None, saved_task t)
      (v_set_tasks (<[meta_key m := saved_task t]> (v_tasks (s_view s))) (s_view s));
  law_GetTask s a n : s_inv s →
    runs_to s_inv s_view (GetTask a n) s (found (v_tasks (s_view s) !! res_key a n)) (s_view s);
  law_UpdateTaskStatus s a n st : s_inv s → a ≠ "" →
    match v_tasks (s_view s) !! res_key a n with
    | Some t =>
        runs_to s_inv s_view (UpdateTaskStatus a n st) s None
          (v_set_tasks (<[res_key a n := task_set_status st t]> (v_tasks (s_view s))) (s_view s))
    | None => runs_to s_inv s_view (UpdateTaskStatus a n st) s (Some ErrNotFound) (s_view s)
    end;
  law_MarkTaskDeleting s a n : s_inv s →
    match v_tasks (s_view s) !! res_key a n with
    | Some t =>
        runs_to s_inv s_view (MarkTaskDeleting a n) s None
          (v_set_tasks (<[res_key a n := marked_deleting t]> (v_tasks (s_view s))) (s_view s))
    | None => runs_to s_inv s_view (MarkTaskDeleting a n) s (Some ErrNotFound) (s_view s)
    end;
  law_DeleteTask s a n : s_inv s →
    runs_to s_inv s_view (DeleteTask a n) s None
      (v_set_tasks (delete (res_key a n) (v_tasks (s_view s))) (s_view s));

  law_SaveGateway s g m : s_inv s → gw_metadata g = Some m → om_name m ≠ "" →
    runs_to s_inv s_view (SaveGateway g) s (None, saved_gateway g)
      (v_set_gateways (<[meta_key m := saved_gateway g]> (v_gateways (s_view s))) (s_view s));
  law_GetGateway s a n : s_inv s →
    runs_to s_inv s_view (GetGateway a n) s (found (v_gateways (s_view s) !! res_key a n)) (s_view s);
  law_DeleteGateway s a n : s_inv s →
    runs_to s_inv s_view (DeleteGateway a n) s None
      (v_set_gateways (delete (res_key a n) (v_gateways (s_view s))) (s_view s));

  law_SaveWorkspace s w m : s_inv s → ws_metadata w = Some m → om_name m ≠ "" →
    runs_to s_inv s_view (SaveWorkspace w) s (None, saved_workspace w)
      (v_set_workspaces (<[meta_key m := saved_workspace w]> (v_workspaces (s_view s))) (s_view s));
  law_GetWorkspace s a n : s_inv s →
    runs_to s_inv s_view (GetWorkspace a n) s (found (v_workspaces (s_view s) !! res_key a n)) (s_view s);
  law_DeleteWorkspace s a n : s_inv s →
    runs_to s_inv s_view (DeleteWorkspace a n) s None
      (v_set_workspaces (delete (res_key a n) (v_workspaces (s_view s))) (s_view s));

  law_SaveModel s x m : s_inv s → model_metadata x = Some m → om_name m ≠ "" →
    runs_to s_inv s_view (SaveModel x) s (None, saved_model x)
      (v_set_models (<[meta_key m := saved_model x]> (v_models (s_view s))) (s_view s));
  law_GetModel s a n : s_inv s →
    runs_to s_inv s_view (GetModel a n) s (found (v_models (s_view s) !! res_key a n)) (s_view s);
  law_DeleteModel s a n : s_inv s →
    runs_to s_inv s_view (DeleteModel a n) s None
      (v_set_models (delete (res_key a n) (v_models (s_view s))) (s_view s));
}.

(** * Keys *)

Lemma default_atespace_idemp a : default_atespace (default_atespace a) = default_atespace a.
Proof. unfold default_atespace. repeat case_decide; done. Qed.

Lemma res_key_default a n : res_key (default_atespace a) n = res_key a n.
Proof. unfold res_key. by rewrite default_atespace_idemp. Qed.

Lemma saved_meta_key m : meta_key (saved_meta m) = meta_key m.
Proof. destruct m. unfold meta_key, saved_meta. cbn. by rewrite res_key_default. Qed.

(** Two addresses share a key only when they are the same address, as long as
    the atespaces hold no colon. *)
Lemma res_key_inj a a' n n' :
  string_in ":"%char (default_atespace a) = false →
  string_in ":"%char (default_atespace a') = false →
  res_key a n = res_key a' n' → default_atespace a = default_atespace a' ∧ n = n'.
Proof. apply app_sep_inj. Qed.
