(* ===== verification/MemoryStore.v ===== *)
(** The in-memory store (internal/store/memory/store.go): a heap of task
    objects whose status is a pointer of its own, the resource maps, the buffered
    event channel, and the watcher channels, which carry pointers to task
    objects. Each operation holds the store's lock, so it is one step. *)

From S2P Require Import Prelude GoStrings Types StoreApi.

(** ** State *)

Record TaskObj := mkTaskObj {
  obj_api_version : string;
  obj_kind : string;
  obj_metadata : option ObjectMeta;
  obj_spec : option TaskSpec;
  obj_status : option nat;          (* pointer to the status object *)
}.

Record Chan := mkChan { ch_buf : list nat; ch_closed : bool }.

Record MemoryStore := mkMemoryStore {
  m_objs : gmap nat TaskObj;        (* heap: task objects *)
  m_statuses : gmap nat TaskStatus; (* heap: status objects *)
  m_next : nat;                     (* next free address *)
  m_tasks : gmap string nat;
  m_gateways : gmap string Gateway;
  m_models : gmap string Model;
  m_workspaces : gmap string Workspace;
  m_events : list TaskEvent;
  m_watchers : gmap string (list nat);
  m_chans : gmap nat Chan;
  m_clock : clock;
}.

Definition event_cap : nat := 1000.
Definition watch_cap : nat := 10.

Definition set_heap objs sts next (s : MemoryStore) : MemoryStore :=
  mkMemoryStore objs sts next (m_tasks s) (m_gateways s) (m_models s)
    (m_workspaces s) (m_events s) (m_watchers s) (m_chans s) (m_clock s).
Definition set_tasks t (s : MemoryStore) : MemoryStore :=
  mkMemoryStore (m_objs s) (m_statuses s) (m_next s) t (m_gateways s) (m_models s)
    (m_workspaces s) (m_events s) (m_watchers s) (m_chans s) (m_clock s).
Definition set_gateways g (s : MemoryStore) : MemoryStore :=
  mkMemoryStore (m_objs s) (m_statuses s) (m_next s) (m_tasks s) g (m_models s)
    (m_workspaces s) (m_events s) (m_watchers s) (m_chans s) (m_clock s).
Definition set_models x (s : MemoryStore) : MemoryStore :=
  mkMemoryStore (m_objs s) (m_statuses s) (m_next s) (m_tasks s) (m_gateways s) x
    (m_workspaces s) (m_events s) (m_watchers s) (m_chans s) (m_clock s).
Definition set_workspaces w (s : MemoryStore) : MemoryStore :=
  mkMemoryStore (m_objs s) (m_statuses s) (m_next s) (m_tasks s) (m_gateways s) (m_models s)
    w (m_events s) (m_watchers s) (m_chans s) (m_clock s).
Definition set_events e (s : MemoryStore) : MemoryStore :=
  mkMemoryStore (m_objs s) (m_statuses s) (m_next s) (m_tasks s) (m_gateways s) (m_models s)
    (m_workspaces s) e (m_watchers s) (m_chans s) (m_clock s).
Definition set_watchers w ch (s : MemoryStore) : MemoryStore :=
  mkMemoryStore (m_objs s) (m_statuses s) (m_next s) (m_tasks s) (m_gateways s) (m_models s)
    (m_workspaces s) (m_events s) w ch (m_clock s).
Definition set_clock c (s : MemoryStore) : MemoryStore :=
  mkMemoryStore (m_objs s) (m_statuses s) (m_next s) (m_tasks s) (m_gateways s) (m_models s)
    (m_workspaces s) (m_events s) (m_watchers s) (m_chans s) c.

Definition NewStore (readings : nat → Z) : MemoryStore :=
  mkMemoryStore ∅ ∅ 0 ∅ ∅ ∅ ∅ [] ∅ ∅ (mkClock readings 0).

Abbreviation MS := (M MemoryStore).

(** ** Pointers and clones *)

(** The message a task pointer denotes. *)
Definition load_status (s : MemoryStore) (p : option nat) : option TaskStatus :=
  p ≫= λ l, m_statuses s !! l.
Definition load_obj (s : MemoryStore) (o : TaskObj) : Task :=
  mkTask (obj_api_version o) (obj_kind o) (obj_metadata o) (obj_spec o)
    (load_status s (obj_status o)).
Definition load (s : MemoryStore) (l : nat) : option Task :=
  load_obj s <$> m_objs s !! l.

(** Allocating a status object. *)
Definition new_status (st : TaskStatus) : MS nat := λ s,
  (Ret (m_next s),
   set_heap (m_objs s) (<[m_next s := st]> (m_statuses s)) (S (m_next s)) s).

Definition new_status_opt (st : option TaskStatus) : MS (option nat) :=
  match st with
  | None => ret None
  | Some st => let! l := new_status st in ret (Some l)
  end.

Definition new_obj (o : TaskObj) : MS nat := λ s,
  (Ret (m_next s),
   set_heap (<[m_next s := o]> (m_objs s)) (m_statuses s) (S (m_next s)) s).

(** [clone]: a deep copy, so the status is copied to a fresh object as well. *)
Definition clone (t : Task) : MS nat :=
  let! p := new_status_opt (task_status t) in
  new_obj (mkTaskObj (task_api_version t) (task_kind t) (task_metadata t) (task_spec t) p).

Definition clone_ptr (l : nat) : MS nat :=
  let! s := get in
  let! t := deref (load s l) in
  clone t.

Definition taskKey (atespace name : string) : string :=
  (if decide (atespace = "") then "default" else atespace) +:+ ":" +:+ name.

(** ** Channels *)

(** A send in a select with a default: dropped when the buffer is full, a panic
    when the channel is closed. *)
Definition try_send (p : nat) (c : nat) : MS unit :=
  let! s := get in
  let! ch := deref (m_chans s !! c) in
  if ch_closed ch then panic
  else if decide (length (ch_buf ch) < watch_cap)%nat then
    modify (set_watchers (m_watchers s) (<[c := mkChan (ch_buf ch ++ [p]) false]> (m_chans s)))
  else ret tt.

Fixpoint notify (p : nat) (cs : list nat) : MS unit :=
  match cs with
  | [] => ret tt
  | c :: cs' => try_send p c ;;; notify p cs'
  end.

Definition notify_watchers (key : string) (p : nat) : MS unit :=
  let! s := get in
  notify p (default [] (m_watchers s !! key)).

Definition publish (ev : TaskEvent) : MS unit :=
  let! s := get in
  if decide (length (m_events s) < event_cap)%nat
  then modify (set_events (m_events s ++ [ev]))
  else ret tt.

Definition time_now : MS Z := λ s, (Ret (clock_now (m_clock s)), set_clock (clock_tick (m_clock s)) s).

(** ** Tasks *)

(** The defaults [SaveTask] fills into the message, once its name is checked. *)
Definition task_defaults (t : Task) : Task :=
  let meta := default zero_ObjectMeta (task_metadata t) in
  let st := default zero_TaskStatus (task_status t) in
  mkTask (task_api_version t) (task_kind t)
    (Some (if decide (om_atespace meta = "") then om_set_atespace "default" meta else meta))
    (task_spec t)
    (Some (if decide (st_phase st = "") then st_set_phase "Pending" st else st)).

Definition SaveTask (task : Task) : MS (option error * Task) :=
  let task := match task_metadata task with
              | None => task_set_metadata (Some zero_ObjectMeta) task
              | Some _ => task
              end in
  if decide (from_option om_name "" (task_metadata task) = "") then
    ret (Some (Errorf "task name is required" []), task)
  else
    let task := task_defaults task in
    let! meta := deref (task_metadata task) in
    let key := taskKey (om_atespace meta) (om_name meta) in
    let! cp := clone task in
    let! s := get in
    modify (set_tasks (<[key := cp]> (m_tasks s))) ;;;
    let! now := time_now in
    let event := mkTaskEvent (dec now) (om_atespace meta) (om_name meta) "reconcile" in
    notify_watchers key cp ;;;
    publish event ;;;
    ret (None, task).

Definition GetTask (atespace name : string) : MS (res Task) :=
  let! s := get in
  match m_tasks s !! taskKey atespace name with
  | None => ret (Err ErrNotFound)
  | Some l => let! t := deref (load s l) in ret (Ok t)
  end.

(** A slice expression l[low:high]. *)
Definition slice {A} (l : list A) (low high : Z) : MS (list A) :=
  if decide (0 ≤ low ≤ high ∧ high ≤ Z.of_nat (length l))%Z
  then ret (take (Z.to_nat (high - low)) (drop (Z.to_nat low) l))
  else panic.

Section Ranging.
Context `{!MapRange}.

Fixpoint collect_tasks (atespace : string) (entries : list (string * nat))
    (result : list Task) : MS (list Task) :=
  match entries with
  | [] => ret result
  | (_, l) :: rest =>
      let! s := get in
      let! t := deref (load s l) in
      if bool_decide (atespace = "") || bool_decide (atespace = "*") then
        collect_tasks atespace rest (result ++ [t])
      else
        let! meta := deref (task_metadata t) in
        collect_tasks atespace rest
          (if bool_decide (om_atespace meta = atespace) then result ++ [t] else result)
  end.

Definition ListTasks (atespace : string) (limit offset : Z) : MS (res (list Task)) :=
  let! s := get in
  let! result := collect_tasks atespace (map_range (m_tasks s)) [] in
  if decide (Z.of_nat (length result) ≤ offset)%Z then ret (Ok [])
  else
    let fin := int64 (offset + limit) in
    let fin := if decide (limit ≤ 0 ∨ Z.of_nat (length result) < fin)%Z then Z.of_nat (length result) else fin in
    let! page := slice result offset fin in
    ret (Ok page).

(** The list operations of the other kinds, whose metadata getter is [meta]. *)
Fixpoint collect {A} (meta : A → option ObjectMeta) (atespace : string)
    (entries : list (string * A)) (result : list A) : MS (list A) :=
  match entries with
  | [] => ret result
  | (_, x) :: rest =>
      if bool_decide (atespace = "") || bool_decide (atespace = "*") then
        collect meta atespace rest (result ++ [x])
      else
        let! m := deref (meta x) in
        collect meta atespace rest
          (if bool_decide (om_atespace m = atespace) then result ++ [x] else result)
  end.

Definition ListGateways (atespace : string) : MS (res (list Gateway)) :=
  let! s := get in
  let! l := collect gw_metadata atespace (map_range (m_gateways s)) [] in ret (Ok l).
Definition ListModels (atespace : string) : MS (res (list Model)) :=
  let! s := get in
  let! l := collect model_metadata atespace (map_range (m_models s)) [] in ret (Ok l).
Definition ListWorkspaces (atespace : string) : MS (res (list Workspace)) :=
  let! s := get in
  let! l := collect ws_metadata atespace (map_range (m_workspaces s)) [] in ret (Ok l).

End Ranging.

(** [UpdateTaskStatus] as written: it stores the caller's status pointer. *)
Definition UpdateTaskStatus_ptr (atespace name : string) (status : option nat)
    : MS (option error) :=
  let key := taskKey atespace name in
  let! s := get in
  match m_tasks s !! key with
  | None => ret (Some ErrNotFound)
  | Some l =>
      let! o := deref (m_objs s !! l) in
      modify (set_heap (<[l := mkTaskObj (obj_api_version o) (obj_kind o) (obj_metadata o)
                               (obj_spec o) status]> (m_objs s)) (m_statuses s) (m_next s)) ;;;
      let! cp := clone_ptr l in
      notify_watchers key cp ;;;
      ret None
  end.

(** The same for a caller that hands over a status it built: a fresh object. *)
Definition UpdateTaskStatus (atespace name : string) (status : option TaskStatus)
    : MS (option error) :=
  let! p := new_status_opt status in
  UpdateTaskStatus_ptr atespace name p.

Definition MarkTaskDeleting (atespace name : string) : MS (option error) :=
  let key := taskKey atespace name in
  let! s := get in
  match m_tasks s !! key with
  | None => ret (Some ErrNotFound)
  | Some l =>
      let! o := deref (m_objs s !! l) in
      let! p := match obj_status o with
                | Some p => ret p
                | None =>
                    let! p := new_status zero_TaskStatus in
                    modify (λ s, set_heap (<[l := mkTaskObj (obj_api_version o) (obj_kind o)
                              (obj_metadata o) (obj_spec o) (Some p)]> (m_objs s))
                              (m_statuses s) (m_next s) s) ;;;
                    ret p
                end in
      let! s := get in
      let! st := deref (m_statuses s !! p) in
      modify (set_heap (m_objs s) (<[p := st_set_phase PhaseTerminating st]> (m_statuses s))
                (m_next s)) ;;;
      let! cp := clone_ptr l in
      notify_watchers key cp ;;;
      let! now := time_now in
      publish (mkTaskEvent (dec now) atespace name "delete") ;;;
      ret None
  end.

Definition DeleteTask (atespace name : string) : MS (option error) :=
  modify (λ s, set_tasks (delete (taskKey atespace name) (m_tasks s)) s) ;;; ret None.

(** ** Gateways, models and workspaces *)

Definition SaveGateway (gw : Gateway) : MS (option error * Gateway) :=
  let! m := deref (gw_metadata gw) in
  if decide (om_name m = "") then ret (Some (Errorf "gateway name is required" []), gw)
  else
    let m := if decide (om_atespace m = "") then om_set_atespace "default" m else m in
    let gw := gw_set_metadata (Some m) gw in
    modify (λ s, set_gateways (<[taskKey (om_atespace m) (om_name m) := gw]> (m_gateways s)) s) ;;;
    ret (None, gw).

Definition GetGateway (atespace name : string) : MS (res Gateway) :=
  let! s := get in
  match m_gateways s !! taskKey atespace name with
  | None => ret (Err ErrNotFound)
  | Some gw => ret (Ok gw)
  end.

Definition DeleteGateway (atespace name : string) : MS (option error) :=
  modify (λ s, set_gateways (delete (taskKey atespace name) (m_gateways s)) s) ;;; ret None.

Definition SaveModel (x : Model) : MS (option error * Model) :=
  let! m := deref (model_metadata x) in
  if decide (om_name m = "") then ret (Some (Errorf "model name is required" []), x)
  else
    let m := if decide (om_atespace m = "") then om_set_atespace "default" m else m in
    let x := model_set_metadata (Some m) x in
    modify (λ s, set_models (<[taskKey (om_atespace m) (om_name m) := x]> (m_models s)) s) ;;;
    ret (None, x).

Definition GetModel (atespace name : string) : MS (res Model) :=
  let! s := get in
  match m_models s !! taskKey atespace name with
  | None => ret (Err ErrNotFound)
  | Some x => ret (Ok x)
  end.

Definition DeleteModel (atespace name : string) : MS (option error) :=
  modify (λ s, set_models (delete (taskKey atespace name) (m_models s)) s) ;;; ret None.

Definition SaveWorkspace (ws : Workspace) : MS (option error * Workspace) :=
  let! m := deref (ws_metadata ws) in
  if decide (om_name m = "") then ret (Some (Errorf "workspace name is required" []), ws)
  else
    let m := if decide (om_atespace m = "") then om_set_atespace "default" m else m in
    let ws := ws_set_metadata (Some m) ws in
    modify (λ s, set_workspaces (<[taskKey (om_atespace m) (om_name m) := ws]> (m_workspaces s)) s) ;;;
    ret (None, ws).

Definition GetWorkspace (atespace name : string) : MS (res Workspace) :=
  let! s := get in
  match m_workspaces s !! taskKey atespace name with
  | None => ret (Err ErrNotFound)
  | Some ws => ret (Ok ws)
  end.

Definition DeleteWorkspace (atespace name : string) : MS (option error) :=
  modify (λ s, set_workspaces (delete (taskKey atespace name) (m_workspaces s)) s) ;;; ret None.

(** ** Events and watchers *)

(** What a blocking receive comes to: a value, the end of the context (or of the
    channel), or a wait. *)
Inductive received (A : Type) := Got (a : A) | Stopped | Blocked.
Arguments Got {A} a.
Arguments Stopped {A}.
Arguments Blocked {A}.

(** [subscription.Next]: a select between the shared event channel and the
    context. With both ready the runtime picks; [prefer_done] is its choice. *)
Definition Next (ctx_done prefer_done : bool) : MS (received TaskEvent) :=
  let! s := get in
  match m_events s with
  | ev :: rest =>
      if ctx_done && prefer_done then ret Stopped
      else modify (set_events rest) ;;; ret (Got ev)
  | [] => if ctx_done then ret Stopped else ret Blocked
  end.

Definition Ack (ev : TaskEvent) : MS (option error) := ret None.

(** [WatchTask]: a fresh channel registered for the key. *)
Definition WatchTask (atespace name : string) : MS nat := λ s,
  let key := taskKey atespace name in
  let ch := m_next s in
  (Ret ch,
   set_watchers (<[key := default [] (m_watchers s !! key) ++ [ch]]> (m_watchers s))
     (<[ch := mkChan [] false]> (m_chans s))
     (set_heap (m_objs s) (m_statuses s) (S (m_next s)) s)).

(** Removing the first occurrence of the channel from the watchers of its key. *)
Fixpoint remove_first (c : nat) (cs : list nat) : option (list nat) :=
  match cs with
  | [] => None
  | d :: cs' =>
      if decide (d = c) then Some cs'
      else match remove_first c cs' with Some r => Some (d :: r) | None => None end
  end.

(** The closer [WatchTask] returns: it unregisters and closes the channel, and
    does nothing when the channel is no longer registered. *)
Definition close_watch (key : string) (c : nat) : MS (option error) :=
  let! s := get in
  match remove_first c (default [] (m_watchers s !! key)) with
  | None => ret None
  | Some rest =>
      let! ch := deref (m_chans s !! c) in
      if ch_closed ch then panic
      else
        modify (set_watchers (<[key := rest]> (m_watchers s))
          (<[c := mkChan (ch_buf ch) true]> (m_chans s))) ;;;
        ret None
  end.

(** A watcher's receive: it reads the object the pointer denotes by now. *)
Definition recv (c : nat) : MS (received Task) :=
  let! s := get in
  let! ch := deref (m_chans s !! c) in
  match ch_buf ch with
  | l :: rest =>
      modify (set_watchers (m_watchers s) (<[c := mkChan rest (ch_closed ch)]> (m_chans s))) ;;;
      let! t := deref (load s l) in
      ret (Got t)
  | [] => if ch_closed ch then ret Stopped else ret Blocked
  end.
