(* ===== verification/MemoryInv.v ===== *)
(** The in-memory store refines the storage contract: its representation
    invariant (addresses, separation of the status objects of stored tasks,
    records filed under their own key, watchers with open channels), and the
    proof that every operation keeps it and has the effect [StoreLaws] states. *)

From S2P Require Import Prelude GoStrings Types StoreApi MemoryStore.

(** ** The invariant *)

Record heap_wf (objs : gmap nat TaskObj) (sts : gmap nat TaskStatus) (next : nat)
    (tasks : gmap string nat) : Prop := {
  hw_objs l o : objs !! l = Some o →
    (l < next)%nat ∧ ∀ p, obj_status o = Some p → is_Some (sts !! p);
  hw_sts p st : sts !! p = Some st → (p < next)%nat;
  hw_tasks k l : tasks !! k = Some l →
    ∃ o m, objs !! l = Some o ∧ obj_metadata o = Some m ∧ meta_key m = k ∧
      om_name m ≠ "";
  hw_sep k1 k2 l1 l2 o1 o2 p :
    tasks !! k1 = Some l1 → tasks !! k2 = Some l2 →
    objs !! l1 = Some o1 → objs !! l2 = Some o2 →
    obj_status o1 = Some p → obj_status o2 = Some p → k1 = k2;
}.

Record watch_wf (objs : gmap nat TaskObj) (next : nat)
    (watchers : gmap string (list nat)) (chans : gmap nat Chan) : Prop := {
  ww_open k cs c : watchers !! k = Some cs → c ∈ cs →
    ∃ buf, chans !! c = Some (mkChan buf false);
  ww_nodup k cs : watchers !! k = Some cs → NoDup cs;
  ww_disj k1 k2 cs1 cs2 c : watchers !! k1 = Some cs1 → watchers !! k2 = Some cs2 →
    c ∈ cs1 → c ∈ cs2 → k1 = k2;
  ww_chans c ch : chans !! c = Some ch →
    (c < next)%nat ∧ (length (ch_buf ch) ≤ watch_cap)%nat ∧
    Forall (λ l, is_Some (objs !! l)) (ch_buf ch);
}.

(** Records are filed under the key of their own metadata. *)
Definition filed {A} (meta : A → option ObjectMeta) (m : gmap string A) : Prop :=
  ∀ k x, m !! k = Some x → ∃ om, meta x = Some om ∧ meta_key om = k.

Record mem_inv (s : MemoryStore) : Prop := {
  mi_heap : heap_wf (m_objs s) (m_statuses s) (m_next s) (m_tasks s);
  mi_watch : watch_wf (m_objs s) (m_next s) (m_watchers s) (m_chans s);
  mi_gateways : filed gw_metadata (m_gateways s);
  mi_models : filed model_metadata (m_models s);
  mi_workspaces : filed ws_metadata (m_workspaces s);
  mi_events : (length (m_events s) ≤ event_cap)%nat;
}.

(** ** The view *)

Definition view_tasks (s : MemoryStore) : gmap string Task := omap (load s) (m_tasks s).
Definition mem_view (s : MemoryStore) : StoreView :=
  mkStoreView (view_tasks s) (m_gateways s) (m_workspaces s) (m_models s).

Lemma taskKey_res_key a n : taskKey a n = res_key a n.
Proof. reflexivity. Qed.

(** Two stored tasks never share an object. *)
Lemma heap_wf_inj objs sts next tasks k1 k2 l :
  heap_wf objs sts next tasks → tasks !! k1 = Some l → tasks !! k2 = Some l → k1 = k2.
Proof.
  intros Hw H1 H2. destruct (hw_tasks _ _ _ _ Hw _ _ H1) as (o & m & ? & ? & <- & _).
  destruct (hw_tasks _ _ _ _ Hw _ _ H2) as (o' & m' & ? & ? & <- & _). congruence.
Qed.

(** ** Allocation *)

Definition obj_of (t : Task) (p : option nat) : TaskObj :=
  mkTaskObj (task_api_version t) (task_kind t) (task_metadata t) (task_spec t) p.

(** What a clone adds to the heap: the object, and a status object if it has one. *)
Definition cloned (t : Task) (s : MemoryStore) (l : nat) (p : option nat)
    (sts : gmap nat TaskStatus) : Prop :=
  match task_status t with
  | None => l = m_next s ∧ p = None ∧ sts = m_statuses s
  | Some st => l = S (m_next s) ∧ p = Some (m_next s) ∧ sts = <[m_next s := st]> (m_statuses s)
  end.

Lemma clone_run t s : ∃ l p sts,
  cloned t s l p sts ∧
  clone t s = (Ret l, set_heap (<[l := obj_of t p]> (m_objs s)) sts (S l) s).
Proof. unfold clone, cloned. destruct (task_status t); repeat eexists. Qed.

Lemma heap_fresh objs sts next tasks : heap_wf objs sts next tasks →
  ∀ n, (next ≤ n)%nat → objs !! n = None ∧ sts !! n = None.
Proof.
  intros Hw n Hn. split; apply eq_None_not_Some; intros [x Hx].
  - apply (hw_objs _ _ _ _ Hw) in Hx as [? _]. lia.
  - apply (hw_sts _ _ _ _ Hw) in Hx. lia.
Qed.

Lemma cloned_status t s l p sts q : cloned t s l p sts → p = Some q → q = m_next s ∧ is_Some (sts !! q).
Proof.
  unfold cloned. destruct (task_status t); intros (-> & -> & ->) ?; simplify_eq.
  rewrite lookup_insert_eq. eauto.
Qed.

Lemma cloned_lookup_old t s l p sts q st :
  heap_wf (m_objs s) (m_statuses s) (m_next s) (m_tasks s) → cloned t s l p sts →
  m_statuses s !! q = Some st → sts !! q = Some st.
Proof.
  intros Hw Hc Hq. pose proof (hw_sts _ _ _ _ Hw _ _ Hq).
  unfold cloned in Hc. destruct (task_status t); destruct Hc as (-> & -> & ->); [|done].
  by rewrite lookup_insert_ne by lia.
Qed.

Lemma cloned_heap_wf t s l p sts :
  heap_wf (m_objs s) (m_statuses s) (m_next s) (m_tasks s) → cloned t s l p sts →
  heap_wf (<[l := obj_of t p]> (m_objs s)) sts (S l) (m_tasks s) ∧ (m_next s ≤ l)%nat.
Proof.
  intros Hw Hc.
  assert (m_next s ≤ l)%nat as Hl.
  { unfold cloned in Hc. destruct (task_status t); destruct Hc as (-> & _); lia. }
  assert (∀ k l', m_tasks s !! k = Some l' → l' ≠ l) as Hold.
  { intros k l' (o & m & Ho & _)%(hw_tasks _ _ _ _ Hw) ->.
    apply (hw_objs _ _ _ _ Hw) in Ho as [? _]. lia. }
  split; [|done]. split.
  - intros l' o [[<- <-]|[Hne Ho]]%lookup_insert_Some.
    + split; [lia|]. intros q Hq. by apply (cloned_status _ _ _ _ _ q) in Hc as [_ ?].
    + apply (hw_objs _ _ _ _ Hw) in Ho as [? Hst]. split; [lia|].
      intros q [st Hq]%Hst. exists st. by eapply cloned_lookup_old.
  - intros q st Hq. unfold cloned in Hc.
    destruct (task_status t); destruct Hc as (-> & -> & ->).
    + apply lookup_insert_Some in Hq as [[<- _]|[_ Hq]]; [lia|].
      apply (hw_sts _ _ _ _ Hw) in Hq. lia.
    + apply (hw_sts _ _ _ _ Hw) in Hq. lia.
  - intros k l' Hk. destruct (hw_tasks _ _ _ _ Hw _ _ Hk) as (o & m & ? & ? & ? & ?).
    exists o, m. by rewrite lookup_insert_ne by (by symmetry; eapply Hold).
  - intros k1 k2 l1 l2 o1 o2 q Hk1 Hk2.
    rewrite !lookup_insert_ne by (symmetry; eauto). by eapply (hw_sep _ _ _ _ Hw).
Qed.

Lemma cloned_load t s l p sts s' :
  cloned t s l p sts → s' = set_heap (<[l := obj_of t p]> (m_objs s)) sts (S l) s →
  load s' l = Some t.
Proof.
  intros Hc ->. unfold load. cbn. rewrite lookup_insert_eq. cbn.
  unfold load_obj, load_status, obj_of. cbn. f_equal.
  destruct t as [? ? ? ? st]. unfold cloned in Hc. cbn in *.
  destruct st; destruct Hc as (-> & -> & ->); cbn; [|done]. by rewrite lookup_insert_eq.
Qed.

(** Loads through objects of the old heap are unchanged. *)
Lemma cloned_load_old t s l p sts s' l' o :
  heap_wf (m_objs s) (m_statuses s) (m_next s) (m_tasks s) →
  cloned t s l p sts → s' = set_heap (<[l := obj_of t p]> (m_objs s)) sts (S l) s →
  m_objs s !! l' = Some o → load s' l' = load s l'.
Proof.
  intros Hw Hc -> Ho. pose proof (cloned_heap_wf _ _ _ _ _ Hw Hc) as [_ Hl].
  destruct (hw_objs _ _ _ _ Hw _ _ Ho) as [Hlt Hst].
  unfold load. cbn. rewrite lookup_insert_ne by lia. rewrite Ho. cbn.
  unfold load_obj, load_status. cbn. do 2 f_equal.
  destruct (obj_status o) as [q|]; [|done]. cbn.
  destruct (Hst q eq_refl) as [st Hq]. rewrite Hq. by eapply cloned_lookup_old.
Qed.

(** ** Channels *)

Lemma try_send_run objs next p c s :
  watch_wf objs next (m_watchers s) (m_chans s) → is_Some (objs !! p) →
  (∃ buf, m_chans s !! c = Some (mkChan buf false)) →
  ∃ chans, try_send p c s = (Ret tt, set_watchers (m_watchers s) chans s) ∧
    watch_wf objs next (m_watchers s) chans.
Proof.
  intros Hw Hp [buf Hc]. unfold try_send, bind, get. rewrite Hc. cbn.
  destruct (decide _) as [Hlt|].
  - eexists. split; [reflexivity|]. destruct Hw as [Hopen ? ? Hch]. split; [|done..|].
    + intros k cs d Hk Hd. destruct (decide (c = d)) as [->|].
      * rewrite lookup_insert_eq. eauto.
      * rewrite lookup_insert_ne by done. eauto.
    + intros d ch [[<- <-]|[_ Hd]]%lookup_insert_Some; [|eauto].
      destruct (Hch _ _ Hc) as (? & ? & ?). cbn in *. rewrite length_app, Forall_app. cbn.
      split_and!; [done|lia|done|by apply Forall_singleton].
  - exists (m_chans s). split; [|done]. by destruct s.
Qed.

Lemma notify_run objs next p cs s :
  watch_wf objs next (m_watchers s) (m_chans s) → is_Some (objs !! p) →
  (∀ c, c ∈ cs → ∃ k cs', m_watchers s !! k = Some cs' ∧ c ∈ cs') →
  ∃ chans, notify p cs s = (Ret tt, set_watchers (m_watchers s) chans s) ∧
    watch_wf objs next (m_watchers s) chans.
Proof.
  intros Hw Hp. revert s Hw. induction cs as [|c cs IH]; intros s Hw Hcs; cbn.
  { exists (m_chans s). split; [by destruct s|done]. }
  destruct (Hcs c) as (k & cs' & Hk & Hc); [set_solver|].
  destruct (try_send_run objs next p c s Hw Hp) as (chans & Hrun & Hw').
  { by eapply (ww_open _ _ _ _ Hw). }
  rewrite (bind_Ret _ _ _ _ _ Hrun).
  destruct (IH (set_watchers (m_watchers s) chans s) Hw') as (chans' & Hrun' & Hw'').
  { intros. apply Hcs. set_solver. }
  exists chans'. by rewrite Hrun'.
Qed.

Lemma notify_watchers_run objs next key p s :
  watch_wf objs next (m_watchers s) (m_chans s) → is_Some (objs !! p) →
  ∃ chans, notify_watchers key p s = (Ret tt, set_watchers (m_watchers s) chans s) ∧
    watch_wf objs next (m_watchers s) chans.
Proof.
  intros Hw Hp. unfold notify_watchers, bind, get. eapply notify_run; [done..|].
  intros c Hc. destruct (m_watchers s !! key) as [cs|] eqn:E; cbn in Hc; [eauto|set_solver].
Qed.

Lemma publish_run ev s : (length (m_events s) ≤ event_cap)%nat →
  ∃ evs, publish ev s = (Ret tt, set_events evs s) ∧ (length evs ≤ event_cap)%nat ∧
    evs = if decide (length (m_events s) < event_cap)%nat then m_events s ++ [ev] else m_events s.
Proof.
  intros Hlen. unfold publish, bind, get. case_decide.
  - eexists. split_and!; [reflexivity| |done]. rewrite length_app. cbn. lia.
  - exists (m_events s). split_and!; [by destruct s|done..].
Qed.

(** Growing the heap keeps the watchers well formed. *)
Lemma watch_wf_mono objs objs' next next' w ch :
  watch_wf objs next w ch → (next ≤ next')%nat →
  (∀ l, is_Some (objs !! l) → is_Some (objs' !! l)) → watch_wf objs' next' w ch.
Proof.
  intros [? ? ? Hch] Hn Hobjs. split; [done..|].
  intros c cc Hc. destruct (Hch _ _ Hc) as (? & ? & HF). split_and!; [lia|done|].
  eapply Forall_impl; [exact HF|]. auto.
Qed.

Lemma is_Some_insert {A} (m : gmap nat A) l x k : is_Some (m !! k) → is_Some (<[l := x]> m !! k).
Proof. intros H. rewrite lookup_insert. case_decide; eauto. Qed.
#[export] Hint Resolve is_Some_insert : go.

(** ** The view *)

Lemma view_tasks_lookup s k : view_tasks s !! k = m_tasks s !! k ≫= load s.
Proof. apply lookup_omap. Qed.

Lemma view_tasks_insert s s' k t :
  (∃ l, m_tasks s' !! k = Some l ∧ load s' l = Some t) →
  (∀ k' l', k' ≠ k → m_tasks s' !! k' = Some l' →
     m_tasks s !! k' = Some l' ∧ load s' l' = load s l') →
  (∀ k' l', k' ≠ k → m_tasks s !! k' = Some l' → m_tasks s' !! k' = Some l') →
  view_tasks s' = <[k := t]> (view_tasks s).
Proof.
  intros (l & Hk & Hl) Hsame Hback. apply map_eq. intros k'.
  destruct (decide (k = k')) as [<-|Hne].
  - rewrite lookup_insert_eq, view_tasks_lookup, Hk. done.
  - rewrite lookup_insert_ne, !view_tasks_lookup by done.
    destruct (m_tasks s' !! k') as [l'|] eqn:E'.
    + destruct (Hsame k' l') as [-> Hload]; [done..|]. done.
    + destruct (m_tasks s !! k') as [l'|] eqn:E; [|done].
      apply Hback in E; [congruence|done].
Qed.

Lemma view_tasks_some s k t : heap_wf (m_objs s) (m_statuses s) (m_next s) (m_tasks s) →
  view_tasks s !! k = Some t →
  ∃ l o, m_tasks s !! k = Some l ∧ m_objs s !! l = Some o ∧ t = load_obj s o.
Proof.
  intros Hw. rewrite view_tasks_lookup. destruct (m_tasks s !! k) as [l|] eqn:E; [|done].
  cbn. unfold load. intros (o & Ho & ->)%fmap_Some. eauto 6.
Qed.

Lemma view_tasks_none s k : heap_wf (m_objs s) (m_statuses s) (m_next s) (m_tasks s) →
  view_tasks s !! k = None → m_tasks s !! k = None.
Proof.
  intros Hw. rewrite view_tasks_lookup. destruct (m_tasks s !! k) as [l|] eqn:E; [|done].
  destruct (hw_tasks _ _ _ _ Hw _ _ E) as (o & m & Ho & _).
  intros H. change (load s l = None) in H. unfold load in H. by rewrite Ho in H.
Qed.

Lemma view_tasks_filed s k t : heap_wf (m_objs s) (m_statuses s) (m_next s) (m_tasks s) →
  view_tasks s !! k = Some t → ∃ m, task_metadata t = Some m ∧ meta_key m = k ∧ om_name m ≠ "".
Proof.
  intros Hw (l & o & Hl & Ho & ->)%view_tasks_some; [|done].
  destruct (hw_tasks _ _ _ _ Hw _ _ Hl) as (o' & m & ? & ? & ? & ?). simplify_eq. by exists m.
Qed.

(** ** Tasks *)

Lemma mem_inv_intro s objs sts next tasks chans evs c :
  mem_inv s → heap_wf objs sts next tasks → watch_wf objs next (m_watchers s) chans →
  (length evs ≤ event_cap)%nat →
  mem_inv (mkMemoryStore objs sts next tasks (m_gateways s) (m_models s) (m_workspaces s)
             evs (m_watchers s) chans c).
Proof. intros [] ? ? ?. by split. Qed.

Lemma mem_defaults_metadata t m : task_metadata t = Some m →
  task_metadata (task_defaults t) = Some (saved_meta m).
Proof.
  intros H. unfold task_defaults, saved_meta, default_atespace. rewrite H. cbn.
  case_decide; [done|]. by destruct m.
Qed.


Lemma heap_wf_file objs sts next tasks k l o m p :
  heap_wf objs sts next tasks → objs !! l = Some o → obj_metadata o = Some m → meta_key m = k →
  om_name m ≠ "" → obj_status o = Some p →
  (∀ k' l' o', tasks !! k' = Some l' → objs !! l' = Some o' → obj_status o' ≠ Some p) →
  heap_wf objs sts next (<[k := l]> tasks).
Proof.
  intros Hw Ho Hm Hk Hn Hp Hfresh. destruct Hw as [H1 H2 H3 H4]. split; [done..| |].
  - intros k' l' [[<- <-]|[_ ?]]%lookup_insert_Some; eauto 6.
  - intros k1 k2 l1 l2 o1 o2 q [[<- <-]|[? E1]]%lookup_insert_Some
      [[<- <-]|[? E2]]%lookup_insert_Some ? ? ? ?; simplify_eq; try done.
    + by destruct (Hfresh _ _ _ E2 ltac:(eassumption)).
    + by destruct (Hfresh _ _ _ E1 ltac:(eassumption)).
    + eauto.
Qed.

Lemma time_now_run s : time_now s = (Ret (clock_now (m_clock s)), set_clock (clock_tick (m_clock s)) s).
Proof. reflexivity. Qed.

(** The event queue after an event was offered to it: full queues drop it. *)
Definition offered (ev : TaskEvent) (evs : list TaskEvent) : list TaskEvent :=
  if decide (length evs < event_cap)%nat then evs ++ [ev] else evs.

Lemma SaveTask_full s t m : mem_inv s → task_metadata t = Some m → om_name m ≠ "" →
  ∃ s', SaveTask t s = (Ret (None, task_defaults t), s') ∧ mem_inv s' ∧
    mem_view s' = v_set_tasks (<[meta_key m := task_defaults t]> (view_tasks s)) (mem_view s) ∧
    m_events s' = offered (mkTaskEvent (dec (clock_now (m_clock s)))
      (default_atespace (om_atespace m)) (om_name m) "reconcile") (m_events s).
Proof.
  intros Hinv Hm Hn. unfold SaveTask. rewrite !Hm. cbn [from_option].
  rewrite decide_False by done. cbv zeta.
  pose proof (mem_defaults_metadata t m Hm) as Hm'. set (t' := task_defaults t) in *.
  rewrite Hm'. destruct (clone_run t' s) as (l & p & sts & Hc & Hrun).
  pose proof (mi_heap s Hinv) as Hw. pose proof (cloned_heap_wf _ _ _ _ _ Hw Hc) as [Hw1 Hl].
  assert (p = Some (m_next s)) as Hp by (by destruct Hc as (_ & ? & _)).
  mstep. change (taskKey _ _) with (meta_key (saved_meta m)).
  rewrite saved_meta_key.
  match goal with |- context [bind time_now ?k ?s0] =>
    rewrite (bind_Ret time_now k s0 _ _ (time_now_run s0)) end.
  set (objs := <[l := obj_of t' p]> (m_objs s)) in *.
  match goal with |- context [bind (notify_watchers ?k ?c) _ ?s0] =>
    destruct (notify_watchers_run objs (S l) k c s0) as (chans & Hn' & Hww) end.
  { eapply watch_wf_mono; [exact (mi_watch s Hinv)|lia|]. intros. by apply is_Some_insert. }
  { unfold objs. rewrite lookup_insert_eq. eauto. }
  mstep.
  match goal with |- context [bind (publish ?e) _ ?s0] =>
    destruct (publish_run e s0) as (evs & Hpub & Hevs & Hoff); [apply (mi_events s Hinv)|] end.
  mstep. eexists. split; [reflexivity|]. split_and!; [| |exact Hoff].
  - apply (mem_inv_intro s objs sts (S l) (<[meta_key m := l]> (m_tasks s)) chans evs);
      [done| |done|done].
    eapply heap_wf_file; [exact Hw1|by apply lookup_insert_eq|done|apply saved_meta_key|done|done|].
    intros k' l' o' Hk Ho' Hq. unfold objs in Ho'. rewrite lookup_insert_ne in Ho'.
    + apply (hw_objs _ _ _ _ Hw) in Ho' as [_ Hst]. destruct (Hst _ Hq) as [st Hst'].
      apply (hw_sts _ _ _ _ Hw) in Hst'. lia.
    + intros <-. destruct (hw_tasks _ _ _ _ Hw _ _ Hk) as (o & ? & Ho & _).
      apply (hw_objs _ _ _ _ Hw) in Ho as [? _]. lia.
  - unfold mem_view, v_set_tasks. f_equal. apply view_tasks_insert; cbn.
    + exists l. split; [by apply lookup_insert_eq|]. exact (cloned_load t' s l p sts _ Hc eq_refl).
    + intros k' l' Hne Hk'. rewrite lookup_insert_ne in Hk' by done. split; [done|].
      destruct (hw_tasks _ _ _ _ Hw _ _ Hk') as (o & ? & Ho & _).
      exact (cloned_load_old t' s l p sts _ l' o Hw Hc eq_refl Ho).
    + intros k' l' Hne Hk'. by rewrite lookup_insert_ne.
Qed.

Lemma mem_SaveTask_run s t m : mem_inv s → task_metadata t = Some m → om_name m ≠ "" →
  runs_to mem_inv mem_view (SaveTask t) s (None, task_defaults t)
    (v_set_tasks (<[meta_key m := task_defaults t]> (view_tasks s)) (mem_view s)).
Proof.
  intros Hinv Hm Hn. destruct (SaveTask_full s t m Hinv Hm Hn) as (s' & ? & ? & ? & _). by exists s'.
Qed.

(** Sending a clone of a stored task to the watchers of its key changes neither
    the view nor the invariant. *)
Lemma broadcast_run {B} key l (K : MS B) s : mem_inv s → m_tasks s !! key = Some l →
  ∃ s', bind (clone_ptr l) (λ cp, notify_watchers key cp ;;; K) s = K s' ∧
    mem_inv s' ∧ mem_view s' = mem_view s ∧ m_events s' = m_events s ∧
    m_clock s' = m_clock s.
Proof.
  intros Hinv Hl. pose proof (mi_heap s Hinv) as Hw.
  destruct (hw_tasks _ _ _ _ Hw _ _ Hl) as (o & ? & Ho & _).
  destruct (clone_run (load_obj s o) s) as (l' & p & sts & Hc & Hrun).
  pose proof (cloned_heap_wf _ _ _ _ _ Hw Hc) as [Hw1 Hle].
  assert (clone_ptr l s = (Ret l', set_heap (<[l':=obj_of (load_obj s o) p]> (m_objs s)) sts (S l') s))
    as Hcp.
  { unfold clone_ptr. mstep. unfold load. rewrite Ho. by mstep. }
  mstep.
  match goal with |- context [bind (notify_watchers ?k ?c) _ ?s0] =>
    destruct (notify_watchers_run (<[l' := obj_of (load_obj s o) p]> (m_objs s)) (S l') k c s0)
      as (chans & Hn' & Hww) end.
  { eapply watch_wf_mono; [exact (mi_watch s Hinv)|lia|]. intros. by apply is_Some_insert. }
  { rewrite lookup_insert_eq. eauto. }
  mstep. eexists. split; [reflexivity|]. split_and!; [| |done..].
  - by apply (mem_inv_intro s (<[l' := obj_of (load_obj s o) p]> (m_objs s)) sts (S l')
      (m_tasks s) chans (m_events s) (m_clock s)); [| | |apply (mi_events s Hinv)].
  - unfold mem_view. f_equal. apply map_eq. intros k. rewrite !view_tasks_lookup. cbn.
    destruct (m_tasks s !! k) as [lk|] eqn:Hk; [|done].
    destruct (hw_tasks _ _ _ _ Hw _ _ Hk) as (ok & ? & Hok & _).
    exact (cloned_load_old _ s l' p sts _ lk ok Hw Hc eq_refl Hok).
Qed.

Definition repoint (o : TaskObj) (p : option nat) : TaskObj :=
  mkTaskObj (obj_api_version o) (obj_kind o) (obj_metadata o) (obj_spec o) p.

(** A status pointer no other stored task uses. *)
Definition unshared (s : MemoryStore) (key : string) (p : option nat) : Prop :=
  ∀ q, p = Some q → is_Some (m_statuses s !! q) ∧
    ∀ k l o, k ≠ key → m_tasks s !! k = Some l → m_objs s !! l = Some o → obj_status o ≠ Some q.

Lemma repoint_wf s key l o p : mem_inv s → m_tasks s !! key = Some l → m_objs s !! l = Some o →
  unshared s key p →
  let s' := set_heap (<[l := repoint o p]> (m_objs s)) (m_statuses s) (m_next s) s in
  mem_inv s' ∧
  mem_view s' = v_set_tasks (<[key := task_set_status (load_status s p) (load_obj s o)]>
                  (view_tasks s)) (mem_view s).
Proof.
  intros Hinv Hl Ho Hp s'. pose proof (mi_heap s Hinv) as Hw.
  assert (∀ k lk, k ≠ key → m_tasks s !! k = Some lk → lk ≠ l) as Hne.
  { intros k lk Hk Hlk ->. by destruct (Hk (heap_wf_inj _ _ _ _ _ _ _ Hw Hlk Hl)). }
  split.
  - apply (mem_inv_intro s (<[l := repoint o p]> (m_objs s)) (m_statuses s) (m_next s)
      (m_tasks s) (m_chans s) (m_events s) (m_clock s)); [done| | |apply (mi_events s Hinv)].
    + split.
      * intros l' o' [[<- <-]|[_ Ho']]%lookup_insert_Some.
        -- split; [by apply (hw_objs _ _ _ _ Hw) in Ho as [? _]|]. intros q Hq. by apply Hp.
        -- by apply (hw_objs _ _ _ _ Hw).
      * apply (hw_sts _ _ _ _ Hw).
      * intros k lk Hk. destruct (hw_tasks _ _ _ _ Hw _ _ Hk) as (ok & m & Hok & ? & ? & ?).
        destruct (decide (lk = l)) as [->|].
        -- simplify_eq. exists (repoint o p), m. by rewrite lookup_insert_eq.
        -- exists ok, m. by rewrite lookup_insert_ne.
      * intros k1 k2 l1 l2 o1 o2 q Hk1 Hk2 Ho1 Ho2 Hq1 Hq2.
        destruct (decide (k1 = key)) as [->|N1], (decide (k2 = key)) as [->|N2]; [done| | |].
        -- rewrite Hl in Hk1. injection Hk1 as <-. rewrite lookup_insert_eq in Ho1.
           injection Ho1 as <-. rewrite lookup_insert_ne in Ho2 by (symmetry; eauto).
           destruct (Hp q Hq1) as [_ Hun]. by destruct (Hun _ _ _ N2 Hk2 Ho2).
        -- rewrite Hl in Hk2. injection Hk2 as <-. rewrite lookup_insert_eq in Ho2.
           injection Ho2 as <-. rewrite lookup_insert_ne in Ho1 by (symmetry; eauto).
           destruct (Hp q Hq2) as [_ Hun]. by destruct (Hun _ _ _ N1 Hk1 Ho1).
        -- rewrite lookup_insert_ne in Ho1, Ho2 by (symmetry; eauto).
           by eapply (hw_sep _ _ _ _ Hw).
    + eapply watch_wf_mono; [exact (mi_watch s Hinv)|done|]. intros. by apply is_Some_insert.
  - unfold mem_view, v_set_tasks. f_equal. apply view_tasks_insert; cbn.
    + exists l. split; [done|]. unfold load. cbn. by rewrite lookup_insert_eq.
    + intros k lk Hk Hlk. split; [done|]. unfold load. cbn.
      by rewrite lookup_insert_ne by (symmetry; eauto).
    + done.
Qed.

(** Allocating a status object nothing points to yet. *)
Lemma new_status_run st s : mem_inv s → ∃ s',
  new_status st s = (Ret (m_next s), s') ∧ mem_inv s' ∧ mem_view s' = mem_view s ∧
  m_tasks s' = m_tasks s ∧ m_objs s' = m_objs s ∧ m_events s' = m_events s ∧
  m_statuses s' !! m_next s = Some st ∧
  (∀ o l, m_objs s !! l = Some o → load_obj s' o = load_obj s o) ∧
  (∀ key, unshared s' key (Some (m_next s))).
Proof.
  intros Hinv. pose proof (mi_heap s Hinv) as Hw. eexists. split; [reflexivity|].
  assert (∀ o l q, m_objs s !! l = Some o → obj_status o = Some q → q ≠ m_next s) as Hfresh.
  { intros o l q Ho Hq ->. apply (hw_objs _ _ _ _ Hw) in Ho as [_ H].
    destruct (H _ Hq) as [? H']. apply (hw_sts _ _ _ _ Hw) in H'. lia. }
  assert (∀ o l, m_objs s !! l = Some o →
    load_obj (set_heap (m_objs s) (<[m_next s := st]> (m_statuses s)) (S (m_next s)) s) o
      = load_obj s o) as Hload.
  { intros o l Ho. unfold load_obj, load_status. f_equal.
    destruct (obj_status o) as [q|] eqn:Hq; [|done]. cbn.
    rewrite lookup_insert_ne; [done|]. intros <-. by eapply Hfresh. }
  split_and!; try done.
  - apply (mem_inv_intro s (m_objs s) (<[m_next s := st]> (m_statuses s)) (S (m_next s))
      (m_tasks s) (m_chans s) (m_events s) (m_clock s)); [done| | |apply (mi_events s Hinv)].
    + destruct Hw as [H1 H2 H3 H4]. split; [| |done..].
      * intros l o Ho. apply H1 in Ho as [? Hq]. split; [lia|]. intros q ?%Hq.
        by apply is_Some_insert.
      * intros q st' [[<- _]|[_ Hq%H2]]%lookup_insert_Some; lia.
    + eapply watch_wf_mono; [exact (mi_watch s Hinv)|lia|done].
  - unfold mem_view. f_equal. apply map_eq. intros k. rewrite !view_tasks_lookup. cbn.
    destruct (m_tasks s !! k) as [lk|] eqn:Hk; [|done].
    destruct (hw_tasks _ _ _ _ Hw _ _ Hk) as (ok & ? & Hok & _).
    change (load (set_heap (m_objs s) (<[m_next s := st]> (m_statuses s)) (S (m_next s)) s) lk
      = load s lk). unfold load. cbn. rewrite Hok. cbn. f_equal. by eapply Hload.
  - cbn. by rewrite lookup_insert_eq.
  - intros key q [= <-]. split; [cbn; rewrite lookup_insert_eq; eauto|].
    intros k l o _ _ Ho Hq. by eapply Hfresh.
Qed.

(** Mutating in place the status object of one stored task. *)
Lemma mutate_status_wf s key l o p st st' : mem_inv s → m_tasks s !! key = Some l →
  m_objs s !! l = Some o → obj_status o = Some p → m_statuses s !! p = Some st →
  let s' := set_heap (m_objs s) (<[p := st']> (m_statuses s)) (m_next s) s in
  mem_inv s' ∧
  mem_view s' = v_set_tasks (<[key := task_set_status (Some st') (load_obj s o)]>
                  (view_tasks s)) (mem_view s).
Proof.
  intros Hinv Hl Ho Hp Hst s'. pose proof (mi_heap s Hinv) as Hw. split.
  - apply (mem_inv_intro s (m_objs s) (<[p := st']> (m_statuses s)) (m_next s)
      (m_tasks s) (m_chans s) (m_events s) (m_clock s));
      [done| |exact (mi_watch s Hinv)|apply (mi_events s Hinv)].
    destruct Hw as [H1 H2 H3 H4]. split; [| |done..].
    + intros l' o' [? Hq]%H1. split; [done|]. intros q ?%Hq. by apply is_Some_insert.
    + intros q st0 [[<- _]|[_ ?%H2]]%lookup_insert_Some; [|done]. by eapply H2.
  - unfold mem_view, v_set_tasks. f_equal. apply view_tasks_insert; cbn; [|intros k lk Hk Hlk|done].
    + exists l. split; [done|]. unfold load. cbn. rewrite Ho. cbn. f_equal.
      unfold load_obj, load_status, task_set_status. cbn. rewrite Hp. cbn.
      by rewrite lookup_insert_eq.
    + split; [done|]. destruct (hw_tasks _ _ _ _ Hw _ _ Hlk) as (ok & ? & Hok & _).
      unfold load. cbn. rewrite Hok. cbn. f_equal. unfold load_obj, load_status. cbn. f_equal.
      destruct (obj_status ok) as [q|] eqn:Hq; [|done]. cbn.
      rewrite lookup_insert_ne; [done|]. intros ->.
      destruct (hw_sep _ _ _ _ Hw k key lk l ok o q Hlk Hl Hok Ho Hq Hp). done.
Qed.

Lemma UpdateTaskStatus_ptr_run s a n p l o : mem_inv s →
  m_tasks s !! taskKey a n = Some l → m_objs s !! l = Some o → unshared s (taskKey a n) p →
  runs_to mem_inv mem_view (UpdateTaskStatus_ptr a n p) s None
    (v_set_tasks (<[taskKey a n := task_set_status (load_status s p) (load_obj s o)]>
       (view_tasks s)) (mem_view s)).
Proof.
  intros Hinv Hl Ho Hp. unfold runs_to, UpdateTaskStatus_ptr. cbv zeta. mstep.
  rewrite Hl. rewrite Ho. mstep.
  destruct (repoint_wf s _ l o p Hinv Hl Ho Hp) as [Hinv1 Hview1].
  destruct (broadcast_run (taskKey a n) l (ret (None : option error)) _ Hinv1 Hl)
    as (s2 & Hrun & Hinv2 & Hview2 & _).
  match goal with |- ∃ s', ?m = _ ∧ _ => change m with (bind (clone_ptr l) (λ cp,
    notify_watchers (taskKey a n) cp ;;; ret (None : option error)) 
    (set_heap (<[l:=repoint o p]> (m_objs s)) (m_statuses s) (m_next s) s)) end.
  rewrite Hrun.
  eexists. split; [reflexivity|]. split; [done|]. by rewrite Hview2.
Qed.

Lemma mem_UpdateTaskStatus_run s a n st : mem_inv s →
  match view_tasks s !! taskKey a n with
  | Some t => runs_to mem_inv mem_view (UpdateTaskStatus a n st) s None
      (v_set_tasks (<[taskKey a n := task_set_status st t]> (view_tasks s)) (mem_view s))
  | None => runs_to mem_inv mem_view (UpdateTaskStatus a n st) s (Some ErrNotFound) (mem_view s)
  end.
Proof.
  intros Hinv. unfold UpdateTaskStatus.
  assert (∃ p s1, new_status_opt st s = (Ret p, s1) ∧ mem_inv s1 ∧ mem_view s1 = mem_view s ∧
    m_tasks s1 = m_tasks s ∧ m_objs s1 = m_objs s ∧ load_status s1 p = st ∧
    (∀ o l, m_objs s !! l = Some o → load_obj s1 o = load_obj s o) ∧
    ∀ key, unshared s1 key p) as (p & s1 & Hrun & Hinv1 & Hv1 & Ht1 & Ho1 & Hst1 & Hold & Hun).
  { destruct st as [st|]; cbn [new_status_opt].
    - destruct (new_status_run st s Hinv) as (s1 & Hrun & ? & ? & ? & ? & _ & ? & ? & ?).
      exists (Some (m_next s)), s1. mstep. by split_and!.
    - exists None, s. by split_and!. }
  destruct (view_tasks s !! taskKey a n) as [t|] eqn:Hv.
  - destruct (view_tasks_some _ _ _ (mi_heap s Hinv) Hv) as (l & o & Hl & Ho & ->).
    unfold runs_to. mstep. rewrite <- Ht1 in Hl.
    assert (Ho' := Ho). rewrite <- Ho1 in Ho'.
    destruct (UpdateTaskStatus_ptr_run s1 a n p l o Hinv1 Hl Ho' (Hun _)) as (s2 & -> & ? & Hv2).
    exists s2. split_and!; [done..|]. rewrite Hv2, Hst1, Hv1.
    rewrite (f_equal v_tasks Hv1 : view_tasks s1 = view_tasks s). by rewrite (Hold _ _ Ho).
  - apply (view_tasks_none _ _ (mi_heap s Hinv)) in Hv.
    unfold runs_to. mstep. unfold UpdateTaskStatus_ptr. mstep. cbv zeta. rewrite Ht1, Hv.
    by exists s1.
Qed.

(** [MarkTaskDeleting] makes sure the task has a status object to write to. *)
Lemma ensure_status_run s key l o : mem_inv s → m_tasks s !! key = Some l →
  m_objs s !! l = Some o → ∃ p s1 o1,
  (match obj_status o with
   | Some p => ret p
   | None =>
       let! p := new_status zero_TaskStatus in
       modify (λ s, set_heap (<[l := repoint o (Some p)]> (m_objs s)) (m_statuses s) (m_next s) s) ;;;
       ret p
   end) s = (Ret p, s1) ∧ mem_inv s1 ∧ m_tasks s1 = m_tasks s ∧ m_events s1 = m_events s ∧
  m_objs s1 !! l = Some o1 ∧ obj_status o1 = Some p ∧
  m_statuses s1 !! p = Some (default zero_TaskStatus (task_status (load_obj s o))) ∧
  (∀ st, task_set_status st (load_obj s1 o1) = task_set_status st (load_obj s o)) ∧
  ∃ t', mem_view s1 = v_set_tasks (<[key := t']> (view_tasks s)) (mem_view s).
Proof.
  intros Hinv Hl Ho. destruct (obj_status o) as [p|] eqn:Hp.
  - exists p, s, o. split_and!; try done.
    + destruct (hw_objs _ _ _ _ (mi_heap s Hinv) _ _ Ho) as [_ Hq].
      destruct (Hq _ Hp) as [st Hst]. rewrite Hst. unfold load_obj, load_status. cbn.
      rewrite Hp. cbn. by rewrite Hst.
    + exists (load_obj s o). unfold mem_view, v_set_tasks. cbn. f_equal.
      rewrite insert_id; [done|]. rewrite view_tasks_lookup, Hl. cbn. unfold load. by rewrite Ho.
  - destruct (new_status_run zero_TaskStatus s Hinv)
      as (s1 & Hrun & Hinv1 & Hv1 & Ht1 & Ho1 & He1 & Hst1 & Hold & Hun).
    rewrite <- Ht1 in Hl. assert (Ho' := Ho). rewrite <- Ho1 in Ho'.
    destruct (repoint_wf s1 key l o _ Hinv1 Hl Ho' (Hun key)) as [Hinv2 Hv2].
    mstep. exists (m_next s). eexists. exists (repoint o (Some (m_next s))).
    split_and!; [reflexivity|exact Hinv2|exact Ht1|exact He1| |reflexivity| | |].
    + cbn. by rewrite lookup_insert_eq.
    + cbn. rewrite Hst1. unfold load_obj, load_status. cbn. by rewrite Hp.
    + done.
    + eexists. rewrite Hv2, Hv1. by rewrite (f_equal v_tasks Hv1 : view_tasks s1 = view_tasks s).
Qed.

Lemma MarkTaskDeleting_full s a n t : mem_inv s → view_tasks s !! taskKey a n = Some t →
  ∃ s' id, MarkTaskDeleting a n s = (Ret None, s') ∧ mem_inv s' ∧
    mem_view s' = v_set_tasks (<[taskKey a n := marked_deleting t]> (view_tasks s)) (mem_view s) ∧
    m_events s' = offered (mkTaskEvent id a n "delete") (m_events s).
Proof.
  intros Hinv Hv.
  destruct (view_tasks_some _ _ _ (mi_heap s Hinv) Hv) as (l & o & Hl & Ho & ->).
  unfold MarkTaskDeleting. cbv zeta. mstep. rewrite Hl, Ho. mstep.
  destruct (ensure_status_run s _ l o Hinv Hl Ho)
    as (p & s1 & o1 & Hrun & Hinv1 & Ht1 & He1 & Ho1 & Hp1 & Hst1 & Hset & t' & Hv1).
  unfold repoint in Hrun. mstep. rewrite Hst1. mstep. rewrite <- Ht1 in Hl.
  set (st' := st_set_phase _ _).
  destruct (mutate_status_wf s1 _ l o1 p _ st' Hinv1 Hl Ho1 Hp1 Hst1) as [Hinv2 Hv2].
  match goal with |- context [bind (clone_ptr l) (λ cp, bind (notify_watchers ?k cp) (λ _, ?K)) ?s2] =>
    destruct (broadcast_run k l K s2 Hinv2 Hl) as (s3 & Hrun3 & Hinv3 & Hv3 & He3 & _) end.
  rewrite Hrun3.
  match goal with |- context [bind time_now ?k ?s0] =>
    rewrite (bind_Ret time_now k s0 _ _ (time_now_run s0)) end.
  match goal with |- context [bind (publish ?e) _ ?s0] =>
    destruct (publish_run e s0) as (evs & Hpub & Hevs & Hoff); [apply (mi_events s3 Hinv3)|] end.
  mstep. eexists _, _. split; [reflexivity|]. split; [destruct Hinv3; by split|]. split.
  - change (mem_view (set_events _ _)) with (mem_view s3). rewrite Hv3, Hv2.
    rewrite Hset, (f_equal v_tasks Hv1 : view_tasks s1 = _), Hv1.
    unfold v_set_tasks. cbn. by rewrite insert_insert_eq.
  - cbn in Hoff |- *. rewrite Hoff. cbn in He3. by rewrite He3, He1.
Qed.

Lemma mem_MarkTaskDeleting_run s a n : mem_inv s →
  match view_tasks s !! taskKey a n with
  | Some t => runs_to mem_inv mem_view (MarkTaskDeleting a n) s None
      (v_set_tasks (<[taskKey a n := marked_deleting t]> (view_tasks s)) (mem_view s))
  | None => runs_to mem_inv mem_view (MarkTaskDeleting a n) s (Some ErrNotFound) (mem_view s)
  end.
Proof.
  intros Hinv. destruct (view_tasks s !! taskKey a n) as [t|] eqn:Hv.
  - destruct (MarkTaskDeleting_full s a n t Hinv Hv) as (s' & id & ? & ? & ? & _). by exists s'.
  - apply (view_tasks_none _ _ (mi_heap s Hinv)) in Hv. unfold runs_to, MarkTaskDeleting.
    cbv zeta. mstep. rewrite Hv. by exists s.
Qed.

Lemma GetTask_run s a n : mem_inv s →
  GetTask a n s = (Ret (found (view_tasks s !! res_key a n)), s).
Proof.
  intros Hinv. unfold GetTask. mstep. rewrite taskKey_res_key, view_tasks_lookup.
  destruct (m_tasks s !! res_key a n) as [l|] eqn:Hl; [|done].
  destruct (hw_tasks _ _ _ _ (mi_heap s Hinv) _ _ Hl) as (o & ? & Ho & _).
  change (Some l ≫= load s) with (load s l). unfold load. rewrite Ho. by mstep.
Qed.

Lemma mem_DeleteTask_run s a n : mem_inv s →
  runs_to mem_inv mem_view (DeleteTask a n) s None
    (v_set_tasks (delete (res_key a n) (view_tasks s)) (mem_view s)).
Proof.
  intros Hinv. unfold runs_to, DeleteTask. mstep. eexists. split; [reflexivity|]. split.
  - apply (mem_inv_intro s (m_objs s) (m_statuses s) (m_next s)
      (delete (res_key a n) (m_tasks s)) (m_chans s) (m_events s) (m_clock s));
      [done| |exact (mi_watch s Hinv)|apply (mi_events s Hinv)].
    destruct (mi_heap s Hinv) as [H1 H2 H3 H4]. split; [done..| |].
    + intros k l [_ ?]%lookup_delete_Some. eauto.
    + intros k1 k2 l1 l2 o1 o2 q [_ ?]%lookup_delete_Some [_ ?]%lookup_delete_Some. eauto.
  - unfold mem_view, v_set_tasks. f_equal. apply map_eq. intros k.
    rewrite lookup_delete, !view_tasks_lookup. cbn. rewrite lookup_delete.
    destruct (decide _); reflexivity.
Qed.

(** ** The other kinds: plain maps *)

Lemma filed_insert {A} (meta : A → option ObjectMeta) m k x om :
  filed meta m → meta x = Some om → meta_key om = k → filed meta (<[k := x]> m).
Proof. intros Hf Hx Hk k' y [[<- <-]|[_ ?]]%lookup_insert_Some; [eauto|by apply Hf]. Qed.
Lemma filed_delete {A} (meta : A → option ObjectMeta) m k :
  filed meta m → filed meta (delete k m).
Proof. intros Hf k' y [_ ?]%lookup_delete_Some. by apply Hf. Qed.

Lemma saved_meta_if m :
  (if decide (om_atespace m = "") then om_set_atespace "default" m else m) = saved_meta m.
Proof. unfold saved_meta, default_atespace. case_decide; [done|]. by destruct m. Qed.

Ltac kind_save m Hm Hn :=
  intros Hinv Hm Hn; unfold runs_to, SaveGateway, SaveModel, SaveWorkspace;
  rewrite Hm; mstep; rewrite decide_False by done; cbv zeta; rewrite saved_meta_if; mstep;
  change (taskKey _ _) with (meta_key (saved_meta m)); rewrite saved_meta_key;
  eexists; split; [reflexivity|]; split; [|done];
  destruct Hinv; split; try done; eapply filed_insert; [done|done|apply saved_meta_key].

Lemma mem_SaveGateway_run s g m : mem_inv s → gw_metadata g = Some m → om_name m ≠ "" →
  let g' := gw_set_metadata (Some (saved_meta m)) g in
  runs_to mem_inv mem_view (SaveGateway g) s (None, g')
    (v_set_gateways (<[meta_key m := g']> (m_gateways s)) (mem_view s)).
Proof. kind_save m Hm Hn. Qed.

Lemma mem_SaveModel_run s x m : mem_inv s → model_metadata x = Some m → om_name m ≠ "" →
  let x' := model_set_metadata (Some (saved_meta m)) x in
  runs_to mem_inv mem_view (SaveModel x) s (None, x')
    (v_set_models (<[meta_key m := x']> (m_models s)) (mem_view s)).
Proof. kind_save m Hm Hn. Qed.

Lemma mem_SaveWorkspace_run s w m : mem_inv s → ws_metadata w = Some m → om_name m ≠ "" →
  let w' := ws_set_metadata (Some (saved_meta m)) w in
  runs_to mem_inv mem_view (SaveWorkspace w) s (None, w')
    (v_set_workspaces (<[meta_key m := w']> (m_workspaces s)) (mem_view s)).
Proof. kind_save m Hm Hn. Qed.

(** The filing part of the saved messages. *)
Definition saved_with {A} (meta : A → option ObjectMeta)
    (set : option ObjectMeta → A → A) (x : A) : A :=
  set (saved_meta <$> meta x) x.

#[export] Instance mem_store `{!MapRange} : Store MemoryStore := {
  StoreApi.SaveTask := SaveTask;
  StoreApi.GetTask := GetTask;
  StoreApi.ListTasks := ListTasks;
  StoreApi.UpdateTaskStatus := UpdateTaskStatus;
  StoreApi.MarkTaskDeleting := MarkTaskDeleting;
  StoreApi.DeleteTask := DeleteTask;
  StoreApi.SaveGateway := SaveGateway;
  StoreApi.GetGateway := GetGateway;
  StoreApi.ListGateways := ListGateways;
  StoreApi.DeleteGateway := DeleteGateway;
  StoreApi.SaveWorkspace := SaveWorkspace;
  StoreApi.GetWorkspace := GetWorkspace;
  StoreApi.ListWorkspaces := ListWorkspaces;
  StoreApi.DeleteWorkspace := DeleteWorkspace;
  StoreApi.SaveModel := SaveModel;
  StoreApi.GetModel := GetModel;
  StoreApi.ListModels := ListModels;
  StoreApi.DeleteModel := DeleteModel;
}.

Ltac kind_get :=
  intros Hinv; unfold runs_to;
  cbn [StoreApi.GetGateway StoreApi.GetModel StoreApi.GetWorkspace mem_store mem_view
       v_gateways v_models v_workspaces];
  unfold GetGateway, GetModel, GetWorkspace; mstep;
  eexists; split; [|by split];
  match goal with |- context [?m !! taskKey ?a ?n] =>
    change (taskKey a n) with (res_key a n); by destruct (m !! res_key a n) end.

Ltac kind_delete :=
  intros Hinv; unfold runs_to;
  cbn [StoreApi.DeleteGateway StoreApi.DeleteModel StoreApi.DeleteWorkspace mem_store];
  unfold DeleteGateway, DeleteModel, DeleteWorkspace; mstep;
  eexists; split; [reflexivity|]; split; [|done]; destruct Hinv; split; try done; by apply filed_delete.

#[export] Instance mem_store_laws `{!MapRange} : StoreLaws MemoryStore.
Proof.
  refine {|
    s_inv := mem_inv;
    s_view := mem_view;
    saved_task := task_defaults;
    saved_gateway := saved_with gw_metadata gw_set_metadata;
    saved_workspace := saved_with ws_metadata ws_set_metadata;
    saved_model := saved_with model_metadata model_set_metadata;
    law_UpdateTaskStatus := λ s a n st Hinv _, mem_UpdateTaskStatus_run s a n st Hinv;
    law_MarkTaskDeleting := λ s a n Hinv, mem_MarkTaskDeleting_run s a n Hinv;
    law_DeleteTask := λ s a n Hinv, mem_DeleteTask_run s a n Hinv;
    law_SaveTask := λ s t m Hinv, mem_SaveTask_run s t m Hinv;
  |}.
  - apply mem_defaults_metadata.
  - done.
  - done.
  - intros g m Hg. unfold saved_with. cbn. by rewrite Hg.
  - done.
  - intros g m Hg. unfold saved_with. cbn. by rewrite Hg.
  - done.
  - intros g m Hg. unfold saved_with. cbn. by rewrite Hg.
  - done.
  - intros s k t Hinv. apply view_tasks_filed, Hinv.
  - intros s a n Hinv. exists s. split; [by apply GetTask_run|done].
  - intros s g m Hinv Hm Hn. unfold saved_with. rewrite Hm. by apply mem_SaveGateway_run.
  - intros s a n. kind_get.
  - intros s a n. kind_delete.
  - intros s g m Hinv Hm Hn. unfold saved_with. rewrite Hm. by apply mem_SaveWorkspace_run.
  - intros s a n. kind_get.
  - intros s a n. kind_delete.
  - intros s g m Hinv Hm Hn. unfold saved_with. rewrite Hm. by apply mem_SaveModel_run.
  - intros s a n. kind_get.
  - intros s a n. kind_delete.
Defined.
