(* ===== verification/MemoryProps.v ===== *)
(** What the in-memory store guarantees: no operation panics or breaks the
    invariant whatever came before, listings, events and watchers; and the two
    places where it shares objects or arithmetic overflows. *)

From S2P Require Import Prelude GoStrings Types StoreApi MemoryStore MemoryInv.

(** ** Operations as steps *)

Inductive mem_op :=
| OpSaveTask (t : Task)
| OpGetTask (atespace name : string)
| OpListTasks (atespace : string) (limit offset : Z)
| OpUpdateTaskStatus (atespace name : string) (status : option TaskStatus)
| OpMarkTaskDeleting (atespace name : string)
| OpDeleteTask (atespace name : string)
| OpSaveGateway (g : Gateway) | OpGetGateway (atespace name : string)
| OpListGateways (atespace : string) | OpDeleteGateway (atespace name : string)
| OpSaveModel (x : Model) | OpGetModel (atespace name : string)
| OpListModels (atespace : string) | OpDeleteModel (atespace name : string)
| OpSaveWorkspace (w : Workspace) | OpGetWorkspace (atespace name : string)
| OpListWorkspaces (atespace : string) | OpDeleteWorkspace (atespace name : string)
| OpNext (ctx_done prefer_done : bool)
| OpWatchTask (atespace name : string)
| OpCloseWatch (key : string) (c : nat)
| OpRecv (c : nat).

Section Ops.
Context `{!MapRange}.

Definition forget {A} (m : MS A) : MS unit := let! _ := m in ret tt.

Definition run_op (op : mem_op) : MS unit :=
  match op with
  | OpSaveTask t => forget (SaveTask t)
  | OpGetTask a n => forget (GetTask a n)
  | OpListTasks a l o => forget (ListTasks a l o)
  | OpUpdateTaskStatus a n st => forget (UpdateTaskStatus a n st)
  | OpMarkTaskDeleting a n => forget (MarkTaskDeleting a n)
  | OpDeleteTask a n => forget (DeleteTask a n)
  | OpSaveGateway g => forget (SaveGateway g)
  | OpGetGateway a n => forget (GetGateway a n)
  | OpListGateways a => forget (ListGateways a)
  | OpDeleteGateway a n => forget (DeleteGateway a n)
  | OpSaveModel x => forget (SaveModel x)
  | OpGetModel a n => forget (GetModel a n)
  | OpListModels a => forget (ListModels a)
  | OpDeleteModel a n => forget (DeleteModel a n)
  | OpSaveWorkspace w => forget (SaveWorkspace w)
  | OpGetWorkspace a n => forget (GetWorkspace a n)
  | OpListWorkspaces a => forget (ListWorkspaces a)
  | OpDeleteWorkspace a n => forget (DeleteWorkspace a n)
  | OpNext d p => forget (Next d p)
  | OpWatchTask a n => forget (WatchTask a n)
  | OpCloseWatch k c => forget (close_watch k c)
  | OpRecv c => forget (recv c)
  end.

(** What a caller must respect: gateways, models and workspaces carry metadata
    (the API server always sets it), a page stays within int64 and starts at or
    after zero (the API server clamps it), and a channel is one that WatchTask
    returned. *)
Definition op_ok (op : mem_op) (s : MemoryStore) : Prop :=
  match op with
  | OpListTasks _ limit offset => (0 ≤ offset ∧ limit ≤ int64_max ∧ offset + limit ≤ int64_max)%Z
  | OpSaveGateway g => is_Some (gw_metadata g)
  | OpSaveModel x => is_Some (model_metadata x)
  | OpSaveWorkspace w => is_Some (ws_metadata w)
  | OpRecv c => is_Some (m_chans s !! c)
  | _ => True
  end.

Inductive reachable : MemoryStore → Prop :=
| reachable_init readings : reachable (NewStore readings)
| reachable_step s op s' : reachable s → op_ok op s → snd (run_op op s) = s' → reachable s'.

(** ** The remaining operations keep the invariant *)

Definition keeps {A} (m : MS A) (s : MemoryStore) : Prop :=
  ∃ a s', m s = (Ret a, s') ∧ mem_inv s'.

Lemma keeps_forget {A} (m : MS A) s : keeps m s → keeps (forget m) s.
Proof. intros (a & s' & Hm & Hi). exists tt, s'. unfold forget. by mstep. Qed.

Lemma runs_keeps {A} (m : MS A) s a v : runs_to mem_inv mem_view m s a v → keeps m s.
Proof. intros (s' & ? & ? & _). by exists a, s'. Qed.

Lemma load_filed s k l : mem_inv s → m_tasks s !! k = Some l →
  ∃ t m, load s l = Some t ∧ task_metadata t = Some m ∧ meta_key m = k.
Proof.
  intros Hinv Hl. destruct (hw_tasks _ _ _ _ (mi_heap s Hinv) _ _ Hl) as (o & m & Ho & Hm & Hk & _).
  exists (load_obj s o), m. unfold load. by rewrite Ho.
Qed.

(** The tasks of a range over the map that the filter lets through. *)
Definition in_scope (atespace : string) (m : option ObjectMeta) : bool :=
  bool_decide (atespace = "") || bool_decide (atespace = "*") ||
  bool_decide (from_option om_atespace "" m = atespace).

Lemma collect_tasks_run s a entries result : mem_inv s →
  (∀ k l, (k, l) ∈ entries → m_tasks s !! k = Some l) →
  collect_tasks a entries result s =
    (Ret (result ++ filter (λ t, in_scope a (task_metadata t) = true) (omap (λ e, load s (snd e)) entries)), s).
Proof.
  intros Hinv. revert result. induction entries as [|[k l] rest IH]; intros result Hin; cbn.
  { by rewrite app_nil_r. }
  destruct (load_filed s k l Hinv) as (t & m & Ht & Hm & _); [apply Hin; by left|].
  assert (∀ k l, (k, l) ∈ rest → m_tasks s !! k = Some l) by (intros; apply Hin; by right).
  mstep. rewrite Ht. mstep.
  destruct (bool_decide (a = "") || bool_decide (a = "*")) eqn:Hall.
  - rewrite IH by done. rewrite <- app_assoc. do 3 f_equal.
    rewrite filter_cons_True; [done|]. unfold in_scope. by rewrite Hall.
  - rewrite Hm. mstep. rewrite IH by done. do 2 f_equal. destruct (bool_decide (om_atespace m = a)) eqn:Ha.
    + rewrite <- app_assoc. f_equal. rewrite filter_cons_True; [done|].
      unfold in_scope. rewrite Hm. cbn. by rewrite Hall, Ha.
    + f_equal. rewrite filter_cons_False; [done|].
      unfold in_scope. rewrite Hm. cbn. by rewrite Hall, Ha.
Qed.

Lemma collect_run {A} (meta : A → option ObjectMeta) s a entries result :
  (∀ k x, (k, x) ∈ entries → is_Some (meta x)) →
  collect meta a entries result s =
    (Ret (result ++ filter (λ x, in_scope a (meta x) = true) (snd <$> entries)), s).
Proof.
  revert result. induction entries as [|[k x] rest IH]; intros result Hin; cbn.
  { by rewrite app_nil_r. }
  destruct (Hin k x) as [m Hm]; [by left|].
  assert (∀ k x, (k, x) ∈ rest → is_Some (meta x)) by (intros ? ? ?; eapply Hin; by right).
  destruct (bool_decide (a = "") || bool_decide (a = "*")) eqn:Hall.
  - rewrite IH by done. rewrite <- app_assoc. do 3 f_equal.
    rewrite decide_True; [done|]. unfold in_scope. by rewrite Hall.
  - rewrite Hm. mstep. rewrite IH by done. do 2 f_equal. destruct (bool_decide (om_atespace m = a)) eqn:Ha.
    + rewrite <- app_assoc. f_equal. rewrite decide_True; [done|].
      unfold in_scope. cbn. by rewrite Hall, Ha.
    + f_equal. rewrite decide_False; [done|].
      unfold in_scope. cbn. by rewrite Hall, Ha.
Qed.

(** The tasks a listing of [atespace] ranges over, in the order of the range. *)
Definition scope_tasks (a : string) (s : MemoryStore) : list Task :=
  filter (λ t, in_scope a (task_metadata t) = true)
    (omap (λ e, load s (snd e)) (map_range (m_tasks s))).

Lemma collect_scope s a : mem_inv s →
  collect_tasks a (map_range (m_tasks s)) [] s = (Ret (scope_tasks a s), s).
Proof.
  intros Hinv. apply collect_tasks_run; [done|]. intros k l.
  rewrite map_range_perm. apply elem_of_map_to_list.
Qed.

Lemma omap_view s : omap (λ e : string * nat, load s (snd e)) (map_to_list (m_tasks s)) ≡ₚ
  (map_to_list (view_tasks s)).*2.
Proof.
  unfold view_tasks. generalize (m_tasks s) as m. intros m.
  induction m as [|k l m Hk IH] using map_ind; [done|].
  rewrite map_to_list_insert by done. cbn.
  assert (omap (load s) m !! k = None) as Hk' by (by rewrite lookup_omap, Hk).
  rewrite omap_insert. destruct (load s l) as [t|].
  - rewrite map_to_list_insert by done. cbn. by rewrite IH.
  - rewrite delete_id by done. exact IH.
Qed.

Lemma view_tasks_size s : mem_inv s → size (view_tasks s) = size (m_tasks s).
Proof.
  intros Hinv. rewrite <- !size_dom. f_equal. apply set_eq. intros k.
  rewrite !elem_of_dom, view_tasks_lookup. split; [by intros [? (? & -> & _)%bind_Some]|].
  intros [l Hl]. destruct (load_filed s k l Hinv Hl) as (t & m & Ht & _). rewrite Hl. exists t. exact Ht.
Qed.

Lemma scope_tasks_perm a s :
  scope_tasks a s ≡ₚ filter (λ t, in_scope a (task_metadata t) = true) (map_to_list (view_tasks s)).*2.
Proof. unfold scope_tasks. by rewrite map_range_perm, omap_view. Qed.

Lemma ListTasks_run s a limit offset : mem_inv s → op_ok (OpListTasks a limit offset) s →
  ListTasks a limit offset s =
    (Ret (Ok (let l := drop (Z.to_nat offset) (scope_tasks a s) in
              if decide (limit ≤ 0)%Z then l else take (Z.to_nat limit) l)), s).
Proof.
  intros Hinv (Ho & Hl & Hmax). unfold ListTasks. mstep.
  rewrite (bind_Ret _ _ _ _ _ (collect_scope s a Hinv)). set (l := scope_tasks a s). cbv zeta.
  case_decide as Hlen.
  { rewrite drop_ge by lia. rewrite take_nil. by case_decide. }
  assert (∀ hi, (offset ≤ hi ≤ Z.of_nat (length l))%Z →
    bind (slice l offset hi) (λ page, ret (Ok page)) s =
      (Ret (Ok (take (Z.to_nat (hi - offset)) (drop (Z.to_nat offset) l))), s)) as Hslice.
  { intros hi Hhi. unfold slice. rewrite decide_True by lia. by mstep. }
  destruct (decide (limit ≤ 0)%Z) as [Hneg|Hpos].
  - rewrite decide_True by (by left). rewrite Hslice by lia.
    rewrite take_ge; [done|rewrite length_drop; lia].
  - rewrite int64_id by (unfold int64_min, int64_max in *; lia). case_decide as Hc.
    + rewrite Hslice by lia. rewrite !take_ge; [done|rewrite length_drop; lia..].
    + rewrite Hslice by lia. do 4 f_equal. lia.
Qed.

Lemma kind_list_run {A} (meta : A → option ObjectMeta) (m : gmap string A) s a : filed meta m →
  collect meta a (map_range m) [] s =
    (Ret (filter (λ x, in_scope a (meta x) = true) (snd <$> map_range m)), s).
Proof.
  intros Hf. apply (collect_run meta s a (map_range m) []). intros k x. rewrite map_range_perm, elem_of_map_to_list.
  intros (om & -> & _)%Hf. eauto.
Qed.

(** *** Watching *)

Lemma WatchTask_run a n s : mem_inv s → keeps (WatchTask a n) s.
Proof.
  intros Hinv. eexists _, _. split; [reflexivity|]. cbv zeta.
  destruct Hinv as [[Ho Hst Ht Hsep] [Hop Hnd Hdj Hch] Hg Hm Hw He].
  assert (m_chans s !! m_next s = None) as Hfresh.
  { destruct (m_chans s !! m_next s) as [ch|] eqn:E; [|done]. apply Hch in E as [? _]. lia. }
  set (key := taskKey a n). set (c := m_next s) in *.
  assert (∀ k cs, m_watchers s !! k = Some cs → c ∉ cs) as Hnew.
  { intros k cs Hk Hc. destruct (Hop _ _ _ Hk Hc) as [buf E]. congruence. }
  assert (∀ k cs d, <[key := default [] (m_watchers s !! key) ++ [c]]> (m_watchers s) !! k = Some cs →
    d ∈ cs → d = c ∧ k = key ∨ d ≠ c ∧ ∃ cs', m_watchers s !! k = Some cs' ∧ d ∈ cs') as Hin.
  { intros k cs d [[<- <-]|[? Hk]]%lookup_insert_Some Hd.
    - apply elem_of_app in Hd as [Hd|Hd%list_elem_of_singleton]; [|by left].
      right. destruct (m_watchers s !! key) as [cs|] eqn:E; [|by apply elem_of_nil in Hd].
      split; [intros ->; by eapply Hnew|eauto].
    - right. split; [intros ->; by eapply Hnew|eauto]. }
  split; [split| split|done..]; cbn; try done.
  - intros l o Hl. destruct (Ho l o Hl). split; [lia|done].
  - intros p st Hp. apply Hst in Hp. lia.
  - intros k cs d Hk Hd. destruct (Hin k cs d Hk Hd) as [[-> ->]|[Hne (cs' & Hk' & Hd')]].
    + rewrite lookup_insert_eq. eauto.
    + rewrite lookup_insert_ne by done. eauto.
  - intros k cs [[<- <-]|[_ Hk]]%lookup_insert_Some; [|eauto].
    destruct (m_watchers s !! key) as [cs|] eqn:E; cbn; [|by apply NoDup_singleton].
    apply NoDup_app. split_and!; [eauto| |by apply NoDup_singleton].
    intros d Hd ->%list_elem_of_singleton. by eapply Hnew.
  - intros k1 k2 cs1 cs2 d H1 H2 Hd1 Hd2.
    destruct (Hin _ _ _ H1 Hd1) as [[? ?]|[? (? & ? & ?)]],
      (Hin _ _ _ H2 Hd2) as [[? ?]|[? (? & ? & ?)]]; subst; try done. eauto.
  - intros d ch [[<- <-]|[_ Hd]]%lookup_insert_Some.
    + cbn. split_and!; [lia|unfold watch_cap; lia|done].
    + destruct (Hch _ _ Hd) as (? & ? & ?). split_and!; [lia|done..].
Qed.

Lemma remove_first_spec c cs rest : remove_first c cs = Some rest → c ∈ cs ∧
  (∀ d, d ∈ rest → d ∈ cs) ∧ (NoDup cs → (c ∉ rest) ∧ NoDup rest).
Proof.
  revert rest. induction cs as [|d cs IH]; intros rest; cbn; [done|].
  case_decide as Hd.
  - intros [= <-]. subst. split_and!; [by left|by right|]. by intros [? ?]%NoDup_cons.
  - destruct (remove_first c cs) as [r|] eqn:E; [|done]. intros [= <-].
    destruct (IH r eq_refl) as (Hc & Hsub & Hnd). split_and!; [by right| |].
    + intros e [->|He]%elem_of_cons; [by left|right; auto].
    + intros [Hd' Hcs]%NoDup_cons. destruct (Hnd Hcs). split.
      * by intros [?|?]%elem_of_cons.
      * apply NoDup_cons. split; [intros ?; auto|done].
Qed.

Lemma close_watch_run key c s : mem_inv s → keeps (close_watch key c) s.
Proof.
  intros Hinv. unfold close_watch, keeps. mstep.
  destruct (remove_first c (default [] (m_watchers s !! key))) as [rest|] eqn:Hr;
    [|by eexists _, s].
  destruct (m_watchers s !! key) as [cs|] eqn:Hk; [|done]. cbn in Hr.
  apply remove_first_spec in Hr as (Hc & Hsub & Hnd).
  destruct Hinv as [Hheap [Hop Hnds Hdj Hch] Hg Hm Hw He].
  destruct (Hop _ _ _ Hk Hc) as [buf Hb]. rewrite Hb. mstep. cbn [ch_closed]. mstep.
  destruct (Hnd (Hnds _ _ Hk)) as [Hcr Hndr].
  eexists _, _. split; [reflexivity|]. split; [done| |done..].
  assert (∀ k cs' d, <[key := rest]> (m_watchers s) !! k = Some cs' → d ∈ cs' →
    d ≠ c ∧ ∃ cs0, m_watchers s !! k = Some cs0 ∧ d ∈ cs0) as Hin.
  { intros k cs' d [[<- <-]|[Hne Hk']]%lookup_insert_Some Hd.
    - split; [by intros ->|]. eauto.
    - split; [|eauto]. intros ->. by eapply Hne, Hdj. }
  split; cbn.
  - intros k cs' d Hk' Hd. destruct (Hin _ _ _ Hk' Hd) as [Hne (cs0 & ? & ?)].
    rewrite lookup_insert_ne by done. eauto.
  - intros k cs' [[<- <-]|[_ ?]]%lookup_insert_Some; eauto.
  - intros k1 k2 cs1 cs2 d H1 H2 Hd1 Hd2.
    destruct (Hin _ _ _ H1 Hd1) as [_ (? & ? & ?)], (Hin _ _ _ H2 Hd2) as [_ (? & ? & ?)]. eauto.
  - intros d ch [[<- <-]|[_ Hd]]%lookup_insert_Some; [|eauto]. by apply (Hch _ _ Hb).
Qed.

Lemma recv_run c s : mem_inv s → is_Some (m_chans s !! c) → keeps (recv c) s.
Proof.
  intros Hinv [ch Hc]. unfold recv, keeps. mstep. rewrite Hc. mstep.
  destruct (ww_chans _ _ _ _ (mi_watch s Hinv) _ _ Hc) as (Hlt & Hlen & HF).
  destruct (ch_buf ch) as [|l rest] eqn:Hb.
  { destruct (ch_closed ch); by eexists _, s. }
  apply Forall_cons in HF as [[o Ho] HF]. mstep.
  assert (load (set_watchers (m_watchers s) (<[c:=mkChan rest (ch_closed ch)]> (m_chans s)) s) l =
    Some (load_obj s o)) as Hl by (unfold load; cbn; by rewrite Ho).
  unfold load in Hl |- *. cbn in Hl |- *. rewrite Ho. cbn. eexists _, _. split; [reflexivity|].
  destruct Hinv as [Hheap [Hop Hnds Hdj Hch] Hg Hm Hw He]. split; [done| |done..]. split; cbn; [|done..|].
  - intros k cs d Hk Hd. destruct (Hop _ _ _ Hk Hd) as [buf Hbuf].
    destruct (decide (c = d)) as [->|]; [|rewrite lookup_insert_ne by done; eauto].
    rewrite lookup_insert_eq. simplify_eq. eauto.
  - intros d ch' [[<- <-]|[_ Hd]]%lookup_insert_Some; [|eauto]. cbn in *. split_and!; [done|lia|done].
Qed.

Lemma Next_run d p s : mem_inv s → keeps (Next d p) s.
Proof.
  intros Hinv. unfold Next, keeps. mstep. destruct (m_events s) as [|ev rest] eqn:He.
  - destruct d; by eexists _, s.
  - destruct (d && p); [by eexists _, s|]. mstep. eexists _, _. split; [reflexivity|].
    destruct Hinv as [? ? ? ? ? Hev]. split; try done. cbn. rewrite He in Hev. cbn in Hev. lia.
Qed.

Lemma SaveTask_keeps t s : mem_inv s → keeps (SaveTask t) s.
Proof.
  intros Hinv. destruct (task_metadata t) as [m|] eqn:Hm.
  - destruct (decide (om_name m = "")) as [Hn|Hn].
    + unfold SaveTask. rewrite !Hm. cbn. rewrite decide_True by done. by eexists _, s.
    + eapply runs_keeps, mem_SaveTask_run; done.
  - unfold SaveTask. rewrite !Hm. cbn. by eexists _, s.
Qed.

Lemma SaveGateway_keeps g s : mem_inv s → is_Some (gw_metadata g) → keeps (SaveGateway g) s.
Proof.
  intros Hinv [m Hm]. destruct (decide (om_name m = "")) as [Hn|Hn].
  - unfold SaveGateway, keeps. rewrite Hm. mstep. rewrite decide_True by done. by eexists _, s.
  - eapply runs_keeps, mem_SaveGateway_run; done.
Qed.
Lemma SaveModel_keeps g s : mem_inv s → is_Some (model_metadata g) → keeps (SaveModel g) s.
Proof.
  intros Hinv [m Hm]. destruct (decide (om_name m = "")) as [Hn|Hn].
  - unfold SaveModel, keeps. rewrite Hm. mstep. rewrite decide_True by done. by eexists _, s.
  - eapply runs_keeps, mem_SaveModel_run; done.
Qed.
Lemma SaveWorkspace_keeps g s : mem_inv s → is_Some (ws_metadata g) → keeps (SaveWorkspace g) s.
Proof.
  intros Hinv [m Hm]. destruct (decide (om_name m = "")) as [Hn|Hn].
  - unfold SaveWorkspace, keeps. rewrite Hm. mstep. rewrite decide_True by done. by eexists _, s.
  - eapply runs_keeps, mem_SaveWorkspace_run; done.
Qed.

Lemma match_keeps {A} (m : MS A) s (o : option Task) a b v w :
  match o with Some t => runs_to mem_inv mem_view m s a (v t) | None => runs_to mem_inv mem_view m s b w end →
  keeps m s.
Proof. destruct o; apply runs_keeps. Qed.

Lemma run_op_keeps op s : mem_inv s → op_ok op s → keeps (run_op op) s.
Proof.
  intros Hinv Hok. destruct op; cbn [run_op]; apply keeps_forget; cbn in Hok;
    auto using SaveTask_keeps, SaveGateway_keeps, SaveModel_keeps, SaveWorkspace_keeps,
      Next_run, WatchTask_run, close_watch_run, recv_run;
    try (by eapply match_keeps; (apply mem_UpdateTaskStatus_run || apply mem_MarkTaskDeleting_run));
    try (by eapply runs_keeps; (apply mem_DeleteTask_run)).
  - eexists _, s. by rewrite GetTask_run.
  - eexists _, s. by rewrite ListTasks_run.
  - exact (runs_keeps _ _ _ _ (law_GetGateway s atespace name Hinv)).
  - unfold ListGateways, keeps. mstep. eexists _, s.
    by rewrite (bind_Ret _ _ _ _ _ (kind_list_run gw_metadata _ s atespace (mi_gateways s Hinv))).
  - exact (runs_keeps _ _ _ _ (law_DeleteGateway s atespace name Hinv)).
  - exact (runs_keeps _ _ _ _ (law_GetModel s atespace name Hinv)).
  - unfold ListModels, keeps. mstep. eexists _, s.
    by rewrite (bind_Ret _ _ _ _ _ (kind_list_run model_metadata _ s atespace (mi_models s Hinv))).
  - exact (runs_keeps _ _ _ _ (law_DeleteModel s atespace name Hinv)).
  - exact (runs_keeps _ _ _ _ (law_GetWorkspace s atespace name Hinv)).
  - unfold ListWorkspaces, keeps. mstep. eexists _, s.
    by rewrite (bind_Ret _ _ _ _ _ (kind_list_run ws_metadata _ s atespace (mi_workspaces s Hinv))).
  - exact (runs_keeps _ _ _ _ (law_DeleteWorkspace s atespace name Hinv)).
Qed.

Lemma NewStore_inv readings : mem_inv (NewStore readings).
Proof. split; [split|split|..]; try done; cbn; lia. Qed.

Lemma reachable_inv s : reachable s → mem_inv s.
Proof.
  induction 1 as [readings|s op s' _ IH Hok <-]; [apply NewStore_inv|].
  destruct (run_op_keeps op s IH Hok) as (a & s' & -> & Hi). done.
Qed.

(** ** Properties *)

(** C14: whatever sequence of operations a store went through, the next one returns
    without a panic (no nil dereference, no slice out of range, no send on a closed
    channel and no channel closed twice) and keeps the invariant: every record is filed
    under the address in its own metadata, no two tasks share a status object, and no
    more than 1000 events and 10 updates per watcher are buffered. The operations are
    those of callers that save gateways, models and workspaces with metadata, receive
    from channels they were given, and ask for pages with an offset that is not
    negative and an end that is an int64. *)
Theorem memory_store_safe s op : reachable s → op_ok op s →
  ∃ s', run_op op s = (Ret tt, s') ∧ mem_inv s'.
Proof.
  intros Hr Hok. destruct (run_op_keeps op s (reachable_inv s Hr) Hok) as ([] & s' & ? & ?).
  by exists s'.
Qed.

(** ListTasks returns a page of the tasks of the atespace (of all of them for
    the empty one and for a star): the stretch [offset, offset + limit) of an
    enumeration in which each of those tasks occurs once, or everything from
    [offset] on when the limit is not positive. *)
Theorem memory_ListTasks_page s a limit offset :
  mem_inv s → op_ok (OpListTasks a limit offset) s →
  ∃ l, l ≡ₚ filter (λ t, in_scope a (task_metadata t) = true) (map_to_list (v_tasks (mem_view s))).*2 ∧
    ListTasks a limit offset s =
      (Ret (Ok (if decide (limit ≤ 0)%Z then drop (Z.to_nat offset) l
                else take (Z.to_nat limit) (drop (Z.to_nat offset) l))), s).
Proof.
  intros Hinv Hok. exists (scope_tasks a s). split; [apply scope_tasks_perm|].
  by rewrite (ListTasks_run s a limit offset Hinv Hok).
Qed.

(** C40: a page whose end exceeds int64 crashes the store instead of being cut
    off: the sum wraps to a negative bound and the slice expression panics. *)
Theorem memory_ListTasks_overflow s limit offset :
  mem_inv s → (0 ≤ offset < Z.of_nat (size (m_tasks s)))%Z → (0 < limit ≤ int64_max)%Z →
  (int64_max < offset + limit)%Z → (offset ≤ int64_max)%Z →
  fst (ListTasks "" limit offset s) = Panic.
Proof.
  intros Hinv Ho Hl Hov Hom. unfold ListTasks. mstep.
  rewrite (bind_Ret _ _ _ _ _ (collect_scope s "" Hinv)).
  assert (length (scope_tasks "" s) = size (m_tasks s)) as Hlen.
  { rewrite (Permutation_length (scope_tasks_perm "" s)).
    rewrite filter_all by done.
    rewrite length_fmap, length_map_to_list. apply view_tasks_size, Hinv. }
  rewrite decide_False by lia. cbv zeta.
  assert (int64 (offset + limit) < 0)%Z as Hneg.
  { unfold int64, int64_max in *.
    replace ((offset + limit + 2 ^ 63) mod 2 ^ 64)%Z with (offset + limit + 2 ^ 63 - 2 ^ 64)%Z; [lia|].
    apply (Z.mod_unique _ _ 1); lia. }
  rewrite decide_False by lia. unfold slice. rewrite decide_False by lia. done.
Qed.

(** A save publishes one reconcile event behind the queued ones; when 1000
    events are queued the event is dropped, and the save still succeeds and
    stores the task. *)
Theorem memory_SaveTask_publishes s t m :
  mem_inv s → task_metadata t = Some m → om_name m ≠ "" →
  ∃ s' ev, SaveTask t s = (Ret (None, task_defaults t), s') ∧
    v_tasks (mem_view s') !! meta_key m = Some (task_defaults t) ∧
    ev_atespace ev = default_atespace (om_atespace m) ∧ ev_name ev = om_name m ∧
    ev_action ev = "reconcile" ∧
    m_events s' = if decide (length (m_events s) < 1000)%nat then m_events s ++ [ev] else m_events s.
Proof.
  intros Hinv Hm Hn. destruct (SaveTask_full s t m Hinv Hm Hn) as (s' & Hs & _ & Hv & He).
  eexists s', _. split_and!; [exact Hs| | | | |exact He]; [|done..].
  rewrite Hv. apply lookup_insert_eq.
Qed.

Lemma remove_first_last c cs : c ∉ cs → remove_first c (cs ++ [c]) = Some cs.
Proof.
  induction cs as [|d cs IH]; cbn; intros Hc; [by rewrite decide_True|].
  rewrite decide_False by (intros ->; apply Hc; by left).
  rewrite IH; [done|]. intros ?. apply Hc. by right.
Qed.

(** A watch leaves nothing behind: its closer takes exactly its own channel
    off the watchers of the task and closes it, and closing once more changes
    nothing. *)
Theorem memory_watch_close s a n :
  mem_inv s →
  let key := taskKey a n in
  ∃ c s1 s2, WatchTask a n s = (Ret c, s1) ∧
    close_watch key c s1 = (Ret None, s2) ∧ close_watch key c s2 = (Ret None, s2) ∧
    default [] (m_watchers s2 !! key) = default [] (m_watchers s !! key) ∧
    (∀ k, k ≠ key → m_watchers s2 !! k = m_watchers s !! k) ∧
    m_chans s !! c = None ∧ m_chans s2 !! c = Some (mkChan [] true).
Proof.
  intros Hinv key.
  assert (m_chans s !! m_next s = None) as Hfresh.
  { destruct (m_chans s !! m_next s) as [ch|] eqn:E; [|done].
    apply (ww_chans _ _ _ _ (mi_watch s Hinv)) in E as [? _]. lia. }
  assert (m_next s ∉ default [] (m_watchers s !! key)) as Hnew.
  { destruct (m_watchers s !! key) as [cs|] eqn:E; [|by intros ?%elem_of_nil].
    intros Hc. destruct (ww_open _ _ _ _ (mi_watch s Hinv) _ _ _ E Hc) as [buf Hb]. congruence. }
  assert (∀ d cs, d ∉ cs → remove_first d cs = None) as Hnone.
  { intros d cs. induction cs as [|e cs IH]; [done|]. cbn. intros Hd.
    rewrite decide_False by (intros ->; apply Hd; by left).
    rewrite IH; [done|]. intros ?. apply Hd. by right. }
  eexists (m_next s), _, _. split_and!; [reflexivity| | | | |done|].
  - unfold close_watch. mstep. cbn [m_watchers set_watchers]. fold key. rewrite lookup_insert_eq. cbn.
    rewrite remove_first_last by done. rewrite lookup_insert_eq. reflexivity.
  - unfold close_watch. mstep. cbn. rewrite lookup_insert_eq. cbn. by rewrite Hnone.
  - cbn. by rewrite lookup_insert_eq.
  - intros k Hk. cbn. by rewrite !lookup_insert_ne by done.
  - cbn. by rewrite lookup_insert_eq.
Qed.

End Ops.

(** The object SaveTask sends to the watchers is the stored one, not a copy:
    a status written before the watcher receives shows through, so the watcher
    never sees the pending update it was sent. *)
Theorem memory_watch_sees_later_status readings spec st :
  let t := mkTask "" "" (Some (mkObjectMeta "demo" "" None)) spec None in
  fst ((let! c := WatchTask "default" "demo" in
        let! _ := SaveTask t in
        let! _ := UpdateTaskStatus "default" "demo" (Some st) in
        recv c) (NewStore readings))
  = Ret (Got (mkTask "" "" (Some (mkObjectMeta "demo" "default" None)) spec (Some st))).
Proof. reflexivity. Qed.
