(* ===== verification/StoreRefine.v ===== *)
(** The abstract store both implementations refine: a map from addresses to
    resources per kind. A store whose operations each do what the abstract store does
    answers every sequence of them so; one that keeps the contract does. The type
    header of a resource (apiVersion and kind), which the Redis store fills in and
    the in-memory store does not, is left out of the comparison. *)

From S2P Require Import Prelude GoStrings Types StoreApi.

(** ** Operations and replies *)

Inductive StoreOp :=
| OSaveTask (t : Task)
| OGetTask (atespace name : string)
| OUpdateTaskStatus (atespace name : string) (st : option TaskStatus)
| OMarkTaskDeleting (atespace name : string)
| ODeleteTask (atespace name : string)
| OSaveGateway (g : Gateway)
| OGetGateway (atespace name : string)
| ODeleteGateway (atespace name : string)
| OSaveWorkspace (w : Workspace)
| OGetWorkspace (atespace name : string)
| ODeleteWorkspace (atespace name : string)
| OSaveModel (x : Model)
| OGetModel (atespace name : string)
| ODeleteModel (atespace name : string).

Inductive Reply :=
| RDone (err : option error)
| RTask (r : res Task)
| RGateway (r : res Gateway)
| RWorkspace (r : res Workspace)
| RModel (r : res Model).

Definition saved_reply {A} (f : res A → Reply) (r : option error * A) : Reply :=
  match fst r with None => f (Ok (snd r)) | Some e => f (Err e) end.

Definition run_op {S} `{Store0 : !Store S} (op : StoreOp) : M S Reply :=
  match op with
  | OSaveTask t => let! r := SaveTask t in ret (saved_reply RTask r)
  | OGetTask a n => let! r := GetTask a n in ret (RTask r)
  | OUpdateTaskStatus a n st => let! e := UpdateTaskStatus a n st in ret (RDone e)
  | OMarkTaskDeleting a n => let! e := MarkTaskDeleting a n in ret (RDone e)
  | ODeleteTask a n => let! e := DeleteTask a n in ret (RDone e)
  | OSaveGateway g => let! r := SaveGateway g in ret (saved_reply RGateway r)
  | OGetGateway a n => let! r := GetGateway a n in ret (RGateway r)
  | ODeleteGateway a n => let! e := DeleteGateway a n in ret (RDone e)
  | OSaveWorkspace w => let! r := SaveWorkspace w in ret (saved_reply RWorkspace r)
  | OGetWorkspace a n => let! r := GetWorkspace a n in ret (RWorkspace r)
  | ODeleteWorkspace a n => let! e := DeleteWorkspace a n in ret (RDone e)
  | OSaveModel x => let! r := SaveModel x in ret (saved_reply RModel r)
  | OGetModel a n => let! r := GetModel a n in ret (RModel r)
  | ODeleteModel a n => let! e := DeleteModel a n in ret (RDone e)
  end.

Fixpoint run_ops {S} `{Store0 : !Store S} (ops : list StoreOp) : M S (list Reply) :=
  match ops with
  | [] => ret []
  | op :: ops => let! r := run_op op in let! rs := run_ops ops in ret (r :: rs)
  end.

(** The operations the contract speaks about: saves of named resources, and status
    updates of an explicit atespace, as the callers make them. *)
Definition named (m : option ObjectMeta) : Prop := om_name (default zero_ObjectMeta m) ≠ "".
Definition admissible (op : StoreOp) : Prop :=
  match op with
  | OSaveTask t => named (task_metadata t)
  | OSaveGateway g => named (gw_metadata g)
  | OSaveWorkspace w => named (ws_metadata w)
  | OSaveModel x => named (model_metadata x)
  | OUpdateTaskStatus a _ _ => a ≠ ""
  | _ => True
  end.

(** ** The abstract store *)

Definition bare_task (t : Task) : Task := mkTask "" "" (task_metadata t) (task_spec t) (task_status t).
Definition bare_gateway (g : Gateway) : Gateway := mkGateway "" "" (gw_metadata g) (gw_spec g).
Definition bare_workspace (w : Workspace) : Workspace := mkWorkspace "" "" (ws_metadata w) (ws_spec w).
Definition bare_model (x : Model) : Model := mkModel "" "" (model_metadata x) (model_spec x).

Definition bare_res {A} (f : A → A) (r : res A) : res A :=
  match r with Ok a => Ok (f a) | Err e => Err e end.
Definition bare_reply (r : Reply) : Reply :=
  match r with
  | RDone e => RDone e
  | RTask r => RTask (bare_res bare_task r)
  | RGateway r => RGateway (bare_res bare_gateway r)
  | RWorkspace r => RWorkspace (bare_res bare_workspace r)
  | RModel r => RModel (bare_res bare_model r)
  end.
Definition bare_view (v : StoreView) : StoreView :=
  mkStoreView (bare_task <$> v_tasks v) (bare_gateway <$> v_gateways v)
    (bare_workspace <$> v_workspaces v) (bare_model <$> v_models v).

Definition spec_key (m : option ObjectMeta) : string := meta_key (default zero_ObjectMeta m).
Definition spec_task (t : Task) : Task :=
  mkTask "" "" (saved_meta <$> task_metadata t) (task_spec t) (Some (pending_status (task_status t))).
Definition spec_gateway (g : Gateway) : Gateway := mkGateway "" "" (saved_meta <$> gw_metadata g) (gw_spec g).
Definition spec_workspace (w : Workspace) : Workspace := mkWorkspace "" "" (saved_meta <$> ws_metadata w) (ws_spec w).
Definition spec_model (x : Model) : Model := mkModel "" "" (saved_meta <$> model_metadata x) (model_spec x).

(** A change of the status of a stored task. *)
Definition spec_status (key : string) (f : option TaskStatus → option TaskStatus) (v : StoreView) : Reply * StoreView :=
  match v_tasks v !! key with
  | Some t => (RDone None, v_set_tasks (<[key := task_set_status (f (task_status t)) t]> (v_tasks v)) v)
  | None => (RDone (Some ErrNotFound), v)
  end.

Definition terminating (st : option TaskStatus) : option TaskStatus :=
  Some (st_set_phase PhaseTerminating (default zero_TaskStatus st)).

Definition spec_op (op : StoreOp) (v : StoreView) : Reply * StoreView :=
  match op with
  | OSaveTask t => (RTask (Ok (spec_task t)), v_set_tasks (<[spec_key (task_metadata t) := spec_task t]> (v_tasks v)) v)
  | OGetTask a n => (RTask (found (v_tasks v !! res_key a n)), v)
  | OUpdateTaskStatus a n st => spec_status (res_key a n) (λ _, st) v
  | OMarkTaskDeleting a n => spec_status (res_key a n) terminating v
  | ODeleteTask a n => (RDone None, v_set_tasks (delete (res_key a n) (v_tasks v)) v)
  | OSaveGateway g =>
      (RGateway (Ok (spec_gateway g)), v_set_gateways (<[spec_key (gw_metadata g) := spec_gateway g]> (v_gateways v)) v)
  | OGetGateway a n => (RGateway (found (v_gateways v !! res_key a n)), v)
  | ODeleteGateway a n => (RDone None, v_set_gateways (delete (res_key a n) (v_gateways v)) v)
  | OSaveWorkspace w =>
      (RWorkspace (Ok (spec_workspace w)),
       v_set_workspaces (<[spec_key (ws_metadata w) := spec_workspace w]> (v_workspaces v)) v)
  | OGetWorkspace a n => (RWorkspace (found (v_workspaces v !! res_key a n)), v)
  | ODeleteWorkspace a n => (RDone None, v_set_workspaces (delete (res_key a n) (v_workspaces v)) v)
  | OSaveModel x =>
      (RModel (Ok (spec_model x)), v_set_models (<[spec_key (model_metadata x) := spec_model x]> (v_models v)) v)
  | OGetModel a n => (RModel (found (v_models v !! res_key a n)), v)
  | ODeleteModel a n => (RDone None, v_set_models (delete (res_key a n) (v_models v)) v)
  end.

Fixpoint spec_ops (ops : list StoreOp) (v : StoreView) : list Reply * StoreView :=
  match ops with
  | [] => ([], v)
  | op :: ops =>
      let '(r, v) := spec_op op v in
      let '(rs, v) := spec_ops ops v in (r :: rs, v)
  end.

(** ** Refinement *)

Section Refine.
Context {S : Type} `{!Store S} (inv : S → Prop) (view : S → StoreView).

(** One operation does what the abstract store does. *)
Definition refines (op : StoreOp) (s : S) : Prop := ∃ r s',
  run_op op s = (Ret r, s') ∧ inv s' ∧
  bare_reply r = fst (spec_op op (bare_view (view s))) ∧
  bare_view (view s') = snd (spec_op op (bare_view (view s))).

(** Operations that each do so, from the state the ones before them leave. *)
Fixpoint all_refine (ops : list StoreOp) (s : S) : Prop :=
  match ops with
  | [] => True
  | op :: ops => refines op s ∧ all_refine ops (snd (run_op op s))
  end.

Lemma refines_runs {A} op (m : M S A) (f : A → Reply) s r v :
  run_op op = bind m (λ r, ret (f r)) → runs_to inv view m s r v →
  bare_reply (f r) = fst (spec_op op (bare_view (view s))) →
  bare_view v = snd (spec_op op (bare_view (view s))) → refines op s.
Proof.
  intros Hop (s' & Hm & Hinv & Hv) Hr Hs. exists (f r), s'. rewrite Hop, (bind_Ret _ _ _ _ _ Hm). by rewrite Hv.
Qed.

(** A status change: [f] of the status the task has. *)
Lemma refines_status op (m : M S (option error)) key f s :
  run_op op = bind m (λ e, ret (RDone e)) →
  (∀ v, spec_op op v = spec_status key f v) →
  match v_tasks (view s) !! key with
  | Some t => runs_to inv view m s None
                (v_set_tasks (<[key := task_set_status (f (task_status t)) t]> (v_tasks (view s))) (view s))
  | None => runs_to inv view m s (Some ErrNotFound) (view s)
  end → refines op s.
Proof.
  intros Hop Hspec Hrun.
  destruct (v_tasks (view s) !! key) as [t|] eqn:Ht; (eapply refines_runs; [exact Hop|exact Hrun|..]);
    rewrite Hspec; unfold spec_status; cbn [bare_view v_tasks]; rewrite lookup_fmap, Ht; cbn; [done| |done..].
  unfold bare_view, v_set_tasks. cbn. by rewrite fmap_insert.
Qed.

Lemma ops_refine ops s : inv s → all_refine ops s → ∃ rs s',
  run_ops ops s = (Ret rs, s') ∧ inv s' ∧
  (bare_reply <$> rs, bare_view (view s')) = spec_ops ops (bare_view (view s)).
Proof.
  revert s. induction ops as [|op ops IH]; intros s Hinv Hops; cbn [run_ops spec_ops].
  { by exists [], s. }
  destruct Hops as [(r & s1 & Hrun & Hinv1 & Hr & Hv1) Hops]. rewrite Hrun in Hops. cbn [snd] in Hops.
  destruct (IH s1 Hinv1 Hops) as (rs & s2 & Hrun2 & Hinv2 & Hspec).
  exists (r :: rs), s2. rewrite (bind_Ret _ _ _ _ _ Hrun), (bind_Ret _ _ _ _ _ Hrun2).
  split; [done|]. split; [done|].
  destruct (spec_op op (bare_view (view s))) as [r' v'] eqn:E. cbn in Hr, Hv1.
  rewrite <- Hv1, <- Hspec. cbn. by rewrite Hr.
Qed.
End Refine.

Lemma named_Some m : named m → ∃ m', m = Some m' ∧ om_name m' ≠ "".
Proof. destruct m as [m'|]; [by exists m'|done]. Qed.
Lemma bare_found {A} (f : A → A) (o : option A) : bare_res f (found o) = found (f <$> o).
Proof. by destruct o. Qed.

(** An operation whose run is known: [law] says what the store does, [bare] what the
    type header hides of what it stores. *)
Ltac refines_save law bare :=
  match goal with
  | Hadm : named ?o |- _ =>
      let m := fresh "m" in let Em := fresh "Em" in let Hn := fresh "Hn" in
      destruct (named_Some _ Hadm) as (m & Em & Hn);
      eapply refines_runs; [reflexivity|eapply law; eassumption|cbn [saved_reply bare_reply bare_res spec_op fst snd]; erewrite bare by eassumption; reflexivity|];
      unfold bare_view, v_set_tasks, v_set_gateways, v_set_workspaces, v_set_models, spec_key;
      cbn [spec_op bare_view v_tasks v_gateways v_workspaces v_models fst snd];
      rewrite fmap_insert, Em; erewrite bare by eassumption; reflexivity
  end.
Ltac refines_get law :=
  eapply refines_runs; [reflexivity|by apply law|cbn; by rewrite bare_found, lookup_fmap|reflexivity].
Ltac refines_delete law :=
  eapply refines_runs; [reflexivity|by apply law|reflexivity|];
  unfold bare_view, v_set_tasks, v_set_gateways, v_set_workspaces, v_set_models; cbn;
  by rewrite fmap_delete.

Section Laws.
Context {S : Type} `{!Store S, !StoreLaws S}.

Lemma bare_saved_task t m : task_metadata t = Some m → bare_task (saved_task t) = spec_task t.
Proof.
  intros Hm. unfold bare_task, spec_task.
  by rewrite (saved_task_metadata t m), saved_task_spec, saved_task_status, Hm.
Qed.
Lemma bare_saved_gateway g m : gw_metadata g = Some m → bare_gateway (saved_gateway g) = spec_gateway g.
Proof. intros Hm. unfold bare_gateway, spec_gateway. by rewrite (saved_gateway_metadata g m), saved_gateway_spec, Hm. Qed.
Lemma bare_saved_workspace w m : ws_metadata w = Some m → bare_workspace (saved_workspace w) = spec_workspace w.
Proof. intros Hm. unfold bare_workspace, spec_workspace. by rewrite (saved_workspace_metadata w m), saved_workspace_spec, Hm. Qed.
Lemma bare_saved_model x m : model_metadata x = Some m → bare_model (saved_model x) = spec_model x.
Proof. intros Hm. unfold bare_model, spec_model. by rewrite (saved_model_metadata x m), saved_model_spec, Hm. Qed.

Lemma step_refines op s : s_inv s → admissible op → refines s_inv s_view op s.
Proof.
  intros Hinv Hadm. destruct op; cbn in Hadm.
  - refines_save law_SaveTask bare_saved_task.
  - refines_get law_GetTask.
  - eapply refines_status; [reflexivity|reflexivity|by apply law_UpdateTaskStatus].
  - eapply refines_status; [reflexivity|reflexivity|by apply law_MarkTaskDeleting].
  - refines_delete law_DeleteTask.
  - refines_save law_SaveGateway bare_saved_gateway.
  - refines_get law_GetGateway.
  - refines_delete law_DeleteGateway.
  - refines_save law_SaveWorkspace bare_saved_workspace.
  - refines_get law_GetWorkspace.
  - refines_delete law_DeleteWorkspace.
  - refines_save law_SaveModel bare_saved_model.
  - refines_get law_GetModel.
  - refines_delete law_DeleteModel.
Qed.

(** A store that keeps the contract does so for any sequence of such operations. *)
Lemma contract_refines ops s : s_inv s → Forall admissible ops → all_refine s_inv s_view ops s.
Proof.
  intros Hinv Hops. revert s Hinv. induction Hops as [|op ops Hop Hops IH]; intros s Hinv; [done|].
  split; [by apply step_refines|]. destruct (step_refines op s Hinv Hop) as (r & s1 & -> & Hinv1 & _). by apply IH.
Qed.
End Laws.
