(* ===== verification/Server.v ===== *)
(** The API server (internal/server/server.go): the AX gRPC handlers over any
    implementation of the [Store] interface, and what they guarantee when the
    store keeps the contract [StoreLaws]. *)

From S2P Require Import Prelude GoStrings Types Bindings StoreApi.

(** ** Requests *)

(** GetTaskRequest, DeleteTaskRequest, SuspendTaskRequest and the like. *)
Record NameRequest := mkNameRequest { req_atespace : string; req_name : string }.
(** ListGatewaysRequest, ListWorkspacesRequest, ListModelsRequest. *)
Record ScopeRequest := mkScopeRequest { req_scope : string }.
Record ListTasksRequest := mkListTasksRequest {
  lt_atespace : string;
  lt_limit : Z;
  lt_offset : Z;
}.
Record WatchTaskResponse := mkWatchTaskResponse { wt_task : Task; wt_action : string }.

Definition missing_request : error := ErrStatus CodeInvalidArgument "missing request" [].
Definition internal (what : string) (e : error) : error :=
  ErrStatus CodeInternal what [AErr e].
Definition not_found (what name atespace : string) : error :=
  ErrStatus CodeNotFound what [AStr name; AStr atespace].

Section Server.
Context {S : Type} `{!Store S, !TimeNow S}.

(** ** Metadata *)

Definition defaultMetadata (meta : option ObjectMeta)
    (existing : string → string → M S (option ObjectMeta)) : M S ObjectMeta :=
  let meta := default zero_ObjectMeta meta in
  let meta := if decide (om_atespace meta = "") then om_set_atespace "default" meta else meta in
  match om_creation meta with
  | Some _ => ret meta
  | None =>
      let! prev := existing (om_atespace meta) (om_name meta) in
      match prev ≫= om_creation with
      | Some c => ret (om_set_creation (Some c) meta)
      | None => let! now := time_Now in ret (om_set_creation (Some now) meta)
      end
  end.

(** The lookup passed to [defaultMetadata]: the metadata of the stored resource,
    nil when the lookup fails. *)
Definition existing_of {A} (lookup : string → string → M S (res A))
    (meta : A → option ObjectMeta) (atespace name : string) : M S (option ObjectMeta) :=
  let! r := lookup atespace name in
  ret (match r with Ok x => meta x | Err _ => None end).

(** ** Tasks *)

Definition srv_GetTask (req : option NameRequest) : M S (res Task) :=
  match req with
  | None => ret (Err missing_request)
  | Some req =>
      let atespace := if decide (req_atespace req = "") then "default" else req_atespace req in
      let! r := GetTask atespace (req_name req) in
      match r with
      | Err e =>
          if errors_Is_NotFound e
          then ret (Err (not_found "task %q not found in atespace %q" (req_name req) atespace))
          else ret (Err (internal "getting task: %v" e))
      | Ok task => ret (Ok task)
      end
  end.

Definition srv_ListTasks (req : option ListTasksRequest) : M S (res (list Task)) :=
  let atespace := match req with Some r => lt_atespace r | None => "" end in
  let limit := match req with
               | Some r => if decide (lt_limit r > 0)%Z then lt_limit r else 50%Z
               | None => 50%Z
               end in
  let offset := match req with
                | Some r => if decide (lt_offset r >= 0)%Z then lt_offset r else 0%Z
                | None => 0%Z
                end in
  let! r := ListTasks atespace limit offset in
  match r with
  | Err e => ret (Err (internal "listing tasks: %v" e))
  | Ok tasks => ret (Ok tasks)
  end.

Definition srv_UpdateTask (req : option (option Task)) : M S (res Task) :=
  match req with
  | None | Some None => ret (Err (ErrStatus CodeInvalidArgument "task required" []))
  | Some (Some task) =>
      match ValidateTask (Some task) with
      | Some e => ret (Err (ErrStatus CodeInvalidArgument "%s" [AErr e]))
      | None =>
          let! meta := defaultMetadata (task_metadata task) (existing_of GetTask task_metadata) in
          let! r := SaveTask (task_set_metadata (Some meta) task) in
          match r with
          | (Some e, _) => ret (Err (internal "saving task: %v" e))
          | (None, task) => ret (Ok task)
          end
      end
  end.

Definition srv_DeleteTask (req : option NameRequest) : M S (res unit) :=
  match req with
  | None => ret (Err missing_request)
  | Some req =>
      let atespace := if decide (req_atespace req = "") then "default" else req_atespace req in
      let! err := MarkTaskDeleting atespace (req_name req) in
      match err with
      | Some e =>
          if errors_Is_NotFound e
          then ret (Err (not_found "task %q not found in atespace %q" (req_name req) atespace))
          else ret (Err (internal "deleting task: %v" e))
      | None => ret (Ok tt)
      end
  end.

Definition srv_SuspendTask (req : option NameRequest) : M S (res Task) :=
  match req with
  | None => ret (Err missing_request)
  | Some req =>
      let atespace := if decide (req_atespace req = "") then "default" else req_atespace req in
      let! r := GetTask atespace (req_name req) in
      match r with
      | Err e =>
          if errors_Is_NotFound e
          then ret (Err (not_found "task %q not found in atespace %q" (req_name req) atespace))
          else ret (Err (internal "getting task: %v" e))
      | Ok task =>
          let spec := default zero_TaskSpec (task_spec task) in
          let! r := SaveTask (task_set_spec (Some (ts_set_suspend true spec)) task) in
          match r with
          | (Some e, _) => ret (Err (internal "suspending task: %v" e))
          | (None, task) => ret (Ok task)
          end
      end
  end.

Definition srv_ResumeTask (req : option NameRequest) : M S (res Task) :=
  match req with
  | None => ret (Err missing_request)
  | Some req =>
      let atespace := if decide (req_atespace req = "") then "default" else req_atespace req in
      let! r := GetTask atespace (req_name req) in
      match r with
      | Err e =>
          if errors_Is_NotFound e
          then ret (Err (not_found "task %q not found in atespace %q" (req_name req) atespace))
          else ret (Err (internal "getting task: %v" e))
      | Ok task =>
          let spec := default zero_TaskSpec (task_spec task) in
          let! r := SaveTask (task_set_spec (Some (ts_set_suspend false spec)) task) in
          match r with
          | (Some e, _) => ret (Err (internal "resuming task: %v" e))
          | (None, task) => ret (Ok task)
          end
      end
  end.

(** ** Gateways *)

Definition srv_GetGateway (req : option NameRequest) : M S (res Gateway) :=
  match req with
  | None => ret (Err missing_request)
  | Some req =>
      let atespace := if decide (req_atespace req = "") then "default" else req_atespace req in
      let! r := GetGateway atespace (req_name req) in
      match r with
      | Err e =>
          if errors_Is_NotFound e
          then ret (Err (not_found "gateway %q not found in atespace %q" (req_name req) atespace))
          else ret (Err (internal "getting gateway: %v" e))
      | Ok gw => ret (Ok gw)
      end
  end.

Definition srv_ListGateways (req : option ScopeRequest) : M S (res (list Gateway)) :=
  let! r := ListGateways (from_option req_scope "" req) in
  match r with
  | Err e => ret (Err (internal "listing gateways: %v" e))
  | Ok l => ret (Ok l)
  end.

Definition srv_UpdateGateway (req : option (option Gateway)) : M S (res Gateway) :=
  match req with
  | None | Some None => ret (Err (ErrStatus CodeInvalidArgument "gateway required" []))
  | Some (Some gw) =>
      let! meta := defaultMetadata (gw_metadata gw) (existing_of GetGateway gw_metadata) in
      let! r := SaveGateway (gw_set_metadata (Some meta) gw) in
      match r with
      | (Some e, _) => ret (Err (internal "saving gateway: %v" e))
      | (None, gw) => ret (Ok gw)
      end
  end.

Definition srv_DeleteGateway (req : option NameRequest) : M S (res unit) :=
  match req with
  | None => ret (Err missing_request)
  | Some req =>
      let atespace := if decide (req_atespace req = "") then "default" else req_atespace req in
      let! err := DeleteGateway atespace (req_name req) in
      match err with
      | Some e => ret (Err (internal "deleting gateway: %v" e))
      | None => ret (Ok tt)
      end
  end.

(** ** Workspaces *)

Definition srv_GetWorkspace (req : option NameRequest) : M S (res Workspace) :=
  match req with
  | None => ret (Err missing_request)
  | Some req =>
      let atespace := if decide (req_atespace req = "") then "default" else req_atespace req in
      let! r := GetWorkspace atespace (req_name req) in
      match r with
      | Err e =>
          if errors_Is_NotFound e
          then ret (Err (not_found "workspace %q not found in atespace %q" (req_name req) atespace))
          else ret (Err (internal "getting workspace: %v" e))
      | Ok ws => ret (Ok ws)
      end
  end.

Definition srv_ListWorkspaces (req : option ScopeRequest) : M S (res (list Workspace)) :=
  let! r := ListWorkspaces (from_option req_scope "" req) in
  match r with
  | Err e => ret (Err (internal "listing workspaces: %v" e))
  | Ok l => ret (Ok l)
  end.

Definition srv_UpdateWorkspace (req : option (option Workspace)) : M S (res Workspace) :=
  match req with
  | None | Some None => ret (Err (ErrStatus CodeInvalidArgument "workspace required" []))
  | Some (Some ws) =>
      let! meta := defaultMetadata (ws_metadata ws) (existing_of GetWorkspace ws_metadata) in
      let! r := SaveWorkspace (ws_set_metadata (Some meta) ws) in
      match r with
      | (Some e, _) => ret (Err (internal "saving workspace: %v" e))
      | (None, ws) => ret (Ok ws)
      end
  end.

Definition srv_DeleteWorkspace (req : option NameRequest) : M S (res unit) :=
  match req with
  | None => ret (Err missing_request)
  | Some req =>
      let atespace := if decide (req_atespace req = "") then "default" else req_atespace req in
      let! err := DeleteWorkspace atespace (req_name req) in
      match err with
      | Some e => ret (Err (internal "deleting workspace: %v" e))
      | None => ret (Ok tt)
      end
  end.

(** ** Models *)

Definition srv_GetModel (req : option NameRequest) : M S (res Model) :=
  match req with
  | None => ret (Err missing_request)
  | Some req =>
      let atespace := if decide (req_atespace req = "") then "default" else req_atespace req in
      let! r := GetModel atespace (req_name req) in
      match r with
      | Err e =>
          if errors_Is_NotFound e
          then ret (Err (not_found "model %q not found in atespace %q" (req_name req) atespace))
          else ret (Err (internal "getting model: %v" e))
      | Ok m => ret (Ok m)
      end
  end.

Definition srv_ListModels (req : option ScopeRequest) : M S (res (list Model)) :=
  let! r := ListModels (from_option req_scope "" req) in
  match r with
  | Err e => ret (Err (internal "listing models: %v" e))
  | Ok l => ret (Ok l)
  end.

Definition srv_UpdateModel (req : option (option Model)) : M S (res Model) :=
  match req with
  | None | Some None => ret (Err (ErrStatus CodeInvalidArgument "model required" []))
  | Some (Some m) =>
      let! meta := defaultMetadata (model_metadata m) (existing_of GetModel model_metadata) in
      let! r := SaveModel (model_set_metadata (Some meta) m) in
      match r with
      | (Some e, _) => ret (Err (internal "saving model: %v" e))
      | (None, m) => ret (Ok m)
      end
  end.

Definition srv_DeleteModel (req : option NameRequest) : M S (res unit) :=
  match req with
  | None => ret (Err missing_request)
  | Some req =>
      let atespace := if decide (req_atespace req = "") then "default" else req_atespace req in
      let! err := DeleteModel atespace (req_name req) in
      match err with
      | Some e => ret (Err (internal "deleting model: %v" e))
      | None => ret (Ok tt)
      end
  end.

(** ** Watching *)

(** What one select of the watch loop yields. *)
Inductive watch_input := WatchDone | WatchClosed | WatchUpdate (t : Task).

(** [stream.Send] of the gRPC runtime, and the store's [WatchTask] with the
    closer it returns. *)
Context {Watch : Type} (stream_Send : WatchTaskResponse → M S (option error))
  (store_WatchTask : string → string → M S (res Watch)) (closer_Close : Watch → M S unit).

Definition terminal_phase (p : string) : bool :=
  bool_decide (p = "Running") || bool_decide (p = "Failed") || bool_decide (p = "Completed").

(** The loop over the selects; [None] when it is still waiting after them. *)
Fixpoint watch_loop (inputs : list watch_input) : M S (option (option error)) :=
  match inputs with
  | [] => ret None
  | WatchDone :: _ => ret (Some (Some ErrCtx))
  | WatchClosed :: _ => ret (Some None)
  | WatchUpdate task :: rest =>
      let! err := stream_Send (mkWatchTaskResponse task "MODIFIED") in
      match err with
      | Some e => ret (Some (Some e))
      | None =>
          match task_status task with
          | Some st => if terminal_phase (st_phase st) then ret (Some None) else watch_loop rest
          | None => watch_loop rest
          end
      end
  end.

(** The handler, given what its selects will yield. The deferred closer runs
    when it returns. *)
Definition srv_WatchTask (req : option NameRequest) (inputs : list watch_input)
    : M S (option (option error)) :=
  match req with
  | None => ret (Some (Some missing_request))
  | Some req =>
      let atespace := if decide (req_atespace req = "") then "default" else req_atespace req in
      let! sub := store_WatchTask atespace (req_name req) in
      match sub with
      | Err e => ret (Some (Some (internal "watching task: %v" e)))
      | Ok w =>
          let! r := GetTask atespace (req_name req) in
          let! out :=
            match r with
            | Ok initial =>
                let! err := stream_Send (mkWatchTaskResponse initial "INITIAL") in
                match err with
                | Some e => ret (Some (Some e))
                | None => watch_loop inputs
                end
            | Err _ => watch_loop inputs
            end in
          match out with
          | None => ret None
          | Some err => closer_Close w ;;; ret (Some err)
          end
      end
  end.

End Server.

(** ** The HTTP handler

    Where a request goes: to the gRPC server, to an answer of its own, or nowhere. *)
Inductive Route :=
| ToGRPC
| Answer (status : Z) (body : string)
| NotFoundPage.

Definition Handler (protoMajor : Z) (contentType path : string) : Route :=
  if bool_decide (protoMajor = 2%Z) && HasPrefix contentType "application/grpc" then ToGRPC
  else if decide (path = "/healthz") then Answer 200 ("ok" +:+ bytes [10]%nat)
  else NotFoundPage.
