(* ===== verification/ServerSpec.v ===== *)
(** What the API server guarantees over any store that keeps the contract
    [StoreLaws], and over the error results of any store at all. *)

From S2P Require Import Prelude GoStrings Types Bindings StoreApi Server.

(** Reading the clock leaves the stored resources alone. *)
Class TimeLaws (S : Type) `{!Store S, !StoreLaws S, !TimeNow S} :=
  now_keeps : ∀ s, s_inv s → ∃ t s', time_Now s = (Ret t, s') ∧ s_inv s' ∧ s_view s' = s_view s.

(** ** Shared lemmas *)

Section Lemmas.
Context {S : Type} `{!Store S, !StoreLaws S, !TimeNow S, !TimeLaws S}.

Lemma bind_runs {A B} (m : M S A) (k : A → M S B) s a v b v' :
  runs_to s_inv s_view m s a v →
  (∀ s1, s_inv s1 → s_view s1 = v → runs_to s_inv s_view (k a) s1 b v') →
  runs_to s_inv s_view (bind m k) s b v'.
Proof.
  intros (s1 & Hm & Hi & Hv) Hk. destruct (Hk s1 Hi Hv) as (s2 & Hk2 & ? & ?).
  exists s2. by rewrite (bind_Ret _ _ _ _ _ Hm).
Qed.

Lemma ret_runs {A} (a : A) s : s_inv s → runs_to s_inv s_view (ret a) s a (s_view s).
Proof. intros. by exists s. Qed.

Definition filled_meta (m : option ObjectMeta) : ObjectMeta :=
  let m := default zero_ObjectMeta m in om_set_atespace (default_atespace (om_atespace m)) m.

(** [defaultMetadata] with a lookup that only reads: the name stays, the
    atespace is filled in, and the creation timestamp is the request's own, or
    the stored one, or a new one. *)
Lemma defaultMetadata_runs meta existing s prev :
  s_inv s →
  runs_to s_inv s_view (existing (om_atespace (filled_meta meta)) (om_name (filled_meta meta)))
    s prev (s_view s) →
  ∃ c, runs_to s_inv s_view (defaultMetadata meta existing) s
         (om_set_creation (Some c) (filled_meta meta)) (s_view s) ∧
    match om_creation (filled_meta meta), prev ≫= om_creation with
    | Some own, _ => c = own
    | None, Some old => c = old
    | None, None => True
    end.
Proof.
  intros Hi Hex. unfold defaultMetadata. cbv zeta.
  assert ((if decide (om_atespace (default zero_ObjectMeta meta) = "")
           then om_set_atespace "default" (default zero_ObjectMeta meta)
           else default zero_ObjectMeta meta) = filled_meta meta) as ->.
  { unfold filled_meta, default_atespace. case_decide; [done|]. by destruct (default _ meta). }
  destruct (om_creation (filled_meta meta)) as [own|] eqn:Hc.
  { exists own. split; [|done].
    replace (om_set_creation (Some own) (filled_meta meta)) with (filled_meta meta);
      [by apply ret_runs|]. destruct (filled_meta meta). cbn in *. by subst. }
  destruct Hex as (s1 & Hrun & Hi1 & Hv1).
  destruct (prev ≫= om_creation) as [old|] eqn:Hp.
  - exists old. split; [|done]. exists s1. mstep. by rewrite Hp.
  - destruct (now_keeps s1 Hi1) as (now & s2 & Hnow & Hi2 & Hv2).
    exists now. split; [|done]. exists s2. mstep. rewrite Hp. mstep.
    split_and!; [done..|]. congruence.
Qed.

(** The lookup of [defaultMetadata], given what the store's lookup finds. *)
Lemma existing_runs {A} (lookup : string → string → M S (res A)) meta a n s o :
  s_inv s → runs_to s_inv s_view (lookup a n) s (found o) (s_view s) →
  runs_to s_inv s_view (existing_of lookup meta a n) s (o ≫= meta) (s_view s).
Proof.
  intros Hi Hl. unfold existing_of. eapply bind_runs; [exact Hl|].
  intros s1 Hi1 <-. by destruct o; apply ret_runs.
Qed.

Lemma req_key a n : res_key (if decide (a = "") then "default" else a) n = res_key a n.
Proof. apply res_key_default. Qed.

Lemma filled_name m : om_name (filled_meta m) = om_name (default zero_ObjectMeta m).
Proof. done. Qed.

Lemma filled_key m : meta_key (filled_meta m) = meta_key (default zero_ObjectMeta m).
Proof. apply res_key_default. Qed.

Lemma saved_filled c m : saved_meta (om_set_creation c (filled_meta m)) = om_set_creation c (filled_meta m).
Proof. unfold saved_meta, filled_meta. cbn. unfold om_set_atespace. cbn. by rewrite default_atespace_idemp. Qed.


(** The creation timestamp a save must keep: the request's own, else the one of
    the stored resource. *)
Definition kept_creation (own stored : option Z) (c : Z) : Prop :=
  match own, stored with Some o, _ => c = o | None, Some o => c = o | None, None => True end.

Definition completed (c : Z) (m : ObjectMeta) : ObjectMeta := om_set_creation (Some c) (saved_meta m).

Lemma completed_eq c m : completed c m = om_set_creation (Some c) (filled_meta (Some m)).
Proof. done. Qed.
Lemma completed_key c m : meta_key (completed c m) = meta_key m.
Proof. apply (filled_key (Some m)). Qed.
Lemma completed_saved c m : saved_meta (completed c m) = completed c m.
Proof. exact (saved_filled (Some c) (Some m)). Qed.

Lemma pending_status_idemp st : pending_status (Some (pending_status st)) = pending_status st.
Proof. unfold pending_status. cbn. repeat case_decide; done. Qed.

Lemma UpdateTask_runs s t m :
  s_inv s → ValidateTask (Some t) = None → task_metadata t = Some m → om_name m ≠ "" →
  ∃ c, let t' := saved_task (task_set_metadata (Some (completed c m)) t) in
    runs_to s_inv s_view (srv_UpdateTask (Some (Some t))) s (Ok t')
      (v_set_tasks (<[meta_key m := t']> (v_tasks (s_view s))) (s_view s)) ∧
    kept_creation (om_creation m)
      (((v_tasks (s_view s) !! meta_key m) ≫= task_metadata) ≫= om_creation) c.
Proof.
  intros Hi Hval Hm Hn. unfold srv_UpdateTask. rewrite Hval, Hm.
  destruct (defaultMetadata_runs (Some m) (existing_of GetTask task_metadata) s _ Hi
    (existing_runs _ _ _ _ _ _ Hi (law_GetTask s _ _ Hi))) as (c & (s1 & Hrun & Hi1 & Hv1) & Hc).
  exists c. cbv zeta. rewrite <- completed_eq in Hrun. split.
  - destruct (law_SaveTask s1 (task_set_metadata (Some (completed c m)) t) _ Hi1 eq_refl Hn)
      as (s2 & Hsave & Hi2 & Hv2).
    exists s2. mstep. rewrite completed_key in Hv2. by rewrite Hv2, Hv1.
  - cbn in Hc. rewrite res_key_default in Hc. exact Hc.
Qed.

Lemma UpdateGateway_runs s g m : s_inv s → gw_metadata g = Some m → om_name m ≠ "" →
  ∃ c, let g' := saved_gateway (gw_set_metadata (Some (completed c m)) g) in
    runs_to s_inv s_view (srv_UpdateGateway (Some (Some g))) s (Ok g')
      (v_set_gateways (<[meta_key m := g']> (v_gateways (s_view s))) (s_view s)) ∧
    kept_creation (om_creation m)
      (((v_gateways (s_view s) !! meta_key m) ≫= gw_metadata) ≫= om_creation) c.
Proof.
  intros Hi Hm Hn. unfold srv_UpdateGateway. rewrite Hm.
  destruct (defaultMetadata_runs (Some m) (existing_of GetGateway gw_metadata) s _ Hi
    (existing_runs _ _ _ _ _ _ Hi (law_GetGateway s _ _ Hi))) as (c & (s1 & Hrun & Hi1 & Hv1) & Hc).
  exists c. cbv zeta. rewrite <- completed_eq in Hrun. split.
  - destruct (law_SaveGateway s1 (gw_set_metadata (Some (completed c m)) g) _ Hi1 eq_refl Hn)
      as (s2 & Hsave & Hi2 & Hv2).
    exists s2. mstep. rewrite completed_key in Hv2. by rewrite Hv2, Hv1.
  - cbn in Hc. rewrite res_key_default in Hc. exact Hc.
Qed.

Lemma srv_GetTask_runs s a n : s_inv s →
  runs_to s_inv s_view (srv_GetTask (Some (mkNameRequest a n))) s
    (match v_tasks (s_view s) !! res_key a n with
     | Some t => Ok t
     | None => Err (not_found "task %q not found in atespace %q" n (default_atespace a))
     end) (s_view s).
Proof.
  intros Hi. unfold srv_GetTask. cbn [req_atespace req_name]. cbv zeta.
  fold (default_atespace a).
  eapply bind_runs; [by apply law_GetTask|]. intros s1 Hi1 <-. rewrite res_key_default.
  destruct (_ !! _); by apply ret_runs.
Qed.

Lemma srv_GetGateway_runs s a n : s_inv s →
  runs_to s_inv s_view (srv_GetGateway (Some (mkNameRequest a n))) s
    (match v_gateways (s_view s) !! res_key a n with
     | Some g => Ok g
     | None => Err (not_found "gateway %q not found in atespace %q" n (default_atespace a))
     end) (s_view s).
Proof.
  intros Hi. unfold srv_GetGateway. cbn [req_atespace req_name]. cbv zeta.
  fold (default_atespace a).
  eapply bind_runs; [by apply law_GetGateway|]. intros s1 Hi1 <-. rewrite res_key_default.
  destruct (_ !! _); by apply ret_runs.
Qed.

Lemma srv_DeleteGateway_runs s a n : s_inv s →
  runs_to s_inv s_view (srv_DeleteGateway (Some (mkNameRequest a n))) s (Ok tt)
    (v_set_gateways (delete (res_key a n) (v_gateways (s_view s))) (s_view s)).
Proof.
  intros Hi. unfold srv_DeleteGateway. cbn [req_atespace req_name]. cbv zeta.
  fold (default_atespace a).
  eapply bind_runs; [by apply law_DeleteGateway|]. intros s1 Hi1 Hv1. rewrite res_key_default in Hv1.
  rewrite <- Hv1. by apply ret_runs.
Qed.

(** Saving a stored task with another spec, as suspend and resume do. *)
Definition respec (f : TaskSpec → TaskSpec) (t : Task) : Task :=
  saved_task (task_set_spec (Some (f (default zero_TaskSpec (task_spec t)))) t).

Lemma save_respec_runs s k t f : s_inv s → v_tasks (s_view s) !! k = Some t →
  runs_to s_inv s_view
    (SaveTask (task_set_spec (Some (f (default zero_TaskSpec (task_spec t)))) t)) s
    (None, respec f t) (v_set_tasks (<[k := respec f t]> (v_tasks (s_view s))) (s_view s)).
Proof.
  intros Hi Ht. destruct (law_filed s k t Hi Ht) as (m & Hm & <- & Hn).
  by apply law_SaveTask.
Qed.

Lemma srv_SuspendTask_runs s a n t : s_inv s → v_tasks (s_view s) !! res_key a n = Some t →
  runs_to s_inv s_view (srv_SuspendTask (Some (mkNameRequest a n))) s
    (Ok (respec (ts_set_suspend true) t))
    (v_set_tasks (<[res_key a n := respec (ts_set_suspend true) t]> (v_tasks (s_view s))) (s_view s)).
Proof.
  intros Hi Ht. unfold srv_SuspendTask. cbn [req_atespace req_name]. cbv zeta.
  fold (default_atespace a).
  eapply bind_runs; [by apply law_GetTask|]. intros s1 Hi1 Hv1.
  rewrite res_key_default, Ht. rewrite <- Hv1 in Ht |- *.
  eapply bind_runs; [by eapply save_respec_runs|]. intros s2 Hi2 <-. by apply ret_runs.
Qed.

Lemma srv_ResumeTask_runs s a n t : s_inv s → v_tasks (s_view s) !! res_key a n = Some t →
  runs_to s_inv s_view (srv_ResumeTask (Some (mkNameRequest a n))) s
    (Ok (respec (ts_set_suspend false) t))
    (v_set_tasks (<[res_key a n := respec (ts_set_suspend false) t]> (v_tasks (s_view s))) (s_view s)).
Proof.
  intros Hi Ht. unfold srv_ResumeTask. cbn [req_atespace req_name]. cbv zeta.
  fold (default_atespace a).
  eapply bind_runs; [by apply law_GetTask|]. intros s1 Hi1 Hv1.
  rewrite res_key_default, Ht. rewrite <- Hv1 in Ht |- *.
  eapply bind_runs; [by eapply save_respec_runs|]. intros s2 Hi2 <-. by apply ret_runs.
Qed.

Lemma absent_delete_runs m s v (f : error → error) :
  runs_to s_inv s_view m s None v → v = s_view s →
  runs_to s_inv s_view (let! err := m in
    match err with Some e => ret (Err (f e)) | None => ret (Ok tt) end) s (Ok tt) (s_view s).
Proof. intros Hm ->. eapply bind_runs; [exact Hm|]. intros s1 ? <-. by apply ret_runs. Qed.

End Lemmas.


(** ** Properties over a reliable store *)

Section Reliable.
Context {S : Type} `{!Store S, !StoreLaws S, !TimeNow S, !TimeLaws S}.

(** C1: an accepted UpdateTask stores the task under its address with its spec
    as sent, its metadata completed and its creation timestamp kept, changes no
    other resource, answers with exactly the stored task, and a GetTask of that
    address returns it. *)
Theorem UpdateTask_then_GetTask s t m :
  s_inv s → ValidateTask (Some t) = None → task_metadata t = Some m → om_name m ≠ "" →
  ∃ t' c s' s'',
    srv_UpdateTask (Some (Some t)) s = (Ret (Ok t'), s') ∧
    task_spec t' = task_spec t ∧
    task_metadata t' = Some (om_set_creation (Some c) (saved_meta m)) ∧
    kept_creation (om_creation m)
      (((v_tasks (s_view s) !! meta_key m) ≫= task_metadata) ≫= om_creation) c ∧
    s_view s' = v_set_tasks (<[meta_key m := t']> (v_tasks (s_view s))) (s_view s) ∧
    srv_GetTask (Some (mkNameRequest (om_atespace m) (om_name m))) s' = (Ret (Ok t'), s'').
Proof.
  intros Hi Hval Hm Hn.
  destruct (UpdateTask_runs s t m Hi Hval Hm Hn) as (c & (s' & Hup & Hi' & Hv') & Hc).
  set (t' := saved_task _) in *.
  destruct (srv_GetTask_runs s' (om_atespace m) (om_name m) Hi') as (s'' & Hget & _).
  exists t', c, s', s''. split_and!; [done|by apply (saved_task_spec (task_set_metadata _ t))| |done|done|].
  - unfold t'. rewrite (saved_task_metadata (task_set_metadata _ t) _ eq_refl). by rewrite completed_saved.
  - rewrite Hget, Hv'. cbn. fold (meta_key m). by rewrite lookup_insert_eq.
Qed.

(** An update that carries no status, as a manifest does, stores a fresh
    pending status: the conditions the task had are gone. *)
Theorem UpdateTask_resets_status s t m :
  s_inv s → ValidateTask (Some t) = None → task_metadata t = Some m → om_name m ≠ "" →
  task_status t = None →
  ∃ t' s', srv_UpdateTask (Some (Some t)) s = (Ret (Ok t'), s') ∧
    v_tasks (s_view s') !! meta_key m = Some t' ∧
    task_status t' = Some (st_set_phase "Pending" zero_TaskStatus).
Proof.
  intros Hi Hval Hm Hn Hst.
  destruct (UpdateTask_runs s t m Hi Hval Hm Hn) as (c & (s' & Hup & Hi' & Hv') & _).
  eexists _, s'. split_and!; [exact Hup| |].
  - rewrite Hv'. apply lookup_insert_eq.
  - rewrite saved_task_status. cbn. by rewrite Hst.
Qed.

(** Suspending and then resuming a stored task leaves its metadata and every
    field of its spec but suspend as they were, does not touch the phase of its
    status, and leaves the other resources alone; in between the stored task is
    marked suspended. *)
Theorem Suspend_then_Resume s a n t :
  s_inv s → v_tasks (s_view s) !! res_key a n = Some t →
  ∃ t1 s1 t2 s2,
    srv_SuspendTask (Some (mkNameRequest a n)) s = (Ret (Ok t1), s1) ∧
    v_tasks (s_view s1) !! res_key a n = Some t1 ∧
    task_spec t1 = Some (ts_set_suspend true (default zero_TaskSpec (task_spec t))) ∧
    srv_ResumeTask (Some (mkNameRequest a n)) s1 = (Ret (Ok t2), s2) ∧
    task_spec t2 = Some (ts_set_suspend false (default zero_TaskSpec (task_spec t))) ∧
    task_metadata t2 = saved_meta <$> task_metadata t ∧
    task_status t2 = Some (pending_status (task_status t)) ∧
    s_view s2 = v_set_tasks (<[res_key a n := t2]> (v_tasks (s_view s))) (s_view s).
Proof.
  intros Hi Ht. destruct (srv_SuspendTask_runs s a n t Hi Ht) as (s1 & Hs1 & Hi1 & Hv1).
  assert (v_tasks (s_view s1) !! res_key a n = Some (respec (ts_set_suspend true) t)) as Ht1.
  { rewrite Hv1. apply lookup_insert_eq. }
  destruct (srv_ResumeTask_runs s1 a n _ Hi1 Ht1) as (s2 & Hs2 & Hi2 & Hv2).
  destruct (law_filed s _ t Hi Ht) as (m & Hm & _ & _).
  assert (task_metadata (respec (ts_set_suspend true) t) = Some (saved_meta m)) as Hm1
    by (unfold respec; by rewrite (saved_task_metadata _ m)).
  eexists _, s1, _, s2.
  split_and!; [exact Hs1|exact Ht1|by unfold respec; rewrite saved_task_spec|exact Hs2| | | |].
  - unfold respec. by rewrite saved_task_spec, saved_task_spec.
  - unfold respec at 1. rewrite (saved_task_metadata _ (saved_meta m)) by exact Hm1.
    rewrite Hm. cbn. f_equal. unfold saved_meta. cbn. by rewrite default_atespace_idemp.
  - unfold respec. rewrite !saved_task_status. cbn. rewrite saved_task_status. cbn.
    f_equal. apply pending_status_idemp.
  - rewrite Hv2, Hv1. unfold v_set_tasks. cbn. by rewrite insert_insert_eq.
Qed.

(** DeleteTask keeps the record: the stored task only moves to the phase
    Terminating, so that the controller can clean its workload up, and a GetTask
    still finds it with its spec and metadata. *)
Theorem DeleteTask_keeps_record s a n t :
  s_inv s → v_tasks (s_view s) !! res_key a n = Some t →
  ∃ t' s' s'',
    srv_DeleteTask (Some (mkNameRequest a n)) s = (Ret (Ok tt), s') ∧
    srv_GetTask (Some (mkNameRequest a n)) s' = (Ret (Ok t'), s'') ∧
    task_status t' = Some (st_set_phase PhaseTerminating (default zero_TaskStatus (task_status t))) ∧
    task_spec t' = task_spec t ∧ task_metadata t' = task_metadata t ∧
    s_view s'' = v_set_tasks (<[res_key a n := t']> (v_tasks (s_view s))) (s_view s).
Proof.
  intros Hi Ht. pose proof (law_MarkTaskDeleting s (default_atespace a) n Hi) as Hmark.
  rewrite res_key_default, Ht in Hmark. destruct Hmark as (s' & Hdel & Hi' & Hv').
  destruct (srv_GetTask_runs s' a n Hi') as (s'' & Hget & Hi'' & Hv'').
  rewrite Hv' in Hget. cbn in Hget. rewrite lookup_insert_eq in Hget.
  eexists _, s', s''. split_and!; [|exact Hget|done|done|done|].
  - unfold srv_DeleteTask. cbn [req_atespace req_name]. cbv zeta. fold (default_atespace a). by mstep.
  - by rewrite Hv'', Hv'.
Qed.

(** Reading, suspending, resuming or deleting a task that is not stored is
    answered with NotFound, while deleting an absent gateway, workspace or model
    succeeds; none of it changes what is stored. *)
Theorem absent_resources s a n :
  s_inv s → v_tasks (s_view s) !! res_key a n = None →
  v_gateways (s_view s) !! res_key a n = None →
  v_workspaces (s_view s) !! res_key a n = None →
  v_models (s_view s) !! res_key a n = None →
  let req := Some (mkNameRequest a n) in
  let e := not_found "task %q not found in atespace %q" n (default_atespace a) in
  runs_to s_inv s_view (srv_GetTask req) s (Err e) (s_view s) ∧
  runs_to s_inv s_view (srv_SuspendTask req) s (Err e) (s_view s) ∧
  runs_to s_inv s_view (srv_ResumeTask req) s (Err e) (s_view s) ∧
  runs_to s_inv s_view (srv_DeleteTask req) s (Err e) (s_view s) ∧
  runs_to s_inv s_view (srv_DeleteGateway req) s (Ok tt) (s_view s) ∧
  runs_to s_inv s_view (srv_DeleteWorkspace req) s (Ok tt) (s_view s) ∧
  runs_to s_inv s_view (srv_DeleteModel req) s (Ok tt) (s_view s).
Proof.
  intros Hi Ht Hg Hw Hm. cbv zeta.
  pose proof (law_MarkTaskDeleting s (default_atespace a) n Hi) as Hmark.
  rewrite res_key_default, Ht in Hmark.
  split_and!.
  - pose proof (srv_GetTask_runs s a n Hi) as Hget. by rewrite Ht in Hget.
  - unfold srv_SuspendTask. cbn [req_atespace req_name]. cbv zeta. fold (default_atespace a).
    eapply bind_runs; [by apply law_GetTask|]. intros s1 Hi1 Hv1.
    rewrite res_key_default, Ht, <- Hv1. by apply ret_runs.
  - unfold srv_ResumeTask. cbn [req_atespace req_name]. cbv zeta. fold (default_atespace a).
    eapply bind_runs; [by apply law_GetTask|]. intros s1 Hi1 Hv1.
    rewrite res_key_default, Ht, <- Hv1. by apply ret_runs.
  - eapply bind_runs; [exact Hmark|]. intros s1 Hi1 <-. by apply ret_runs.
  - eapply absent_delete_runs; [exact (law_DeleteGateway s (default_atespace a) n Hi)|]. rewrite res_key_default.
    unfold v_set_gateways. rewrite delete_id by done. by destruct (s_view s).
  - eapply absent_delete_runs; [exact (law_DeleteWorkspace s (default_atespace a) n Hi)|]. rewrite res_key_default.
    unfold v_set_workspaces. rewrite delete_id by done. by destruct (s_view s).
  - eapply absent_delete_runs; [exact (law_DeleteModel s (default_atespace a) n Hi)|]. rewrite res_key_default.
    unfold v_set_models. rewrite delete_id by done. by destruct (s_view s).
Qed.

(** A gateway's life: UpdateGateway stores it under its address with its spec
    as sent and its creation timestamp kept, GetGateway then returns it, and
    after DeleteGateway it is NotFound and the stored resources are the old ones
    without that address. *)
Theorem gateway_lifecycle s g m :
  s_inv s → gw_metadata g = Some m → om_name m ≠ "" →
  let req := Some (mkNameRequest (om_atespace m) (om_name m)) in
  ∃ g' c s1 s2 s3 s4,
    srv_UpdateGateway (Some (Some g)) s = (Ret (Ok g'), s1) ∧
    gw_spec g' = gw_spec g ∧ gw_metadata g' = Some (om_set_creation (Some c) (saved_meta m)) ∧
    kept_creation (om_creation m)
      (((v_gateways (s_view s) !! meta_key m) ≫= gw_metadata) ≫= om_creation) c ∧
    srv_GetGateway req s1 = (Ret (Ok g'), s2) ∧
    srv_DeleteGateway req s2 = (Ret (Ok tt), s3) ∧
    s_view s3 = v_set_gateways (delete (meta_key m) (v_gateways (s_view s))) (s_view s) ∧
    srv_GetGateway req s3 = (Ret (Err (not_found "gateway %q not found in atespace %q" (om_name m)
      (default_atespace (om_atespace m)))), s4).
Proof.
  intros Hi Hm Hn. cbv zeta.
  destruct (UpdateGateway_runs s g m Hi Hm Hn) as (c & (s1 & Hup & Hi1 & Hv1) & Hc).
  set (g' := saved_gateway _) in *.
  destruct (srv_GetGateway_runs s1 (om_atespace m) (om_name m) Hi1) as (s2 & Hget & Hi2 & Hv2).
  destruct (srv_DeleteGateway_runs s2 (om_atespace m) (om_name m) Hi2) as (s3 & Hdel & Hi3 & Hv3).
  destruct (srv_GetGateway_runs s3 (om_atespace m) (om_name m) Hi3) as (s4 & Hget' & _).
  fold (meta_key m) in *. rewrite Hv1 in Hget. rewrite Hv3, Hv2, Hv1 in Hget'.
  rewrite Hv2, Hv1 in Hv3. unfold v_set_gateways in Hget, Hget', Hv3. cbn in Hget, Hget', Hv3.
  rewrite lookup_insert_eq in Hget. rewrite delete_insert_eq in Hv3, Hget'.
  rewrite lookup_delete_eq in Hget'.
  exists g', c, s1, s2, s3, s4. split_and!;
    [exact Hup|by apply (saved_gateway_spec (gw_set_metadata _ g))| |exact Hc|exact Hget|exact Hdel
    |exact Hv3|exact Hget'].
  unfold g'. rewrite (saved_gateway_metadata (gw_set_metadata _ g) _ eq_refl).
  by rewrite completed_saved.
Qed.
End Reliable.

(** ** Properties of the handlers over any store *)

(** A task whose bindings are invalid, or no task at all, is refused with
    InvalidArgument and nothing is stored, whatever the store. *)
Theorem UpdateTask_rejects {S} `{!Store S, !TimeNow S} (req : option (option Task)) s :
  (∀ t, req = Some (Some t) → is_Some (ValidateTask (Some t))) →
  ∃ f args, srv_UpdateTask req s = (Ret (Err (ErrStatus CodeInvalidArgument f args)), s).
Proof.
  intros H. destruct req as [[t|]|]; [|do 2 eexists; reflexivity..].
  destruct (H t eq_refl) as [e He]. unfold srv_UpdateTask. rewrite He. do 2 eexists; reflexivity.
Qed.

(** The stream of a watch, as the list of the messages sent so far. *)
Definition log_Send (r : WatchTaskResponse) : M (list WatchTaskResponse) (option error) :=
  λ log, (Ret None, log ++ [r]).

Definition terminal (t : Task) : bool :=
  match task_status t with Some st => terminal_phase (st_phase st) | None => false end.

(** A watch forwards every update in order up to the first one in a terminal
    phase (Running, Failed or Completed), sends that one too, and then ends
    without an error whatever else is queued. *)
Theorem watch_until_terminal ts t rest log :
  Forall (λ t, terminal t = false) ts → terminal t = true →
  watch_loop log_Send (map WatchUpdate ts ++ WatchUpdate t :: rest) log =
    (Ret (Some None), log ++ map (λ t, mkWatchTaskResponse t "MODIFIED") (ts ++ [t])).
Proof.
  intros Hts Ht. revert log. induction Hts as [|t' ts Ht' _ IH]; intros log; cbn.
  - unfold terminal in Ht. destruct (task_status t); [|done]. by rewrite Ht.
  - assert (∀ l, watch_loop log_Send (map WatchUpdate ts ++ WatchUpdate t :: rest)
      (log ++ [mkWatchTaskResponse t' "MODIFIED"]) = l →
      bind (log_Send (mkWatchTaskResponse t' "MODIFIED")) (λ err, match err with
        | Some e => ret (Some (Some e))
        | None => match task_status t' with
          | Some st => if terminal_phase (st_phase st) then ret (Some None)
                       else watch_loop log_Send (map WatchUpdate ts ++ WatchUpdate t :: rest)
          | None => watch_loop log_Send (map WatchUpdate ts ++ WatchUpdate t :: rest)
          end end) log = l) as Hstep.
    { intros l <-. unfold bind. cbn. unfold terminal in Ht'.
      destruct (task_status t') as [st|]; [|done]. by rewrite Ht'. }
    apply Hstep. rewrite IH. by rewrite <- app_assoc.
Qed.

(** Once the subscription exists, every way out of WatchTask (the client is
    gone, the channel closed, a send failed, a terminal phase reached) runs the
    store's closer for it as the last step. *)
Theorem watch_closes {S} `{!Store S} {Watch} send (sub : string → string → M S (res Watch))
    (closer : Watch → M S unit) req inputs s s0 w out s' :
  sub (if decide (req_atespace req = "") then "default" else req_atespace req) (req_name req) s
    = (Ret (Ok w), s0) →
  srv_WatchTask send sub closer (Some req) inputs s = (Ret (Some out), s') →
  ∃ s1, closer w s1 = (Ret tt, s').
Proof.
  intros Hsub Hrun. unfold srv_WatchTask in Hrun. cbv zeta in Hrun.
  rewrite (bind_Ret _ _ _ _ _ Hsub) in Hrun. minv.
  match goal with Ho : match ?o with _ => _ end _ = (Ret (Some out), s') |- _ =>
    destruct o as [err|]; minv end.
  match goal with u : unit |- _ => destruct u end. by eexists.
Qed.
