(* ===== verification/RedisApi.v ===== *)
(** The services the Redis store is built on, as interfaces: the go-redis client
    ([RedisClient]) with the documented behaviour of the server behind it
    ([RedisLaws], stated over a reference server), and the protojson codec
    ([ProtoJSON]). The reference server itself is an instance. *)

From stdpp Require Import sorting.
From S2P Require Import Prelude GoStrings Types StoreApi.

(** ** The client *)

(** The commands of a transaction pipeline. *)
Inductive rcmd :=
| CSet (key value : string) (ttl : Z)
| CDel (key : string)
| CZAdd (key : string) (score : Z) (member : string)
| CZRem (key member : string)
| CXAdd (stream : string) (values : gmap string string)
| CPublish (channel payload : string).

(** A value of an MGET reply: an [interface{}]. *)
Inductive reply := RepNil | RepString (s : string) | RepOther.

Record XMessage := mkXMessage { xm_id : string; xm_values : gmap string any }.

Class RedisClient (R : Type) := {
  redis_Get : string → M R (res string);
  redis_MGet : list string → M R (res (list reply));
  redis_Exec : list rcmd → M R (option error);
  redis_ZRevRange : string → Z → Z → M R (res (list string));
  redis_XGroupCreateMkStream : string → string → string → M R (option error);
  (* group, consumer, stream, id, count, block *)
  redis_XReadGroup : string → string → string → string → Z → Z →
    M R (res (list (list XMessage)));
  redis_XAck : string → string → string → M R (option error);
  redis_Subscribe : string → M R nat;
  redis_Receive : nat → M R (option error);
  is_redis_Nil : error → bool;
}.

(** protojson.Marshal and Unmarshal with DiscardUnknown. *)
Class ProtoJSON (A : Type) := {
  Marshal : A → res string;
  Unmarshal : string → res A;
}.

(** A message that survives the codec. Messages received over gRPC do: their
    strings are valid UTF-8 and their lists hold no nil. *)
Definition json_ok {A} `{!ProtoJSON A} (x : A) : Prop :=
  ∃ d, Marshal x = Ok d ∧ Unmarshal d = Ok x.

(** ** The reference server *)

Inductive rvalue :=
| RString (s : string)
| RZset (scores : gmap string Z)
| RStream (entries : list (gmap string string)).

(** A consumer group: how many entries were delivered, and the deliveries that
    are not acknowledged yet, as entry number and consumer. *)
Record rgroup := mkRgroup { rg_last : nat; rg_pending : list (nat * string) }.

Record rserver := mkRserver {
  rs_keys : gmap string rvalue;
  rs_groups : gmap (string * string) rgroup;      (* stream, group *)
  rs_published : list (string * string);          (* channel, payload *)
}.

(** The ids the server gives to the entries of a stream: distinct ones. *)
Class EntryIds := {
  entry_id : nat → string;
  entry_id_inj : Inj (=) (=) entry_id;
}.
#[global] Existing Instance entry_id_inj.

Definition wrong_type : error :=
  Errorf "WRONGTYPE Operation against a key holding the wrong kind of value" [].

Definition rs_set_key (k : string) (v : rvalue) (s : rserver) : rserver :=
  mkRserver (<[k := v]> (rs_keys s)) (rs_groups s) (rs_published s).

(** The keys of a server after one command, and its error. *)
Definition apply_cmd (c : rcmd) (s : rserver) : option error * rserver :=
  match c with
  | CSet k v _ => (None, rs_set_key k (RString v) s)
  | CDel k => (None, mkRserver (delete k (rs_keys s)) (rs_groups s) (rs_published s))
  | CZAdd k score member =>
      match rs_keys s !! k with
      | None => (None, rs_set_key k (RZset {[member := score]}) s)
      | Some (RZset z) => (None, rs_set_key k (RZset (<[member := score]> z)) s)
      | Some _ => (Some wrong_type, s)
      end
  | CZRem k member =>
      match rs_keys s !! k with
      | None => (None, s)
      | Some (RZset z) => (None, rs_set_key k (RZset (delete member z)) s)
      | Some _ => (Some wrong_type, s)
      end
  | CXAdd k values =>
      match rs_keys s !! k with
      | None => (None, rs_set_key k (RStream [values]) s)
      | Some (RStream es) => (None, rs_set_key k (RStream (es ++ [values])) s)
      | Some _ => (Some wrong_type, s)
      end
  | CPublish ch payload =>
      (None, mkRserver (rs_keys s) (rs_groups s) (rs_published s ++ [(ch, payload)]))
  end.

(** MULTI/EXEC runs every command; Exec reports the first error. *)
Fixpoint exec (cs : list rcmd) (s : rserver) : option error * rserver :=
  match cs with
  | [] => (None, s)
  | c :: cs' =>
      let '(err, s1) := apply_cmd c s in
      let '(err', s2) := exec cs' s1 in
      (match err with Some _ => err | None => err' end, s2)
  end.

(** Sorted sets order their members by score and then by their bytes. *)
Definition zle (a b : string * Z) : Prop :=
  (snd a < snd b)%Z ∨ snd a = snd b ∧ String.leb (fst a) (fst b) = true.
#[export] Instance zle_dec : RelDecision zle.
Proof. intros [m x] [n y]. unfold zle. cbn. apply _. Defined.

Definition zsorted (z : gmap string Z) : list string :=
  reverse (fst <$> merge_sort zle (map_to_list z)).

(** ZREVRANGE: inclusive indices, negative ones count from the end. *)
Definition zrevrange (z : gmap string Z) (start stop : Z) : list string :=
  let l := zsorted z in
  let n := Z.of_nat (length l) in
  let start := if decide (start < 0)%Z then Z.max 0 (start + n) else start in
  let stop := if decide (stop < 0)%Z then (stop + n)%Z else stop in
  if decide (stop < start ∨ n ≤ start)%Z then []
  else take (Z.to_nat (Z.min stop (n - 1) - start + 1)) (drop (Z.to_nat start) l).

Definition mget_reply (v : option rvalue) : reply :=
  match v with Some (RString s) => RepString s | _ => RepNil end.

Definition stream_entries (v : option rvalue) : option (list (gmap string string)) :=
  match v with None => Some [] | Some (RStream es) => Some es | Some _ => None end.

Definition message_of `{!EntryIds} (i : nat) (values : gmap string string) : XMessage :=
  mkXMessage (entry_id i) (AString <$> values).

(** XREADGROUP with the id >: the entries never delivered to the group, at most
    [count] of them, which become pending for the consumer. *)
Definition xread (g : rgroup) (consumer : string) (count : Z) (es : list (gmap string string))
    : list (nat * gmap string string) * rgroup :=
  let fresh := take (Z.to_nat count) (drop (rg_last g) (imap (λ i v, (i, v)) es)) in
  (fresh, mkRgroup (rg_last g + length fresh)
            (rg_pending g ++ ((λ iv, (fst iv, consumer)) <$> fresh))).

(** XGROUP CREATE with MKSTREAM at $: the group starts after the last entry. *)
Definition new_group (stream group : string) (es : list (gmap string string)) (s : rserver) : rserver :=
  mkRserver (<[stream := RStream es]> (rs_keys s))
    (<[(stream, group) := mkRgroup (length es) []]> (rs_groups s)) (rs_published s).

(** ** The laws *)

(** A call answered with [a] that leaves the server as [v]. *)
Definition serves {R A} (up : R → Prop) (view : R → rserver)
    (m : M R A) (r : R) (a : A) (v : rserver) : Prop :=
  ∃ r', m r = (Ret a, r') ∧ up r' ∧ view r' = v.

(** Documented behaviour of a reachable server that nobody else writes to while
    a call runs. Records with a TTL may vanish and are left out. *)
Class RedisLaws (R : Type) `{!RedisClient R, !TimeNow R, ids : EntryIds, text : ErrorText} := {
  r_up : R → Prop;
  r_view : R → rserver;
  law_Get r k : r_up r →
    match rs_keys (r_view r) !! k with
    | Some (RString v) => serves r_up r_view (redis_Get k) r (Ok v) (r_view r)
    | Some _ => ∃ e, is_redis_Nil e = false ∧
        serves r_up r_view (redis_Get k) r (Err e) (r_view r)
    | None => ∃ e, is_redis_Nil e = true ∧
        serves r_up r_view (redis_Get k) r (Err e) (r_view r)
    end;
  law_MGet r ks : r_up r →
    serves r_up r_view (redis_MGet ks) r
      (Ok ((λ k, mget_reply (rs_keys (r_view r) !! k)) <$> ks)) (r_view r);
  law_Exec r cs : r_up r → Forall (λ c, match c with CSet _ _ ttl => ttl = 0%Z | _ => True end) cs →
    serves r_up r_view (redis_Exec cs) r (fst (exec cs (r_view r))) (snd (exec cs (r_view r)));
  law_ZRevRange r k start stop : r_up r →
    match rs_keys (r_view r) !! k with
    | None => serves r_up r_view (redis_ZRevRange k start stop) r (Ok []) (r_view r)
    | Some (RZset z) =>
        serves r_up r_view (redis_ZRevRange k start stop) r (Ok (zrevrange z start stop)) (r_view r)
    | Some _ => ∃ e, serves r_up r_view (redis_ZRevRange k start stop) r (Err e) (r_view r)
    end;
  law_XReadGroup r group consumer stream g es count block : r_up r → (0 < count)%Z →
    rs_groups (r_view r) !! (stream, group) = Some g →
    rs_keys (r_view r) !! stream = Some (RStream es) →
    let '(fresh, g') := xread g consumer count es in
    match fresh with
    | [] => ∃ e, is_redis_Nil e = true ∧
        serves r_up r_view (redis_XReadGroup group consumer stream ">" count block) r (Err e) (r_view r)
    | _ =>
        serves r_up r_view (redis_XReadGroup group consumer stream ">" count block) r
          (Ok [(λ iv, message_of (fst iv) (snd iv)) <$> fresh])
          (mkRserver (rs_keys (r_view r)) (<[(stream, group) := g']> (rs_groups (r_view r)))
             (rs_published (r_view r)))
    end;
  law_XAck r stream group g i : r_up r →
    rs_groups (r_view r) !! (stream, group) = Some g →
    serves r_up r_view (redis_XAck stream group (entry_id i)) r None
      (mkRserver (rs_keys (r_view r))
         (<[(stream, group) := mkRgroup (rg_last g) (filter (λ p, fst p ≠ i) (rg_pending g))]>
            (rs_groups (r_view r)))
         (rs_published (r_view r)));
  law_XGroupCreateMkStream r stream group es : r_up r →
    stream_entries (rs_keys (r_view r) !! stream) = Some es →
    match rs_groups (r_view r) !! (stream, group) with
    | Some _ => ∃ e, Contains (error_text e) "BUSYGROUP" = true ∧
        serves r_up r_view (redis_XGroupCreateMkStream stream group "$") r (Some e) (r_view r)
    | None =>
        serves r_up r_view (redis_XGroupCreateMkStream stream group "$") r None
          (new_group stream group es (r_view r))
    end;
  law_time r : r_up r → ∃ t, serves r_up r_view time_Now r t (r_view r);
}.

(** ** The reference client

    The reference server with a clock, as an implementation of the interface. *)
Definition ref_world : Type := rserver * clock.
Definition empty_world (readings : nat → Z) : ref_world := (mkRserver ∅ ∅ [], mkClock readings 0).

Definition redis_Nil : error := Errorf "redis: nil" [].
Definition busy_group : error := Errorf "BUSYGROUP Consumer Group name already exists" [].

(** Error texts, enough for the errors of the reference server. *)
Definition plain_text : ErrorText := λ e, match e with Errorf f [] => f | _ => "" end.

Section Reference.
Context `{!EntryIds}.

Definition ref_query {A} (f : rserver → A * rserver) : M ref_world A :=
  λ w, (Ret (fst (f (fst w))), (snd (f (fst w)), snd w)).

Definition ref_read (group consumer stream id : string) (count block : Z) (s : rserver)
    : res (list (list XMessage)) * rserver :=
  match rs_groups s !! (stream, group), stream_entries (rs_keys s !! stream) with
  | Some g, Some es =>
      let '(fresh, g') := xread g consumer count es in
      match fresh with
      | [] => (Err redis_Nil, s)
      | _ => (Ok [(λ iv, message_of (fst iv) (snd iv)) <$> fresh],
              mkRserver (rs_keys s) (<[(stream, group) := g']> (rs_groups s)) (rs_published s))
      end
  | _, _ => (Err (Errorf "NOGROUP" []), s)
  end.

Definition ref_ack (stream group id : string) (s : rserver) : option error * rserver :=
  match rs_groups s !! (stream, group) with
  | Some g => (None, mkRserver (rs_keys s)
      (<[(stream, group) := mkRgroup (rg_last g)
          (filter (λ p, entry_id (fst p) ≠ id) (rg_pending g))]> (rs_groups s)) (rs_published s))
  | None => (None, s)
  end.

#[export] Instance ref_client : RedisClient ref_world := {
  redis_Get k := ref_query (λ s,
    (match rs_keys s !! k with
     | Some (RString v) => Ok v
     | Some _ => Err wrong_type
     | None => Err redis_Nil
     end, s));
  redis_MGet ks := ref_query (λ s, (Ok ((λ k, mget_reply (rs_keys s !! k)) <$> ks), s));
  redis_Exec cs := ref_query (exec cs);
  redis_ZRevRange k start stop := ref_query (λ s,
    (match rs_keys s !! k with
     | Some (RZset z) => Ok (zrevrange z start stop)
     | Some _ => Err wrong_type
     | None => Ok []
     end, s));
  redis_XGroupCreateMkStream stream group id := ref_query (λ s,
    match rs_groups s !! (stream, group), stream_entries (rs_keys s !! stream) with
    | Some _, _ => (Some busy_group, s)
    | None, Some es => (None, new_group stream group es s)
    | None, None => (Some wrong_type, s)
    end);
  redis_XReadGroup group consumer stream id count block :=
    ref_query (ref_read group consumer stream id count block);
  redis_XAck stream group id := ref_query (ref_ack stream group id);
  redis_Subscribe ch := ret 0;
  redis_Receive ps := ret None;
  is_redis_Nil e := match e with Errorf f [] => bool_decide (f = "redis: nil") | _ => false end;
}.

#[export] Instance ref_time : TimeNow ref_world := λ w,
  (Ret (clock_now (snd w)), (fst w, clock_tick (snd w))).

#[export] Instance ref_laws : RedisLaws ref_world (text := plain_text).
Proof.
  refine {| r_up := λ _, True; r_view := fst |}.
  - intros r k _. destruct (rs_keys (fst r) !! k) as [[]|] eqn:E;
      [|exists wrong_type; split; [reflexivity|]..|exists redis_Nil; split; [reflexivity|]];
      (eexists; split; [cbn; unfold ref_query; by rewrite E|done]).
  - intros r ks _. by eexists.
  - intros r cs _ _. by eexists.
  - intros r k start stop _. destruct (rs_keys (fst r) !! k) as [[]|] eqn:E; [eexists| |eexists|];
      (eexists; split; [cbn; unfold ref_query; by rewrite E|done]).
  - intros r group consumer stream g es count block _ Hc Hg Hk.
    destruct (xread g consumer count es) as [[|x fresh] g'] eqn:E;
      [exists redis_Nil; split; [reflexivity|]|];
      (eexists; split; [cbn -[xread]; unfold ref_query, ref_read; rewrite Hg, Hk; cbn -[xread]; by rewrite E|done]).
  - intros r stream group g i _ Hg. eexists. split;
      [cbn; unfold ref_query, ref_ack; by rewrite Hg|split; [done|]].
    cbn. do 3 f_equal. apply list_filter_iff. intros [j c]. cbn.
    split; intros Hne Heq; apply Hne; [by rewrite Heq|by apply (inj entry_id) in Heq].
  - intros r stream group es _ Hes.
    destruct (rs_groups (fst r) !! (stream, group)) eqn:Hg; [exists busy_group; split; [reflexivity|]|];
      (eexists; split; [cbn; unfold ref_query; by rewrite Hg, ?Hes|done]).
  - intros r _. by eexists _, _.
Defined.
End Reference.
