(* ===== verification/Manifests.v ===== *)
(** The YAML encoding of the API kinds (pkg/apis/v1alpha1/types.go): a manifest
    is decoded generically, normalized, and read strictly through protojson; a
    message is printed as the tree of YAML nodes of its protojson text.
    [readJSONValue] builds that tree from the tokens of encoding/json; it is
    total, and it loses nothing of the document. *)

From S2P Require Import Prelude GoStrings Types Bindings RedisApi.

(** ** Interfaces *)

(** What json.Decoder.Token yields with UseNumber set. *)
Inductive token :=
| TDelim (c : ascii)
| TString (s : string)
| TNumber (text : string)
| TBool (b : bool)
| TNull.

(** The tokens of a text, and the error after the last one: io.EOF or a syntax
    error. A decoder hands out a closing delimiter only where it fits, and a
    string where an object's key stands. *)
Class JsonTokens := json_tokens : string → list token * error.
(** Whether time.Parse accepts a text as RFC 3339 with fractions. *)
Class TimeParse := time_Parse_ok : string → bool.
(** yaml.Node.Decode into an [any], and json.Marshal of that value. *)
Class YamlNodes := {
  yaml_node : Type;
  node_Decode : yaml_node → res any;
  json_Marshal_any : any → res string;
}.
(** protojson.Unmarshal that rejects unknown fields. *)
Class StrictJSON (A : Type) := Unmarshal_strict : string → res A.

(** ** Output *)

Inductive ynode :=
| YMapping (content : list (ynode * ynode))
| YSequence (content : list ynode)
| YScalar (tag value : string).

Definition key_text (t : token) : string := match t with TString s => s | _ => "" end.
Definition closing (c : ascii) : bool := Ascii.eqb c "]" || Ascii.eqb c "}".
(** dec.More() *)
Definition More (toks : list token) : bool :=
  match toks with [] => false | TDelim c :: _ => negb (closing c) | _ => true end.

Definition scalar_node `{!TimeParse} (t : token) : ynode :=
  match t with
  | TString s => YScalar (if time_Parse_ok s then "!!timestamp" else "!!str") s
  | TNumber v => YScalar (if ContainsAny v ".eE" then "!!float" else "!!int") v
  | TBool b => YScalar "!!bool" (if b then "true" else "false")
  | TNull => YScalar "!!null" "null"
  | TDelim _ => YScalar "" ""
  end.

Section Read.
Context `{!TimeParse} (end_err : error).

(** The recursion, with the tokens left over after the value; [None] when the
    fuel is used up. *)
Fixpoint readJSONValue (fuel : nat) (toks : list token) : option (res (ynode * list token)) :=
  match fuel with
  | O => None
  | S fuel =>
      match toks with
      | [] => Some (Err end_err)
      | TDelim c :: toks =>
          if Ascii.eqb c "{" then read_members fuel [] toks
          else if Ascii.eqb c "[" then read_elements fuel [] toks
          else Some (Err (Errorf "unexpected json delimiter %q" [AStr (String c "")]))
      | t :: toks => Some (Ok (scalar_node t, toks))
      end
  end
with read_members (fuel : nat) (content : list (ynode * ynode)) (toks : list token)
    : option (res (ynode * list token)) :=
  match fuel with
  | O => None
  | S fuel =>
      if More toks then
        match toks with
        | [] => Some (Err end_err)
        | key :: toks =>
            match readJSONValue fuel toks with
            | Some (Ok (val, toks)) =>
                read_members fuel (content ++ [(YScalar "!!str" (key_text key), val)]) toks
            | out => out
            end
        end
      else
        match toks with
        | [] => Some (Err end_err)
        | _ :: toks => Some (Ok (YMapping content, toks))
        end
  end
with read_elements (fuel : nat) (content : list ynode) (toks : list token)
    : option (res (ynode * list token)) :=
  match fuel with
  | O => None
  | S fuel =>
      if More toks then
        match readJSONValue fuel toks with
        | Some (Ok (val, toks)) => read_elements fuel (content ++ [val]) toks
        | out => out
        end
      else
        match toks with
        | [] => Some (Err end_err)
        | _ :: toks => Some (Ok (YSequence content, toks))
        end
  end.
End Read.

Definition read_fuel (toks : list token) : nat := 2 * length toks + 2.

Definition jsonToYAMLNode `{!TimeParse, !JsonTokens} (data : string) : option (res ynode) :=
  let '(toks, err) := json_tokens data in
  match readJSONValue err (read_fuel toks) toks with
  | Some (Ok (n, _)) => Some (Ok n)
  | Some (Err e) => Some (Err e)
  | None => None
  end.

Definition marshalYAML `{!TimeParse, !JsonTokens} {A} `{!ProtoJSON A} (m : A) : option (res ynode) :=
  match Marshal m with
  | Err e => Some (Err e)
  | Ok data => jsonToYAMLNode data
  end.

(** ** Input *)

Definition normalizer : Type := gmap string any → gmap string any.

Definition unmarshalYAML `{!YamlNodes} {A} `{!StrictJSON A} (normalize : option normalizer)
    (value : yaml_node) : res A :=
  match node_Decode value with
  | Err e => Err e
  | Ok doc =>
      let doc := match doc, normalize with
                 | AMap obj, Some f => AMap (f obj)
                 | _, _ => doc
                 end in
      match json_Marshal_any doc with
      | Err e => Err (Errorf "converting yaml to json: %w" [AWrap e])
      | Ok data => Unmarshal_strict data
      end
  end.

Section Kinds.
Context `{!YamlNodes, !StrictJSON Task, !StrictJSON Gateway, !StrictJSON Workspace, !StrictJSON Model}.
Definition Task_UnmarshalYAML : yaml_node → res Task := unmarshalYAML None.
Definition Gateway_UnmarshalYAML : yaml_node → res Gateway := unmarshalYAML None.
Definition Workspace_UnmarshalYAML : yaml_node → res Workspace := unmarshalYAML (Some normalizeWorkspace).
Definition Model_UnmarshalYAML : yaml_node → res Model := unmarshalYAML (Some normalizeModel).
End Kinds.

(** ** The documents *)

(** A JSON document, its tokens, and the tree it stands for. *)
Inductive json :=
| JNull | JBool (b : bool) | JNumber (text : string) | JString (s : string)
| JArray (l : list json) | JObject (l : list (string * json)).

Fixpoint tokens_of (j : json) : list token :=
  match j with
  | JNull => [TNull] | JBool b => [TBool b] | JNumber t => [TNumber t] | JString s => [TString s]
  | JArray l => TDelim "[" :: flat_map tokens_of l ++ [TDelim "]"]
  | JObject l => TDelim "{" :: flat_map (λ '(k, v), TString k :: tokens_of v) l ++ [TDelim "}"]
  end.

Fixpoint node_of `{!TimeParse} (j : json) : ynode :=
  match j with
  | JNull => scalar_node TNull | JBool b => scalar_node (TBool b)
  | JNumber t => scalar_node (TNumber t) | JString s => scalar_node (TString s)
  | JArray l => YSequence (map node_of l)
  | JObject l => YMapping (map (λ '(k, v), (YScalar "!!str" k, node_of v)) l)
  end.

(** The document a tree stands for, by the tags of its scalars. *)
Fixpoint document (n : ynode) : json :=
  match n with
  | YMapping l => JObject (map (λ '(k, v), (match k with YScalar _ s => s | _ => "" end, document v)) l)
  | YSequence l => JArray (map document l)
  | YScalar tag v =>
      if bool_decide (tag = "!!null") then JNull
      else if bool_decide (tag = "!!bool") then JBool (bool_decide (v = "true"))
      else if bool_decide (tag = "!!int") || bool_decide (tag = "!!float") then JNumber v
      else JString v
  end.

(** * Theorems *)

Section Reading.
Context `{!TimeParse} (end_err : error).

(** What a call of the reader leaves: an answer, and on success fewer tokens. *)
Definition answers {A} (bound : nat) (out : option (res (A * list token))) : Prop :=
  ∃ r, out = Some r ∧ ∀ n toks, r = Ok (n, toks) → (length toks < bound)%nat.

Lemma answers_err {A} b e : answers (A := A) b (Some (Err e)).
Proof. by exists (Err e). Qed.
Lemma answers_ok {A} b (n : A) toks : (length toks < b)%nat → answers b (Some (Ok (n, toks))).
Proof. intros. eexists. split; [done|]. naive_solver. Qed.
Lemma answers_weaken {A} b b' (out : option (res (A * list token))) :
  answers b out → (b ≤ b')%nat → answers b' out.
Proof. intros (r & -> & Hr) Hb. exists r. split; [done|]. intros n t ->. specialize (Hr n t eq_refl). lia. Qed.

(** One level of the recursion. *)
Lemma readJSONValue_S fuel toks :
  readJSONValue end_err (S fuel) toks =
    match toks with
    | [] => Some (Err end_err)
    | TDelim c :: toks =>
        if Ascii.eqb c "{" then read_members end_err fuel [] toks
        else if Ascii.eqb c "[" then read_elements end_err fuel [] toks
        else Some (Err (Errorf "unexpected json delimiter %q" [AStr (String c "")]))
    | t :: toks => Some (Ok (scalar_node t, toks))
    end.
Proof. reflexivity. Qed.
Lemma read_members_S fuel content t toks :
  read_members end_err (S fuel) content (t :: toks) =
    if More (t :: toks) then
      match readJSONValue end_err fuel toks with
      | Some (Ok (val, toks)) => read_members end_err fuel (content ++ [(YScalar "!!str" (key_text t), val)]) toks
      | out => out
      end
    else Some (Ok (YMapping content, toks)).
Proof. reflexivity. Qed.
Lemma read_elements_S fuel content t toks :
  read_elements end_err (S fuel) content (t :: toks) =
    if More (t :: toks) then
      match readJSONValue end_err fuel (t :: toks) with
      | Some (Ok (val, toks)) => read_elements end_err fuel (content ++ [val]) toks
      | out => out
      end
    else Some (Ok (YSequence content, toks)).
Proof. reflexivity. Qed.

Lemma read_answers fuel :
  (∀ toks, (2 * length toks + 1 ≤ fuel)%nat → answers (length toks) (readJSONValue end_err fuel toks)) ∧
  (∀ c toks, (2 * length toks + 1 ≤ fuel)%nat → answers (length toks) (read_members end_err fuel c toks)) ∧
  (∀ c toks, (2 * length toks + 2 ≤ fuel)%nat → answers (length toks) (read_elements end_err fuel c toks)).
Proof.
  induction fuel as [|fuel (IHv & IHm & IHe)]; [split_and!; intros; lia|]. split_and!.
  - intros [|t toks] Hf; [apply answers_err|]. rewrite readJSONValue_S. cbn [length] in *.
    destruct t as [c| | | |]; try (apply answers_ok; lia).
    repeat case_match; try apply answers_err.
    + eapply answers_weaken; [apply IHm; lia|lia].
    + eapply answers_weaken; [apply IHe; lia|lia].
  - intros c [|t toks] Hf; [apply answers_err|]. rewrite read_members_S. cbn [length] in *.
    destruct (More _); [|apply answers_ok; lia].
    destruct (IHv toks ltac:(lia)) as (r & -> & Hr). destruct r as [[n toks']|e]; [|apply answers_err].
    specialize (Hr n toks' eq_refl). eapply answers_weaken; [apply IHm; lia|lia].
  - intros c [|t toks] Hf; [apply answers_err|]. rewrite read_elements_S. cbn [length] in *.
    destruct (More _); [|apply answers_ok; lia].
    destruct (IHv (t :: toks) ltac:(cbn; lia)) as (r & -> & Hr). destruct r as [[n toks']|e]; [|apply answers_err].
    specialize (Hr n toks' eq_refl). cbn in Hr. eapply answers_weaken; [apply IHe; lia|lia].
Qed.

Section Induction.
Variable P : json → Prop.
Hypothesis Hnull : P JNull.
Hypothesis Hbool : ∀ b, P (JBool b).
Hypothesis Hnumber : ∀ t, P (JNumber t).
Hypothesis Hstring : ∀ s, P (JString s).
Hypothesis Harray : ∀ l, Forall P l → P (JArray l).
Hypothesis Hobject : ∀ l, Forall (λ kv, P kv.2) l → P (JObject l).
Fixpoint json_nested_ind (j : json) : P j :=
  match j with
  | JNull => Hnull | JBool b => Hbool b | JNumber t => Hnumber t | JString s => Hstring s
  | JArray l => Harray l ((fix go l := match l return Forall P l with
      | [] => Forall_nil_2 _ | j :: l => Forall_cons_2 _ _ _ (json_nested_ind j) (go l) end) l)
  | JObject l => Hobject l ((fix go l := match l return Forall (λ kv, P kv.2) l with
      | [] => Forall_nil_2 _ | kv :: l => Forall_cons_2 _ _ _ (json_nested_ind kv.2) (go l) end) l)
  end.
End Induction.

(** A document starts with a token that is not a closing delimiter. *)
Lemma tokens_More j rest : More (tokens_of j ++ rest) = true.
Proof. by destruct j. Qed.

Definition reads (j : json) : Prop := ∀ fuel rest,
  (2 * length (tokens_of j ++ rest) + 1 ≤ fuel)%nat →
  readJSONValue end_err fuel (tokens_of j ++ rest) = Some (Ok (node_of j, rest)).

Lemma members_read l : Forall (λ kv : string * json, reads kv.2) l → ∀ fuel content rest,
  let toks := flat_map (λ '(k, v), TString k :: tokens_of v) l ++ TDelim "}" :: rest in
  (2 * length toks + 1 ≤ fuel)%nat →
  read_members end_err fuel content toks =
    Some (Ok (YMapping (content ++ map (λ '(k, v), (YScalar "!!str" k, node_of v)) l), rest)).
Proof.
  induction 1 as [|[k v] l Hv Hl IH]; intros fuel content rest; cbn zeta; intros Hf;
    (destruct fuel as [|fuel]; [lia|]); cbn [flat_map app map] in *.
  - by rewrite read_members_S, app_nil_r.
  - rewrite <- app_assoc in Hf |- *. cbn [snd length] in *. rewrite read_members_S. cbn [More].
    unfold reads in Hv. rewrite Hv by lia. rewrite IH by (rewrite length_app in Hf; cbn in *; lia).
    by rewrite <- app_assoc.
Qed.

Lemma elements_read l : Forall reads l → ∀ fuel content rest,
  let toks := flat_map tokens_of l ++ TDelim "]" :: rest in
  (2 * length toks + 2 ≤ fuel)%nat →
  read_elements end_err fuel content toks = Some (Ok (YSequence (content ++ map node_of l), rest)).
Proof.
  induction 1 as [|v l Hv Hl IH]; intros fuel content rest; cbn zeta; intros Hf;
    (destruct fuel as [|fuel]; [lia|]); cbn [flat_map app map] in *.
  - by rewrite read_elements_S, app_nil_r.
  - rewrite <- app_assoc in Hf |- *.
    pose proof (tokens_More v (flat_map tokens_of l ++ TDelim "]" :: rest)) as Hmore.
    destruct (tokens_of v) as [|t ts] eqn:Ev; [by destruct v|].
    cbn [app] in *. rewrite read_elements_S, Hmore. cbn [length] in Hf.
    unfold reads in Hv. rewrite Ev in Hv. cbn [app length] in Hv.
    rewrite Hv by (cbn; lia).
    rewrite IH by (rewrite ?length_app in *; cbn in *; lia). by rewrite <- app_assoc.
Qed.

Lemma tokens_read j : reads j.
Proof.
  induction j as [| | | |l Hl|l Hl] using json_nested_ind; intros [|fuel] rest Hf; cbn in Hf; try lia; try done;
    cbn [tokens_of app]; rewrite readJSONValue_S; rewrite <- app_assoc in Hf |- *; cbn [app] in *.
  - exact (elements_read l Hl fuel [] rest ltac:(cbn in *; lia)).
  - exact (members_read l Hl fuel [] rest ltac:(cbn in *; lia)).
Qed.
End Reading.

Lemma document_node_of `{!TimeParse} j : document (node_of j) = j.
Proof.
  induction j as [|b|t|s|l Hl|l Hl] using json_nested_ind; cbn [node_of scalar_node]; try done.
  - by destruct b.
  - by destruct (ContainsAny _ _).
  - by destruct (time_Parse_ok _).
  - cbn. f_equal. induction Hl as [|j l Hj _ IH]; [done|]. cbn. by rewrite Hj, IH.
  - cbn. f_equal. induction Hl as [|[k j] l Hj _ IH]; [done|]. cbn in *. by rewrite Hj, IH.
Qed.

(** C34: printing a message as YAML always comes to an end, and loses nothing: of a
    JSON document the tree of nodes keeps every object with its keys in order,
    every list in order and every scalar with its type and text. *)
Theorem jsonToYAMLNode_lossless `{!TimeParse, !JsonTokens} (data : string) :
  (∃ r, jsonToYAMLNode data = Some r) ∧
  ∀ j, fst (json_tokens data) = tokens_of j →
    ∃ n, jsonToYAMLNode data = Some (Ok n) ∧ n = node_of j ∧ document n = j.
Proof.
  unfold jsonToYAMLNode. destruct (json_tokens data) as [toks err]. cbn [fst]. split.
  - destruct (read_answers err (read_fuel toks)) as (Hv & _ & _).
    destruct (Hv toks ltac:(unfold read_fuel; lia)) as (r & -> & _). repeat case_match; eauto.
  - intros j ->. exists (node_of j). rewrite <- (app_nil_r (tokens_of j)) at 2.
    rewrite tokens_read by (rewrite app_nil_r; unfold read_fuel; lia).
    by rewrite document_node_of.
Qed.

Definition sample_json : json :=
  JObject [("status", JString "True"); ("ports", JArray [JNumber "80"; JNull])].
#[local] Instance sample_tokens : JsonTokens := λ _, (tokens_of sample_json, ErrForeign 1).
#[local] Instance sample_times : TimeParse := λ _, false.

Lemma jsonToYAMLNode_lossless_witness :
  jsonToYAMLNode "{}" = Some (Ok (YMapping
    [(YScalar "!!str" "status", YScalar "!!str" "True");
     (YScalar "!!str" "ports", YSequence [YScalar "!!int" "80"; YScalar "!!null" "null"])])).
Proof.
  destruct (proj2 (@jsonToYAMLNode_lossless sample_times sample_tokens "{}") sample_json eq_refl) as (n & Hn & -> & _). exact Hn.
Defined.
