(* ===== verification/RedisStore.v ===== *)
(** The Redis store (internal/store/redis/store.go) over the client and codec
    interfaces of RedisApi: key layout, the operations of every kind, and the
    consumer-group subscription. A pipeline is one atomic step of the server;
    the calls of an operation are separate steps. *)

From S2P Require Import Prelude GoStrings Types StoreApi RedisApi.

(** ** Options *)

Record Options := mkOptions {
  StreamName : string;
  KeyPrefix : string;
  TTL : Z;
  ReadBatchSize : Z;
  ReadBlock : Z;                    (* nanoseconds *)
}.

Definition defaultStreamName : string := "ax:stream:tasks".
Definition defaultReadBatchSize : Z := 10.
Definition defaultReadBlock : Z := 2000000000.

(** The options [NewStore] keeps. *)
Definition NewStore (opts : Options) : Options :=
  mkOptions
    (if decide (StreamName opts = "") then defaultStreamName else StreamName opts)
    (if decide (KeyPrefix opts = "") then "ax" else KeyPrefix opts)
    (TTL opts)
    (if decide (ReadBatchSize opts <= 0)%Z then defaultReadBatchSize else ReadBatchSize opts)
    (if decide (ReadBlock opts <= 0)%Z then defaultReadBlock else ReadBlock opts).

(** float64(n) of an int64: rounded to 53 bits, ties to even. *)
Definition float64_of_int (n : Z) : Z :=
  let a := Z.abs n in
  if decide (a < 2 ^ 53)%Z then n
  else
    let k := (Z.log2 a - 52)%Z in
    let q := Z.shiftr a k in
    let r := (a - Z.shiftl q k)%Z in
    let half := Z.shiftl 1 (k - 1) in
    let q := if decide (r < half)%Z then q
             else if decide (half < r)%Z then (q + 1)%Z
             else if Z.even q then q else (q + 1)%Z in
    (Z.sgn n * Z.shiftl q k)%Z.

Section Store.
Context {R : Type} `{!RedisClient R, !TimeNow R}.
Context `{!ProtoJSON Task, !ProtoJSON Gateway, !ProtoJSON Workspace, !ProtoJSON Model}.
Variable opts : Options.

(** ** Keys *)

Definition taskKey (atespace name : string) : string :=
  KeyPrefix opts +:+ ":task:" +:+ atespace +:+ ":" +:+ name.
Definition gwKey (atespace name : string) : string :=
  KeyPrefix opts +:+ ":gw:" +:+ atespace +:+ ":" +:+ name.
Definition gwIndexKey : string := KeyPrefix opts +:+ ":gateways:index".
Definition gwAtespaceIndexKey (atespace : string) : string :=
  KeyPrefix opts +:+ ":gateways:atespace:" +:+ atespace.
Definition modelKey (atespace name : string) : string :=
  KeyPrefix opts +:+ ":model:" +:+ atespace +:+ ":" +:+ name.
Definition modelIndexKey : string := KeyPrefix opts +:+ ":models:index".
Definition modelAtespaceIndexKey (atespace : string) : string :=
  KeyPrefix opts +:+ ":models:atespace:" +:+ atespace.
Definition wsKey (atespace name : string) : string :=
  KeyPrefix opts +:+ ":workspace:" +:+ atespace +:+ ":" +:+ name.
Definition wsIndexKey : string := KeyPrefix opts +:+ ":workspaces:index".
Definition wsAtespaceIndexKey (atespace : string) : string :=
  KeyPrefix opts +:+ ":workspaces:atespace:" +:+ atespace.
Definition taskIndexKey : string := KeyPrefix opts +:+ ":tasks:index".
Definition taskAtespaceIndexKey (atespace : string) : string :=
  KeyPrefix opts +:+ ":tasks:atespace:" +:+ atespace.
Definition taskPubSubChannel (atespace name : string) : string :=
  KeyPrefix opts +:+ ":pubsub:task:" +:+ atespace +:+ ":" +:+ name.

Definition event_values (action atespace name : string) : gmap string string :=
  <["action" := action]> (<["atespace" := atespace]> {["name" := name]}).

(** ** Tasks *)

(** The defaults [SaveTask] fills in, once the name is checked. *)
Definition task_defaults (t : Task) : Task :=
  let meta := default zero_ObjectMeta (task_metadata t) in
  let st := default zero_TaskStatus (task_status t) in
  mkTask
    (if decide (task_api_version t = "") then APIVersion else task_api_version t)
    (if decide (task_kind t = "") then KindTask else task_kind t)
    (Some (if decide (om_atespace meta = "") then om_set_atespace "default" meta else meta))
    (task_spec t)
    (Some (if decide (st_phase st = "") then st_set_phase "Pending" st else st)).

Definition SaveTask (task : Task) : M R (option error * Task) :=
  let task := match task_metadata task with
              | None => task_set_metadata (Some zero_ObjectMeta) task
              | Some _ => task
              end in
  if decide (from_option om_name "" (task_metadata task) = "") then
    ret (Some (Errorf "task name is required" []), task)
  else
    let task := task_defaults task in
    match Marshal task with
    | Err e => ret (Some (Errorf "marshaling task: %w" [AWrap e]), task)
    | Ok data =>
        let! meta := deref (task_metadata task) in
        let atespace := om_atespace meta in
        let name := om_name meta in
        let! now := time_Now in
        let score := float64_of_int now in
        let member := atespace +:+ ":" +:+ name in
        let! err := redis_Exec
          [CSet (taskKey atespace name) data (TTL opts);
           CZAdd taskIndexKey score member;
           CZAdd (taskAtespaceIndexKey atespace) score name;
           CXAdd (StreamName opts) (event_values "reconcile" atespace name);
           CPublish (taskPubSubChannel atespace name) data] in
        match err with
        | Some e => ret (Some (Errorf "saving task to redis: %w" [AWrap e]), task)
        | None => ret (None, task)
        end
    end.

Definition GetTask (atespace name : string) : M R (res Task) :=
  let atespace := if decide (atespace = "") then "default" else atespace in
  let! val := redis_Get (taskKey atespace name) in
  match val with
  | Err e =>
      if is_redis_Nil e then ret (Err ErrNotFound)
      else ret (Err (Errorf "getting task from redis: %w" [AWrap e]))
  | Ok val =>
      match Unmarshal val with
      | Err e => ret (Err (Errorf "unmarshaling task: %w" [AWrap e]))
      | Ok task => ret (Ok task)
      end
  end.

(** The values of an MGET reply that decode. *)
Definition decode_reply {A} `{!ProtoJSON A} (v : reply) : option A :=
  match v with
  | RepString str => match Unmarshal str with Ok x => Some x | Err _ => None end
  | _ => None
  end.

(** The record key of an index member. *)
Definition member_key (key : string → string → string) (m : string) : string :=
  match SplitN2 ":" m with
  | [a; n] => key a n
  | _ => key "default" m
  end.

(** The index lookup and batch fetch the four list operations share. *)
Definition list_page {A} `{!ProtoJSON A} (index : string) (atespaceIndex : string → string)
    (key : string → string → string) (err_index err_fetch : string)
    (atespace : string) (start stop : Z) : M R (res (list A)) :=
  let! members :=
    if bool_decide (atespace = "") || bool_decide (atespace = "*") then
      redis_ZRevRange index start stop
    else
      let! names := redis_ZRevRange (atespaceIndex atespace) start stop in
      ret (match names with
           | Ok names => Ok ((λ n, atespace +:+ ":" +:+ n) <$> names)
           | Err e => Err e
           end) in
  match members with
  | Err e => ret (Err (Errorf err_index [AWrap e]))
  | Ok [] => ret (Ok [])
  | Ok members =>
      let! vals := redis_MGet (member_key key <$> members) in
      match vals with
      | Err e => ret (Err (Errorf err_fetch [AWrap e]))
      | Ok vals => ret (Ok (omap decode_reply vals))
      end
  end.

Definition ListTasks (atespace : string) (limit offset : Z) : M R (res (list Task)) :=
  let limit := if decide (limit <= 0)%Z then 50%Z else limit in
  let start := offset in
  let stop := int64 (int64 (offset + limit) - 1) in
  list_page taskIndexKey taskAtespaceIndexKey taskKey
    "listing task index: %w" "batch fetching tasks: %w" atespace start stop.

(** What [UpdateTaskStatus] does with the task it read: a second round trip, so
    other clients may act in between. *)
Definition write_status (atespace name : string) (status : option TaskStatus) (task : Task)
    : M R (option error) :=
  match Marshal (task_set_status status task) with
  | Err e => ret (Some (Errorf "marshaling task status: %w" [AWrap e]))
  | Ok data =>
      let! err := redis_Exec
        [CSet (taskKey atespace name) data (TTL opts);
         CPublish (taskPubSubChannel atespace name) data] in
      match err with
      | Some e => ret (Some (Errorf "updating task status in redis: %w" [AWrap e]))
      | None => ret None
      end
  end.

Definition UpdateTaskStatus (atespace name : string) (status : option TaskStatus)
    : M R (option error) :=
  let! r := GetTask atespace name in
  match r with
  | Err e => ret (Some e)
  | Ok task => write_status atespace name status task
  end.

Definition MarkTaskDeleting (atespace name : string) : M R (option error) :=
  let atespace := if decide (atespace = "") then "default" else atespace in
  let! r := GetTask atespace name in
  match r with
  | Err e => ret (Some e)
  | Ok task =>
      let st := default zero_TaskStatus (task_status task) in
      match Marshal (task_set_status (Some (st_set_phase PhaseTerminating st)) task) with
      | Err e => ret (Some (Errorf "marshaling task: %w" [AWrap e]))
      | Ok data =>
          let! err := redis_Exec
            [CSet (taskKey atespace name) data (TTL opts);
             CPublish (taskPubSubChannel atespace name) data;
             CXAdd (StreamName opts) (event_values "delete" atespace name)] in
          match err with
          | Some e => ret (Some (Errorf "marking task deleting in redis: %w" [AWrap e]))
          | None => ret None
          end
      end
  end.

Definition DeleteTask (atespace name : string) : M R (option error) :=
  let atespace := if decide (atespace = "") then "default" else atespace in
  let member := atespace +:+ ":" +:+ name in
  let! err := redis_Exec
    [CDel (taskKey atespace name);
     CZRem taskIndexKey member;
     CZRem (taskAtespaceIndexKey atespace) name] in
  match err with
  | Some e => ret (Some (Errorf "deleting task from redis: %w" [AWrap e]))
  | None => ret None
  end.

(** ** Gateways *)

Definition gw_defaults (gw : Gateway) : Gateway :=
  let meta := default zero_ObjectMeta (gw_metadata gw) in
  mkGateway
    (if decide (gw_api_version gw = "") then APIVersion else gw_api_version gw)
    (if decide (gw_kind gw = "") then KindGateway else gw_kind gw)
    (Some (if decide (om_atespace meta = "") then om_set_atespace "default" meta else meta))
    (gw_spec gw).

(** Marshaling and the pipeline of the save operations of gateways, models and
    workspaces. *)
Definition save_indexed {A} `{!ProtoJSON A} (meta : A → option ObjectMeta)
    (key : string → string → string) (index : string) (atespaceIndex : string → string)
    (err_marshal : string) (x : A) : M R (option error * A) :=
  match Marshal x with
  | Err e => ret (Some (Errorf err_marshal [AWrap e]), x)
  | Ok data =>
      let! m := deref (meta x) in
      let atespace := om_atespace m in
      let name := om_name m in
      let! now := time_Now in
      let score := float64_of_int now in
      let member := atespace +:+ ":" +:+ name in
      let! err := redis_Exec
        [CSet (key atespace name) data 0;
         CZAdd index score member;
         CZAdd (atespaceIndex atespace) score name] in
      ret (err, x)
  end.

(** The pipeline of their delete operations. *)
Definition delete_indexed (key : string → string → string) (index : string)
    (atespaceIndex : string → string) (atespace name : string) : M R (option error) :=
  let atespace := if decide (atespace = "") then "default" else atespace in
  let member := atespace +:+ ":" +:+ name in
  redis_Exec
    [CDel (key atespace name);
     CZRem index member;
     CZRem (atespaceIndex atespace) name].

(** Their lookup. *)
Definition get_record {A} `{!ProtoJSON A} (key : string → string → string)
    (err_get err_unmarshal : string) (atespace name : string) : M R (res A) :=
  let atespace := if decide (atespace = "") then "default" else atespace in
  let! val := redis_Get (key atespace name) in
  match val with
  | Err e =>
      if is_redis_Nil e then ret (Err ErrNotFound)
      else ret (Err (Errorf err_get [AWrap e]))
  | Ok val =>
      match Unmarshal val with
      | Err e => ret (Err (Errorf err_unmarshal [AWrap e]))
      | Ok x => ret (Ok x)
      end
  end.

Definition SaveGateway (gw : Gateway) : M R (option error * Gateway) :=
  let gw := match gw_metadata gw with
            | None => gw_set_metadata (Some zero_ObjectMeta) gw
            | Some _ => gw
            end in
  if decide (from_option om_name "" (gw_metadata gw) = "") then
    ret (Some (Errorf "gateway name is required" []), gw)
  else save_indexed gw_metadata gwKey gwIndexKey gwAtespaceIndexKey
         "marshaling gateway: %w" (gw_defaults gw).

Definition DeleteGateway : string → string → M R (option error) :=
  delete_indexed gwKey gwIndexKey gwAtespaceIndexKey.

Definition ListGateways (atespace : string) : M R (res (list Gateway)) :=
  list_page gwIndexKey gwAtespaceIndexKey gwKey
    "listing gateway index: %w" "batch fetching gateways: %w" atespace 0 (-1).

Definition GetGateway : string → string → M R (res Gateway) :=
  get_record gwKey "getting gateway from redis: %w" "unmarshaling gateway: %w".

(** ** Models *)

Definition model_defaults (model : Model) : Model :=
  let meta := default zero_ObjectMeta (model_metadata model) in
  mkModel
    (if decide (model_api_version model = "") then APIVersion else model_api_version model)
    (if decide (model_kind model = "") then KindModel else model_kind model)
    (Some (if decide (om_atespace meta = "") then om_set_atespace "default" meta else meta))
    (model_spec model).

Definition SaveModel (model : Model) : M R (option error * Model) :=
  let model := match model_metadata model with
               | None => model_set_metadata (Some zero_ObjectMeta) model
               | Some _ => model
               end in
  if decide (from_option om_name "" (model_metadata model) = "") then
    ret (Some (Errorf "model name is required" []), model)
  else save_indexed model_metadata modelKey modelIndexKey modelAtespaceIndexKey
         "marshaling model: %w" (model_defaults model).

Definition DeleteModel : string → string → M R (option error) :=
  delete_indexed modelKey modelIndexKey modelAtespaceIndexKey.

Definition ListModels (atespace : string) : M R (res (list Model)) :=
  list_page modelIndexKey modelAtespaceIndexKey modelKey
    "listing model index: %w" "batch fetching models: %w" atespace 0 (-1).

Definition GetModel : string → string → M R (res Model) :=
  get_record modelKey "getting model from redis: %w" "unmarshaling model: %w".

(** ** Workspaces *)

Definition ws_defaults (ws : Workspace) : Workspace :=
  let meta := default zero_ObjectMeta (ws_metadata ws) in
  mkWorkspace
    (if decide (ws_api_version ws = "") then APIVersion else ws_api_version ws)
    (if decide (ws_kind ws = "") then KindWorkspace else ws_kind ws)
    (Some (if decide (om_atespace meta = "") then om_set_atespace "default" meta else meta))
    (ws_spec ws).

Definition SaveWorkspace (ws : Workspace) : M R (option error * Workspace) :=
  let ws := match ws_metadata ws with
            | None => ws_set_metadata (Some zero_ObjectMeta) ws
            | Some _ => ws
            end in
  if decide (from_option om_name "" (ws_metadata ws) = "") then
    ret (Some (Errorf "workspace name is required" []), ws)
  else save_indexed ws_metadata wsKey wsIndexKey wsAtespaceIndexKey
         "marshaling workspace: %w" (ws_defaults ws).

Definition DeleteWorkspace : string → string → M R (option error) :=
  delete_indexed wsKey wsIndexKey wsAtespaceIndexKey.

Definition ListWorkspaces (atespace : string) : M R (res (list Workspace)) :=
  list_page wsIndexKey wsAtespaceIndexKey wsKey
    "listing workspace index: %w" "batch fetching workspaces: %w" atespace 0 (-1).

Definition GetWorkspace : string → string → M R (res Workspace) :=
  get_record wsKey "getting workspace from redis: %w" "unmarshaling workspace: %w".

(** ** Consumer groups *)

Record subscription := mkSubscription {
  sub_group : string;
  sub_consumer : string;
  sub_pending : list TaskEvent;
}.

Definition Subscribe `{!ErrorText} (group consumer : string) : M R (res subscription) :=
  let! err := redis_XGroupCreateMkStream (StreamName opts) group "$" in
  match err with
  | Some e =>
      if negb (Contains (error_text e) "BUSYGROUP")
      then ret (Err (Errorf "creating consumer group %q: %w" [AStr group; AWrap e]))
      else ret (Ok (mkSubscription group consumer []))
  | None => ret (Ok (mkSubscription group consumer []))
  end.

Definition string_value (v : option any) : option string :=
  match v with Some (AString s) => Some s | _ => None end.

Definition eventFromMessage (msg : XMessage) : TaskEvent :=
  mkTaskEvent (xm_id msg)
    (match string_value (xm_values msg !! "atespace") with
     | Some a => a
     | None => default "" (string_value (xm_values msg !! "namespace"))
     end)
    (default "" (string_value (xm_values msg !! "name")))
    (default "" (string_value (xm_values msg !! "action"))).

Definition read (sub : subscription) : M R (res (list TaskEvent)) :=
  let! r := redis_XReadGroup (sub_group sub) (sub_consumer sub) (StreamName opts) ">"
              (ReadBatchSize opts) (ReadBlock opts) in
  match r with
  | Err e =>
      if is_redis_Nil e then ret (Ok [])
      else ret (Err (Errorf "reading task events: %w" [AWrap e]))
  | Ok streams => ret (Ok (streams ≫= λ msgs, eventFromMessage <$> msgs))
  end.

(** [Next], given what ctx.Err() reports before each read; [None] while it is
    still polling. *)
Fixpoint Next (sub : subscription) (ctx_errs : list (option error))
    : M R (option (res TaskEvent) * subscription) :=
  match sub_pending sub with
  | ev :: rest =>
      ret (Some (Ok ev), mkSubscription (sub_group sub) (sub_consumer sub) rest)
  | [] =>
      match ctx_errs with
      | [] => ret (None, sub)
      | Some e :: _ => ret (Some (Err e), sub)
      | None :: ctx_errs' =>
          let! events := read sub in
          match events with
          | Err e => ret (Some (Err e), sub)
          | Ok events =>
              Next (mkSubscription (sub_group sub) (sub_consumer sub) events) ctx_errs'
          end
      end
  end.

Definition Ack (sub : subscription) (ev : TaskEvent) : M R (option error) :=
  redis_XAck (StreamName opts) (sub_group sub) (ev_id ev).

(** Closing leaves the consumer registered: its pending events would be lost with it. *)
Definition subscription_Close (sub : subscription) : M R (option error) := ret None.

(** ** Watching *)

(** [WatchTask]: the subscription, or the error of its confirmation. *)
Definition WatchTask (atespace name : string) : M R (res nat) :=
  let atespace := if decide (atespace = "") then "default" else atespace in
  let! pubsub := redis_Subscribe (taskPubSubChannel atespace name) in
  let! err := redis_Receive pubsub in
  match err with
  | Some e => ret (Err (Errorf "subscribing to task watch: %w" [AWrap e]))
  | None => ret (Ok pubsub)
  end.

(** What its goroutine sends for the payloads it receives. *)
Definition watch_forward (payloads : list string) : list Task :=
  omap (λ p, decode_reply (RepString p)) payloads.

End Store.
