(* ===== verification/RedisSort.v ===== *)
(** The order of a sorted set's members: [zle] is a total order, so [zsorted] is
    determined by the set, and raising a member's score above all others moves it
    to the front. *)

From stdpp Require Import sorting.
From S2P Require Import Prelude GoStrings RedisApi.

#[export] Instance zle_trans : Transitive zle.
Proof.
  intros [m x] [n y] [o z]. unfold zle. cbn. intros [?|[-> Hm]] [?|[-> Hn]]; [left; lia|by left; lia..|].
  right. split; [done|]. by eapply string_leb_trans.
Qed.

#[export] Instance zle_total : Total zle.
Proof.
  intros [m x] [n y]. unfold zle. cbn.
  destruct (Z.lt_trichotomy x y) as [?|[->|?]]; [by left; left| |by right; left].
  destruct (String.leb_total m n) as [H|H]; [left|right]; by right.
Qed.

#[export] Instance zle_antisymm : AntiSymm (=) zle.
Proof.
  intros [m x] [n y]. unfold zle. cbn. intros [?|[-> Hm]] [?|[? Hn]]; try lia.
  f_equal. by apply String.leb_antisym.
Qed.

Lemma zsorted_Permutation z : zsorted z ≡ₚ (map_to_list z).*1.
Proof. unfold zsorted. rewrite reverse_Permutation. by rewrite merge_sort_Permutation. Qed.

Lemma elem_of_zsorted z m : m ∈ zsorted z ↔ is_Some (z !! m).
Proof.
  rewrite zsorted_Permutation, list_elem_of_fmap. split.
  - intros ([? s] & -> & ?%elem_of_map_to_list). by exists s.
  - intros [s Hs]. exists (m, s). by rewrite elem_of_map_to_list.
Qed.

Lemma NoDup_zsorted z : NoDup (zsorted z).
Proof. rewrite zsorted_Permutation. apply NoDup_fst_map_to_list. Qed.

(** A member whose score exceeds every other one comes first, the rest keeps its
    order. *)
Lemma zsorted_insert_max m s z : (∀ n x, z !! n = Some x → n ≠ m → (x < s)%Z) →
  zsorted (<[m := s]> z) = m :: zsorted (delete m z).
Proof.
  intros Hmax. unfold zsorted.
  replace (merge_sort zle (map_to_list (<[m := s]> z)))
    with (merge_sort zle (map_to_list (delete m z)) ++ [(m, s)]).
  { by rewrite fmap_app, reverse_app. }
  apply (StronglySorted_unique zle).
  - apply StronglySorted_app. split_and!.
    + intros [n x] q Hn ->%list_elem_of_singleton. rewrite merge_sort_Permutation in Hn.
      apply elem_of_map_to_list, lookup_delete_Some in Hn as [? Hn]. left. by eapply Hmax.
    + apply StronglySorted_merge_sort; apply _.
    + by repeat constructor.
  - apply StronglySorted_merge_sort; apply _.
  - rewrite !merge_sort_Permutation. rewrite Permutation_app_comm. cbn.
    rewrite <- map_to_list_insert by apply lookup_delete_eq. by rewrite insert_delete_eq.
Qed.
