(* ===== verification/RedisInv.v ===== *)
(** The invariant of the Redis keyspace the store maintains, the view of its
    records, and what every operation of the store does to them. *)

From S2P Require Import Prelude GoStrings Types StoreApi RedisApi RedisSort RedisStore.

(** ** Reading a keyspace *)

(** The entries of a map whose key starts with a prefix, by the rest of the key. *)
Definition strip_map {V A} (p : string) (f : V → option A) (m : gmap string V) : gmap string A :=
  map_fold (λ q x acc,
    match strip_prefix p q with
    | Some k => match f x with Some a => <[k := a]> acc | None => acc end
    | None => acc
    end) ∅ m.

Lemma strip_map_lookup {V A} p (f : V → option A) m k :
  strip_map p f m !! k = (m !! (p +:+ k)) ≫= f.
Proof.
  unfold strip_map.
  refine (map_fold_weak_ind (λ acc m, ∀ k, acc !! k = (m !! (p +:+ k)) ≫= f) _ _ _ _ m k);
    [done|].
  intros q x m' acc Hq IH k'. destruct (strip_prefix p q) as [k0|] eqn:E.
  - apply strip_prefix_Some in E as ->. destruct (decide (k' = k0)) as [->|Hne].
    + rewrite lookup_insert_eq. cbn. destruct (f x) eqn:Ef; [by rewrite lookup_insert_eq|].
      by rewrite IH, Hq.
    + rewrite (lookup_insert_ne m') by (by intros ?%string_app_inj_l).
      destruct (f x); [by rewrite lookup_insert_ne|done].
  - rewrite lookup_insert_ne; [done|]. intros ->. by rewrite strip_prefix_app in E.
Qed.

Definition decode {A} `{!ProtoJSON A} (v : rvalue) : option A :=
  match v with RString d => decode_reply (RepString d) | _ => None end.

Definition zset (v : rserver) (k : string) : gmap string Z :=
  match rs_keys v !! k with Some (RZset z) => z | _ => ∅ end.
Definition zok (v : rserver) (k : string) : Prop :=
  ∀ x, rs_keys v !! k = Some x → ∃ z, x = RZset z.
Definition stream_at (v : rserver) (k : string) : list (gmap string string) :=
  default [] (stream_entries (rs_keys v !! k)).

(** ** Commands *)

Lemma rs_keys_set k x v : rs_keys (rs_set_key k x v) = <[k := x]> (rs_keys v).
Proof. reflexivity. Qed.

Lemma exec_cons c cs v v' : apply_cmd c v = (None, v') → exec (c :: cs) v = exec cs v'.
Proof. intros H. cbn. rewrite H. by destruct (exec cs v'). Qed.

Lemma apply_zadd k s m v : zok v k →
  apply_cmd (CZAdd k s m) v = (None, rs_set_key k (RZset (<[m := s]> (zset v k))) v).
Proof.
  intros Hok. cbn. unfold zset. destruct (rs_keys v !! k) as [x|] eqn:E; [|done].
  by destruct (Hok x E) as [z ->].
Qed.

Definition zrem (k m : string) (v : rserver) : rserver :=
  match rs_keys v !! k with
  | Some (RZset z) => rs_set_key k (RZset (delete m z)) v
  | _ => v
  end.

Lemma apply_zrem k m v : zok v k → apply_cmd (CZRem k m) v = (None, zrem k m v).
Proof.
  intros Hok. cbn. unfold zrem. destruct (rs_keys v !! k) as [x|] eqn:E; [|done].
  by destruct (Hok x E) as [z ->].
Qed.

Lemma zrem_ne k m v k' : k' ≠ k → rs_keys (zrem k m v) !! k' = rs_keys v !! k'.
Proof. intros. unfold zrem. repeat case_match; try done. cbn. by rewrite lookup_insert_ne. Qed.
Lemma zrem_zok k m v k' : zok v k' → zok (zrem k m v) k'.
Proof.
  intros Hok x. destruct (decide (k' = k)) as [->|]; [|rewrite zrem_ne by done; apply Hok].
  unfold zrem. repeat case_match; cbn; rewrite ?lookup_insert_eq; try apply Hok.
  intros [= <-]. eauto.
Qed.
Lemma zrem_zset k m v : zset (zrem k m v) k = delete m (zset v k).
Proof.
  unfold zrem, zset. destruct (rs_keys v !! k) as [[]|] eqn:E; cbn;
    rewrite ?lookup_insert_eq, ?E, ?delete_empty; done.
Qed.
Lemma zrem_zset_ne k m v k' : k' ≠ k → zset (zrem k m v) k' = zset v k'.
Proof. intros. unfold zset. by rewrite zrem_ne. Qed.

Lemma apply_xadd k vals v : (∀ x, rs_keys v !! k = Some x → ∃ es, x = RStream es) →
  apply_cmd (CXAdd k vals) v = (None, rs_set_key k (RStream (stream_at v k ++ [vals])) v).
Proof.
  intros Hok. cbn. unfold stream_at. destruct (rs_keys v !! k) as [x|] eqn:E; [|done].
  by destruct (Hok x eq_refl) as [es ->].
Qed.

(** ** Kinds *)

(** The heads of the keys of one kind of resource: its records and its indexes. *)
Record kind := mkKind { k_rec : string; k_idx : string }.
Definition K_task := mkKind ":task:" ":tasks:".
Definition K_gw := mkKind ":gw:" ":gateways:".
Definition K_model := mkKind ":model:" ":models:".
Definition K_ws := mkKind ":workspace:" ":workspaces:".
Definition kinds : list kind := [K_task; K_gw; K_model; K_ws].

Section Inv.
Context {R : Type} `{!RedisClient R, !TimeNow R, ids : EntryIds, text : ErrorText, !RedisLaws R}.
Context `{!ProtoJSON Task, !ProtoJSON Gateway, !ProtoJSON Workspace, !ProtoJSON Model}.
Variable opts : Options.

Definition rec_key (K : kind) (k : string) : string := KeyPrefix opts +:+ k_rec K +:+ k.
Definition idx_key (K : kind) (k : string) : string := KeyPrefix opts +:+ k_idx K +:+ k.

(** The options the theorems are about: no TTL, and a stream of its own. *)
Definition opts_ok : Prop :=
  TTL opts = 0%Z ∧
  ∀ K, K ∈ kinds → ∀ k, StreamName opts ≠ rec_key K k ∧ StreamName opts ≠ idx_key K k.

Lemma keys_apart K K' k k' : K ∈ kinds → K' ∈ kinds →
  rec_key K k ≠ idx_key K' k' ∧
  (K ≠ K' → rec_key K k ≠ rec_key K' k' ∧ idx_key K k ≠ idx_key K' k').
Proof.
  intros HK HK'. unfold rec_key, idx_key.
  split; [|intros Hne; split]; intros Heq%string_app_inj_l;
    repeat (apply elem_of_cons in HK as [->|HK]); try (by apply elem_of_nil in HK);
    repeat (apply elem_of_cons in HK' as [->|HK']); try (by apply elem_of_nil in HK'); done.
Qed.

Lemma rec_key_inj K k k' : rec_key K k = rec_key K k' → k = k'.
Proof. unfold rec_key. by intros ?%string_app_inj_l%string_app_inj_l. Qed.
Lemma idx_key_inj K k k' : idx_key K k = idx_key K k' → k = k'.
Proof. unfold idx_key. by intros ?%string_app_inj_l%string_app_inj_l. Qed.

Definition aidx (a : string) : string := "atespace:" +:+ a.

Section Kind.
Context {A : Type} `{!ProtoJSON A} (K : kind) (meta : A → option ObjectMeta) (HK : K ∈ kinds).

Definition records (v : rserver) : gmap string A :=
  strip_map (KeyPrefix opts +:+ k_rec K) decode (rs_keys v).

Lemma records_lookup v k : records v !! k = (rs_keys v !! rec_key K k) ≫= decode.
Proof.
  unfold records. rewrite strip_map_lookup. f_equal. unfold rec_key.
  by rewrite sapp_assoc.
Qed.

(** Records decode and are filed under their own address; index keys hold sorted
    sets; the index of the kind lists exactly the records, and every record is
    listed in the index of its atespace. *)
Record kind_inv (v : rserver) : Prop := {
  ki_rec k x : rs_keys v !! rec_key K k = Some x →
    ∃ d a m, x = RString d ∧ Unmarshal d = Ok a ∧ meta a = Some m ∧
      meta_key m = k ∧ om_name m ≠ "" ∧ is_Some (zset v (idx_key K (aidx (default_atespace (om_atespace m)))) !! om_name m);
  ki_idx k : zok v (idx_key K k);
  ki_all k : is_Some (zset v (idx_key K "index") !! k) ↔ is_Some (rs_keys v !! rec_key K k);
}.

Lemma kind_inv_frame v v' :
  (∀ k, rs_keys v' !! rec_key K k = rs_keys v !! rec_key K k) →
  (∀ k, rs_keys v' !! idx_key K k = rs_keys v !! idx_key K k) →
  kind_inv v → kind_inv v' ∧ records v' = records v.
Proof.
  intros Hr Hi Hv.
  assert (∀ k, zset v' (idx_key K k) = zset v (idx_key K k)) as Hz by (intros; unfold zset; by rewrite Hi).
  split; [split|].
  - intros k x. rewrite Hr. intros (d & a & m & ?)%(ki_rec _ Hv). rewrite <- Hz in *. eauto 9.
  - intros k x. rewrite Hi. apply (ki_idx _ Hv).
  - intros k. rewrite Hr, Hz. apply (ki_all _ Hv).
  - apply map_eq. intros k. by rewrite !records_lookup, Hr.
Qed.

Lemma records_none v k : kind_inv v → rs_keys v !! rec_key K k = None ↔ records v !! k = None.
Proof.
  intros Hv. rewrite records_lookup. split; [by intros ->|].
  destruct (rs_keys v !! rec_key K k) as [x|] eqn:E; [|done].
  destruct (ki_rec v Hv k x E) as (d & a & m & -> & Hd & _). cbn. by rewrite Hd.
Qed.

Lemma records_some v k a : kind_inv v → records v !! k = Some a →
  ∃ d m, rs_keys v !! rec_key K k = Some (RString d) ∧ Unmarshal d = Ok a ∧
    meta a = Some m ∧ meta_key m = k ∧ om_name m ≠ "".
Proof.
  intros Hv. rewrite records_lookup.
  destruct (rs_keys v !! rec_key K k) as [x|] eqn:E; [|done].
  destruct (ki_rec v Hv k x E) as (d & b & m & -> & Hd & Hm & Hk & Hn & _). cbn. rewrite Hd.
  intros [= ->]. by exists d, m.
Qed.

(** *** The save pipeline *)

Definition save_state (a n data : string) (score : Z) (v : rserver) : rserver :=
  let ik := idx_key K "index" in
  let ak := idx_key K (aidx a) in
  rs_set_key ak (RZset (<[n := score]> (zset v ak)))
    (rs_set_key ik (RZset (<[a +:+ ":" +:+ n := score]> (zset v ik)))
      (rs_set_key (rec_key K (a +:+ ":" +:+ n)) (RString data) v)).

Lemma index_apart a : idx_key K "index" ≠ idx_key K (aidx a).
Proof. by intros ?%idx_key_inj. Qed.
Lemma rec_idx k k' : rec_key K k ≠ idx_key K k'.
Proof. by apply keys_apart. Qed.

Lemma save_state_rec a n data score v k :
  rs_keys (save_state a n data score v) !! rec_key K k =
    if decide (k = a +:+ ":" +:+ n) then Some (RString data) else rs_keys v !! rec_key K k.
Proof.
  cbn. rewrite !(lookup_insert_ne _ (idx_key _ _)) by (apply not_eq_sym, rec_idx).
  case_decide as Hk; [by rewrite Hk, lookup_insert_eq|].
  rewrite lookup_insert_ne; [done|]. intros Heq%rec_key_inj. by rewrite Heq in Hk.
Qed.

Lemma save_state_index a n data score v :
  zset (save_state a n data score v) (idx_key K "index") =
    <[a +:+ ":" +:+ n := score]> (zset v (idx_key K "index")).
Proof.
  unfold zset at 1. cbn. rewrite lookup_insert_ne by (apply not_eq_sym, index_apart).
  by rewrite lookup_insert_eq.
Qed.

Lemma save_state_aidx a n data score v b :
  zset (save_state a n data score v) (idx_key K (aidx b)) =
    if decide (b = a) then <[n := score]> (zset v (idx_key K (aidx a)))
    else zset v (idx_key K (aidx b)).
Proof.
  unfold zset at 1. cbn. case_decide as Hb; [by subst; rewrite lookup_insert_eq|].
  rewrite (lookup_insert_ne _ (idx_key K (aidx a)));
    [|by intros ?%idx_key_inj%(string_app_inj_l "atespace:")].
  rewrite (lookup_insert_ne _ (idx_key K "index")) by apply index_apart.
  by rewrite lookup_insert_ne by apply rec_idx.
Qed.

Lemma save_state_zok a n data score v k : zok v (idx_key K k) →
  zok (save_state a n data score v) (idx_key K k).
Proof.
  intros Hok x. cbn.
  destruct (decide (idx_key K (aidx a) = idx_key K k)) as [<-|?];
    [rewrite lookup_insert_eq; intros [= <-]; eauto|rewrite lookup_insert_ne by done].
  destruct (decide (idx_key K "index" = idx_key K k)) as [<-|?];
    [rewrite lookup_insert_eq; intros [= <-]; eauto|rewrite lookup_insert_ne by done].
  rewrite lookup_insert_ne by apply rec_idx. apply Hok.
Qed.

Lemma save_state_inv a n data score v x m : kind_inv v → Unmarshal data = Ok x →
  meta x = Some m → default_atespace (om_atespace m) = a → om_name m = n → n ≠ "" →
  let v' := save_state a n data score v in
  kind_inv v' ∧ records v' = <[meta_key m := x]> (records v).
Proof.
  intros Hv Hd Hm Ha Hn Hne. cbv zeta.
  assert (meta_key m = a +:+ ":" +:+ n) as Hkey by (unfold meta_key, res_key; by rewrite Ha, Hn).
  split; [split|].
  - intros k y. rewrite save_state_rec. case_decide as Hk.
    + intros [= <-]. exists data, x, m. split_and!; [done..|by rewrite Hkey|by rewrite Hn|].
      rewrite Ha, Hn, save_state_aidx, decide_True by done. rewrite lookup_insert_eq. eauto.
    + intros (d & b & m' & ? & ? & ? & ? & ? & Hz)%(ki_rec v Hv). exists d, b, m'.
      split_and!; [done..|]. rewrite save_state_aidx. case_decide as Hb; [|done].
      rewrite <- Hb. destruct (decide (om_name m' = n)) as [->|]; [rewrite lookup_insert_eq; eauto|].
      by rewrite lookup_insert_ne.
  - intros k. apply save_state_zok, (ki_idx v Hv).
  - intros k. rewrite save_state_rec, save_state_index. case_decide as Hk.
    + rewrite Hk, lookup_insert_eq. split; eauto.
    + rewrite lookup_insert_ne by done. apply (ki_all v Hv).
  - apply map_eq. intros k. rewrite records_lookup, save_state_rec, Hkey.
    case_decide as Hk; [|by rewrite lookup_insert_ne, records_lookup by done].
    rewrite Hk, lookup_insert_eq. cbn. by rewrite Hd.
Qed.

Lemma exec_save a n data score cs v : kind_inv v →
  exec (CSet (rec_key K (a +:+ ":" +:+ n)) data 0 :: CZAdd (idx_key K "index") score (a +:+ ":" +:+ n) ::
        CZAdd (idx_key K (aidx a)) score n :: cs) v = exec cs (save_state a n data score v).
Proof.
  intros Hv. rewrite (exec_cons _ _ v (rs_set_key (rec_key K (a +:+ ":" +:+ n)) (RString data) v)) by done.
  assert (∀ k, zok (rs_set_key (rec_key K (a +:+ ":" +:+ n)) (RString data) v) (idx_key K k)) as Hok.
  { intros k x. cbn. rewrite lookup_insert_ne by apply rec_idx. apply (ki_idx v Hv). }
  assert (∀ k, zset (rs_set_key (rec_key K (a +:+ ":" +:+ n)) (RString data) v) (idx_key K k)
               = zset v (idx_key K k)) as Hz.
  { intros k. unfold zset. cbn. by rewrite lookup_insert_ne by apply rec_idx. }
  rewrite (exec_cons _ _ _ _ (apply_zadd _ _ _ _ (Hok _))), Hz.
  match goal with |- exec (?c :: cs) ?v1 = _ => assert (zok v1 (idx_key K (aidx a))) as Hok1 end.
  { intros x. cbn. rewrite lookup_insert_ne by apply index_apart. apply Hok. }
  rewrite (exec_cons _ _ _ _ (apply_zadd _ _ _ _ Hok1)). unfold save_state. do 4 f_equal.
  unfold zset at 1. cbn. rewrite lookup_insert_ne by apply index_apart. apply Hz.
Qed.

(** *** The delete pipeline *)

Definition delete_state (a n : string) (v : rserver) : rserver :=
  zrem (idx_key K (aidx a)) n
    (zrem (idx_key K "index") (a +:+ ":" +:+ n)
      (mkRserver (delete (rec_key K (a +:+ ":" +:+ n)) (rs_keys v)) (rs_groups v) (rs_published v))).

Lemma delete_state_rec a n v k :
  rs_keys (delete_state a n v) !! rec_key K k =
    if decide (k = a +:+ ":" +:+ n) then None else rs_keys v !! rec_key K k.
Proof.
  unfold delete_state. rewrite !zrem_ne by apply rec_idx. cbn.
  case_decide as Hk; [by rewrite Hk, lookup_delete_eq|].
  rewrite lookup_delete_ne; [done|]. intros Heq%rec_key_inj. by rewrite Heq in Hk.
Qed.

Lemma deleted_idx key k v :
  zset (mkRserver (delete (rec_key K key) (rs_keys v)) (rs_groups v) (rs_published v)) (idx_key K k)
    = zset v (idx_key K k).
Proof. unfold zset. cbn. by rewrite lookup_delete_ne by apply rec_idx. Qed.

Lemma delete_state_index a n v :
  zset (delete_state a n v) (idx_key K "index") =
    delete (a +:+ ":" +:+ n) (zset v (idx_key K "index")).
Proof.
  unfold delete_state. rewrite zrem_zset_ne by apply index_apart.
  by rewrite zrem_zset, deleted_idx.
Qed.

Lemma delete_state_aidx a n v b :
  zset (delete_state a n v) (idx_key K (aidx b)) =
    if decide (b = a) then delete n (zset v (idx_key K (aidx a)))
    else zset v (idx_key K (aidx b)).
Proof.
  unfold delete_state. case_decide as Hb.
  - subst. by rewrite zrem_zset, zrem_zset_ne, deleted_idx by apply not_eq_sym, index_apart.
  - rewrite zrem_zset_ne by (by intros ?%idx_key_inj%(string_app_inj_l "atespace:")).
    by rewrite zrem_zset_ne, deleted_idx by apply not_eq_sym, index_apart.
Qed.

Lemma deleted_zok key k v : zok v (idx_key K k) →
  zok (mkRserver (delete (rec_key K key) (rs_keys v)) (rs_groups v) (rs_published v)) (idx_key K k).
Proof. intros Hok x. cbn. rewrite lookup_delete_ne by apply rec_idx. apply Hok. Qed.

Lemma delete_state_inv a n v : kind_inv v → a ≠ "" →
  let v' := delete_state a n v in
  kind_inv v' ∧ records v' = delete (a +:+ ":" +:+ n) (records v).
Proof.
  intros Hv Ha. cbv zeta. split; [split|].
  - intros k y. rewrite delete_state_rec. case_decide as Hk; [done|].
    intros (d & b & m' & ? & ? & ? & Hk' & ? & Hz)%(ki_rec v Hv). exists d, b, m'.
    split_and!; [done..|]. rewrite delete_state_aidx. case_decide as Hb; [|done].
    rewrite <- Hb, lookup_delete_ne; [done|]. intros ->.
    apply Hk. by rewrite <- Hk', <- Hb.
  - intros k. unfold delete_state. by apply zrem_zok, zrem_zok, deleted_zok, (ki_idx v Hv).
  - intros k. rewrite delete_state_rec, delete_state_index. case_decide as Hk.
    + rewrite Hk, lookup_delete_eq. by split; intros [].
    + rewrite lookup_delete_ne by done. apply (ki_all v Hv).
  - apply map_eq. intros k. rewrite records_lookup, delete_state_rec.
    case_decide as Hk; [by rewrite Hk, lookup_delete_eq|].
    by rewrite lookup_delete_ne, records_lookup by done.
Qed.

Lemma exec_delete a n v : kind_inv v →
  exec [CDel (rec_key K (a +:+ ":" +:+ n)); CZRem (idx_key K "index") (a +:+ ":" +:+ n);
        CZRem (idx_key K (aidx a)) n] v = (None, delete_state a n v).
Proof.
  intros Hv.
  rewrite (exec_cons _ _ v (mkRserver (delete (rec_key K (a +:+ ":" +:+ n)) (rs_keys v))
    (rs_groups v) (rs_published v))) by done.
  erewrite exec_cons by apply apply_zrem, deleted_zok, (ki_idx v Hv).
  erewrite exec_cons by apply apply_zrem, zrem_zok, deleted_zok, (ki_idx v Hv).
  done.
Qed.

(** *** Overwriting a record in place *)

Lemma set_record_inv k data v x y : kind_inv v → records v !! k = Some y →
  Unmarshal data = Ok x → meta x = meta y →
  let v' := rs_set_key (rec_key K k) (RString data) v in
  kind_inv v' ∧ records v' = <[k := x]> (records v).
Proof.
  intros Hv Hy Hd Hm. cbv zeta.
  assert (∀ j, zset (rs_set_key (rec_key K k) (RString data) v) (idx_key K j)
            = zset v (idx_key K j)) as Hz.
  { intros j. unfold zset. cbn. by rewrite lookup_insert_ne by apply rec_idx. }
  assert (is_Some (rs_keys v !! rec_key K k)) as Hsome.
  { destruct (rs_keys v !! rec_key K k) eqn:E; [eauto|].
    apply records_none in E; [|done]. congruence. }
  split; [split|].
  - intros j z. rewrite rs_keys_set. destruct (decide (k = j)) as [<-|Hne].
    + rewrite lookup_insert_eq. intros [= <-]. destruct Hsome as [z Hs].
      destruct (ki_rec v Hv _ _ Hs) as (d & b & m & -> & Hb & Hbm & ? & ? & ?).
      rewrite records_lookup, Hs in Hy. cbn in Hy. rewrite Hb in Hy. simplify_eq.
      exists data, x, m. rewrite Hz. split_and!; try done. congruence.
    + rewrite lookup_insert_ne by (by intros ?%rec_key_inj).
      intros (d & b & m & ?)%(ki_rec v Hv). exists d, b, m. by rewrite Hz.
  - intros j z. rewrite rs_keys_set, lookup_insert_ne by apply rec_idx. apply (ki_idx v Hv).
  - intros j. rewrite Hz, rs_keys_set. destruct (decide (k = j)) as [<-|Hne].
    + rewrite lookup_insert_eq. rewrite (ki_all v Hv). split; eauto.
    + rewrite lookup_insert_ne by (by intros ?%rec_key_inj). apply (ki_all v Hv).
  - apply map_eq. intros j. rewrite records_lookup. cbn. destruct (decide (k = j)) as [<-|Hne].
    + rewrite !lookup_insert_eq. cbn. by rewrite Hd.
    + rewrite !lookup_insert_ne by (done || by intros ?%rec_key_inj). by rewrite records_lookup.
Qed.

End Kind.

(** ** The whole keyspace *)

Record r_inv (v : rserver) : Prop := {
  ri_task : kind_inv K_task task_metadata v;
  ri_gw : kind_inv K_gw gw_metadata v;
  ri_model : kind_inv K_model model_metadata v;
  ri_ws : kind_inv K_ws ws_metadata v;
  ri_stream x : rs_keys v !! StreamName opts = Some x → ∃ es, x = RStream es;
}.

Definition server_view (v : rserver) : StoreView :=
  mkStoreView (records K_task v) (records K_gw v) (records K_ws v) (records K_model v).

(** A change confined to the keys of one kind. *)
Definition only (K : kind) (v v' : rserver) : Prop :=
  ∀ k, (∀ j, k ≠ rec_key K j ∧ k ≠ idx_key K j) → rs_keys v' !! k = rs_keys v !! k.

Lemma only_frame {A} `{!ProtoJSON A} K K' (meta : A → option ObjectMeta) v v' :
  K ∈ kinds → K' ∈ kinds → K ≠ K' → only K v v' →
  kind_inv K' meta v → kind_inv K' meta v' ∧ records (A := A) K' v' = records K' v.
Proof.
  intros HK HK' Hne Ho. apply kind_inv_frame; intros k; apply Ho; intros j; split;
    try (by apply not_eq_sym; apply keys_apart); try (by apply keys_apart).
Qed.

Lemma only_stream K v v' : opts_ok → K ∈ kinds → only K v v' →
  rs_keys v' !! StreamName opts = rs_keys v !! StreamName opts.
Proof. intros [_ Hs] HK Ho. apply Ho. intros j. by apply Hs. Qed.

Lemma save_state_only K a n data score v : only K v (save_state K a n data score v).
Proof.
  intros k Hk. unfold save_state. rewrite !rs_keys_set.
  rewrite !lookup_insert_ne; [done|apply not_eq_sym, (Hk _)..].
Qed.

Lemma delete_state_only K a n v : only K v (delete_state K a n v).
Proof.
  intros k Hk. unfold delete_state. rewrite !zrem_ne by apply (Hk _). cbn.
  rewrite lookup_delete_ne; [done|apply not_eq_sym, (Hk _)].
Qed.

Lemma set_record_only K k data v : only K v (rs_set_key (rec_key K k) (RString data) v).
Proof.
  intros j Hj. rewrite rs_keys_set, lookup_insert_ne; [done|apply not_eq_sym, (Hj _)].
Qed.

Ltac kinds_in := by repeat (apply elem_of_cons; (by left) || right).
Ltac frame_kind Hinv Ho := 
  match goal with |- kind_inv ?K ?meta _ => eapply only_frame; [| | |exact Ho|apply Hinv] end;
  [kinds_in|kinds_in|done].

Ltac only_kind Hopts Hinv Ho Hk :=
  split;
    [split; [first [exact Hk | frame_kind Hinv Ho]..
            |intros x; erewrite only_stream; [apply (ri_stream _ Hinv)|exact Hopts| |exact Ho]; kinds_in]
    |];
  unfold server_view, v_set_tasks, v_set_gateways, v_set_models, v_set_workspaces; cbn; f_equal;
  match goal with
  | |- records ?K _ = records _ _ =>
      refine (proj2 (only_frame _ K _ _ _ _ _ _ Ho _)); [kinds_in|kinds_in|done|apply Hinv]
  end.

Lemma r_inv_task v v' : opts_ok → r_inv v → only K_task v v' → kind_inv K_task task_metadata v' →
  r_inv v' ∧ server_view v' = v_set_tasks (records K_task v') (server_view v).
Proof. intros Hopts Hinv Ho Hk. only_kind Hopts Hinv Ho Hk. Qed.
Lemma r_inv_gw v v' : opts_ok → r_inv v → only K_gw v v' → kind_inv K_gw gw_metadata v' →
  r_inv v' ∧ server_view v' = v_set_gateways (records K_gw v') (server_view v).
Proof. intros Hopts Hinv Ho Hk. only_kind Hopts Hinv Ho Hk. Qed.
Lemma r_inv_model v v' : opts_ok → r_inv v → only K_model v v' → kind_inv K_model model_metadata v' →
  r_inv v' ∧ server_view v' = v_set_models (records K_model v') (server_view v).
Proof. intros Hopts Hinv Ho Hk. only_kind Hopts Hinv Ho Hk. Qed.
Lemma r_inv_ws v v' : opts_ok → r_inv v → only K_ws v v' → kind_inv K_ws ws_metadata v' →
  r_inv v' ∧ server_view v' = v_set_workspaces (records K_ws v') (server_view v).
Proof. intros Hopts Hinv Ho Hk. only_kind Hopts Hinv Ho Hk. Qed.

(** Publishing, and appending to the event stream, leave the records alone. *)
Lemma r_inv_keys v v' : rs_keys v' = rs_keys v → r_inv v → r_inv v' ∧ server_view v' = server_view v.
Proof.
  intros Hk Hinv.
  assert (∀ K, only K v v') as Ho by (intros K k _; by rewrite Hk).
  split; [split|].
  1-4: eapply kind_inv_frame; [intros; by rewrite Hk..|apply Hinv].
  - intros x. rewrite Hk. apply (ri_stream _ Hinv).
  - unfold server_view, records. by rewrite Hk.
Qed.

(** What the stream holds is not part of the records. *)
Lemma r_inv_stream v es : opts_ok → r_inv v →
  let v' := rs_set_key (StreamName opts) (RStream es) v in r_inv v' ∧ server_view v' = server_view v.
Proof.
  intros [_ Hs] Hinv. cbv zeta.
  assert (∀ K, K ∈ kinds → ∀ k x, rs_keys (rs_set_key (StreamName opts) x v) !! rec_key K k
      = rs_keys v !! rec_key K k) as Hr.
  { intros K HK k x. rewrite rs_keys_set, lookup_insert_ne; [done|by apply Hs]. }
  assert (∀ K, K ∈ kinds → ∀ k x, rs_keys (rs_set_key (StreamName opts) x v) !! idx_key K k
      = rs_keys v !! idx_key K k) as Hi.
  { intros K HK k x. rewrite rs_keys_set, lookup_insert_ne; [done|by apply Hs]. }
  split; [split|].
  1-4: eapply kind_inv_frame; [intros; apply Hr; kinds_in|intros; apply Hi; kinds_in|apply Hinv].
  - intros x. rewrite rs_keys_set, lookup_insert_eq. intros [= <-]. eauto.
  - unfold server_view. f_equal; eapply kind_inv_frame;
      (intros; apply Hr; kinds_in) || (intros; apply Hi; kinds_in) || apply Hinv.
Qed.

Definition appended (vals : gmap string string) (v : rserver) : rserver :=
  rs_set_key (StreamName opts) (RStream (stream_at v (StreamName opts) ++ [vals])) v.

Lemma r_inv_append v vals : opts_ok → r_inv v →
  r_inv (appended vals v) ∧ server_view (appended vals v) = server_view v.
Proof. apply r_inv_stream. Qed.

(** ** The operations *)

Definition published (ch payload : string) (v : rserver) : rserver :=
  mkRserver (rs_keys v) (rs_groups v) (rs_published v ++ [(ch, payload)]).

Definition stream_ok (v : rserver) : Prop :=
  ∀ x, rs_keys v !! StreamName opts = Some x → ∃ es, x = RStream es.

Lemma exec_publish ch d cs v : exec (CPublish ch d :: cs) v = exec cs (published ch d v).
Proof. by apply exec_cons. Qed.
Lemma exec_append vals cs v : stream_ok v → exec (CXAdd (StreamName opts) vals :: cs) v = exec cs (appended vals v).
Proof. intros. by apply exec_cons, apply_xadd. Qed.

Lemma published_inv ch d v : r_inv v →
  r_inv (published ch d v) ∧ server_view (published ch d v) = server_view v.
Proof. by apply r_inv_keys. Qed.

Definition r_ok (r : R) : Prop := r_up r ∧ r_inv (r_view r).
Definition red_view (r : R) : StoreView := server_view (r_view r).

Lemma serves_runs {A} (m : M R A) r a v w : serves r_up r_view m r a v → r_inv v → server_view v = w →
  runs_to r_ok red_view m r a w.
Proof. intros (r' & ? & ? & Hv) ? ?. exists r'. unfold r_ok, red_view. by rewrite Hv. Qed.

Lemma serves_bind {A B} (m : M R A) (k : A → M R B) r a v b w :
  serves r_up r_view m r a v →
  (∀ r1, r_up r1 → r_view r1 = v → serves r_up r_view (k a) r1 b w) →
  serves r_up r_view (bind m k) r b w.
Proof.
  intros (r1 & Hm & ? & ?) Hk. destruct (Hk r1) as (r2 & ? & ? & ?); [done..|].
  exists r2. by rewrite (bind_Ret _ _ _ _ _ Hm).
Qed.
Lemma serves_pure {A B} (a : A) (k : A → M R B) r b w :
  serves r_up r_view (k a) r b w → serves r_up r_view (bind (ret a) k) r b w.
Proof. done. Qed.
Lemma serves_ret {A} (a : A) r : r_up r → serves r_up r_view (ret a) r a (r_view r).
Proof. intros. by exists r. Qed.

(** A pipeline without TTLs that meets no error. *)
Lemma serves_exec cs r v : r_up r → Forall (λ c, match c with CSet _ _ ttl => ttl = 0%Z | _ => True end) cs →
  exec cs (r_view r) = (None, v) → serves r_up r_view (redis_Exec cs) r None v.
Proof. intros Hr Hcs He. pose proof (law_Exec r cs Hr Hcs) as H. by rewrite He in H. Qed.

(** *** Saving *)

Lemma task_defaults_metadata t m : task_metadata t = Some m →
  task_metadata (task_defaults t) = Some (saved_meta m).
Proof.
  intros H. unfold task_defaults, saved_meta, default_atespace. rewrite H. cbn.
  case_decide; [done|]. by destruct m.
Qed.

Lemma SaveTask_serves r t m now : opts_ok → r_ok r → task_metadata t = Some m → om_name m ≠ "" →
  json_ok (task_defaults t) → serves r_up r_view time_Now r now (r_view r) →
  ∃ d, let a := default_atespace (om_atespace m) in let n := om_name m in
    Unmarshal d = Ok (task_defaults t) ∧
    serves r_up r_view (SaveTask opts t) r (None, task_defaults t)
      (published (taskPubSubChannel opts a n) d (appended (event_values "reconcile" a n)
        (save_state K_task a n d (float64_of_int now) (r_view r)))).
Proof.
  intros Hopts [Hup Hinv] Hm Hn (d & HM & HU) Hnow. exists d. split; [done|].
  unfold SaveTask. rewrite !Hm. cbn [from_option].
  rewrite decide_False by done. cbv zeta. rewrite HM, (task_defaults_metadata t m Hm).
  apply (serves_pure (saved_meta m)). cbv zeta.
  eapply serves_bind; [exact Hnow|]. intros r1 Hup1 Hv1.
  eapply (serves_bind _ _ _ None); [|intros r2 Hup2 <-; exact (serves_ret _ r2 Hup2)].
  destruct Hopts as [Httl Hs].
  apply serves_exec; [done|by repeat constructor|]. rewrite Hv1, Httl.
  etrans; [exact (exec_save K_task task_metadata ltac:(kinds_in) _ _ _ _ _ _ (ri_task _ Hinv))|].
  rewrite exec_append, exec_publish; [done|].
  intros x. rewrite save_state_only; [apply (ri_stream _ Hinv)|]. intros j. apply Hs. kinds_in.
Qed.

Lemma SaveTask_run r t m : opts_ok → r_ok r → task_metadata t = Some m → om_name m ≠ "" →
  json_ok (task_defaults t) →
  runs_to r_ok red_view (SaveTask opts t) r (None, task_defaults t)
    (v_set_tasks (<[meta_key m := task_defaults t]> (v_tasks (red_view r))) (red_view r)).
Proof.
  intros Hopts Hok Hm Hn Hj.
  destruct (law_time r (proj1 Hok)) as (now & Hnow).
  destruct (SaveTask_serves r t m now Hopts Hok Hm Hn Hj Hnow) as (d & HU & Hs).
  destruct Hok as [_ Hinv].
  destruct (save_state_inv K_task task_metadata ltac:(kinds_in) (default_atespace (om_atespace m))
    (om_name m) d (float64_of_int now) _ _ _ (ri_task _ Hinv) HU (task_defaults_metadata t m Hm))
    as [Hk Hrec]; [apply default_atespace_idemp|done..|].
  destruct (r_inv_task _ _ Hopts Hinv (save_state_only K_task _ _ _ _ _) Hk) as [Hi1 Hv1].
  destruct (r_inv_append _ (event_values "reconcile" (default_atespace (om_atespace m)) (om_name m))
    Hopts Hi1) as [Hi2 Hv2].
  destruct (published_inv (taskPubSubChannel opts (default_atespace (om_atespace m)) (om_name m)) d
    _ Hi2) as [Hi3 Hv3].
  eapply serves_runs; [exact Hs|exact Hi3|]. rewrite Hv3, Hv2, Hv1, Hrec.
  cbn. by rewrite saved_meta_key.
Qed.

(** *** Reading *)

Lemma get_record_run {A} `{!ProtoJSON A} K (meta : A → option ObjectMeta) key e1 e2 r a n :
  (∀ a n, key a n = rec_key K (a +:+ ":" +:+ n)) → r_ok r → kind_inv K meta (r_view r) →
  serves r_up r_view (get_record (A := A) key e1 e2 a n) r
    (found (records K (r_view r) !! res_key a n)) (r_view r).
Proof.
  intros Hkey [Hup Hinv] Hk. unfold get_record. cbv zeta. fold (default_atespace a). rewrite Hkey.
  fold (res_key a n). pose proof (law_Get r (rec_key K (res_key a n)) Hup) as Hget.
  destruct (rs_keys (r_view r) !! rec_key K (res_key a n)) as [x|] eqn:E.
  - destruct (ki_rec K meta _ Hk _ x E) as (d & b & m & -> & Hd & _).
    rewrite records_lookup, E. cbn. rewrite Hd. cbn.
    eapply serves_bind; [exact Hget|]. intros r1 Hup1 Hv1.
    cbv beta iota. rewrite Hd, <- Hv1.
    by apply serves_ret.
  - destruct Hget as (e & He & Hget). rewrite records_lookup, E. cbn.
    eapply serves_bind; [exact Hget|]. intros r1 Hup1 Hv1. 
    cbv beta iota. rewrite He, <- Hv1. by apply serves_ret.
Qed.

Lemma GetTask_serves r a n : r_ok r →
  serves r_up r_view (GetTask opts a n) r (found (records K_task (r_view r) !! res_key a n)) (r_view r).
Proof.
  intros Hok. by apply (get_record_run K_task task_metadata (taskKey opts)
    "getting task from redis: %w" "unmarshaling task: %w"); [| |apply Hok].
Qed.

(** *** Updating a task in place *)

Lemma update_serves r k t t' d post : opts_ok → r_ok r →
  records K_task (r_view r) !! k = Some t → Unmarshal d = Ok t' →
  task_metadata t' = task_metadata t →
  (∀ v, r_inv v → ∃ v', exec post v = (None, v') ∧ r_inv v' ∧ server_view v' = server_view v) →
  Forall (λ c, match c with CSet _ _ ttl => ttl = 0%Z | _ => True end) post →
  runs_to r_ok red_view (redis_Exec (CSet (rec_key K_task k) d (TTL opts) :: post)) r None
    (v_set_tasks (<[k := t']> (v_tasks (red_view r))) (red_view r)).
Proof.
  intros Hopts [Hup Hinv] Ht HU Hm Hpost Httl.
  destruct (set_record_inv K_task task_metadata ltac:(kinds_in) k d _ t' t (ri_task _ Hinv) Ht HU Hm)
    as [Hk Hrec].
  destruct (r_inv_task _ _ Hopts Hinv (set_record_only K_task _ _ _) Hk) as [Hi1 Hv1].
  destruct (Hpost _ Hi1) as (v2 & He & Hi2 & Hv2).
  eapply serves_runs; [|exact Hi2|by rewrite Hv2, Hv1, Hrec].
  apply serves_exec; [done|by constructor; [apply Hopts|]|].
  by erewrite exec_cons.
Qed.

Lemma runs_bind {A B} (m : M R A) (k : A → M R B) r a v b w :
  runs_to r_ok red_view m r a v →
  (∀ r1, r_ok r1 → red_view r1 = v → runs_to r_ok red_view (k a) r1 b w) →
  runs_to r_ok red_view (bind m k) r b w.
Proof.
  intros (r1 & Hm & ? & ?) Hk. destruct (Hk r1) as (r2 & ? & ? & ?); [done..|].
  exists r2. by rewrite (bind_Ret _ _ _ _ _ Hm).
Qed.
Lemma runs_ret {A} (a : A) r : r_ok r → runs_to r_ok red_view (ret a) r a (red_view r).
Proof. intros. by exists r. Qed.

Lemma serves_then {A B} (m : M R A) (k : A → M R B) r a b w :
  r_ok r → serves r_up r_view m r a (r_view r) →
  (∀ r1, r_ok r1 → r_view r1 = r_view r → runs_to r_ok red_view (k a) r1 b w) →
  runs_to r_ok red_view (bind m k) r b w.
Proof.
  intros [_ Hinv] (r1 & Hm & Hup & Hv) Hk.
  destruct (Hk r1) as (r2 & ? & ? & ?); [split; [done|by rewrite Hv]|done|].
  exists r2. by rewrite (bind_Ret _ _ _ _ _ Hm).
Qed.

Lemma UpdateTaskStatus_run r a n st : opts_ok → r_ok r → a ≠ "" →
  match v_tasks (red_view r) !! res_key a n with
  | Some t =>
      json_ok (task_set_status st t) →
      runs_to r_ok red_view (UpdateTaskStatus opts a n st) r None
        (v_set_tasks (<[res_key a n := task_set_status st t]> (v_tasks (red_view r))) (red_view r))
  | None => runs_to r_ok red_view (UpdateTaskStatus opts a n st) r (Some ErrNotFound) (red_view r)
  end.
Proof.
  intros Hopts Hok Ha. pose proof (GetTask_serves r a n Hok) as Hget.
  change (v_tasks (red_view r)) with (records (A := Task) K_task (r_view r)).
  destruct (records K_task (r_view r) !! res_key a n) as [t|] eqn:Ht; cbn in Hget.
  - intros (d & HM & HU). eapply serves_then; [done|exact Hget|]. intros r1 Hok1 Hv1.
    cbv beta iota. unfold write_status. rewrite HM.
    assert (taskKey opts a n = rec_key K_task (res_key a n)) as ->
      by (unfold res_key, default_atespace; by rewrite decide_False by done).
    eapply (runs_bind _ _ _ None); [|intros r2 ? <-; by apply runs_ret].
    change (red_view r) with (server_view (r_view r)). rewrite <- Hv1 in Ht |- *.
    apply (update_serves r1 _ t (task_set_status st t)); try done; [|by repeat constructor].
    intros v Hv. eexists. split; [by rewrite exec_publish|]. by apply published_inv.
  - eapply serves_then; [done|exact Hget|]. intros r1 Hok1 Hv1.
    replace (red_view r) with (red_view r1) by (unfold red_view; by rewrite Hv1). by apply runs_ret.
Qed.

Lemma MarkTaskDeleting_run r a n : opts_ok → r_ok r →
  match v_tasks (red_view r) !! res_key a n with
  | Some t =>
      let t' := task_set_status (Some (st_set_phase PhaseTerminating
                  (default zero_TaskStatus (task_status t)))) t in
      json_ok t' →
      runs_to r_ok red_view (MarkTaskDeleting opts a n) r None
        (v_set_tasks (<[res_key a n := t']> (v_tasks (red_view r))) (red_view r))
  | None => runs_to r_ok red_view (MarkTaskDeleting opts a n) r (Some ErrNotFound) (red_view r)
  end.
Proof.
  intros Hopts Hok. pose proof (GetTask_serves r (default_atespace a) n Hok) as Hget.
  rewrite res_key_default in Hget.
  change (v_tasks (red_view r)) with (records (A := Task) K_task (r_view r)).
  destruct (records K_task (r_view r) !! res_key a n) as [t|] eqn:Ht; cbn in Hget; cbv zeta.
  - intros (d & HM & HU). unfold MarkTaskDeleting. cbv zeta. fold (default_atespace a).
    eapply serves_then; [done|exact Hget|]. intros r1 Hok1 Hv1. cbv beta iota. rewrite HM.
    change (taskKey opts (default_atespace a) n) with (rec_key K_task (res_key a n)).
    eapply (runs_bind _ _ _ None); [|intros r2 ? <-; by apply runs_ret].
    change (red_view r) with (server_view (r_view r)). rewrite <- Hv1 in Ht |- *.
    eapply (update_serves r1 _ t); try done; [|by repeat constructor].
    intros v Hv. eexists. rewrite exec_publish, exec_append by (intros ?; apply (ri_stream _ Hv)).
    split; [done|].
    destruct (published_inv (taskPubSubChannel opts (default_atespace a) n) d v Hv) as [Hi Hvw].
    destruct (r_inv_append _ (event_values "delete" (default_atespace a) n) Hopts Hi) as [Hi' Hvw'].
    by rewrite Hvw', Hvw.
  - unfold MarkTaskDeleting. cbv zeta. fold (default_atespace a).
    eapply serves_then; [done|exact Hget|]. intros r1 Hok1 Hv1.
    replace (red_view r) with (red_view r1) by (unfold red_view; by rewrite Hv1). by apply runs_ret.
Qed.

(** *** Deleting *)

Lemma delete_serves K (key : string → string → string) index aindex a n r {A} `{!ProtoJSON A} (meta : A → option ObjectMeta) :
  K ∈ kinds → (∀ a n, key a n = rec_key K (a +:+ ":" +:+ n)) → index = idx_key K "index" →
  (∀ a, aindex a = idx_key K (aidx a)) → r_up r → kind_inv K meta (r_view r) →
  serves r_up r_view (delete_indexed key index aindex a n) r None
    (delete_state K (default_atespace a) n (r_view r)).
Proof.
  intros HK Hkey -> Ha Hup Hk. unfold delete_indexed. cbv zeta. fold (default_atespace a).
  rewrite Hkey, Ha. apply serves_exec; [done|by repeat constructor|]. by eapply exec_delete.
Qed.

Lemma default_nonempty a : default_atespace a ≠ "".
Proof. unfold default_atespace. by case_decide. Qed.

Lemma DeleteTask_run r a n : opts_ok → r_ok r →
  runs_to r_ok red_view (DeleteTask opts a n) r None
    (v_set_tasks (delete (res_key a n) (v_tasks (red_view r))) (red_view r)).
Proof.
  intros Hopts [Hup Hinv].
  pose proof (delete_serves K_task (taskKey opts) (taskIndexKey opts) (taskAtespaceIndexKey opts) a n r
    task_metadata ltac:(kinds_in) ltac:(done) ltac:(done) ltac:(done) Hup (ri_task _ Hinv)) as Hs.
  destruct (delete_state_inv K_task task_metadata ltac:(kinds_in) (default_atespace a) n _
    (ri_task _ Hinv) (default_nonempty a)) as [Hk Hrec].
  destruct (r_inv_task _ _ Hopts Hinv (delete_state_only K_task _ _ _) Hk) as [Hi Hv].
  unfold DeleteTask. cbv zeta. fold (default_atespace a).
  eapply (runs_bind _ _ _ None); [|intros r2 ? <-; by apply runs_ret].
  eapply serves_runs; [exact Hs|done|]. by rewrite Hv, Hrec.
Qed.

End Inv.
