(* ===== verification/RedisSpec.v ===== *)
(** The Redis store refines the store contract, what its listings return, and how
    its consumer groups deliver events. *)

From S2P Require Import Prelude GoStrings Types StoreApi RedisApi RedisSort RedisStore RedisInv.

Section Spec.
Context {R : Type} `{!RedisClient R, !TimeNow R, ids : EntryIds, text : ErrorText, !RedisLaws R}.
Context `{!ProtoJSON Task, !ProtoJSON Gateway, !ProtoJSON Workspace, !ProtoJSON Model}.
Variable opts : Options.

Abbreviation r_ok := (r_ok opts).
Abbreviation red_view := (red_view opts).

(** ** Saving and deleting gateways, models and workspaces *)

Lemma save_indexed_serves {A} `{!ProtoJSON A} K (meta : A → option ObjectMeta) key index aindex err r x m :
  K ∈ kinds → (∀ a n, key a n = rec_key opts K (a +:+ ":" +:+ n)) → index = idx_key opts K "index" →
  (∀ a, aindex a = idx_key opts K (aidx a)) → r_ok r → kind_inv opts K meta (r_view r) →
  meta x = Some m → json_ok x →
  ∃ d now, Unmarshal d = Ok x ∧
    serves r_up r_view (save_indexed meta key index aindex err x) r (None, x)
      (save_state opts K (om_atespace m) (om_name m) d (float64_of_int now) (r_view r)).
Proof.
  intros HK Hkey -> Haidx [Hup Hinv] Hk Hm (d & HM & HU).
  destruct (law_time r Hup) as (now & Hnow). exists d, now. split; [done|].
  unfold save_indexed. rewrite HM, Hm. apply (serves_pure m). cbv zeta.
  eapply serves_bind; [exact Hnow|]. intros r1 Hup1 Hv1. rewrite Hkey, Haidx.
  eapply (serves_bind _ _ _ None); [|intros r2 Hup2 <-; exact (serves_ret (None, x) r2 Hup2)].
  apply serves_exec; [done|by repeat constructor|]. rewrite Hv1.
  etrans; [exact (exec_save opts K meta HK _ _ _ _ _ _ Hk)|]. done.
Qed.

Ltac kinds_in := by repeat (apply elem_of_cons; (by left) || right).

(** The message a save stores, for the kinds that share [save_indexed]. *)
Ltac indexed_save Hopts Hok Hm Hn Hj K meta key index aindex err x' m inv lift :=
  destruct (save_indexed_serves K meta key index aindex err _ x' (saved_meta m) ltac:(kinds_in)
    ltac:(done) ltac:(done) ltac:(done) Hok (inv _ _ (proj2 Hok)) Hm Hj) as (d & now & HU & Hs);
  destruct (save_state_inv opts K meta ltac:(kinds_in) (default_atespace (om_atespace m)) (om_name m)
    d (float64_of_int now) _ _ _ (inv _ _ (proj2 Hok)) HU Hm) as [Hk Hrec];
    [apply default_atespace_idemp|done|done|];
  destruct (lift _ _ Hopts (proj2 Hok) (save_state_only opts K _ _ _ _ _) Hk) as [Hi Hv];
  eapply serves_runs; [exact Hs|exact Hi|etrans; [exact Hv|]; rewrite Hrec; cbn; by rewrite saved_meta_key].

Lemma gw_defaults_metadata g m : gw_metadata g = Some m → gw_metadata (gw_defaults g) = Some (saved_meta m).
Proof.
  intros H. unfold gw_defaults, saved_meta, default_atespace. rewrite H. cbn.
  case_decide; [done|]. by destruct m.
Qed.
Lemma model_defaults_metadata g m : model_metadata g = Some m →
  model_metadata (model_defaults g) = Some (saved_meta m).
Proof.
  intros H. unfold model_defaults, saved_meta, default_atespace. rewrite H. cbn.
  case_decide; [done|]. by destruct m.
Qed.
Lemma ws_defaults_metadata g m : ws_metadata g = Some m → ws_metadata (ws_defaults g) = Some (saved_meta m).
Proof.
  intros H. unfold ws_defaults, saved_meta, default_atespace. rewrite H. cbn.
  case_decide; [done|]. by destruct m.
Qed.

Lemma SaveGateway_run r g m : opts_ok opts → r_ok r → gw_metadata g = Some m → om_name m ≠ "" →
  json_ok (gw_defaults g) →
  runs_to r_ok red_view (SaveGateway opts g) r (None, gw_defaults g)
    (v_set_gateways (<[meta_key m := gw_defaults g]> (v_gateways (red_view r))) (red_view r)).
Proof.
  intros Hopts Hok Hm Hn Hj. unfold SaveGateway. rewrite !Hm. cbn [from_option].
  rewrite decide_False by done. apply gw_defaults_metadata in Hm.
  indexed_save Hopts Hok Hm Hn Hj K_gw gw_metadata (gwKey opts) (gwIndexKey opts)
    (gwAtespaceIndexKey opts) "marshaling gateway: %w" (gw_defaults g) m ri_gw (r_inv_gw opts).
Qed.

Lemma SaveModel_run r g m : opts_ok opts → r_ok r → model_metadata g = Some m → om_name m ≠ "" →
  json_ok (model_defaults g) →
  runs_to r_ok red_view (SaveModel opts g) r (None, model_defaults g)
    (v_set_models (<[meta_key m := model_defaults g]> (v_models (red_view r))) (red_view r)).
Proof.
  intros Hopts Hok Hm Hn Hj. unfold SaveModel. rewrite !Hm. cbn [from_option].
  rewrite decide_False by done. apply model_defaults_metadata in Hm.
  indexed_save Hopts Hok Hm Hn Hj K_model model_metadata (modelKey opts) (modelIndexKey opts)
    (modelAtespaceIndexKey opts) "marshaling model: %w" (model_defaults g) m ri_model (r_inv_model opts).
Qed.

Lemma SaveWorkspace_run r g m : opts_ok opts → r_ok r → ws_metadata g = Some m → om_name m ≠ "" →
  json_ok (ws_defaults g) →
  runs_to r_ok red_view (SaveWorkspace opts g) r (None, ws_defaults g)
    (v_set_workspaces (<[meta_key m := ws_defaults g]> (v_workspaces (red_view r))) (red_view r)).
Proof.
  intros Hopts Hok Hm Hn Hj. unfold SaveWorkspace. rewrite !Hm. cbn [from_option].
  rewrite decide_False by done. apply ws_defaults_metadata in Hm.
  indexed_save Hopts Hok Hm Hn Hj K_ws ws_metadata (wsKey opts) (wsIndexKey opts)
    (wsAtespaceIndexKey opts) "marshaling workspace: %w" (ws_defaults g) m ri_ws (r_inv_ws opts).
Qed.

Ltac indexed_delete Hopts Hok K meta key index aindex a n inv lift :=
  pose proof (delete_serves opts K key index aindex a n _ meta ltac:(kinds_in) ltac:(done) ltac:(done)
    ltac:(done) (proj1 Hok) (inv _ _ (proj2 Hok))) as Hs;
  destruct (delete_state_inv opts K meta ltac:(kinds_in) (default_atespace a) n _
    (inv _ _ (proj2 Hok)) (default_nonempty a)) as [Hk Hrec];
  destruct (lift _ _ Hopts (proj2 Hok) (delete_state_only opts K _ _ _) Hk) as [Hi Hv];
  eapply serves_runs; [exact Hs|exact Hi|by rewrite Hv, Hrec].

Lemma DeleteGateway_run r a n : opts_ok opts → r_ok r →
  runs_to r_ok red_view (DeleteGateway opts a n) r None
    (v_set_gateways (delete (res_key a n) (v_gateways (red_view r))) (red_view r)).
Proof.
  intros Hopts Hok. indexed_delete Hopts Hok K_gw gw_metadata (gwKey opts) (gwIndexKey opts)
    (gwAtespaceIndexKey opts) a n ri_gw (r_inv_gw opts).
Qed.
Lemma DeleteModel_run r a n : opts_ok opts → r_ok r →
  runs_to r_ok red_view (DeleteModel opts a n) r None
    (v_set_models (delete (res_key a n) (v_models (red_view r))) (red_view r)).
Proof.
  intros Hopts Hok. indexed_delete Hopts Hok K_model model_metadata (modelKey opts)
    (modelIndexKey opts) (modelAtespaceIndexKey opts) a n ri_model (r_inv_model opts).
Qed.
Lemma DeleteWorkspace_run r a n : opts_ok opts → r_ok r →
  runs_to r_ok red_view (DeleteWorkspace opts a n) r None
    (v_set_workspaces (delete (res_key a n) (v_workspaces (red_view r))) (red_view r)).
Proof.
  intros Hopts Hok. indexed_delete Hopts Hok K_ws ws_metadata (wsKey opts)
    (wsIndexKey opts) (wsAtespaceIndexKey opts) a n ri_ws (r_inv_ws opts).
Qed.

Lemma read_runs {A} (m : M R A) r a : r_ok r → serves r_up r_view m r a (r_view r) →
  runs_to r_ok red_view m r a (red_view r).
Proof. intros [_ Hinv] Hs. by eapply serves_runs. Qed.

(** ** The store contract *)

#[export] Instance redis_store : Store R := {
  StoreApi.SaveTask := SaveTask opts;
  StoreApi.GetTask := GetTask opts;
  StoreApi.ListTasks := ListTasks opts;
  StoreApi.UpdateTaskStatus := UpdateTaskStatus opts;
  StoreApi.MarkTaskDeleting := MarkTaskDeleting opts;
  StoreApi.DeleteTask := DeleteTask opts;
  StoreApi.SaveGateway := SaveGateway opts;
  StoreApi.GetGateway := GetGateway opts;
  StoreApi.ListGateways := ListGateways opts;
  StoreApi.DeleteGateway := DeleteGateway opts;
  StoreApi.SaveWorkspace := SaveWorkspace opts;
  StoreApi.GetWorkspace := GetWorkspace opts;
  StoreApi.ListWorkspaces := ListWorkspaces opts;
  StoreApi.DeleteWorkspace := DeleteWorkspace opts;
  StoreApi.SaveModel := SaveModel opts;
  StoreApi.GetModel := GetModel opts;
  StoreApi.ListModels := ListModels opts;
  StoreApi.DeleteModel := DeleteModel opts;
}.

(** For a codec that loses nothing, the Redis store keeps the contract of
    [StoreLaws], so that every theorem about the API server holds of it. *)
Section Lossless.
Hypothesis Hopts : opts_ok opts.
Hypothesis json_task : ∀ t : Task, json_ok t.
Hypothesis json_gateway : ∀ g : Gateway, json_ok g.
Hypothesis json_workspace : ∀ w : Workspace, json_ok w.
Hypothesis json_model : ∀ x : Model, json_ok x.

#[local] Instance redis_store_laws : StoreLaws R.
Proof.
  refine {|
    s_inv := r_ok;
    s_view := red_view;
    saved_task := task_defaults;
    saved_gateway := gw_defaults;
    saved_workspace := ws_defaults;
    saved_model := model_defaults;
    saved_task_metadata := task_defaults_metadata;
    saved_gateway_metadata := gw_defaults_metadata;
    saved_workspace_metadata := ws_defaults_metadata;
    saved_model_metadata := model_defaults_metadata;
    law_SaveTask := λ s t m Hi Hm Hn, SaveTask_run opts s t m Hopts Hi Hm Hn (json_task _);
    law_DeleteTask := λ s a n Hi, DeleteTask_run opts s a n Hopts Hi;
    law_SaveGateway := λ s t m Hi Hm Hn, SaveGateway_run s t m Hopts Hi Hm Hn (json_gateway _);
    law_SaveWorkspace := λ s t m Hi Hm Hn, SaveWorkspace_run s t m Hopts Hi Hm Hn (json_workspace _);
    law_SaveModel := λ s t m Hi Hm Hn, SaveModel_run s t m Hopts Hi Hm Hn (json_model _);
    law_DeleteGateway := λ s a n Hi, DeleteGateway_run s a n Hopts Hi;
    law_DeleteWorkspace := λ s a n Hi, DeleteWorkspace_run s a n Hopts Hi;
    law_DeleteModel := λ s a n Hi, DeleteModel_run s a n Hopts Hi;
  |}; try done.
  - intros s k t [_ Hi] Ht.
    destruct (records_some opts K_task task_metadata _ _ _ (ri_task _ _ Hi) Ht) as (d & m & _ & _ & ?).
    by exists m.
  - intros s a n Hi. apply read_runs; [done|]. by apply GetTask_serves.
  - intros s a n st Hi Ha. pose proof (UpdateTaskStatus_run opts s a n st Hopts Hi Ha) as H.
    destruct (_ !! _); [by apply H|done].
  - intros s a n Hi. pose proof (MarkTaskDeleting_run opts s a n Hopts Hi) as H.
    destruct (_ !! _); [by apply H|done].
  - intros s a n Hi. apply read_runs; [done|].
    by apply (get_record_run opts K_gw gw_metadata); [|done|apply Hi].
  - intros s a n Hi. apply read_runs; [done|].
    by apply (get_record_run opts K_ws ws_metadata); [|done|apply Hi].
  - intros s a n Hi. apply read_runs; [done|].
    by apply (get_record_run opts K_model model_metadata); [|done|apply Hi].
Defined.
End Lossless.

(** ** Listing *)

Lemma zrevrange_page z start limit : (0 ≤ start)%Z → (0 < limit)%Z →
  zrevrange z start (start + limit - 1) = take (Z.to_nat limit) (drop (Z.to_nat start) (zsorted z)).
Proof.
  intros Hs Hl. unfold zrevrange. rewrite (decide_False (P := (start < 0)%Z)) by lia.
  rewrite (decide_False (P := (start + limit - 1 < 0)%Z)) by lia.
  set (l := zsorted z). case_decide as Hd.
  - rewrite drop_ge by lia. by rewrite take_nil.
  - destruct (decide (start + limit ≤ Z.of_nat (length l))%Z).
    + f_equal. lia.
    + rewrite !take_ge; [done|rewrite length_drop; lia..].
Qed.

Lemma zrevrange_all z : zrevrange z 0 (-1) = zsorted z.
Proof.
  unfold zrevrange. set (l := zsorted z). rewrite (decide_False (P := (0 < 0)%Z)) by lia.
  rewrite (decide_True (P := (-1 < 0)%Z)) by lia.
  case_decide as Hd.
  - destruct l; [done|cbn in Hd; lia].
  - rewrite drop_0, take_ge; [done|lia].
Qed.

Lemma zrevrange_empty start stop : zrevrange ∅ start stop = [].
Proof.
  unfold zrevrange. replace (zsorted ∅) with (@nil string) by done.
  case_decide; [done|]. by rewrite drop_nil, take_nil.
Qed.

Lemma omap_take_all {A B} (f : A → option B) n l : (∀ x, x ∈ l → is_Some (f x)) →
  omap f (take n l) = take n (omap f l).
Proof.
  revert n. induction l as [|x l IH]; intros [|n] Hl; try done. cbn.
  destruct (Hl x) as [y ->]; [by left|]. cbn. rewrite IH; [done|]. intros; apply Hl. by right.
Qed.
Lemma omap_drop_all {A B} (f : A → option B) n l : (∀ x, x ∈ l → is_Some (f x)) →
  omap f (drop n l) = drop n (omap f l).
Proof.
  revert n. induction l as [|x l IH]; intros [|n] Hl; try done. cbn.
  destruct (Hl x) as [y ->]; [by left|]. cbn. apply IH. intros; apply Hl. by right.
Qed.

Section Listing.
Context {A : Type} `{!ProtoJSON A} (K : kind) (meta : A → option ObjectMeta) (HK : K ∈ kinds).

(** The records in the order of the kind's index. *)
Definition newest_first (v : rserver) : list A :=
  omap (λ k, records opts K v !! k) (zsorted (zset v (idx_key opts K "index"))).

Lemma member_record v k : kind_inv opts K meta v →
  is_Some (zset v (idx_key opts K "index") !! k) ↔ is_Some (records (A := A) opts K v !! k).
Proof.
  intros Hv. rewrite (ki_all _ _ _ _ Hv), <- !not_eq_None_Some.
  by rewrite (records_none opts K meta v k Hv).
Qed.

Lemma member_key_rec key v k : (∀ a n, key a n = rec_key opts K (a +:+ ":" +:+ n)) →
  kind_inv opts K meta v → is_Some (zset v (idx_key opts K "index") !! k) →
  member_key key k = rec_key opts K k.
Proof.
  intros Hkey Hv [a Ha]%(member_record _ _ Hv).
  destruct (records_some opts K meta v k a Hv Ha) as (d & m & _ & _ & _ & <- & _).
  unfold member_key, SplitN2, meta_key, res_key.
  destruct (cut ":" _) as [[b n]|] eqn:E.
  - apply cut_Some in E as [-> _]. apply Hkey.
  - apply cut_None in E. rewrite string_in_app in E. cbn in E. by rewrite orb_true_r in E.
Qed.

Lemma decode_members key v (ms : list string) : (∀ a n, key a n = rec_key opts K (a +:+ ":" +:+ n)) →
  kind_inv opts K meta v → (∀ k, k ∈ ms → is_Some (zset v (idx_key opts K "index") !! k)) →
  omap (decode_reply (A := A)) ((λ k, mget_reply (rs_keys v !! k)) <$> (member_key key <$> ms)) =
    omap (λ k, records opts K v !! k) ms.
Proof.
  intros Hkey Hv. induction ms as [|k ms IH]; intros Hms; [done|]. cbn.
  rewrite (member_key_rec key v k) by (done || apply Hms; by left).
  rewrite IH by (intros; apply Hms; by right). rewrite records_lookup.
  destruct (rs_keys v !! rec_key opts K k) as [x|] eqn:E; [|done].
  destruct (ki_rec opts K meta v Hv k x E) as (d & b & m & -> & Hd & _). cbn. by rewrite Hd.
Qed.

Lemma list_page_serves key index aindex e1 e2 a start stop r :
  (∀ a n, key a n = rec_key opts K (a +:+ ":" +:+ n)) → index = idx_key opts K "index" →
  a = "" ∨ a = "*" → r_up r → kind_inv opts K meta (r_view r) →
  serves r_up r_view (list_page index aindex key e1 e2 a start stop) r
    (Ok (omap (λ k, records (A := A) opts K (r_view r) !! k)
           (zrevrange (zset (r_view r) (idx_key opts K "index")) start stop))) (r_view r).
Proof.
  intros Hkey -> Ha Hup Hk. set (ms := zrevrange _ start stop).
  assert (serves r_up r_view (redis_ZRevRange (idx_key opts K "index") start stop) r (Ok ms) (r_view r)) as Hz.
  { pose proof (law_ZRevRange r (idx_key opts K "index") start stop Hup) as H. unfold ms, zset.
    destruct (rs_keys (r_view r) !! idx_key opts K "index") as [x|] eqn:E;
      [destruct (ki_idx opts K meta _ Hk _ _ E) as [z ->]; done|]. by rewrite zrevrange_empty. }
  assert (∀ k, k ∈ ms → is_Some (zset (r_view r) (idx_key opts K "index") !! k)) as Hms.
  { intros k Hin. apply elem_of_zsorted. unfold ms, zrevrange in Hin.
    revert Hin. destruct (decide _); [by intros ?%elem_of_nil|].
    by intros ?%subseteq_take%subseteq_drop. }
  unfold list_page.
  assert (bool_decide (a = "") || bool_decide (a = "*") = true) as ->
    by (by destruct Ha as [-> | ->]).
  eapply serves_bind; [exact Hz|]. intros r1 Hup1 Hv1. cbv beta iota.
  destruct ms as [|k ms'] eqn:Ems; [rewrite <- Hv1; by apply serves_ret|]. rewrite <- Ems in *.
  eapply serves_bind; [apply law_MGet; done|]. intros r2 Hup2 Hv2. cbv beta iota.
  rewrite Hv1, (decode_members key) by done. rewrite <- Hv1, <- Hv2. by apply serves_ret.
Qed.

Lemma newest_first_page v start limit : kind_inv opts K meta v → (0 ≤ start)%Z → (0 < limit)%Z →
  omap (λ k, records (A := A) opts K v !! k)
    (zrevrange (zset v (idx_key opts K "index")) start (start + limit - 1)) =
  take (Z.to_nat limit) (drop (Z.to_nat start) (newest_first v)).
Proof.
  intros Hv Hs Hl. rewrite zrevrange_page by done.
  assert (∀ k, k ∈ zsorted (zset v (idx_key opts K "index")) → is_Some (records (A := A) opts K v !! k)).
  { intros k Hin%elem_of_zsorted. by apply (member_record v k Hv). }
  rewrite omap_take_all; [by rewrite omap_drop_all|]. intros k Hin%subseteq_drop; auto.
Qed.

Lemma newest_first_all v : kind_inv opts K meta v →
  newest_first v ≡ₚ (map_to_list (records (A := A) opts K v)).*2.
Proof.
  intros Hv. unfold newest_first. set (m := records opts K v).
  assert (zsorted (zset v (idx_key opts K "index")) ≡ₚ (map_to_list m).*1) as ->.
  { apply NoDup_Permutation; [apply NoDup_zsorted|apply NoDup_fst_map_to_list|].
    intros k. rewrite elem_of_zsorted, (member_record v k Hv), list_elem_of_fmap. split.
    - intros [x Hx]. exists (k, x). by rewrite elem_of_map_to_list.
    - intros ([? x] & -> & Hx%elem_of_map_to_list). by exists x. }
  assert (∀ l, (∀ k x, (k, x) ∈ l → m !! k = Some x) → omap (λ k, m !! k) l.*1 = l.*2) as ->; [|done|].
  - induction l as [|[k x] l IH]; intros Hl; [done|]. cbn.
    rewrite (Hl k x) by (by left). rewrite IH; [done|]. intros; apply Hl. by right.
  - intros k x. apply elem_of_map_to_list.
Qed.

End Listing.

End Spec.

(** ** The start

    The default options, and the reference server without keys. *)
Definition default_opts : Options := NewStore (mkOptions "" "" 0 0 0).

Lemma default_opts_ok : opts_ok default_opts.
Proof.
  split; [reflexivity|]. intros K HK k.
  repeat (apply elem_of_cons in HK as [->|HK]); [split; discriminate..|by apply elem_of_nil in HK].
Qed.

Lemma empty_world_ok `{!EntryIds, !ProtoJSON Task, !ProtoJSON Gateway, !ProtoJSON Workspace, !ProtoJSON Model}
    opts readings : r_ok (text := plain_text) opts (empty_world readings).
Proof.
  split; [exact I|]. change (r_inv opts (mkRserver ∅ ∅ [])).
  assert (Hz : ∀ k, zset (mkRserver ∅ ∅ []) k = ∅) by (intros k; unfold zset; cbn [rs_keys]; by rewrite lookup_empty).
  split; [split..|by intros x]; try (by intros); intros k;
    (split; [rewrite Hz|]; by intros [? ?]).
Qed.
