(* ===== verification/StoresAgree.v ===== *)
(** The in-memory store and the Redis store refine the same abstract store, so that
    one can stand in for the other. *)

From S2P Require Import Prelude GoStrings Types Codecs StoreApi MemoryStore MemoryInv MemoryProps StoreRefine.
From S2P Require Import RedisApi RedisSort RedisStore RedisInv RedisSpec.

Section Agree.
Context {R : Type} `{!RedisClient R, !TimeNow R, ids : EntryIds, text : ErrorText, !RedisLaws R, !MapRange}.
Context `{!ProtoJSON Task, !ProtoJSON Gateway, !ProtoJSON Workspace, !ProtoJSON Model}.
Variable opts : Options.
Hypothesis Hopts : opts_ok opts.

(** ** What the Redis store writes

    A record is kept as JSON. An operation writes a record that can be read back when
    the one message it marshals survives the codec; the others write none. *)
Definition writes_readable (op : StoreOp) (v : StoreView) : Prop :=
  match op with
  | OSaveTask t => json_ok (task_defaults t)
  | OUpdateTaskStatus a n st =>
      match v_tasks v !! res_key a n with Some t => json_ok (task_set_status st t) | None => True end
  | OMarkTaskDeleting a n =>
      match v_tasks v !! res_key a n with
      | Some t => json_ok (task_set_status (terminating (task_status t)) t)
      | None => True
      end
  | OSaveGateway g => json_ok (gw_defaults g)
  | OSaveWorkspace w => json_ok (ws_defaults w)
  | OSaveModel x => json_ok (model_defaults x)
  | _ => True
  end.
(** Every message written along a run of operations. *)
Fixpoint all_readable (ops : list StoreOp) (r : R) : Prop :=
  match ops with
  | [] => True
  | op :: ops =>
      writes_readable op (red_view opts r) ∧
      all_readable ops (snd (run_op (Store0 := redis_store opts) op r))
  end.

Lemma bare_task_defaults t m : task_metadata t = Some m → bare_task (task_defaults t) = spec_task t.
Proof. intros Hm. unfold bare_task, spec_task. by rewrite (task_defaults_metadata t m), Hm. Qed.
Lemma bare_gw_defaults g m : gw_metadata g = Some m → bare_gateway (gw_defaults g) = spec_gateway g.
Proof. intros Hm. unfold bare_gateway, spec_gateway. by rewrite (gw_defaults_metadata g m), Hm. Qed.
Lemma bare_ws_defaults w m : ws_metadata w = Some m → bare_workspace (ws_defaults w) = spec_workspace w.
Proof. intros Hm. unfold bare_workspace, spec_workspace. by rewrite (ws_defaults_metadata w m), Hm. Qed.
Lemma bare_model_defaults x m : model_metadata x = Some m → bare_model (model_defaults x) = spec_model x.
Proof. intros Hm. unfold bare_model, spec_model. by rewrite (model_defaults_metadata x m), Hm. Qed.

Ltac reads K meta := intros Hr; apply read_runs; [done|]; by apply (get_record_run opts K meta); [|done|apply Hr].
Lemma GetTask_runs r a n : r_ok opts r → runs_to (r_ok opts) (red_view opts) (GetTask opts a n) r
  (found (v_tasks (red_view opts r) !! res_key a n)) (red_view opts r).
Proof. reads K_task task_metadata. Qed.
Lemma GetGateway_runs r a n : r_ok opts r → runs_to (r_ok opts) (red_view opts) (GetGateway opts a n) r
  (found (v_gateways (red_view opts r) !! res_key a n)) (red_view opts r).
Proof. reads K_gw gw_metadata. Qed.
Lemma GetWorkspace_runs r a n : r_ok opts r → runs_to (r_ok opts) (red_view opts) (GetWorkspace opts a n) r
  (found (v_workspaces (red_view opts r) !! res_key a n)) (red_view opts r).
Proof. reads K_ws ws_metadata. Qed.
Lemma GetModel_runs r a n : r_ok opts r → runs_to (r_ok opts) (red_view opts) (GetModel opts a n) r
  (found (v_models (red_view opts r) !! res_key a n)) (red_view opts r).
Proof. reads K_model model_metadata. Qed.

Lemma redis_step_refines op r : r_ok opts r → admissible op → writes_readable op (red_view opts r) →
  refines (Store0 := redis_store opts) (r_ok opts) (red_view opts) op r.
Proof.
  intros Hr Hadm Hj. destruct op; cbn in Hadm, Hj.
  - refines_save (SaveTask_run opts) bare_task_defaults.
  - refines_get GetTask_runs.
  - eapply (refines_status (Store0 := redis_store opts)); [reflexivity|reflexivity|].
    pose proof (UpdateTaskStatus_run opts r _ name st Hopts Hr Hadm) as Hrun.
    destruct (_ !! _); [by apply Hrun|done].
  - eapply (refines_status (Store0 := redis_store opts)); [reflexivity|reflexivity|].
    pose proof (MarkTaskDeleting_run opts r atespace name Hopts Hr) as Hrun.
    destruct (_ !! _); [by apply Hrun|done].
  - refines_delete (DeleteTask_run opts).
  - refines_save (SaveGateway_run opts) bare_gw_defaults.
  - refines_get GetGateway_runs.
  - refines_delete (DeleteGateway_run opts).
  - refines_save (SaveWorkspace_run opts) bare_ws_defaults.
  - refines_get GetWorkspace_runs.
  - refines_delete (DeleteWorkspace_run opts).
  - refines_save (SaveModel_run opts) bare_model_defaults.
  - refines_get GetModel_runs.
  - refines_delete (DeleteModel_run opts).
Qed.

Lemma redis_refines ops r : r_ok opts r → Forall admissible ops → all_readable ops r →
  all_refine (Store0 := redis_store opts) (r_ok opts) (red_view opts) ops r.
Proof.
  intros Hr Hops. revert r Hr. induction Hops as [|op ops Hop Hops IH]; intros r Hr; [done|]. intros [Hj Hjs].
  split; [by apply redis_step_refines|].
  destruct (redis_step_refines op r Hr Hop Hj) as (x & r1 & Hrun & Hr1 & _).
  rewrite Hrun in Hjs |- *. by apply IH.
Qed.

(** C6: the in-memory store and the Redis store are interchangeable. From states that
    hold the same resources, both answer any sequence of saves of named resources,
    reads by name, status updates of a given atespace, deletion marks and deletions as
    the abstract store does, and end in states that hold the same resources, provided
    every message the Redis store writes on the way survives the JSON codec. The type
    header (apiVersion and kind), which only the Redis store fills in, is not
    compared. *)
Theorem memory_and_redis_agree ops (s : MemoryStore) (r : R) :
  mem_inv s → r_ok opts r → bare_view (mem_view s) = bare_view (red_view opts r) →
  Forall admissible ops → all_readable ops r →
  ∃ rs s' rs' r',
    run_ops (Store0 := mem_store) ops s = (Ret rs, s') ∧
    run_ops (Store0 := redis_store opts) ops r = (Ret rs', r') ∧
    bare_reply <$> rs = bare_reply <$> rs' ∧
    (bare_reply <$> rs, bare_view (mem_view s')) = spec_ops ops (bare_view (mem_view s)) ∧
    bare_view (mem_view s') = bare_view (red_view opts r').
Proof.
  intros Hs Hr Hv Hops Hjs.
  destruct (ops_refine (Store0 := mem_store) _ _ ops s Hs (contract_refines (StoreLaws0 := mem_store_laws) ops s Hs Hops))
    as (rs & s' & Hrun & _ & Hspec).
  destruct (ops_refine (Store0 := redis_store opts) _ _ ops r Hr (redis_refines ops r Hr Hops Hjs))
    as (rs' & r' & Hrun' & _ & Hspec').
  exists rs, s', rs', r'.
  change (s_view (StoreLaws := mem_store_laws) s) with (mem_view s) in Hspec.
  change (s_view (StoreLaws := mem_store_laws) s') with (mem_view s') in Hspec.
  rewrite <- Hv, <- Hspec in Hspec'.
  split_and!; [exact Hrun|exact Hrun'|exact (eq_sym (f_equal fst Hspec'))|exact Hspec|
               exact (eq_sym (f_equal snd Hspec'))].
Qed.

End Agree.

(** ** Both stores at work *)

#[local] Instance text_json {A} `{Countable A} : ProtoJSON A := {
  Marshal x := Ok (to_text x);
  Unmarshal s := match of_text s with Some x => Ok x | None => Err (ErrForeign 1) end;
}.
Lemma text_json_ok {A} `{Countable A} (x : A) : json_ok x.
Proof. exists (to_text x). split; [done|]. cbn. by rewrite of_text_to_text. Qed.

#[local] Instance agree_ids : EntryIds := { entry_id i := pretty i; entry_id_inj := _ }.
#[local] Instance agree_text : ErrorText := plain_text.

Definition agree_task : Task :=
  mkTask "" "" (Some (mkObjectMeta "demo" "" None)) (Some zero_TaskSpec) None.
Definition agree_ops : list StoreOp :=
  [OSaveTask agree_task; OUpdateTaskStatus "default" "demo" (Some (st_set_phase "Running" zero_TaskStatus));
   OGetTask "" "demo"; OMarkTaskDeleting "default" "other"; ODeleteTask "default" "demo"; OGetTask "default" "demo"].
Definition empty_view : StoreView := mkStoreView ∅ ∅ ∅ ∅.

(** This codec loses nothing, so whatever is written is read back. *)
Lemma agree_readable ops (r : ref_world) : all_readable default_opts ops r.
Proof.
  revert r. induction ops as [|op ops IH]; intros r; [done|]. split; [|apply IH].
  destruct op; cbn -[lookup]; try apply text_json_ok; try done.
  all: destruct (_ !! _); [apply text_json_ok|done].
Qed.

Lemma memory_and_redis_agree_witness : ∃ rs s' rs' r',
  run_ops (Store0 := mem_store) agree_ops (MemoryStore.NewStore Z.of_nat) = (Ret rs, s') ∧
  run_ops (Store0 := redis_store default_opts) agree_ops (empty_world Z.of_nat) = (Ret rs', r') ∧
  bare_reply <$> rs = bare_reply <$> rs' ∧
  bare_reply <$> rs = fst (spec_ops agree_ops empty_view).
Proof.
  destruct (memory_and_redis_agree default_opts default_opts_ok agree_ops (MemoryStore.NewStore Z.of_nat) (empty_world Z.of_nat))
    as (rs & s' & rs' & r' & Hrun & Hrun' & Hreplies & Hspec & _).
  - apply NewStore_inv.
  - apply empty_world_ok.
  - reflexivity.
  - repeat constructor; cbn; discriminate.
  - by apply agree_readable.
  - exists rs, s', rs', r'. split; [exact Hrun|]. split; [exact Hrun'|]. split; [exact Hreplies|].
    exact (f_equal fst Hspec).
Defined.

Example agree_replies : fst (spec_ops agree_ops empty_view) =
  [RTask (Ok (mkTask "" "" (Some (mkObjectMeta "demo" "default" None)) (Some zero_TaskSpec)
     (Some (st_set_phase "Pending" zero_TaskStatus))));
   RDone None;
   RTask (Ok (mkTask "" "" (Some (mkObjectMeta "demo" "default" None)) (Some zero_TaskSpec)
     (Some (st_set_phase "Running" zero_TaskStatus))));
   RDone (Some ErrNotFound); RDone None; RTask (Err ErrNotFound)].
Proof. vm_compute. reflexivity. Qed.
