(* ===== verification/RedisProps.v ===== *)
(** What the Redis store guarantees: round trips, listings and their order, and
    the delivery of events to consumer groups; and two behaviours of its status
    writes worth knowing. *)

From S2P Require Import Prelude GoStrings Types StoreApi RedisApi RedisSort RedisStore RedisInv RedisSpec.

Section Props.
Context {R : Type} `{!RedisClient R, !TimeNow R, ids : EntryIds, text : ErrorText, !RedisLaws R}.
Context `{!ProtoJSON Task, !ProtoJSON Gateway, !ProtoJSON Workspace, !ProtoJSON Model}.
Variable opts : Options.

Abbreviation r_ok := (r_ok opts).
Abbreviation red_view := (red_view opts).
Abbreviation task_index := (idx_key opts K_task "index").

Ltac kinds_in := by repeat (apply elem_of_cons; (by left) || right).

(** The stored tasks in the order of the task index. *)
Definition tasks_newest_first (r : R) : list Task := newest_first opts K_task (r_view r).

(** ** The keyspace after a save *)

Lemma appended_key K k vals v : opts_ok opts → K ∈ kinds →
  rs_keys (appended opts vals v) !! rec_key opts K k = rs_keys v !! rec_key opts K k ∧
  rs_keys (appended opts vals v) !! idx_key opts K k = rs_keys v !! idx_key opts K k.
Proof.
  intros [_ Hs] HK. unfold appended. rewrite rs_keys_set.
  split; apply lookup_insert_ne; by apply Hs.
Qed.

Lemma appended_stream vals v : stream_at (appended opts vals v) (StreamName opts) =
  stream_at v (StreamName opts) ++ [vals].
Proof. unfold appended, stream_at at 1. rewrite rs_keys_set, lookup_insert_eq. done. Qed.

Lemma SaveTask_after r t m now :
  opts_ok opts → r_ok r → task_metadata t = Some m → om_name m ≠ "" → json_ok (task_defaults t) →
  serves r_up r_view time_Now r now (r_view r) →
  ∃ r1, SaveTask opts t r = (Ret (None, task_defaults t), r1) ∧ r_ok r1 ∧
    zset (r_view r1) task_index = <[meta_key m := float64_of_int now]> (zset (r_view r) task_index) ∧
    records opts K_task (r_view r1) = <[meta_key m := task_defaults t]> (records opts K_task (r_view r)) ∧
    rs_keys (r_view r1) !! StreamName opts = Some (RStream (stream_at (r_view r) (StreamName opts) ++
      [event_values "reconcile" (default_atespace (om_atespace m)) (om_name m)])) ∧
    rs_groups (r_view r1) = rs_groups (r_view r).
Proof.
  intros Hopts Hok Hm Hn Hj Hnow.
  destruct (SaveTask_run opts r t m Hopts Hok Hm Hn Hj) as (r1 & Hs & Hok1 & Hv1).
  destruct (SaveTask_serves opts r t m now Hopts Hok Hm Hn Hj Hnow) as (d & HU & (r1' & Hs' & _ & Hv')).
  rewrite Hs in Hs'. injection Hs' as <-.
  exists r1. split_and!; [done|done| |exact (f_equal v_tasks Hv1)| |by rewrite Hv'].
  - rewrite Hv'. unfold zset at 1. cbn [published rs_keys].
    rewrite (proj2 (appended_key K_task "index" _ _ Hopts ltac:(kinds_in))).
    exact (save_state_index opts K_task _ _ _ _ _).
  - rewrite Hv'. cbn [published rs_keys]. unfold appended. rewrite rs_keys_set, lookup_insert_eq.
    do 3 f_equal. unfold stream_at. f_equal. f_equal.
    apply (only_stream opts K_task); [done|kinds_in|apply save_state_only].
Qed.

(** ** Saving and reading *)

(** A task that survives the codec is stored whole: SaveTask fills in its
    defaults, files it under its address, leaves every other resource alone, and
    GetTask then returns exactly the saved message. *)
Theorem redis_SaveTask_then_GetTask r t m :
  opts_ok opts → r_ok r → task_metadata t = Some m → om_name m ≠ "" → json_ok (task_defaults t) →
  ∃ r1 r2,
    SaveTask opts t r = (Ret (None, task_defaults t), r1) ∧ r_ok r1 ∧
    red_view r1 = v_set_tasks (<[meta_key m := task_defaults t]> (v_tasks (red_view r))) (red_view r) ∧
    GetTask opts (om_atespace m) (om_name m) r1 = (Ret (Ok (task_defaults t)), r2) ∧
    red_view r2 = red_view r1.
Proof.
  intros Hopts Hok Hm Hn Hj.
  destruct (SaveTask_run opts r t m Hopts Hok Hm Hn Hj) as (r1 & Hs & Hok1 & Hv1).
  pose proof (GetTask_serves opts r1 (om_atespace m) (om_name m) Hok1) as (r2 & Hg & _ & Hv2).
  exists r1, r2. split_and!; [done|done|done| |unfold RedisInv.red_view; by rewrite Hv2].
  rewrite Hg. change (records opts K_task (r_view r1)) with (v_tasks (red_view r1)).
  rewrite Hv1. cbn. fold (meta_key m). by rewrite lookup_insert_eq.
Qed.

(** The listing of all atespaces is paged consistently: page [offset, limit]
    is that stretch of one fixed enumeration of the stored tasks, in which every
    stored task occurs exactly once. *)
Theorem redis_ListTasks_pages r a limit offset :
  opts_ok opts → r_ok r → a = "" ∨ a = "*" → (0 < limit)%Z → (0 ≤ offset)%Z →
  (offset + limit ≤ int64_max)%Z →
  tasks_newest_first r ≡ₚ (map_to_list (v_tasks (red_view r))).*2 ∧
  ∃ r', ListTasks opts a limit offset r =
    (Ret (Ok (take (Z.to_nat limit) (drop (Z.to_nat offset) (tasks_newest_first r)))), r') ∧
    red_view r' = red_view r.
Proof.
  intros Hopts [Hup Hinv] Ha Hl Ho Hmax.
  split; [exact (newest_first_all opts K_task task_metadata _ (ri_task _ _ Hinv))|].
  unfold ListTasks. rewrite decide_False by lia. cbv zeta.
  rewrite (int64_id (offset + limit)), int64_id by (unfold int64_min, int64_max in *; lia).
  destruct (list_page_serves opts K_task task_metadata (taskKey opts)
    (taskIndexKey opts) (taskAtespaceIndexKey opts) "listing task index: %w"
    "batch fetching tasks: %w" a offset (offset + limit - 1) r ltac:(done) ltac:(done) Ha Hup
    (ri_task _ _ Hinv)) as (r' & Hr & _ & Hv).
  exists r'. split; [|unfold RedisInv.red_view; by rewrite Hv].
  rewrite Hr. unfold tasks_newest_first.
  by rewrite <- (newest_first_page opts K_task task_metadata) by (done || apply Hinv).
Qed.

(** ListTasks lists the newest save first: when the clock has moved past the
    scores of the stored tasks, the task just saved heads the listing. *)
Theorem redis_SaveTask_is_newest r t m now :
  opts_ok opts → r_ok r → task_metadata t = Some m → om_name m ≠ "" → json_ok (task_defaults t) →
  serves r_up r_view time_Now r now (r_view r) →
  (∀ k s, zset (r_view r) task_index !! k = Some s → (s < float64_of_int now)%Z) →
  ∃ r1, SaveTask opts t r = (Ret (None, task_defaults t), r1) ∧
    head (tasks_newest_first r1) = Some (task_defaults t) ∧
    ∃ r2, ListTasks opts "" 1 0 r1 = (Ret (Ok [task_defaults t]), r2).
Proof.
  intros Hopts Hok Hm Hn Hj Hnow Hmax.
  destruct (SaveTask_after r t m now Hopts Hok Hm Hn Hj Hnow) as (r1 & Hs & Hok1 & Hidx & Hrec & _).
  assert (∃ rest, tasks_newest_first r1 = task_defaults t :: rest) as [rest Hhead].
  { unfold tasks_newest_first, newest_first.
    rewrite Hidx, zsorted_insert_max by eauto. cbn. rewrite Hrec, lookup_insert_eq. cbn. by eexists. }
  exists r1. split; [done|]. split; [by rewrite Hhead|].
  destruct (list_page_serves opts K_task task_metadata (taskKey opts)
    (taskIndexKey opts) (taskAtespaceIndexKey opts) "listing task index: %w"
    "batch fetching tasks: %w" "" 0 (0 + 1 - 1) r1 ltac:(done) ltac:(done) ltac:(by left) (proj1 Hok1)
    (ri_task _ _ (proj2 Hok1))) as (r2 & Hr & _ & _).
  exists r2. etrans; [exact Hr|].
  rewrite (newest_first_page opts K_task task_metadata) by (done || apply Hok1).
  unfold tasks_newest_first in Hhead. by rewrite Hhead.
Qed.

(** ** Consumer groups *)

Abbreviation entry := (nat * gmap string string)%type.

(** A group of the store's stream: its position and the entries of the stream. *)
Definition group_at (group : string) (r : R) (g : rgroup) (es : list (gmap string string)) : Prop :=
  r_up r ∧ rs_groups (r_view r) !! (StreamName opts, group) = Some g ∧
  rs_keys (r_view r) !! StreamName opts = Some (RStream es).

Definition event_of (iv : entry) : TaskEvent := eventFromMessage (message_of (fst iv) (snd iv)).

(** The events no member of the group has been given yet. *)
Definition undelivered (g : rgroup) (es : list (gmap string string)) : list TaskEvent :=
  event_of <$> drop (rg_last g) (imap (λ i v, (i, v)) es).

Lemma undelivered_snoc g es vals : (rg_last g ≤ length es)%nat →
  undelivered g (es ++ [vals]) = undelivered g es ++ [event_of (length es, vals)].
Proof.
  intros Hle. unfold undelivered. rewrite imap_app, drop_app_le by (by rewrite length_imap).
  rewrite fmap_app. cbn. by rewrite Nat.add_0_r.
Qed.

Lemma xread_split g consumer count es :
  let '(fresh, g') := xread g consumer count es in
  undelivered g es = (event_of <$> fresh) ++ undelivered g' es ∧
  rg_pending g' = rg_pending g ++ ((λ iv, (fst iv, consumer)) <$> fresh).
Proof.
  unfold xread, undelivered. cbn. split; [|done]. rewrite <- drop_drop.
  set (l := drop (rg_last g) _). rewrite <- fmap_app. f_equal.
  rewrite <- (take_drop (Z.to_nat count) l) at 1. f_equal.
  rewrite length_take. destruct (Nat.le_ge_cases (Z.to_nat count) (length l)).
  - by rewrite Nat.min_l.
  - by rewrite Nat.min_r, !drop_ge by lia.
Qed.

Lemma xread_nil g consumer count es : (0 < count)%Z → fst (xread g consumer count es) = [] →
  undelivered g es = [].
Proof.
  intros Hc. unfold xread, undelivered. cbn. destruct (drop _ _); [done|].
  by destruct (Z.to_nat count) eqn:E; [lia|].
Qed.

Lemma xread_undelivered g consumer count es : undelivered g es = [] →
  fst (xread g consumer count es) = [].
Proof.
  unfold xread, undelivered. cbn. intros ->%fmap_nil_inv. by rewrite take_nil.
Qed.

(** The group was given [ids]: the next entries, which are pending from then on. *)
Definition took (g g' : rgroup) (es : list (gmap string string)) (ids : list string) : Prop :=
  ∃ ns, ids = entry_id <$> ns ∧ ns = seq (rg_last g) (length ns) ∧ rg_last g' = (rg_last g + length ns)%nat ∧
    (fst <$> rg_pending g') = (fst <$> rg_pending g) ++ ns ∧
    ((rg_last g ≤ length es)%nat → (rg_last g' ≤ length es)%nat).

Lemma took_nothing g es : took g g es [].
Proof. exists []. split_and!; [done|done|cbn; lia|by rewrite app_nil_r|done]. Qed.

Lemma xread_took g consumer count es :
  took g (snd (xread g consumer count es)) es (ev_id <$> (event_of <$> fst (xread g consumer count es))).
Proof.
  set (fresh := fst (xread g consumer count es)). exists (fst <$> fresh).
  assert (Hlen : length fresh = min (Z.to_nat count) (length es - rg_last g)).
  { unfold fresh, xread. cbn. by rewrite length_take, length_drop, length_imap. }
  split_and!.
  - by rewrite <- !list_fmap_compose.
  - rewrite length_fmap. unfold fresh at 1. unfold xread. cbn [fst]. rewrite fmap_take, fmap_drop, fmap_imap.
    replace (imap _ es) with (seq 0 (length es)) by (symmetry; etrans; [exact (imap_seq_0 es id)|apply list_fmap_id]).
    rewrite drop_seq, take_seq, Hlen. by rewrite Nat.add_0_l.
  - by rewrite length_fmap.
  - unfold xread. cbn. rewrite fmap_app. f_equal. unfold fresh, xread. cbn. by rewrite <- list_fmap_compose.
  - intros Hle. change (rg_last g + length fresh ≤ length es)%nat. lia.
Qed.

(** One read: nothing, or a batch that moves the group forward. *)
Lemma read_step r sub g es : (0 < ReadBatchSize opts)%Z → group_at (sub_group sub) r g es →
  ∃ evs g' r', read opts sub r = (Ret (Ok evs), r') ∧ group_at (sub_group sub) r' g' es ∧
    undelivered g es = evs ++ undelivered g' es ∧ (evs = [] → undelivered g es = []) ∧
    rs_keys (r_view r') = rs_keys (r_view r) ∧ took g g' es (ev_id <$> evs).
Proof.
  intros Hc (Hup & Hg & Hs).
  pose proof (law_XReadGroup r (sub_group sub) (sub_consumer sub) (StreamName opts) g es
    (ReadBatchSize opts) (ReadBlock opts) Hup Hc Hg Hs) as Hlaw.
  pose proof (xread_split g (sub_consumer sub) (ReadBatchSize opts) es) as Hsplit.
  pose proof (xread_nil g (sub_consumer sub) (ReadBatchSize opts) es Hc) as Hnil.
  pose proof (xread_took g (sub_consumer sub) (ReadBatchSize opts) es) as Htook.
  destruct (xread g (sub_consumer sub) (ReadBatchSize opts) es) as [[|iv fresh] g'] eqn:E.
  - destruct Hlaw as (e & He & (r1 & Hr & Hup1 & Hv1)). exists [], g, r1.
    split_and!; [|by unfold group_at; rewrite Hv1|done|by intros; apply Hnil|by rewrite Hv1|apply took_nothing].
    unfold read. rewrite (bind_Ret _ _ _ _ _ Hr). cbv beta iota. by rewrite He.
  - destruct Hlaw as (r1 & Hr & Hup1 & Hv1). destruct Hsplit as [Hsplit _].
    exists (event_of <$> iv :: fresh), g', r1. split_and!; [| |done|done|by rewrite Hv1|done].
    + unfold read. rewrite (bind_Ret _ _ _ _ _ Hr). cbn. rewrite app_nil_r.
      unfold ret. do 4 f_equal. by rewrite <- list_fmap_compose.
    + unfold group_at. rewrite Hv1. cbn. by rewrite lookup_insert_eq.
Qed.

(** What a member still has to hand out. *)
Definition inflight (sub : subscription) g es : list TaskEvent := sub_pending sub ++ undelivered g es.

Lemma Next_step r sub g es : (0 < ReadBatchSize opts)%Z → group_at (sub_group sub) r g es →
  match inflight sub g es with
  | ev :: rest => ∃ sub' g' r', Next opts sub [None] r = (Ret (Some (Ok ev), sub'), r') ∧
      sub_group sub' = sub_group sub ∧ sub_consumer sub' = sub_consumer sub ∧
      group_at (sub_group sub) r' g' es ∧ inflight sub' g' es = rest ∧
      rs_keys (r_view r') = rs_keys (r_view r) ∧
      ∃ ids, ev_id <$> (ev :: sub_pending sub') = (ev_id <$> sub_pending sub) ++ ids ∧ took g g' es ids
  | [] => ∃ sub' g' r', Next opts sub [None] r = (Ret (None, sub'), r') ∧
      sub_group sub' = sub_group sub ∧ group_at (sub_group sub) r' g' es ∧ inflight sub' g' es = [] ∧
      rs_keys (r_view r') = rs_keys (r_view r) ∧ sub_pending sub = [] ∧ sub_pending sub' = [] ∧ took g g' es []
  end.
Proof.
  intros Hc Hg. unfold inflight. destruct sub as [group consumer [|ev p]]; cbn -[read] in *.
  - destruct (read_step r (mkSubscription group consumer []) g es Hc Hg)
      as (evs & g' & r' & Hr & Hg' & Hsplit & Hnil & Hk & Htook).
    destruct evs as [|ev evs].
    + rewrite (Hnil eq_refl) in Hsplit |- *. eexists _, g', r'. by rewrite (bind_Ret _ _ _ _ _ Hr).
    + rewrite Hsplit. cbn. eexists _, g', r'. rewrite (bind_Ret _ _ _ _ _ Hr). split_and!; [done..|by eexists].
  - eexists _, g, r. split_and!; [done..|]. exists []. split; [by rewrite app_nil_r|apply took_nothing].
Qed.

Lemma undelivered_ids g es :
  ev_id <$> undelivered g es = entry_id <$> drop (rg_last g) (seq 0 (length es)).
Proof.
  unfold undelivered. rewrite <- list_fmap_compose, !fmap_drop. f_equal.
  rewrite fmap_imap. exact (imap_seq_0 es entry_id).
Qed.

(** Any schedule of receives by the members of a group. *)
Inductive deliveries : list subscription → R → list TaskEvent → list subscription → R → Prop :=
| deliveries_nil subs r : deliveries subs r [] subs r
| deliveries_next subs r i sub ev sub' r' evs subs2 r2 :
    subs !! i = Some sub →
    Next opts sub [None] r = (Ret (Some (Ok ev), sub'), r') →
    deliveries (<[i := sub']> subs) r' evs subs2 r2 →
    deliveries subs r (ev :: evs) subs2 r2.

(** The events still to be handed out by a group with these members. *)
Definition outstanding (subs : list subscription) g es : list TaskEvent :=
  (subs ≫= sub_pending) ++ undelivered g es.

Lemma outstanding_update subs i sub sub' g g' es ev : subs !! i = Some sub →
  inflight sub g es = ev :: inflight sub' g' es →
  outstanding subs g es ≡ₚ ev :: outstanding (<[i := sub']> subs) g' es.
Proof.
  unfold inflight, outstanding. intros Hi Heq.
  pose proof (lookup_lt_Some _ _ _ Hi) as Hlt.
  rewrite <- (take_drop_middle subs i sub Hi) at 1. rewrite insert_take_drop by done.
  rewrite !bind_app, !bind_cons. rewrite <- !(assoc_L (++)).
  set (A := take i subs ≫= sub_pending). set (B := drop (S i) subs ≫= sub_pending).
  trans (A ++ B ++ (sub_pending sub ++ undelivered g es)); [solve_Permutation|].
  rewrite Heq. solve_Permutation.
Qed.

(** C15: in a consumer group every event is handed to exactly one member, whatever
    the order in which the members receive: what was handed out and what is left
    is a permutation of what was there, and no event id is handed out twice. *)
Theorem redis_group_exactly_once group subs r g es evs subs' r' :
  (0 < ReadBatchSize opts)%Z → group_at group r g es →
  Forall (λ sub, sub_group sub = group ∧ sub_pending sub = []) subs →
  deliveries subs r evs subs' r' →
  ∃ g', group_at group r' g' es ∧ undelivered g es ≡ₚ evs ++ outstanding subs' g' es ∧
    NoDup (ev_id <$> evs).
Proof.
  intros Hc Hg Hsubs Hd.
  assert (outstanding subs g es = undelivered g es) as Hstart.
  { unfold outstanding. replace (subs ≫= sub_pending) with (@nil TaskEvent); [done|].
    clear -Hsubs. induction Hsubs as [|sub subs [_ Hp] _ IH]; [done|]. rewrite bind_cons, Hp. exact IH. }
  assert (∃ g', group_at group r' g' es ∧ outstanding subs g es ≡ₚ evs ++ outstanding subs' g' es)
    as (g' & Hg' & Hperm).
  { clear Hstart. assert (Forall (λ sub, sub_group sub = group) subs) as Hgroup
      by (eapply Forall_impl; [exact Hsubs|naive_solver]). clear Hsubs.
    revert g Hg Hgroup. induction Hd as [|subs r i sub ev sub' r1 evs subs2 r2 Hi Hnext _ IH];
      intros g Hg Hgroup; [by exists g|].
    pose proof (Forall_lookup_1 _ _ _ _ Hgroup Hi) as Hgrp. simpl in Hgrp. subst group.
    pose proof (Next_step r sub g es Hc Hg) as Hstep.
    destruct (inflight sub g es) as [|ev0 rest] eqn:Hin.
    { destruct Hstep as (? & ? & ? & Hstep & _). congruence. }
    destruct Hstep as (sub1 & g1 & r1' & Hstep & Hsg & _ & Hg1 & Hrest & _).
    rewrite Hnext in Hstep. simplify_eq.
    destruct (IH g1 Hg1) as (g' & Hg' & Hperm); [by apply Forall_insert|].
    exists g'. split; [done|]. rewrite (outstanding_update _ _ _ _ _ _ _ _ Hi Hin). by rewrite Hperm. }
  exists g'. rewrite Hstart in Hperm. split_and!; [done|done|].
  assert (NoDup (ev_id <$> undelivered g es)) as Hnd.
  { rewrite undelivered_ids. apply NoDup_fmap_2; [apply _|].
    eapply sublist_NoDup; [apply (NoDup_seq 0 (length es))|apply sublist_drop]. }
  rewrite Hperm, fmap_app in Hnd. by apply NoDup_app in Hnd as [? _].
Qed.

(** Receiving [n] events in a row. *)
Fixpoint receive (n : nat) (sub : subscription) : M R (option (list TaskEvent) * subscription) :=
  match n with
  | 0%nat => ret (Some [], sub)
  | S n =>
      let! (e, sub) := Next opts sub [None] in
      match e with
      | Some (Ok ev) =>
          let! (evs, sub) := receive n sub in
          ret (match evs with Some evs => Some (ev :: evs) | None => None end, sub)
      | _ => ret (None, sub)
      end
  end.

(** A lone member of a group receives all events the group was not given yet,
    each of them, in the order they were published, and one receive suffices for
    each. *)
Theorem redis_group_fifo group consumer r g es :
  (0 < ReadBatchSize opts)%Z → group_at group r g es →
  ∃ sub' r', receive (length (undelivered g es)) (mkSubscription group consumer []) r =
    (Ret (Some (undelivered g es), sub'), r').
Proof.
  intros Hc Hg. set (sub := mkSubscription group consumer []).
  assert (undelivered g es = inflight sub g es) as -> by done.
  change group with (sub_group sub) in Hg. clearbody sub.
  remember (inflight sub g es) as evs eqn:Hin.
  revert sub r g Hg Hin. induction evs as [|ev evs IH]; intros sub r g Hg Hin; [by eexists _, _|].
  pose proof (Next_step r sub g es Hc Hg) as Hstep. rewrite <- Hin in Hstep.
  destruct Hstep as (sub1 & g1 & r1 & Hn & Hsg & _ & Hg1 & Hrest & _). rewrite <- Hsg in Hg1.
  destruct (IH sub1 r1 g1 Hg1 (eq_sym Hrest)) as (sub2 & r2 & Hr).
  exists sub2, r2. cbn [length receive]. rewrite (bind_Ret _ _ _ _ _ Hn). cbv beta iota.
  by rewrite (bind_Ret _ _ _ _ _ Hr).
Qed.

(** C8: a save of a named task that survives the JSON codec reaches the workers: when a
    group is up to date, the next event a member receives after SaveTask is the
    reconcile event of the saved task, and acknowledging it takes its delivery off the
    pending list of the group, which has nothing left to deliver. *)
Theorem redis_SaveTask_event r t m group consumer g es :
  opts_ok opts → (0 < ReadBatchSize opts)%Z → r_ok r →
  task_metadata t = Some m → om_name m ≠ "" → json_ok (task_defaults t) →
  group_at group r g es → rg_last g = length es →
  let ev := mkTaskEvent (entry_id (length es)) (default_atespace (om_atespace m)) (om_name m) "reconcile" in
  ∃ r1 sub r2 r3,
    SaveTask opts t r = (Ret (None, task_defaults t), r1) ∧
    Next opts (mkSubscription group consumer []) [None] r1 = (Ret (Some (Ok ev), sub), r2) ∧
    Ack opts sub ev r2 = (Ret None, r3) ∧
    ∃ g3, group_at group r3 g3 (es ++ [event_values "reconcile" (ev_atespace ev) (ev_name ev)]) ∧
      undelivered g3 (es ++ [event_values "reconcile" (ev_atespace ev) (ev_name ev)]) = [] ∧
      ∀ c, (length es, c) ∉ rg_pending g3.
Proof.
  intros Hopts Hc Hok Hm Hn Hj (Hup & Hg & Hs) Hlast ev.
  destruct (law_time r (proj1 Hok)) as (now & Hnow).
  destruct (SaveTask_after r t m now Hopts Hok Hm Hn Hj Hnow)
    as (r1 & Hsave & Hok1 & _ & _ & Hs1 & Hg1).
  set (vals := event_values "reconcile" _ _) in Hs1.
  assert (stream_at (r_view r) (StreamName opts) = es) as Hes by (unfold stream_at; by rewrite Hs).
  rewrite Hes in Hs1.
  assert (group_at group r1 g (es ++ [vals])) as Hat1 by (split_and!; [apply Hok1|congruence|done]).
  assert (undelivered g (es ++ [vals]) = [ev]) as Hund.
  { rewrite undelivered_snoc by lia. unfold undelivered at 1. by rewrite drop_ge by (rewrite length_imap; lia). }
  pose proof (Next_step r1 (mkSubscription group consumer []) g (es ++ [vals]) Hc Hat1) as Hstep.
  unfold inflight in Hstep. cbn [sub_pending app] in Hstep. rewrite Hund in Hstep.
  destruct Hstep as (sub & g2 & r2 & Hnext & Hsg & _ & (Hup2 & Hg2 & Hs2) & Hrest & _).
  cbn in Hsg, Hg2.
  destruct (law_XAck r2 (StreamName opts) group g2 (length es) Hup2 Hg2) as (r3 & Hack & Hup3 & Hv3).
  exists r1, sub, r2, r3. split_and!; [done|done|unfold Ack; by rewrite Hsg|].
  eexists. split_and!; [split_and!; [done|by rewrite Hv3; cbn; rewrite lookup_insert_eq|by rewrite Hv3]| |].
  - change (undelivered g2 (es ++ [vals]) = []). by apply app_nil in Hrest as [_ ?].
  - intros c. cbn. by intros [? _]%list_elem_of_filter.
Qed.

(** Events a worker received and never acknowledged stay pending, but no
    receive hands them out again: a worker that subscribes anew under the same
    name, to a group that was given everything, only polls. *)
Theorem redis_pending_not_redelivered r group consumer g es :
  (0 < ReadBatchSize opts)%Z → group_at group r g es → rg_last g = length es →
  ∃ sub r1 sub' r2,
    Subscribe opts group consumer r = (Ret (Ok sub), r1) ∧
    Next opts sub [None; None; None] r1 = (Ret (None, sub'), r2) ∧
    rs_groups (r_view r2) !! (StreamName opts, group) = Some g.
Proof.
  intros Hc (Hup & Hg & Hs) Hlast.
  pose proof (law_XGroupCreateMkStream r (StreamName opts) group es Hup) as Hcreate.
  rewrite Hs, Hg in Hcreate. destruct (Hcreate eq_refl) as (e & He & (r1 & Hr & Hup1 & Hv1)).
  assert (group_at group r1 g es) as Hat by (unfold group_at; by rewrite Hv1).
  assert (∀ r, group_at group r g es → ∃ r', read opts (mkSubscription group consumer []) r = (Ret (Ok []), r') ∧
    group_at group r' g es) as Hread.
  { intros r0 (Hup0 & Hg0 & Hs0).
    pose proof (law_XReadGroup r0 group consumer (StreamName opts) g es
      (ReadBatchSize opts) (ReadBlock opts) Hup0 Hc Hg0 Hs0) as Hlaw.
    assert (fst (xread g consumer (ReadBatchSize opts) es) = []) as Hx.
    { apply xread_undelivered. unfold undelivered. by rewrite drop_ge by (rewrite length_imap; lia). }
    destruct (xread _ _ _ _) as [fresh g']. cbn in Hx. subst fresh.
    destruct Hlaw as (e' & He' & (r' & Hr' & Hup' & Hv')). exists r'.
    unfold read. cbn [sub_group sub_consumer]. rewrite (bind_Ret _ _ _ _ _ Hr'). cbv beta iota.
    rewrite He'. split; [done|]. unfold group_at. by rewrite Hv'. }
  destruct (Hread _ Hat) as (r2 & Hr2 & Hat2). destruct (Hread _ Hat2) as (r3 & Hr3 & Hat3).
  destruct (Hread _ Hat3) as (r4 & Hr4 & (_ & Hg4 & _)).
  exists (mkSubscription group consumer []), r1, (mkSubscription group consumer []), r4.
  split_and!; [|cbn -[read]|done].
  - unfold Subscribe. rewrite (bind_Ret _ _ _ _ _ Hr). cbv beta iota. by rewrite He.
  - rewrite (bind_Ret _ _ _ _ _ Hr2), (bind_Ret _ _ _ _ _ Hr3). by rewrite (bind_Ret _ _ _ _ _ Hr4).
Qed.

(** ** Status writes *)

(** Writing a record key and publishing, on the server. *)
Lemma write_serves r k d ch : opts_ok opts → r_up r →
  serves r_up r_view (redis_Exec [CSet k d (TTL opts); CPublish ch d]) r None
    (published ch d (rs_set_key k (RString d) (r_view r))).
Proof. intros [Httl _] Hup. apply serves_exec; [done|by repeat constructor|done]. Qed.

(** UpdateTaskStatus with an empty atespace reads the task of the default
    atespace but writes the record of the empty one: it reports success, and the
    stored status is the old one. *)
Theorem redis_UpdateTaskStatus_empty_atespace r n st t :
  opts_ok opts → r_ok r → v_tasks (red_view r) !! res_key "" n = Some t → json_ok (task_set_status st t) →
  ∃ r1 r2, UpdateTaskStatus opts "" n st r = (Ret None, r1) ∧
    GetTask opts "" n r1 = (Ret (Ok t), r2).
Proof.
  intros Hopts Hok Ht (d & HM & HU).
  pose proof (GetTask_serves opts r "" n Hok) as (r0 & Hget & Hup0 & Hv0).
  change (v_tasks (red_view r)) with (records (A := Task) opts K_task (r_view r)) in Ht.
  destruct (records_some opts K_task task_metadata _ _ _ (ri_task _ _ (proj2 Hok)) Ht)
    as (d0 & _ & Hd0 & HU0 & _). rewrite Ht in Hget. cbn [found] in Hget.
  destruct (write_serves r0 (taskKey opts "" n) d (taskPubSubChannel opts "" n) Hopts Hup0)
    as (r1 & Hw & Hup1 & Hv1).
  assert (rs_keys (r_view r1) !! taskKey opts "default" n = Some (RString d0)) as Hkey.
  { rewrite Hv1. cbn [published rs_keys]. rewrite rs_keys_set, lookup_insert_ne, Hv0; [exact Hd0|].
    change (rec_key opts K_task (":" +:+ n) ≠ rec_key opts K_task ("default:" +:+ n)).
    by intros ?%rec_key_inj. }
  pose proof (law_Get r1 (taskKey opts "default" n) Hup1) as Hg. rewrite Hkey in Hg.
  destruct Hg as (r2 & Hg & _). exists r1, r2. split.
  - unfold UpdateTaskStatus. rewrite (bind_Ret _ _ _ _ _ Hget). cbv beta iota.
    unfold write_status. rewrite HM. by rewrite (bind_Ret _ _ _ _ _ Hw).
  - unfold GetTask. rewrite decide_True by done. cbv zeta. rewrite (bind_Ret _ _ _ _ _ Hg).
    cbv beta iota. by rewrite HU0.
Qed.

(** A status write is not atomic: when the task is deleted between the read
    and the write of UpdateTaskStatus, the write brings the record back, and the
    record is missing from the listing of all tasks. *)
Theorem redis_status_write_resurrects r a n st t :
  opts_ok opts → r_ok r → a ≠ "" → v_tasks (red_view r) !! res_key a n = Some t →
  json_ok (task_set_status st t) →
  ∃ r1 r2 r3, GetTask opts a n r = (Ret (Ok t), r1) ∧
    DeleteTask opts a n r1 = (Ret None, r2) ∧
    v_tasks (red_view r2) !! res_key a n = None ∧
    write_status opts a n st t r2 = (Ret None, r3) ∧
    v_tasks (red_view r3) !! res_key a n = Some (task_set_status st t) ∧
    zset (r_view r3) task_index !! res_key a n = None.
Proof.
  intros Hopts Hok Ha Ht (d & HM & HU).
  pose proof (GetTask_serves opts r a n Hok) as (r1 & Hget & Hup1 & Hv1).
  change (v_tasks (red_view r)) with (records (A := Task) opts K_task (r_view r)) in Ht.
  rewrite Ht in Hget.
  assert (r_ok r1) as Hok1 by (split; [done|rewrite Hv1; apply Hok]).
  destruct (DeleteTask_run opts r1 a n Hopts Hok1) as (r2 & Hdel & Hok2 & Hv2).
  assert (v_tasks (red_view r2) !! res_key a n = None) as Hgone.
  { rewrite Hv2. apply lookup_delete_eq. }
  destruct (write_serves r2 (taskKey opts a n) d (taskPubSubChannel opts a n) Hopts (proj1 Hok2))
    as (r3 & Hw & Hup3 & Hv3).
  assert (taskKey opts a n = rec_key opts K_task (res_key a n)) as Hkey.
  { unfold res_key, default_atespace. by rewrite decide_False. }
  exists r1, r2, r3. split_and!; [done|done|done| | |].
  - unfold write_status. rewrite HM. by rewrite (bind_Ret _ _ _ _ _ Hw).
  - change (records (A := Task) opts K_task (r_view r3) !! res_key a n = Some (task_set_status st t)).
    rewrite records_lookup, Hv3. cbn [published rs_keys]. rewrite rs_keys_set, Hkey, lookup_insert_eq.
    cbn. by rewrite HU.
  - rewrite Hv3. unfold zset. cbn [published rs_keys]. rewrite rs_keys_set, Hkey.
    rewrite lookup_insert_ne by (apply keys_apart; kinds_in).
    apply eq_None_not_Some. intros Hsome.
    apply (member_record opts K_task task_metadata _ _ (ri_task _ _ (proj2 Hok2))) in Hsome as [x Hx].
    change (v_tasks (red_view r2) !! res_key a n = Some x) in Hx. congruence.
Qed.

End Props.
