(* ===== verification/RedisExamples.v ===== *)
(** The theorems about the Redis store at concrete inputs: the reference server
    with the store's default options and a codec for the tasks the examples save. *)

From S2P Require Import Prelude GoStrings Types StoreApi RedisApi RedisSort RedisStore RedisInv RedisSpec.
From S2P Require Import RedisProps.

(** ** The setting *)

Definition rx_meta : ObjectMeta := mkObjectMeta "demo" "" None.
Definition rx_with (phase : string) : Task :=
  mkTask "ax.io/v1alpha1" "Task" (Some (saved_meta rx_meta)) (Some zero_TaskSpec) (Some (st_set_phase phase zero_TaskStatus)).
Definition rx_task : Task := mkTask "" "" (Some rx_meta) (Some zero_TaskSpec) None.
Definition rx_running : option TaskStatus := Some (st_set_phase "Running" zero_TaskStatus).

(** A codec that writes the phase, for the one task of the examples. *)
#[export] Instance rx_task_json : ProtoJSON Task := {
  Marshal t := Ok (from_option st_phase "" (task_status t)); Unmarshal d := Ok (rx_with d);
}.
#[export] Instance rx_gateway_json : ProtoJSON Gateway := {
  Marshal _ := Err (ErrForeign 1); Unmarshal _ := Err (ErrForeign 1);
}.
#[export] Instance rx_workspace_json : ProtoJSON Workspace := {
  Marshal _ := Err (ErrForeign 1); Unmarshal _ := Err (ErrForeign 1);
}.
#[export] Instance rx_model_json : ProtoJSON Model := {
  Marshal _ := Err (ErrForeign 1); Unmarshal _ := Err (ErrForeign 1);
}.
#[export] Instance rx_ids : EntryIds := { entry_id i := pretty i; entry_id_inj := _ }.
#[export] Instance rx_text : ErrorText := plain_text.

Definition rx_opts : Options := NewStore (mkOptions "" "" 0 0 0).
Definition rx_empty : ref_world := empty_world Z.of_nat.
Definition rx_one : ref_world := snd (SaveTask rx_opts rx_task rx_empty).

Lemma rx_opts_ok : opts_ok rx_opts.
Proof. exact default_opts_ok. Qed.

Lemma rx_empty_ok : r_ok rx_opts rx_empty.
Proof. apply empty_world_ok. Qed.

Lemma rx_json phase : json_ok (rx_with phase).
Proof. by exists phase. Qed.

Lemma rx_one_run : ∃ r, SaveTask rx_opts rx_task rx_empty = (Ret (None, rx_with "Pending"), r) ∧
  r_ok rx_opts r ∧ red_view rx_opts r = v_set_tasks (<["default:demo" := rx_with "Pending"]>
    (v_tasks (red_view rx_opts rx_empty))) (red_view rx_opts rx_empty).
Proof.
  destruct (SaveTask_run rx_opts rx_empty rx_task rx_meta rx_opts_ok rx_empty_ok) as (r & Hr & Hok & Hv);
    [done|done|apply (rx_json "Pending")|].
  exists r. split; [exact Hr|]. split; [exact Hok|exact Hv].
Qed.
Lemma rx_one_ok : r_ok rx_opts rx_one.
Proof. destruct rx_one_run as (r & Hr & Hok & _). unfold rx_one. by rewrite Hr. Qed.
Lemma rx_one_view : v_tasks (red_view rx_opts rx_one) !! "default:demo" = Some (rx_with "Pending").
Proof. destruct rx_one_run as (r & Hr & _ & Hv). unfold rx_one. rewrite Hr. cbn [snd]. by rewrite Hv. Qed.

(** ** Records *)

Lemma redis_SaveTask_then_GetTask_witness : ∃ r1 r2,
  SaveTask rx_opts rx_task rx_empty = (Ret (None, rx_with "Pending"), r1) ∧
  GetTask rx_opts "" "demo" r1 = (Ret (Ok (rx_with "Pending")), r2).
Proof.
  destruct (redis_SaveTask_then_GetTask rx_opts rx_empty rx_task rx_meta rx_opts_ok rx_empty_ok)
    as (r1 & r2 & Hs & _ & _ & Hg & _); [reflexivity|discriminate|apply (rx_json "Pending")|].
  exists r1, r2. split; [exact Hs|exact Hg].
Defined.

Lemma redis_ListTasks_pages_witness :
  tasks_newest_first rx_opts rx_one ≡ₚ (map_to_list (v_tasks (red_view rx_opts rx_one))).*2 ∧
  ∃ r', ListTasks rx_opts "*" 5 0 rx_one =
    (Ret (Ok (take 5 (drop 0 (tasks_newest_first rx_opts rx_one)))), r') ∧
    red_view rx_opts r' = red_view rx_opts rx_one.
Proof.
  apply (redis_ListTasks_pages rx_opts rx_one "*" 5 0 rx_opts_ok rx_one_ok); [by right|lia..|].
  unfold int64_max. lia.
Defined.

Lemma redis_SaveTask_is_newest_witness : ∃ r1,
  SaveTask rx_opts rx_task rx_empty = (Ret (None, rx_with "Pending"), r1) ∧
  head (tasks_newest_first rx_opts r1) = Some (rx_with "Pending") ∧
  ∃ r2, ListTasks rx_opts "" 1 0 r1 = (Ret (Ok [rx_with "Pending"]), r2).
Proof.
  apply (redis_SaveTask_is_newest rx_opts rx_empty rx_task rx_meta 0 rx_opts_ok rx_empty_ok);
    [reflexivity|discriminate|apply (rx_json "Pending")|by eexists|by intros].
Defined.

Lemma redis_UpdateTaskStatus_empty_atespace_witness : ∃ r1 r2,
  UpdateTaskStatus rx_opts "" "demo" rx_running rx_one = (Ret None, r1) ∧
  GetTask rx_opts "" "demo" r1 = (Ret (Ok (rx_with "Pending")), r2).
Proof.
  apply (redis_UpdateTaskStatus_empty_atespace rx_opts rx_one "demo" rx_running (rx_with "Pending")
    rx_opts_ok rx_one_ok rx_one_view (rx_json "Running")).
Defined.

Lemma redis_status_write_resurrects_witness : ∃ r1 r2 r3,
  GetTask rx_opts "default" "demo" rx_one = (Ret (Ok (rx_with "Pending")), r1) ∧
  DeleteTask rx_opts "default" "demo" r1 = (Ret None, r2) ∧
  write_status rx_opts "default" "demo" rx_running (rx_with "Pending") r2 = (Ret None, r3) ∧
  v_tasks (red_view rx_opts r3) !! "default:demo" = Some (rx_with "Running").
Proof.
  destruct (redis_status_write_resurrects rx_opts rx_one "default" "demo" rx_running (rx_with "Pending")
    rx_opts_ok rx_one_ok) as (r1 & r2 & r3 & Hg & Hd & _ & Hw & Hv & _);
    [discriminate|exact rx_one_view|apply (rx_json "Running")|].
  exists r1, r2, r3. split; [exact Hg|]. split; [exact Hd|]. split; [exact Hw|exact Hv].
Defined.

(** ** Events *)

(** A server whose stream has a group: one worker subscribed, then a save. *)
Definition rx_grouped : ref_world := snd (Subscribe rx_opts "workers" "a" rx_empty).
Definition rx_queued : ref_world := snd (SaveTask rx_opts rx_task rx_grouped).
Definition rx_entry : gmap string string := event_values "reconcile" "default" "demo".
Definition rx_new : rgroup := mkRgroup 0 [].
Definition rx_done : rgroup := mkRgroup 1 [(0%nat, "a")].
Definition rx_taken : ref_world :=
  snd (Next rx_opts (mkSubscription "workers" "a" []) [None] rx_queued).

Lemma rx_grouped_ok : r_ok rx_opts rx_grouped.
Proof.
  assert (Hs : ∀ K k, K ∈ kinds → rs_keys (r_view rx_grouped) !! rec_key rx_opts K k = None ∧
    rs_keys (r_view rx_grouped) !! idx_key rx_opts K k = None).
  { intros K k HK. destruct (proj2 rx_opts_ok K HK k) as [H1 H2].
    change (rs_keys (r_view rx_grouped)) with ({[StreamName rx_opts := RStream []]} : gmap string rvalue).
    split; by apply lookup_singleton_ne. }
  assert (Hk : ∀ K {A} `{!ProtoJSON A} (meta : A → option ObjectMeta), K ∈ kinds →
    kind_inv rx_opts K meta (r_view rx_grouped)).
  { intros K A ? meta HK. split; [intros k x|intros k x|intros k].
    - by rewrite (proj1 (Hs K k HK)).
    - by rewrite (proj2 (Hs K k HK)).
    - unfold zset. rewrite (proj1 (Hs K k HK)), (proj2 (Hs K "index" HK)). split; by intros [? ?]. }
  split; [exact I|]. split; [apply Hk; set_solver..|].
  intros x. change (rs_keys (r_view rx_grouped)) with ({[StreamName rx_opts := RStream []]} : gmap string rvalue).
  rewrite lookup_singleton_eq. intros [= <-]. by eexists.
Qed.

Lemma rx_group_queued : group_at rx_opts "workers" rx_queued rx_new [rx_entry].
Proof. split_and!; [exact I|vm_compute; reflexivity..]. Qed.
Lemma rx_group_new : group_at rx_opts "workers" rx_grouped rx_new [].
Proof. split_and!; [exact I|vm_compute; reflexivity..]. Qed.
Lemma rx_group_done : group_at rx_opts "workers" rx_taken rx_done [rx_entry].
Proof. split_and!; [exact I|vm_compute; reflexivity..]. Qed.

Definition rx_event : TaskEvent := mkTaskEvent "0" "default" "demo" "reconcile".

Lemma redis_group_exactly_once_witness : ∃ g',
  group_at rx_opts "workers" rx_taken g' [rx_entry] ∧
  undelivered rx_new [rx_entry] ≡ₚ [rx_event] ++ outstanding
    [mkSubscription "workers" "a" []; mkSubscription "workers" "b" []] g' [rx_entry] ∧
  NoDup (ev_id <$> [rx_event]).
Proof.
  apply (redis_group_exactly_once rx_opts "workers" [mkSubscription "workers" "a" []; mkSubscription "workers" "b" []]
    rx_queued rx_new [rx_entry] [rx_event] _ _ ltac:(done) rx_group_queued); [by repeat constructor|].
  eapply (deliveries_next rx_opts _ _ 0); [reflexivity|vm_compute; reflexivity|]. apply deliveries_nil.
Defined.

Lemma redis_group_fifo_witness : ∃ sub' r',
  receive rx_opts 1 (mkSubscription "workers" "a" []) rx_queued = (Ret (Some [rx_event], sub'), r').
Proof. apply (redis_group_fifo rx_opts "workers" "a" rx_queued rx_new [rx_entry] ltac:(done) rx_group_queued). Defined.

Lemma redis_SaveTask_event_witness : ∃ r1 sub r2 r3,
  SaveTask rx_opts rx_task rx_grouped = (Ret (None, rx_with "Pending"), r1) ∧
  Next rx_opts (mkSubscription "workers" "a" []) [None] r1 = (Ret (Some (Ok rx_event), sub), r2) ∧
  Ack rx_opts sub rx_event r2 = (Ret None, r3).
Proof.
  destruct (redis_SaveTask_event rx_opts rx_grouped rx_task rx_meta "workers" "a" rx_new [] rx_opts_ok
    ltac:(done) rx_grouped_ok) as (r1 & sub & r2 & r3 & Hs & Hn & Ha & _);
    [reflexivity|discriminate|apply (rx_json "Pending")|exact rx_group_new|reflexivity|].
  exists r1, sub, r2, r3. split; [exact Hs|]. split; [exact Hn|exact Ha].
Defined.

Lemma redis_pending_not_redelivered_witness : ∃ sub r1 sub' r2,
  Subscribe rx_opts "workers" "a" rx_taken = (Ret (Ok sub), r1) ∧
  Next rx_opts sub [None; None; None] r1 = (Ret (None, sub'), r2) ∧
  rs_groups (r_view r2) !! (StreamName rx_opts, "workers") = Some rx_done.
Proof.
  apply (redis_pending_not_redelivered rx_opts rx_taken "workers" "a" rx_done [rx_entry] ltac:(done)
    rx_group_done). reflexivity.
Defined.
