(* ===== verification/Substrate.v ===== *)
(** The Agent Substrate client (internal/substrate/client.go): the requests it
    builds and the order in which it sends them. The control service is a gRPC
    API outside this repository: the interface [Control], with the messages the
    client reads and writes. Connecting to it is in [Connect]. *)

From S2P Require Import Prelude GoStrings Types.

(** ** The control API *)

Record ResourceMetadata := mkResourceMetadata {
  rm_atespace : string;
  rm_name : string;
  rm_uid : string;
  rm_version : Z;
}.
Record ObjectRef := mkObjectRef { ref_atespace : string; ref_name : string }.

Inductive SnapshotContentScope := SNAPSHOT_CONTENT_SCOPE_DATA | SnapshotScopeOther.
Inductive ResumeSource := RESUME_SOURCE_GOLDEN | ResumeSourceOther.
Inductive SandboxClass := SANDBOX_CLASS_GVISOR | SandboxClassOther.

Record Container := mkContainer {
  ct_name : string;
  ct_image : string;
  ct_command : list string;
  ct_env : list EnvVar;
  ct_readyz : string * Z;                 (* path and port of the HTTP probe *)
  ct_mounts : list (string * string);     (* volume and mount path *)
}.
Record ActorTemplate := mkActorTemplate {
  at_metadata : option ResourceMetadata;
  at_containers : list Container;
  at_durable_volumes : list string;
  at_storage_location : string;
  at_on_pause : SnapshotContentScope;
  at_on_commit : SnapshotContentScope;
  at_on_resume_from_data : ResumeSource;
  at_sandbox_class : SandboxClass;
  at_sandbox_config : string;
}.

Inductive ActorState := ACTOR_STATE_CRASHED | ACTOR_STATE_DELETING | ActorStateOther (n : Z).
#[global] Instance actor_state_eq_dec : EqDecision ActorState.
Proof. solve_decision. Defined.
Record ActorStatus := mkActorStatus {
  as_state : ActorState;
  as_worker_pod_ip : option string;       (* nil without a worker assignment *)
}.
Record Actor := mkActor {
  ac_metadata : option ResourceMetadata;
  ac_template : option ObjectRef;
  ac_status : option ActorStatus;
}.

Inductive EgressRule :=
| EgressAll
| EgressHostnames (patterns : list string)
| EgressCidrs (cidrs : list string).
Record EgressPolicy := mkEgressPolicy {
  ep_metadata : option ResourceMetadata;
  ep_rules : list EgressRule;
}.

(** The (message, error) pairs the calls return. *)
Definition reply (A : Type) : Type := option A * option error.

Class Control (W : Type) := {
  CreateAtespace : string → M W (option error);
  ctl_GetActorTemplate : ObjectRef → M W (reply ActorTemplate);
  CreateActorTemplate : ActorTemplate → M W (reply ActorTemplate);
  ctl_ListActorTemplates : string → M W (res (list (option ActorTemplate) * string)); (* next page token *)
  ctl_DeleteActorTemplate : ObjectRef → M W (option error);
  CreateActor : Actor → M W (reply Actor);
  GetActor : ObjectRef → M W (reply Actor);
  ctl_DeleteActor : ObjectRef → bool → M W (option error);  (* any state *)
  ctl_ResumeActor : ObjectRef → M W (res (option Actor));
  ctl_SuspendActor : ObjectRef → M W (option error);
  CreateActorEgressPolicy : ObjectRef → EgressPolicy → M W (option error);
  GetActorEgressPolicy : ObjectRef → M W (reply EgressPolicy);
  UpdateActorEgressPolicy : ObjectRef → EgressPolicy → M W (option error);
}.

(** The caller's context: [ctx_wait d] is a select between its end and a timer of
    [d] nanoseconds, [Some err] when the context ended. *)
Class Context (W : Type) := {
  ctx_Err : M W (option error);
  ctx_wait : Z → M W (option error);
}.

(** os.Getenv *)
Class Environment := Getenv : string → string.

Section Client.
Context {W : Type} `{!Control W, !Context W, !GrpcStatus, !Environment, !MapRange}.

Definition status_is (c : code) (e : error) : bool := bool_decide (status_Code e = c).

(** ** Atespaces *)

Definition EnsureAtespace (atespace : string) : M W (option error) :=
  let! err := CreateAtespace atespace in
  match err with
  | Some e =>
      if status_is CodeAlreadyExists e then ret None
      else ret (Some (Errorf "creating atespace %q: %w" [AStr atespace; AWrap e]))
  | None => ret None
  end.

(** ** Templates *)

Definition GetActorTemplate (atespace templateName : string) : M W (reply ActorTemplate) :=
  ctl_GetActorTemplate (mkObjectRef atespace templateName).

Definition DefaultGuestCommand : string := "/usr/local/bin/ax-task-runner".
Definition DefaultSnapshotsBucket : string := "gs://snapshot-substrate-test-ax-substrate/ate-env/".

Definition BuildActorTemplate (atespace name image : string) (envMap : gmap string string)
    (command : list string) (snapshotsBucket : string) : ActorTemplate :=
  let atespace := if decide (atespace = "") then "default" else atespace in
  let image := if decide (image = "") then DefaultTaskImage else image in
  let command := match command with [] => [DefaultGuestCommand] | _ => command end in
  let snapshotsBucket :=
    if decide (snapshotsBucket = "") then
      let envBucket := Getenv "AX_SNAPSHOTS_BUCKET" in
      if decide (envBucket ≠ "") then envBucket else DefaultSnapshotsBucket
    else snapshotsBucket in
  let envList := (λ kv, mkEnvVar (fst kv) (snd kv)) <$> map_range envMap in
  mkActorTemplate
    (Some (mkResourceMetadata atespace name "" 0))
    [mkContainer "guest" image command envList ("/readyz", 80%Z) [("workspace", "/workspace")]]
    ["workspace"]
    snapshotsBucket SNAPSHOT_CONTENT_SCOPE_DATA SNAPSHOT_CONTENT_SCOPE_DATA RESUME_SOURCE_GOLDEN
    SANDBOX_CLASS_GVISOR "gvisor-default".

(** The base template the caller passes is not used. *)
Definition EnsureActorTemplateWithImage (baseAtespace baseTemplate targetAtespace targetTemplate image : string)
    (extraEnv : gmap string string) : M W (reply ActorTemplate) :=
  let! (existing, err) := GetActorTemplate targetAtespace targetTemplate in
  match existing, err with
  | Some existing, None => ret (Some existing, None)
  | _, _ =>
      let tmpl := BuildActorTemplate targetAtespace targetTemplate image extraEnv [] "" in
      let! (created, err) := CreateActorTemplate tmpl in
      let failed := match err with Some e => negb (status_is CodeAlreadyExists e) | None => false end in
      match err, failed with
      | Some e, true =>
          ret (None, Some (Errorf "creating actor template %s/%s: %w"
                 [AStr targetAtespace; AStr targetTemplate; AWrap e]))
      | _, _ =>
          match created with
          | Some created => ret (Some created, None)
          | None => GetActorTemplate targetAtespace targetTemplate
          end
      end
  end.

Definition ListActorTemplates (atespace : string) : M W (res (list (option ActorTemplate))) :=
  let! r := ctl_ListActorTemplates atespace in
  match r with
  | Err e => ret (Err (Errorf "listing actor templates in %s: %w" [AStr atespace; AWrap e]))
  | Ok (templates, _) => ret (Ok templates)
  end.

Definition DeleteActorTemplate (atespace templateName : string) : M W (option error) :=
  let! err := ctl_DeleteActorTemplate (mkObjectRef atespace templateName) in
  match err with
  | Some e =>
      if status_is CodeNotFound e then ret None
      else ret (Some (Errorf "deleting actor template %s/%s: %w"
                 [AStr atespace; AStr templateName; AWrap e]))
  | None => ret None
  end.

(** ** Actors *)

Definition retry_wait : Z := 500000000.

Definition still_deleting (atespace actorName : string) : error :=
  Errorf "actor %s/%s is still deleting; please retry" [AStr atespace; AStr actorName].

(** The loop that recreates an actor whose deletion is still being finalized,
    with [n] attempts left. *)
Fixpoint recreate (n : nat) (req : Actor) (atespace actorName : string) : M W (reply Actor) :=
  match n with
  | 0%nat => ret (None, Some (still_deleting atespace actorName))
  | S n =>
      let! done := ctx_wait retry_wait in
      match done with
      | Some e => ret (None, Some e)
      | None =>
          let! (actor, err) := CreateActor req in
          match err with
          | None => ret (actor, None)
          | Some e =>
              if status_is CodeAlreadyExists e then recreate n req atespace actorName
              else ret (None, Some (still_deleting atespace actorName))
          end
      end
  end.

Definition EnsureActor (atespace actorName templateAtespace templateName : string) : M W (reply Actor) :=
  let ref := mkObjectRef atespace actorName in
  let req := mkActor (Some (mkResourceMetadata atespace actorName "" 0))
               (Some (mkObjectRef templateAtespace templateName)) None in
  let! (actor, err) := CreateActor req in
  match err with
  | None => ret (actor, None)
  | Some e =>
      if status_is CodeAlreadyExists e then
        let! (existing, getErr) := GetActor ref in
        match existing, getErr with
        | Some a, None =>
            let state := from_option as_state (ActorStateOther 0) (ac_status a) in
            let! state :=
              if decide (state = ACTOR_STATE_CRASHED) then
                let! _ := ctl_DeleteActor ref true in ret ACTOR_STATE_DELETING
              else ret state in
            if decide (state = ACTOR_STATE_DELETING) then recreate 20 req atespace actorName
            else ret (existing, getErr)
        | _, _ => ret (existing, getErr)
        end
      else ret (None, Some (Errorf "creating actor %s/%s: %w" [AStr atespace; AStr actorName; AWrap e]))
  end.

(** The resumed actor and the address of its worker. *)
Definition ResumeActor (atespace actorName : string) : M W (res (Actor * string)) :=
  let! r := ctl_ResumeActor (mkObjectRef atespace actorName) in
  match r with
  | Err e => ret (Err (Errorf "resuming actor %s/%s: %w" [AStr atespace; AStr actorName; AWrap e]))
  | Ok None => ret (Err (Errorf "nil actor returned when resuming %s/%s" [AStr atespace; AStr actorName]))
  | Ok (Some actor) =>
      ret (Ok (actor, match ac_status actor with Some st => default "" (as_worker_pod_ip st) | None => "" end))
  end.

Definition SuspendActor (atespace actorName : string) : M W (option error) :=
  let! err := ctl_SuspendActor (mkObjectRef atespace actorName) in
  match err with
  | Some e => ret (Some (Errorf "suspending actor %s/%s: %w" [AStr atespace; AStr actorName; AWrap e]))
  | None => ret None
  end.

Definition DeleteActor (atespace actorName : string) : M W (option error) :=
  let! err := ctl_DeleteActor (mkObjectRef atespace actorName) true in
  match err with
  | Some e =>
      if status_is CodeNotFound e then ret None
      else ret (Some (Errorf "deleting actor %s/%s: %w" [AStr atespace; AStr actorName; AWrap e]))
  | None => ret None
  end.

(** ** Egress *)

Definition allows_all (h : HostRule) : bool :=
  bool_decide (hr_host h = "*") || bool_decide (hr_host h = "0.0.0.0/0").

(** The loop over the hosts: whether everything is allowed, the patterns and the
    CIDR blocks found so far. *)
Fixpoint sort_hosts (hosts : list HostRule) (patterns cidrs : list string)
    : bool * list string * list string :=
  match hosts with
  | [] => (false, patterns, cidrs)
  | h :: rest =>
      if allows_all h then (true, patterns, cidrs)
      else if Contains (hr_host h) "/" then sort_hosts rest patterns (cidrs ++ [hr_host h])
      else if decide (hr_host h ≠ "") then sort_hosts rest (patterns ++ [hr_host h]) cidrs
      else sort_hosts rest patterns cidrs
  end.

(** The rules ApplyEgressPolicy builds from an allowlist. *)
Definition egress_rules (hosts : list HostRule) : list EgressRule :=
  let '(allowAll, patterns, cidrs) := sort_hosts hosts [] [] in
  if allowAll then [EgressAll]
  else match patterns with [] => [] | _ => [EgressHostnames patterns] end ++
       match cidrs with [] => [] | _ => [EgressCidrs cidrs] end.

Definition ApplyEgressPolicy (atespace actorName : string) (allowlist : option EgressAllowlist)
    : M W (option error) :=
  match allowlist with
  | None | Some (mkEgressAllowlist []) => ret None
  | Some allowlist =>
      let policy := mkEgressPolicy (Some (mkResourceMetadata atespace "default" "" 0))
                      (egress_rules (ea_hosts allowlist)) in
      let actorRef := mkObjectRef atespace actorName in
      let! err := CreateActorEgressPolicy actorRef policy in
      match err with
      | None => ret None
      | Some e =>
          if status_is CodeAlreadyExists e then
            let! (existing, getErr) := GetActorEgressPolicy actorRef in
            let policy :=
              match existing, getErr with
              | Some existing, None =>
                  match ep_metadata existing with
                  | Some m => mkEgressPolicy
                      (Some (mkResourceMetadata atespace "default" (rm_uid m) (rm_version m)))
                      (ep_rules policy)
                  | None => policy
                  end
              | _, _ => policy
              end in
            let! updateErr := UpdateActorEgressPolicy actorRef policy in
            match updateErr with
            | Some e => ret (Some (Errorf "updating egress policy on %s/%s: %w"
                              [AStr atespace; AStr actorName; AWrap e]))
            | None => ret None
            end
          else ret (Some (Errorf "creating egress policy on %s/%s: %w"
                     [AStr atespace; AStr actorName; AWrap e]))
      end
  end.

End Client.

(** * Properties *)

Definition host_patterns (hosts : list HostRule) : list string :=
  filter (λ h, h ≠ "" ∧ Contains h "/" = false) (hr_host <$> hosts).
Definition host_cidrs (hosts : list HostRule) : list string :=
  filter (λ h, Contains h "/" = true) (hr_host <$> hosts).

Lemma sort_hosts_open hosts ps cs : existsb allows_all hosts = true →
  fst (fst (sort_hosts hosts ps cs)) = true.
Proof.
  revert ps cs. induction hosts as [|h hosts IH]; intros ps cs; cbn; [done|].
  destruct (allows_all h); cbn; [done|]. intros H.
  destruct (Contains (hr_host h) "/"); [by apply IH|]. case_decide; by apply IH.
Qed.

Lemma sort_hosts_closed hosts ps cs : existsb allows_all hosts = false →
  sort_hosts hosts ps cs = (false, ps ++ host_patterns hosts, cs ++ host_cidrs hosts).
Proof.
  unfold host_patterns, host_cidrs.
  revert ps cs. induction hosts as [|h hosts IH]; intros ps cs; [by rewrite !app_nil_r|].
  cbn [existsb sort_hosts fmap list_fmap]. intros [-> H]%orb_false_iff.
  destruct (Contains (hr_host h) "/") eqn:Hc.
  - rewrite IH by done. rewrite (filter_cons_False _ (hr_host h)) by (by rewrite Hc; intros [_ ?]).
    rewrite (filter_cons_True _ (hr_host h)) by done. by rewrite <- app_assoc.
  - rewrite (filter_cons_False (λ h, Contains h "/" = true)) by (by rewrite Hc).
    case_decide as Hn; rewrite IH by done.
    + rewrite (filter_cons_True _ (hr_host h)) by done. by rewrite <- app_assoc.
    + rewrite (filter_cons_False _ (hr_host h)) by (by intros [? _]). done.
Qed.

(** The egress rules of an allowlist: one rule that allows everything when some
    host is a star or 0.0.0.0/0, wherever it stands in the list; otherwise one
    rule with exactly the listed host names and one with exactly the listed CIDR
    blocks, in order, each left out when it would be empty. The ports of the
    host rules play no part. *)
Theorem egress_rules_spec hosts :
  egress_rules hosts =
    if existsb allows_all hosts then [EgressAll]
    else (if decide (host_patterns hosts = []) then [] else [EgressHostnames (host_patterns hosts)]) ++
         (if decide (host_cidrs hosts = []) then [] else [EgressCidrs (host_cidrs hosts)]).
Proof.
  unfold egress_rules. destruct (existsb allows_all hosts) eqn:E.
  - pose proof (sort_hosts_open hosts [] [] E) as H.
    destruct (sort_hosts hosts [] []) as [[b ps] cs]. cbn in H. by subst.
  - rewrite sort_hosts_closed by done. cbn.
    by destruct (host_patterns hosts), (host_cidrs hosts).
Qed.
