(* ===== verification/ModelConfig.v ===== *)
(** Model configuration (internal/model/client.go and provider.go): how a Model
    resource becomes a client configuration, which wire protocol and endpoint it
    selects, and how a client is put together from its options. *)

From S2P Require Import Prelude GoStrings Types StoreApi.

(** ** Constants *)

Definition ProviderGoogle : string := "google".
Definition ProviderAnthropic : string := "anthropic".
Definition ProviderOpenAI : string := "openai".
Definition ProtocolOpenAI : string := "openai".
Definition ProtocolAnthropic : string := "anthropic".
Definition ProtocolGoogle : string := "google".
Definition DefaultModel : string := "gemini-3.8-flash".
Definition DefaultModelResourceName : string := "default-model".
Definition DefaultAtespace : string := "default".
Definition DefaultSecretName : string := "gemini-api-secret".
Definition DefaultSecretKey : string := "GEMINI_API_KEY".

Record Config := mkConfig {
  cfg_name : string;
  cfg_atespace : string;
  cfg_provider : string;
  cfg_protocol : string;
  cfg_model : string;
  cfg_parameters : gmap string any;
  cfg_secret_key : option SecretKeyRef;
  cfg_api_key : string;
  cfg_base_url : string;
  cfg_headers : gmap string string;
  cfg_api_key_header : string;
  cfg_api_key_prefix : string;
  cfg_disable_remote : bool;
}.

Definition cfg_set_name (n : string) (c : Config) : Config :=
  mkConfig n (cfg_atespace c) (cfg_provider c) (cfg_protocol c) (cfg_model c) (cfg_parameters c)
    (cfg_secret_key c) (cfg_api_key c) (cfg_base_url c) (cfg_headers c) (cfg_api_key_header c)
    (cfg_api_key_prefix c) (cfg_disable_remote c).
Definition cfg_set_atespace (a : string) (c : Config) : Config :=
  mkConfig (cfg_name c) a (cfg_provider c) (cfg_protocol c) (cfg_model c) (cfg_parameters c)
    (cfg_secret_key c) (cfg_api_key c) (cfg_base_url c) (cfg_headers c) (cfg_api_key_header c)
    (cfg_api_key_prefix c) (cfg_disable_remote c).
Definition cfg_set_provider (p : string) (c : Config) : Config :=
  mkConfig (cfg_name c) (cfg_atespace c) p (cfg_protocol c) (cfg_model c) (cfg_parameters c)
    (cfg_secret_key c) (cfg_api_key c) (cfg_base_url c) (cfg_headers c) (cfg_api_key_header c)
    (cfg_api_key_prefix c) (cfg_disable_remote c).
Definition cfg_set_model (m : string) (c : Config) : Config :=
  mkConfig (cfg_name c) (cfg_atespace c) (cfg_provider c) (cfg_protocol c) m (cfg_parameters c)
    (cfg_secret_key c) (cfg_api_key c) (cfg_base_url c) (cfg_headers c) (cfg_api_key_header c)
    (cfg_api_key_prefix c) (cfg_disable_remote c).
Definition cfg_set_secret_key (k : option SecretKeyRef) (c : Config) : Config :=
  mkConfig (cfg_name c) (cfg_atespace c) (cfg_provider c) (cfg_protocol c) (cfg_model c)
    (cfg_parameters c) k (cfg_api_key c) (cfg_base_url c) (cfg_headers c) (cfg_api_key_header c)
    (cfg_api_key_prefix c) (cfg_disable_remote c).
Definition cfg_set_api_key (k : string) (c : Config) : Config :=
  mkConfig (cfg_name c) (cfg_atespace c) (cfg_provider c) (cfg_protocol c) (cfg_model c)
    (cfg_parameters c) (cfg_secret_key c) k (cfg_base_url c) (cfg_headers c) (cfg_api_key_header c)
    (cfg_api_key_prefix c) (cfg_disable_remote c).
Definition cfg_set_base_url (u : string) (c : Config) : Config :=
  mkConfig (cfg_name c) (cfg_atespace c) (cfg_provider c) (cfg_protocol c) (cfg_model c)
    (cfg_parameters c) (cfg_secret_key c) (cfg_api_key c) u (cfg_headers c) (cfg_api_key_header c)
    (cfg_api_key_prefix c) (cfg_disable_remote c).
Definition cfg_set_disable_remote (b : bool) (c : Config) : Config :=
  mkConfig (cfg_name c) (cfg_atespace c) (cfg_provider c) (cfg_protocol c) (cfg_model c)
    (cfg_parameters c) (cfg_secret_key c) (cfg_api_key c) (cfg_base_url c) (cfg_headers c)
    (cfg_api_key_header c) (cfg_api_key_prefix c) b.

(** net/url: the parts of a parsed URL the code looks at, and its rendering. *)
Record URL := mkURL {
  url_scheme : string;
  url_has_user : bool;
  url_host : string;
  url_path : string;
  url_raw_path : string;
  url_opaque : string;
  url_raw_query : string;
  url_fragment : string;
}.
Definition url_set_query (q : string) (u : URL) : URL :=
  mkURL (url_scheme u) (url_has_user u) (url_host u) (url_path u) (url_raw_path u) (url_opaque u) q
    (url_fragment u).
Class URLs := {
  url_Parse : string → res URL;
  url_String : URL → string;
  url_Redacted : URL → string;                    (* with the password replaced *)
  query_Set : string → string → string → string;  (* a raw query, with a key set, encoded *)
}.

(** structpb.NewStruct, with the AsMap of the struct it makes. *)
Class StructValues := structpb_NewStruct : gmap string any → res (gmap string any).

Section Config.
Context `{!UnicodeTables}.

Definition protocolFor (provider protocol : string) : string :=
  let protocol := ToLower (TrimSpace protocol) in
  if decide (protocol ≠ "") then protocol
  else
    let p := ToLower (TrimSpace provider) in
    if bool_decide (p = "") || bool_decide (p = ProviderGoogle) then ProtocolGoogle
    else if bool_decide (p = ProtocolAnthropic) then ProtocolAnthropic
    else ProtocolOpenAI.

(** A copy; nil and empty maps are not told apart here. *)
Definition cloneHeaders (headers : gmap string string) : gmap string string := headers.

Definition default_secret : SecretKeyRef := mkSecretKeyRef DefaultSecretName DefaultSecretKey.

Definition DefaultConfig : Config :=
  mkConfig DefaultModelResourceName DefaultAtespace ProviderGoogle "" DefaultModel ∅
    (Some default_secret) "" "" ∅ "" "" false.

Definition ConfigFromSpec (spec : option ModelSpec) : Config :=
  match spec with
  | None => DefaultConfig
  | Some spec =>
      let secKey := ms_secret_key spec in
      let secKey :=
        match secKey with
        | None => if decide (protocolFor (ms_provider spec) (ms_protocol spec) = ProtocolGoogle)
                  then Some default_secret else None
        | Some _ => secKey
        end in
      mkConfig DefaultModelResourceName DefaultAtespace (ms_provider spec) (ms_protocol spec)
        (ms_model spec) (default ∅ (ms_parameters spec)) secKey "" (ms_base_url spec)
        (cloneHeaders (ms_headers spec)) (ms_api_key_header spec) (ms_api_key_prefix spec) false
  end.

Definition ConfigFromCRD (m : option Model) : Config :=
  match m with
  | None => DefaultConfig
  | Some m =>
      let cfg := ConfigFromSpec (model_spec m) in
      match model_metadata m with
      | None => cfg
      | Some md =>
          let cfg := if decide (om_name md ≠ "") then cfg_set_name (om_name md) cfg else cfg in
          if decide (om_atespace md ≠ "") then cfg_set_atespace (om_atespace md) cfg else cfg
      end
  end.

Definition EffectiveProtocol (cfg : Config) : string :=
  protocolFor (cfg_provider cfg) (cfg_protocol cfg).

(** ** Endpoints *)

Section Endpoints.
Context `{!URLs}.

Definition baseURLFor (cfg : Config) (protocol : string) : res string :=
  let baseURL := TrimRightByte "/" (cfg_base_url cfg) in
  let baseURL : res string :=
    if decide (baseURL = "") then
      if decide (protocol = ProtocolGoogle) then Ok "https://generativelanguage.googleapis.com"
      else if decide (protocol = ProtocolAnthropic) then Ok "https://api.anthropic.com"
      else if decide (protocol = ProtocolOpenAI) then
        let p := ToLower (TrimSpace (cfg_provider cfg)) in
        if bool_decide (p = "") || bool_decide (p = "openai") then Ok "https://api.openai.com/v1"
        else if bool_decide (p = "openrouter") then Ok "https://openrouter.ai/api/v1"
        else Err (Errorf "baseURL is required for OpenAI-compatible provider %q" [AStr (cfg_provider cfg)])
      else Err (Errorf "unsupported protocol %q" [AStr protocol])
    else Ok baseURL in
  match baseURL with
  | Err e => Err e
  | Ok baseURL =>
      let invalid := Err (Errorf "invalid baseURL: expected an absolute HTTP(S) URL" []) in
      match url_Parse baseURL with
      | Err _ => invalid
      | Ok parsed =>
          if bool_decide (url_scheme parsed = "") || bool_decide (url_host parsed = "") ||
             (negb (bool_decide (url_scheme parsed = "http")) &&
              negb (bool_decide (url_scheme parsed = "https"))) then invalid
          else if url_has_user parsed then
            Err (Errorf "baseURL must not contain embedded credentials; use secretKey" [])
          else Ok (TrimRightByte "/" (url_String parsed))
      end
  end.

Definition EffectiveBaseURL (cfg : Config) : res string := baseURLFor cfg (EffectiveProtocol cfg).

Definition endpointFor (cfg : Config) (protocol path : string) : res string :=
  match baseURLFor cfg protocol with
  | Err e => Err e
  | Ok baseURL =>
      match url_Parse baseURL with
      | Err _ => Err (Errorf "invalid baseURL: expected an absolute HTTP(S) URL" [])
      | Ok parsed =>
          let trimmed := TrimRightByte "/" (url_path parsed) in
          if HasSuffix trimmed path then Ok (url_String parsed)
          else Ok (url_String (mkURL (url_scheme parsed) (url_has_user parsed) (url_host parsed)
                 (trimmed +:+ path) "" (url_opaque parsed) (url_raw_query parsed) (url_fragment parsed)))
      end
  end.

End Endpoints.

(** ** Clients *)

Section Clients.
Context {W : Type} `{!Store W}.

(** GetKubernetesSecret is an argument here; [Secrets] has the function itself. *)
Context (GetKubernetesSecret : string → string → string → M W (res string)).

Record Client := mkClient {
  cl_cfg : Config;
  cl_secretResolver : option (string → string → M W (res string));
}.

Definition with_cfg (f : Config → Config) (c : Client) : Client :=
  mkClient (f (cl_cfg c)) (cl_secretResolver c).

(** The value of a lookup that succeeded with something. *)
Definition found_key (r : res string) : option string :=
  match r with Ok v => if decide (v ≠ "") then Some v else None | Err _ => None end.

Definition resolveAPIKey (c : Client) : M W string :=
  let cfg := cl_cfg c in
  if decide (cfg_api_key cfg ≠ "") then ret (cfg_api_key cfg)
  else
    match cfg_secret_key cfg with
    | None => ret ""
    | Some k =>
        let! custom :=
          match cl_secretResolver c with
          | Some f => let! r := f (sk_name k) (sk_key k) in ret (found_key r)
          | None => ret None
          end in
        match custom with
        | Some val => ret val
        | None =>
            let namespace := if decide (cfg_atespace cfg = "") then DefaultAtespace else cfg_atespace cfg in
            let! r := GetKubernetesSecret namespace (sk_name k) (sk_key k) in
            ret (default "" (found_key r))
        end
    end.

Definition Option : Type := Client → M W Client.

Definition WithAPIKey (key : string) : Option := λ c, ret (with_cfg (cfg_set_api_key key) c).

Definition WithSecretKey (name key : string) : Option := λ c,
  let c := with_cfg (cfg_set_secret_key (Some (mkSecretKeyRef name key))) c in
  let! resolved := resolveAPIKey c in
  ret (if decide (resolved ≠ "") then with_cfg (cfg_set_api_key resolved) c else c).

Definition WithSecretResolver (fn : option (string → string → M W (res string))) : Option :=
  λ c, ret (mkClient (cl_cfg c) fn).

(** [has_store] tells whether the store argument is non-nil. *)
Definition WithStore (has_store : bool) (atespace modelName : string) : Option := λ c,
  let modelName := if decide (modelName = "") then DefaultModelResourceName else modelName in
  let atespace := if decide (atespace = "") then DefaultAtespace else atespace in
  if has_store then
    let! r := GetModel atespace modelName in
    ret (match r with
         | Ok m => mkClient (ConfigFromCRD (Some m)) (cl_secretResolver c)
         | Err _ => c
         end)
  else ret c.

Definition WithBaseURL (url : string) : Option := λ c,
  ret (with_cfg (cfg_set_base_url (TrimRightByte "/" url)) c).

Definition WithDisableRemote (disable : bool) : Option := λ c,
  ret (with_cfg (cfg_set_disable_remote disable) c).

Fixpoint apply_options (opts : list Option) (c : Client) : M W Client :=
  match opts with
  | [] => ret c
  | opt :: rest => let! c := opt c in apply_options rest c
  end.

(** The defaults [NewClient] fills into the configuration it is given. *)
Definition config_defaults (cfg : Config) : Config :=
  let cfg := if decide (cfg_name cfg = "") then cfg_set_name DefaultModelResourceName cfg else cfg in
  let cfg := if decide (cfg_atespace cfg = "") then cfg_set_atespace DefaultAtespace cfg else cfg in
  let cfg :=
    if decide (cfg_provider cfg = "") then
      let p := protocolFor (cfg_provider cfg) (cfg_protocol cfg) in
      cfg_set_provider
        (if decide (p = ProtocolGoogle) then ProviderGoogle
         else if decide (p = ProtocolAnthropic) then ProviderAnthropic
         else if decide (p = ProtocolOpenAI) then ProviderOpenAI
         else cfg_protocol cfg) cfg
    else cfg in
  let google := bool_decide (protocolFor (cfg_provider cfg) (cfg_protocol cfg) = ProtocolGoogle) in
  let cfg := if bool_decide (cfg_model cfg = "") && google then cfg_set_model DefaultModel cfg else cfg in
  match cfg_secret_key cfg with
  | None => if google then cfg_set_secret_key (Some default_secret) cfg else cfg
  | Some _ => cfg
  end.

Definition NewClient (cfg : Config) (opts : list Option) : M W Client :=
  let! c := apply_options opts (mkClient (config_defaults cfg) None) in
  if decide (cfg_api_key (cl_cfg c) = "") then
    let! key := resolveAPIKey c in ret (with_cfg (cfg_set_api_key key) c)
  else ret c.

Definition NewClientFromSpec (spec : option ModelSpec) (opts : list Option) : M W Client :=
  NewClient (ConfigFromSpec spec) opts.

Definition NewDefaultClient (opts : list Option) : M W Client := NewClient DefaultConfig opts.

Definition NewClientFromCRD (m : option Model) (opts : list Option) : M W Client :=
  match m with
  | None => NewDefaultClient opts
  | Some _ => NewClient (ConfigFromCRD m) opts
  end.

Definition NewClientFromStore (has_store : bool) (atespace name : string) (opts : list Option)
    : M W (res Client) :=
  if negb has_store then ret (Err (Errorf "store cannot be nil" []))
  else
    let atespace := if decide (atespace = "") then DefaultAtespace else atespace in
    let name := if decide (name = "") then DefaultModelResourceName else name in
    let! r := GetModel atespace name in
    match r with
    | Err e => ret (Err (Errorf "reading model %s/%s from store: %w" [AStr atespace; AStr name; AWrap e]))
    | Ok m => let! c := NewClientFromCRD (Some m) opts in ret (Ok c)
    end.

Definition NewDefaultClientFromStore (has_store : bool) (atespace : string) (opts : list Option)
    : M W (res Client) :=
  let! r := NewClientFromStore has_store atespace DefaultModelResourceName opts in
  match r with
  | Err e =>
      if errors_Is_NotFound e then let! c := NewDefaultClient opts in ret (Ok c)
      else ret (Err e)
  | Ok c => ret (Ok c)
  end.

(** The configuration as a ModelSpec; parameters NewStruct refuses are left out, all
    of them. *)
Definition Spec `{!StructValues} (c : Client) : ModelSpec :=
  let cfg := cl_cfg c in
  mkModelSpec (cfg_provider cfg) (cfg_model cfg) (cfg_secret_key cfg)
    (if decide (cfg_parameters cfg = ∅) then None
     else match structpb_NewStruct (cfg_parameters cfg) with Ok m => Some m | Err _ => None end)
    (cfg_protocol cfg) (cfg_base_url cfg) (cloneHeaders (cfg_headers cfg))
    (cfg_api_key_header cfg) (cfg_api_key_prefix cfg).

End Clients.
End Config.
