(* ===== verification/ModelClient.v ===== *)
(** Generation requests (internal/model/client.go and provider.go): how a request
    is completed, translated to the protocol of a provider, sent with retries,
    and how the answer is read. Encoding and decoding of JSON and the HTTP
    transport are interfaces. *)

From Stdlib Require Import Floats.SpecFloat.
From S2P Require Import Prelude GoStrings Types StoreApi Substrate ModelConfig.

(** ** Requests and responses *)

Record ToolCall := mkToolCall { tc_id : string; tc_name : string; tc_arguments : string }.
Record Message := mkMessage {
  msg_role : string;
  msg_content : string;
  msg_tool_call_id : string;
  msg_tool_name : string;
  msg_tool_calls : list ToolCall;
}.
Record ToolDefinition := mkToolDefinition {
  td_name : string;
  td_description : string;
  td_parameters : string;
}.
Record GenerateRequest := mkGenerateRequest {
  req_model : string;
  req_prompt : string;
  req_system : string;
  req_temperature : spec_float;       (* an IEEE 754 double *)
  req_max_tokens : Z;
  req_messages : list Message;
  req_tools : list ToolDefinition;
}.
Record UsageStats := mkUsageStats {
  us_prompt_tokens : Z;
  us_completion_tokens : Z;
  us_total_tokens : Z;
}.
Record GenerateResponse := mkGenerateResponse {
  resp_model : string;
  resp_content : string;
  resp_tool_calls : list ToolCall;
  resp_usage : UsageStats;
}.

Definition message_set_content (c : string) (m : Message) : Message :=
  mkMessage (msg_role m) c (msg_tool_call_id m) (msg_tool_name m) (msg_tool_calls m).

(** The values of a request body: generic ones, floats and raw JSON. *)
Inductive Body :=
| BAny (v : any)
| BFloat (f : spec_float)
| BRaw (json : string)
| BList (l : list Body)
| BMap (m : gmap string Body).
Definition BString (s : string) : Body := BAny (AString s).

(** ** The interfaces *)

(** What is decoded of the answers of the providers. *)
Record OpenAICompletion := mkOpenAICompletion {
  oc_model : string;
  oc_choices : list (string * string * list ToolCall);  (* finish reason, raw content, calls *)
  oc_usage : UsageStats;
}.
Record AnthropicBlock := mkAnthropicBlock {
  ab_type : string; ab_text : string; ab_id : string; ab_name : string; ab_input : string;
}.
Record AnthropicAnswer := mkAnthropicAnswer {
  aa_model : string; aa_stop_reason : string; aa_content : list AnthropicBlock;
  aa_input_tokens : Z; aa_output_tokens : Z;
}.
Record GeminiAnswer := mkGeminiAnswer {
  ga_candidates : list (list string);                   (* the texts of the parts *)
  ga_usage : UsageStats;
}.

(** encoding/json *)
Class Json := {
  json_Marshal : Body → res string;
  json_Valid : string → bool;
  json_string : string → option string;                 (* a string *)
  json_parts : string → option (list (string * string)); (* parts, as type and text *)
  decode_openai : string → res OpenAICompletion;
  decode_anthropic : string → res AnthropicAnswer;
  decode_gemini : string → res GeminiAnswer;
}.

Record HttpRequest := mkHttpRequest {
  hq_url : string; hq_headers : gmap string string; hq_body : string;
}.
Record HttpResponse := mkHttpResponse {
  hp_status : Z; hp_headers : gmap string string; hp_body : string;
}.
(** A POST request; headers are filed under their canonical names. *)
Class HttpClient (W : Type) := http_Do : HttpRequest → M W (res HttpResponse).
(** http.ParseTime, in nanoseconds of the clock. *)
Class HttpTimes := http_ParseTime : string → option Z.

Definition maxProviderRetries : nat := 2.
Definition maxRetryDelay : Z := 5000000000.
Definition systemInstructionParam : string := "systemInstruction".

(** ** Messages *)

(** Two line breaks. *)
Definition blank_line : string := bytes [10; 10]%nat.

(** The messages with the instruction in front of the first system message. *)
Fixpoint join_system (sys : string) (messages : list Message) : option (list Message) :=
  match messages with
  | [] => None
  | m :: rest =>
      if decide (msg_role m = "system") then
        Some (message_set_content
                (if decide (msg_content m = "") then sys else sys +:+ blank_line +:+ msg_content m) m :: rest)
      else cons m <$> join_system sys rest
  end.

Definition system_message (sys : string) : Message := mkMessage "system" sys "" "" [].

Definition requestMessages (req : GenerateRequest) : list Message :=
  match req_messages req with
  | [] =>
      (if decide (req_system req ≠ "") then [system_message (req_system req)] else []) ++
      (if decide (req_prompt req ≠ "") then [mkMessage "user" (req_prompt req) "" "" []] else [])
  | messages =>
      if decide (req_system req ≠ "") then
        match join_system (req_system req) messages with
        | Some messages => messages
        | None => system_message (req_system req) :: messages
        end
      else messages
  end.

Definition arguments_or_empty (arguments : string) : string :=
  if decide (arguments = "") then "{}" else arguments.

Definition openai_call (call : ToolCall) : Body :=
  BMap {["id" := BString (tc_id call); "type" := BString "function";
    "function" := BMap {["name" := BString (tc_name call);
                         "arguments" := BString (arguments_or_empty (tc_arguments call))]}]}.

Definition openai_message (message : Message) : gmap string Body :=
  let item := {["role" := BString (msg_role message)]} : gmap string Body in
  let item := if negb (bool_decide (msg_content message = "")) || bool_decide (msg_tool_calls message = [])
              then <["content" := BString (msg_content message)]> item else item in
  let item := if decide (msg_role message = "tool")
              then <["tool_call_id" := BString (msg_tool_call_id message)]> item else item in
  match msg_tool_calls message with
  | [] => item
  | calls => <["tool_calls" := BList (openai_call <$> calls)]> item
  end.

Definition openAIMessages (req : GenerateRequest) : list (gmap string Body) :=
  openai_message <$> requestMessages req.

Definition quoted (s : string) : string := bytes [34]%nat +:+ s +:+ bytes [34]%nat.
(** The schema of a function without parameters. *)
Definition empty_schema : string :=
  "{" +:+ quoted "type" +:+ ":" +:+ quoted "object" +:+ "," +:+ quoted "properties" +:+ ":{}}".
Definition parameters_or_empty (parameters : string) : string :=
  if decide (parameters = "") then empty_schema else parameters.

Definition openAITools (tools : list ToolDefinition) : list (gmap string Body) :=
  (λ tool, {["type" := BString "function";
     "function" := BMap {["name" := BString (td_name tool);
                          "description" := BString (td_description tool);
                          "parameters" := BRaw (parameters_or_empty (td_parameters tool))]}]}) <$> tools.

Definition anthropicTools (tools : list ToolDefinition) : list (gmap string Body) :=
  (λ tool, {["name" := BString (td_name tool); "description" := BString (td_description tool);
             "input_schema" := BRaw (parameters_or_empty (td_parameters tool))]}) <$> tools.

(** The inner loop over tool messages: their blocks and the messages after them. *)
Definition tool_result (message : Message) : gmap string Body :=
  {["type" := BString "tool_result"; "tool_use_id" := BString (msg_tool_call_id message);
    "content" := BString (msg_content message)]}.
Fixpoint tool_blocks (messages : list Message) (blocks : list (gmap string Body))
    : list (gmap string Body) * list Message :=
  match messages with
  | m :: rest =>
      if decide (msg_role m = "tool") then tool_blocks rest (blocks ++ [tool_result m])
      else (blocks, messages)
  | [] => (blocks, [])
  end.

Definition text_block (text : string) : gmap string Body :=
  {["type" := BString "text"; "text" := BString text]}.
Definition tool_use (call : ToolCall) : gmap string Body :=
  {["type" := BString "tool_use"; "id" := BString (tc_id call); "name" := BString (tc_name call);
    "input" := BRaw (arguments_or_empty (tc_arguments call))]}.
Definition message_blocks (m : Message) : list (gmap string Body) :=
  let blocks := (if decide (msg_content m ≠ "") then [text_block (msg_content m)] else []) ++
                (tool_use <$> msg_tool_calls m) in
  match blocks with [] => [text_block ""] | _ => blocks end.

(** An encoded message: its role and its blocks. *)
Definition anthropic_message (role : string) (blocks : list (gmap string Body)) : gmap string Body :=
  {["role" := BString role; "content" := BList (BMap <$> blocks)]}.

(** The loop over the messages. Every turn takes at least one of them, so their
    number bounds the turns. *)
Fixpoint anthropic_loop (turns : nat) (messages : list Message) (system : string)
    (encoded : list (string * list (gmap string Body))) : string * list (string * list (gmap string Body)) :=
  match turns, messages with
  | S turns, m :: rest =>
      if decide (msg_role m = "system") then
        let system := if decide (system ≠ "") then system +:+ blank_line else system in
        anthropic_loop turns rest (system +:+ msg_content m) encoded
      else if decide (msg_role m = "tool") then
        let '(blocks, rest) := tool_blocks messages [] in
        anthropic_loop turns rest system (encoded ++ [("user", blocks)])
      else anthropic_loop turns rest system (encoded ++ [(msg_role m, message_blocks m)])
  | _, _ => (system, encoded)
  end.

Definition anthropicMessages (req : GenerateRequest) : string * list (string * list (gmap string Body)) :=
  let messages := requestMessages req in
  let '(system, encoded) := anthropic_loop (length messages) messages "" [] in
  (if decide (system = "") then req_system req else system, encoded).

(** ** Parameters *)

Definition requestParameters (cfg : Config) : gmap string Body :=
  BAny <$> delete systemInstructionParam (cfg_parameters cfg).

Definition moveParameter (from to : string) (parameters : gmap string Body) : gmap string Body :=
  match parameters !! to with
  | Some _ => delete from parameters
  | None =>
      match parameters !! from with
      | Some value => delete from (<[to := value]> parameters)
      | None => parameters
      end
  end.

Definition rejectStreaming (parameters : gmap string Body) : option error :=
  match parameters !! "stream" with
  | Some (BAny (ABool true)) => Some (Errorf "streaming is not supported by AX Generate" [])
  | _ => None
  end.

Definition positive (f : spec_float) : bool := SFltb (S754_zero false) f.

(** The overrides every protocol applies last. *)
Definition override_parameters (req : GenerateRequest) (max_name : string) (parameters : gmap string Body)
    : gmap string Body :=
  let parameters := if positive (req_temperature req)
                    then <["temperature" := BFloat (req_temperature req)]> parameters else parameters in
  if decide (0 < req_max_tokens req)%Z
  then <[max_name := BAny (AInteger (req_max_tokens req))]> parameters else parameters.

Definition rename_max_tokens (parameters : gmap string Body) : gmap string Body :=
  moveParameter "maxOutputTokens" "max_tokens" (moveParameter "maxTokens" "max_tokens" parameters).

Definition openai_parameters (cfg : Config) (req : GenerateRequest) : gmap string Body :=
  let parameters := rename_max_tokens (requestParameters cfg) in
  let parameters := <["model" := BString (req_model req)]> parameters in
  let parameters := <["messages" := BList (BMap <$> openAIMessages req)]> parameters in
  let parameters := match req_tools req with
                    | [] => parameters
                    | tools => <["tools" := BList (BMap <$> openAITools tools)]> parameters
                    end in
  override_parameters req "max_tokens" parameters.

Definition anthropic_parameters (cfg : Config) (req : GenerateRequest) : gmap string Body :=
  let parameters := rename_max_tokens (requestParameters cfg) in
  let parameters := <["model" := BString (req_model req)]> parameters in
  let '(system, messages) := anthropicMessages req in
  let parameters := <["messages" := BList ((λ m, BMap (anthropic_message (fst m) (snd m))) <$> messages)]>
                      parameters in
  let parameters := if decide (system ≠ "") then <["system" := BString system]> parameters else parameters in
  let parameters := match req_tools req with
                    | [] => parameters
                    | tools => <["tools" := BList (BMap <$> anthropicTools tools)]> parameters
                    end in
  let parameters := match parameters !! "max_tokens" with
                    | Some _ => parameters
                    | None => <["max_tokens" := BAny (AInteger 1024)]> parameters
                    end in
  override_parameters req "max_tokens" parameters.

Definition text_parts (text : string) : Body := BMap {["parts" := BList [BMap {["text" := BString text]}]]}.

Definition google_payload (cfg : Config) (req : GenerateRequest) : gmap string Body :=
  let payload := {["contents" := BList [text_parts (req_prompt req)]]} : gmap string Body in
  let payload := if decide (req_system req ≠ "")
                 then <["systemInstruction" := text_parts (req_system req)]> payload else payload in
  let genConfig := override_parameters req "maxOutputTokens" (requestParameters cfg) in
  if decide (genConfig ≠ ∅) then <["generationConfig" := BMap genConfig]> payload else payload.

(** ** Sending *)

Definition retryableStatus (status : Z) : bool :=
  existsb (Z.eqb status) [429; 502; 503; 504]%Z.

Definition defaultAPIKeyAuth (protocol : string) : string * string :=
  if decide (protocol = ProtocolAnthropic) then ("x-api-key", "") else ("Authorization", "Bearer ").

Definition set_header (name value : string) (h : gmap string string) : gmap string string :=
  <[CanonicalHeaderKey name := value]> h.

(** The first 4096 bytes of a body. *)
Definition limited (body : string) : string := String.substring 0 4096 body.

Definition clamp_delay (delay : Z) : Z :=
  let delay := if decide (delay < 0)%Z then 0%Z else delay in
  if decide (maxRetryDelay < delay)%Z then maxRetryDelay else delay.

(** Time.Sub saturates. *)
Definition time_sub (a b : Z) : Z := Z.max int64_min (Z.min int64_max (a - b)).

Section Send.
Context {W : Type} `{!HttpClient W, !Context W, !TimeNow W}.
Context `{!UnicodeTables, !URLs, !Json, !HttpTimes, !MapRange}.

Definition safeEndpoint (endpoint : string) : string :=
  match url_Parse endpoint with
  | Err _ => "configured endpoint"
  | Ok parsed =>
      url_Redacted (mkURL (url_scheme parsed) (url_has_user parsed) (url_host parsed) (url_path parsed)
        (url_raw_path parsed) (url_opaque parsed) "" "")
  end.

Definition retry_delay (retryAfter : string) (attempt : nat) : M W Z :=
  match Atoi (TrimSpace retryAfter) with
  | Some seconds =>
      if decide (0 ≤ seconds)%Z then ret (int64 (seconds * 1000000000))
      else match http_ParseTime retryAfter with
           | Some when => let! now := time_Now in ret (time_sub when now)
           | None => ret (int64 (250 * 2 ^ Z.of_nat attempt * 1000000))
           end
  | None =>
      match http_ParseTime retryAfter with
      | Some when => let! now := time_Now in ret (time_sub when now)
      | None => ret (int64 (250 * 2 ^ Z.of_nat attempt * 1000000))
      end
  end.

Definition waitForProviderRetry (retryAfter : string) (attempt : nat) : M W (option error) :=
  let! delay := retry_delay retryAfter attempt in
  ctx_wait (clamp_delay delay).

(** The headers of a request: the configured ones over the content type, in the
    order the map is ranged over, then the credentials. *)
Definition configured_headers (cfg : Config) : gmap string string :=
  fold_left (λ h kv, set_header (fst kv) (snd kv) h) (map_range (cfg_headers cfg))
    (set_header "Content-Type" "application/json" ∅).

Definition auth_headers (cfg : Config) (protocol : string) (h : gmap string string) : gmap string string :=
  let h := if bool_decide (protocol = ProtocolAnthropic) &&
              bool_decide (default "" (h !! CanonicalHeaderKey "anthropic-version") = "")
           then set_header "anthropic-version" "2023-06-01" h else h in
  if decide (cfg_api_key cfg ≠ "") then
    let '(header, prefix) := defaultAPIKeyAuth protocol in
    let '(header, prefix) := if decide (cfg_api_key_header cfg ≠ "") then (cfg_api_key_header cfg, "")
                             else (header, prefix) in
    let prefix := if decide (cfg_api_key_prefix cfg ≠ "") then cfg_api_key_prefix cfg else prefix in
    set_header header (prefix +:+ cfg_api_key cfg) h
  else h.

(** The loop of postJSON at attempt [attempt], with [retries] of the
    [maxProviderRetries] left. *)
Fixpoint post_attempts (retries : nat) (attempt : nat) (cfg : Config) (protocol endpoint body : string)
    : M W (res HttpResponse) :=
  match url_Parse endpoint with
  | Err e => ret (Err (Errorf "creating %s request for %s: %w"
               [AStr (cfg_provider cfg); AStr (safeEndpoint endpoint); AWrap e]))
  | Ok _ =>
      let request := mkHttpRequest endpoint (auth_headers cfg protocol (configured_headers cfg)) body in
      let! r := http_Do request in
      match r with
      | Err e => ret (Err (Errorf "calling %s at %s: %w"
                   [AStr (cfg_provider cfg); AStr (safeEndpoint endpoint); AWrap e]))
      | Ok resp =>
          let status := hp_status resp in
          if decide (200 ≤ status < 300)%Z then ret (Ok resp)
          else
            let failed := Err (Errorf "%s request failed with status %d: %s"
                            [AStr (cfg_provider cfg); AInt status; AStr (TrimSpace (limited (hp_body resp)))]) in
            match retries with
            | 0%nat => ret failed
            | S retries =>
                if negb (retryableStatus status) then ret failed
                else
                  let! err := waitForProviderRetry (default "" (hp_headers resp !! "Retry-After")) attempt in
                  match err with
                  | Some e => ret (Err (Errorf "waiting to retry %s request: %w"
                                [AStr (cfg_provider cfg); AWrap e]))
                  | None => post_attempts retries (S attempt) cfg protocol endpoint body
                  end
            end
      end
  end.

Definition postJSON (cfg : Config) (protocol endpoint : string) (payload : gmap string Body)
    : M W (res HttpResponse) :=
  match json_Marshal (BMap payload) with
  | Err e => ret (Err (Errorf "encoding %s request: %w" [AStr (cfg_provider cfg); AWrap e]))
  | Ok body => post_attempts maxProviderRetries 0 cfg protocol endpoint body
  end.

(** ** Answers *)

Definition hasJSONValue (raw : string) : bool :=
  negb (bool_decide (raw = "")) && negb (bool_decide (TrimSpace raw = "null")).

Definition responseText (raw : string) : res string :=
  if negb (hasJSONValue raw) then Ok ""
  else
    match json_string raw with
    | Some text => Ok text
    | None =>
        match json_parts raw with
        | Some parts =>
            Ok (String.concat "" (snd <$> filter (λ p, fst p = "" ∨ fst p = "text") parts))
        | None => Err (Errorf "content must be a string or text parts" [])
        end
    end.

(** The loop over the tool calls of a choice; the error names the tool. *)
Fixpoint read_tool_calls (calls : list ToolCall) : list ToolCall + string :=
  match calls with
  | [] => inl []
  | call :: rest =>
      let arguments := arguments_or_empty (tc_arguments call) in
      if negb (json_Valid arguments) then inr (tc_name call)
      else
        match read_tool_calls rest with
        | inl calls => inl (mkToolCall (tc_id call) (tc_name call) arguments :: calls)
        | inr name => inr name
        end
  end.

Definition openai_answer (cfg : Config) (req : GenerateRequest) (completion : OpenAICompletion)
    : res GenerateResponse :=
  match oc_choices completion with
  | [] => Err (Errorf "%s returned no completion choices" [AStr (cfg_provider cfg)])
  | (finish, raw, calls) :: _ =>
      match read_tool_calls calls with
      | inr name => Err (Errorf "%s returned invalid JSON arguments for tool %q"
                      [AStr (cfg_provider cfg); AStr name])
      | inl toolCalls =>
          match responseText raw with
          | Err e => Err (Errorf "reading %s response text: %w" [AStr (cfg_provider cfg); AWrap e])
          | Ok content =>
              if bool_decide (content = "") && bool_decide (toolCalls = []) then
                Err (Errorf "%s returned no text content (finish reason %q)"
                  [AStr (cfg_provider cfg); AStr finish])
              else
                let u := oc_usage completion in
                let total := if decide (us_total_tokens u = 0%Z)
                             then int64 (us_prompt_tokens u + us_completion_tokens u)
                             else us_total_tokens u in
                Ok (mkGenerateResponse
                      (if decide (oc_model completion = "") then req_model req else oc_model completion)
                      content toolCalls
                      (mkUsageStats (us_prompt_tokens u) (us_completion_tokens u) total))
          end
      end
  end.

Definition openai_Generate (cfg : Config) (req : GenerateRequest) : M W (res GenerateResponse) :=
  match endpointFor cfg ProtocolOpenAI "/chat/completions" with
  | Err e => ret (Err e)
  | Ok endpoint =>
      let parameters := openai_parameters cfg req in
      match rejectStreaming parameters with
      | Some e => ret (Err e)
      | None =>
          let! r := postJSON cfg ProtocolOpenAI endpoint parameters in
          match r with
          | Err e => ret (Err e)
          | Ok resp =>
              match decode_openai (hp_body resp) with
              | Err e => ret (Err (Errorf "decoding %s response: %w" [AStr (cfg_provider cfg); AWrap e]))
              | Ok completion => ret (openai_answer cfg req completion)
              end
          end
      end
  end.

(** The loop over the blocks of an answer: the text and the calls so far. *)
Fixpoint read_blocks (content : list AnthropicBlock) (text : string) (calls : list ToolCall)
    : (string * list ToolCall) + string :=
  match content with
  | [] => inl (text, calls)
  | b :: rest =>
      if decide (ab_type b = "text") then read_blocks rest (text +:+ ab_text b) calls
      else if decide (ab_type b = "tool_use") then
        let arguments := arguments_or_empty (ab_input b) in
        if negb (json_Valid arguments) then inr (ab_name b)
        else read_blocks rest text (calls ++ [mkToolCall (ab_id b) (ab_name b) arguments])
      else read_blocks rest text calls
  end.

Definition anthropic_answer (req : GenerateRequest) (message : AnthropicAnswer) : res GenerateResponse :=
  match read_blocks (aa_content message) "" [] with
  | inr name => Err (Errorf "Anthropic returned invalid JSON arguments for tool %q" [AStr name])
  | inl (content, toolCalls) =>
      if bool_decide (content = "") && bool_decide (toolCalls = []) then
        Err (Errorf "Anthropic returned no text content (stop reason %q)" [AStr (aa_stop_reason message)])
      else
        Ok (mkGenerateResponse
              (if decide (aa_model message = "") then req_model req else aa_model message)
              content toolCalls
              (mkUsageStats (aa_input_tokens message) (aa_output_tokens message)
                 (int64 (aa_input_tokens message + aa_output_tokens message))))
  end.

Definition anthropic_Generate (cfg : Config) (req : GenerateRequest) : M W (res GenerateResponse) :=
  if decide (cfg_api_key cfg = "") then
    ret (Err (Errorf "provider %q requires an API key" [AStr (cfg_provider cfg)]))
  else
    match endpointFor cfg ProtocolAnthropic "/v1/messages" with
    | Err e => ret (Err e)
    | Ok endpoint =>
        let parameters := anthropic_parameters cfg req in
        match rejectStreaming parameters with
        | Some e => ret (Err e)
        | None =>
            let! r := postJSON cfg ProtocolAnthropic endpoint parameters in
            match r with
            | Err e => ret (Err e)
            | Ok resp =>
                match decode_anthropic (hp_body resp) with
                | Err e => ret (Err (Errorf "decoding Anthropic response: %w" [AWrap e]))
                | Ok message => ret (anthropic_answer req message)
                end
            end
        end
    end.

Definition fallback_content (model : string) : string :=
  "Synthesized plan using " +:+ model +:+
  ": Workspace environment configured with development toolchain and dependencies matching declared goal.".

Definition fallbackResponse (req : GenerateRequest) : GenerateResponse :=
  let content := fallback_content (req_model req) in
  let p := Z.of_nat (String.length (req_prompt req)) in
  let c := Z.of_nat (String.length content) in
  mkGenerateResponse (req_model req) content [] (mkUsageStats (p / 4) (c / 4) ((p + c) / 4)).

Definition google_headers (cfg : Config) : gmap string string :=
  let h := configured_headers cfg in
  if decide (cfg_api_key_header cfg ≠ "")
  then set_header (cfg_api_key_header cfg) (cfg_api_key_prefix cfg +:+ cfg_api_key cfg) h else h.

Definition generateGoogle (cfg : Config) (req : GenerateRequest) : M W (res GenerateResponse) :=
  if cfg_disable_remote cfg || bool_decide (cfg_api_key cfg = "") then ret (Ok (fallbackResponse req))
  else if ContainsAny (req_model req) "/?#" then
    ret (Err (Errorf "Gemini model name must be a single path segment" []))
  else
    match endpointFor cfg ProtocolGoogle ("/v1beta/models/" +:+ req_model req +:+ ":generateContent") with
    | Err e => ret (Err e)
    | Ok endpoint =>
        match url_Parse endpoint with
        | Err e => ret (Err (Errorf "parsing Gemini endpoint: %w" [AWrap e]))
        | Ok endpointURL =>
            let endpointURL :=
              if decide (cfg_api_key_header cfg = "")
              then url_set_query (query_Set (url_raw_query endpointURL) "key" (cfg_api_key cfg)) endpointURL
              else endpointURL in
            let endpoint := url_String endpointURL in
            match json_Marshal (BMap (google_payload cfg req)) with
            | Err e => ret (Err (Errorf "marshaling request: %w" [AWrap e]))
            | Ok reqBody =>
                match url_Parse endpoint with
                | Err e => ret (Err (Errorf "creating http request: %w" [AWrap e]))
                | Ok _ =>
                    let! r := http_Do (mkHttpRequest endpoint (google_headers cfg) reqBody) in
                    match r with
                    | Err e => ret (Err (Errorf "calling Gemini at %s: %w"
                                 [AStr (url_Redacted (url_set_query "" endpointURL)); AWrap e]))
                    | Ok resp =>
                        if decide (hp_status resp ≠ 200%Z) then
                          ret (Err (Errorf "gemini api error %d: %s"
                            [AInt (hp_status resp); AStr (TrimSpace (limited (hp_body resp)))]))
                        else
                          match decode_gemini (hp_body resp) with
                          | Err e => ret (Err (Errorf "decoding gemini response: %w" [AWrap e]))
                          | Ok answer =>
                              let text := match ga_candidates answer with
                                          | parts :: _ => String.concat "" parts
                                          | [] => ""
                                          end in
                              ret (Ok (mkGenerateResponse (req_model req) text [] (ga_usage answer)))
                          end
                    end
                end
            end
        end
    end.

(** adapterFor and the Generate of the adapter. *)
Definition adapter_Generate (protocol : string) (cfg : Config) (req : GenerateRequest)
    : M W (res GenerateResponse) :=
  if decide (protocol = ProtocolOpenAI) then openai_Generate cfg req
  else if decide (protocol = ProtocolAnthropic) then anthropic_Generate cfg req
  else if decide (protocol = ProtocolGoogle) then generateGoogle cfg req
  else ret (Err (Errorf "provider %q: %w"
         [AStr (cfg_provider cfg); AWrap (Errorf "unsupported protocol %q" [AStr protocol])])).

(** The request with the model and the instruction the configuration fills in. *)
Definition system_instruction (cfg : Config) (req : GenerateRequest) : string :=
  if decide (req_system req = "") then
    match cfg_parameters cfg !! systemInstructionParam with Some (AString s) => s | _ => "" end
  else req_system req.
Definition effective_request (cfg : Config) (model : string) (req : GenerateRequest) : GenerateRequest :=
  mkGenerateRequest model (req_prompt req) (system_instruction cfg req) (req_temperature req)
    (req_max_tokens req) (req_messages req) (req_tools req).

Definition Generate (cfg : Config) (req : option GenerateRequest) : M W (res GenerateResponse) :=
  match req with
  | None => ret (Err (Errorf "request cannot be nil" []))
  | Some req =>
      if bool_decide (req_prompt req = "") && bool_decide (req_messages req = []) then
        ret (Err (Errorf "prompt or messages must be set" []))
      else
        let protocol := protocolFor (cfg_provider cfg) (cfg_protocol cfg) in
        if bool_decide (protocol = ProtocolGoogle) &&
           (negb (bool_decide (req_messages req = [])) || negb (bool_decide (req_tools req = []))) then
          ret (Err (Errorf "native Google API does not use AX's OpenAI-style message and tool format; use protocol: openai for the Gemini compatibility endpoint" []))
        else
          let modelName := if decide (req_model req = "") then cfg_model cfg else req_model req in
          if bool_decide (modelName = "") && negb (bool_decide (protocol = ProtocolGoogle)) then
            ret (Err (Errorf "model must be set for provider %q" [AStr (cfg_provider cfg)]))
          else
            let modelName := if decide (modelName = "") then DefaultModel else modelName in
            let effectiveReq := effective_request cfg modelName req in
            if cfg_disable_remote cfg ||
               (bool_decide (protocol = ProtocolGoogle) && bool_decide (cfg_api_key cfg = ""))
            then ret (Ok (fallbackResponse effectiveReq))
            else adapter_Generate protocol cfg effectiveReq
  end.

End Send.
