(* ===== verification/Sha256.v ===== *)
(** crypto/sha256, which the reconciler hashes launch specifications with: the
    digest of a byte string, on 32-bit words written out as integers. *)

From S2P Require Import Prelude GoStrings.

Open Scope Z_scope.

Definition word (z : Z) : Z := z mod 2 ^ 32.
Definition wadd (a b : Z) : Z := word (a + b).
Definition rotr (n x : Z) : Z :=
  Z.lor (Z.shiftr x n) (word (Z.shiftl x (32 - n))).
Definition wnot (x : Z) : Z := Z.lxor x (2 ^ 32 - 1).

Definition Ch (x y z : Z) : Z := Z.lxor (Z.land x y) (Z.land (wnot x) z).
Definition Maj (x y z : Z) : Z := Z.lxor (Z.lxor (Z.land x y) (Z.land x z)) (Z.land y z).
Definition Sigma0 (x : Z) : Z := Z.lxor (Z.lxor (rotr 2 x) (rotr 13 x)) (rotr 22 x).
Definition Sigma1 (x : Z) : Z := Z.lxor (Z.lxor (rotr 6 x) (rotr 11 x)) (rotr 25 x).
Definition sigma0 (x : Z) : Z := Z.lxor (Z.lxor (rotr 7 x) (rotr 18 x)) (Z.shiftr x 3).
Definition sigma1 (x : Z) : Z := Z.lxor (Z.lxor (rotr 17 x) (rotr 19 x)) (Z.shiftr x 10).

(** The constants come from the first primes: the round constants are the first
    32 bits of the fractional parts of their cube roots, the initial hash value
    those of the square roots of the first eight. *)
Definition is_prime (n : Z) : bool :=
  forallb (λ d, negb (n mod (Z.of_nat d) =? 0)) (seq 2 (Z.to_nat (Z.sqrt n) - 1)).
Definition primes_below (bound : nat) : list Z :=
  List.filter is_prime (Z.of_nat <$> seq 2 (bound - 2)).

(** The largest [r] below [2^bits] whose cube is at most [n], bit by bit. *)
Fixpoint cube_root (bits : nat) (r n : Z) : Z :=
  match bits with
  | O => r
  | S bits =>
      let r' := r + 2 ^ Z.of_nat bits in
      cube_root bits (if r' ^ 3 <=? n then r' else r) n
  end.

Definition round_constants : list Z :=
  Eval vm_compute in (λ p, word (cube_root 36 0 (p * 2 ^ 96))) <$> primes_below 312.

Record hash := mkHash { ha : Z; hb : Z; hc : Z; hd : Z; he : Z; hf : Z; hg : Z; hh : Z }.
Definition root_bits (p : Z) : Z := word (Z.sqrt (p * 2 ^ 64)).
Definition initial_hash : hash := Eval vm_compute in
  mkHash (root_bits 2) (root_bits 3) (root_bits 5) (root_bits 7)
         (root_bits 11) (root_bits 13) (root_bits 17) (root_bits 19).

(** *** Padding *)

(** A number as big-endian bytes. *)
Fixpoint be_bytes (n : nat) (z : Z) : list Z :=
  match n with
  | O => []
  | S n => Z.shiftr z (8 * Z.of_nat n) mod 256 :: be_bytes n z
  end.

Definition pad_zeros (len : Z) : Z := (55 - len) mod 64.
Definition pad (msg : list Z) : list Z :=
  let len := Z.of_nat (length msg) in
  msg ++ [0x80] ++ replicate (Z.to_nat (pad_zeros len)) 0 ++ be_bytes 8 (8 * len).

(** *** Blocks *)

(** Four bytes to a word, big-endian; a rest of fewer than four is dropped. *)
Fixpoint words_of (l : list Z) : list Z :=
  match l with
  | a :: b :: c :: d :: l' =>
      (Z.shiftl a 24 + Z.shiftl b 16 + Z.shiftl c 8 + d) :: words_of l'
  | _ => []
  end.

(** The message schedule, newest word first: each step adds one. *)
Fixpoint schedule (n : nat) (w : list Z) : list Z :=
  match n with
  | O => w
  | S n =>
      schedule n
        (wadd (wadd (sigma1 (nth 1 w 0)) (nth 6 w 0)) (wadd (sigma0 (nth 14 w 0)) (nth 15 w 0)) :: w)
  end.

Definition round (h : hash) (kw : Z * Z) : hash :=
  let t1 := wadd (hh h) (wadd (Sigma1 (he h)) (wadd (Ch (he h) (hf h) (hg h)) (wadd (fst kw) (snd kw)))) in
  let t2 := wadd (Sigma0 (ha h)) (Maj (ha h) (hb h) (hc h)) in
  mkHash (wadd t1 t2) (ha h) (hb h) (hc h) (wadd (hd h) t1) (he h) (hf h) (hg h).

Definition compress (h : hash) (block : list Z) : hash :=
  let w := reverse (schedule 48 (reverse (words_of block))) in
  let r := fold_left round (zip round_constants w) h in
  mkHash (wadd (ha h) (ha r)) (wadd (hb h) (hb r)) (wadd (hc h) (hc r)) (wadd (hd h) (hd r))
    (wadd (he h) (he r)) (wadd (hf h) (hf r)) (wadd (hg h) (hg r)) (wadd (hh h) (hh r)).

(** The blocks of 64 bytes, one per unit of fuel. *)
Fixpoint blocks (n : nat) (h : hash) (l : list Z) : hash :=
  match n with
  | O => h
  | S n => match l with [] => h | _ => blocks n (compress h (take 64 l)) (drop 64 l) end
  end.

Definition hash_bytes (h : hash) : list Z :=
  [ha h; hb h; hc h; hd h; he h; hf h; hg h; hh h] ≫= be_bytes 4.

Definition Sum256 (msg : list Z) : list Z :=
  let padded := pad msg in
  hash_bytes (blocks (Nat.div (length padded) 64) initial_hash padded).

Definition byte_values (s : string) : list Z :=
  (λ c, Z.of_N (N_of_ascii c)) <$> String.list_ascii_of_string s.

(** *** Facts *)

Lemma length_be_bytes n z : length (be_bytes n z) = n.
Proof. induction n; cbn; congruence. Qed.

Lemma be_bytes_range n z : Forall (λ b, 0 ≤ b < 256) (be_bytes n z).
Proof.
  induction n as [|n IH]; cbn; [done|]. constructor; [|exact IH]. apply Z.mod_pos_bound. lia.
Qed.

Lemma length_Sum256 msg : length (Sum256 msg) = 32%nat.
Proof. unfold Sum256, hash_bytes. cbn. reflexivity. Qed.

Lemma Sum256_range msg : Forall (λ b, 0 ≤ b < 256) (Sum256 msg).
Proof.
  unfold Sum256, hash_bytes. apply Forall_bind. apply Forall_true. intros z. apply be_bytes_range.
Qed.

(** Padding ends on a block boundary, so the blocks cover the whole message. *)
Lemma length_pad msg : (length (pad msg) mod 64 = 0)%nat.
Proof.
  apply Nat2Z.inj. rewrite Nat2Z.inj_mod. unfold pad.
  rewrite !length_app, length_replicate, length_be_bytes. change (length [0x80]) with 1%nat.
  rewrite !Nat2Z.inj_add, Z2Nat.id by (apply Z.mod_pos_bound; lia). unfold pad_zeros.
  pose proof (Z.div_mod (55 - Z.of_nat (length msg)) 64 ltac:(lia)) as H.
  replace (Z.of_nat (length msg) + (Z.of_nat 1 + ((55 - Z.of_nat (length msg)) mod 64 + Z.of_nat 8)))
    with ((1 - (55 - Z.of_nat (length msg)) / 64) * 64) by lia.
  apply Z.mod_mul. lia.
Qed.

(** The published digests of the empty message, of abc, and of a message of two blocks. *)
Example Sum256_empty : hex (Z.to_N <$> Sum256 []) =
  "e3b0c44298fc1c149afbf4c8996fb92427ae41e4649b934ca495991b7852b855".
Proof. vm_compute. reflexivity. Qed.
Example Sum256_abc : hex (Z.to_N <$> Sum256 (byte_values "abc")) =
  "ba7816bf8f01cfea414140de5dae2223b00361a396177a9cb410ff61f20015ad".
Proof. vm_compute. reflexivity. Qed.
Example Sum256_two_blocks :
  hex (Z.to_N <$> Sum256 (byte_values "abcdbcdecdefdefgefghfghighijhijkijkljklmklmnlmnomnopnopq")) =
  "248d6a61d20638b8e5c026930c3e6039a33ce45964ff2167f6ecedd419db06c1".
Proof. vm_compute. reflexivity. Qed.
