(* ===== verification/Reconciler.v ===== *)
(** The task reconciler (internal/controller/reconciler.go): how one task is
    brought in line with its specification on Agent Substrate, the status it
    reports, and the cleanup of a deleted task. *)

From stdpp Require Import sorting.
From S2P Require Import Prelude GoStrings Types StoreApi Substrate ModelConfig Sha256.

(** ** What the reconciler calls *)

(** gopkg.in/yaml.v3: marshaling, and a stream encoder over a string builder. *)
Class Yaml := {
  yaml_Task : Task → res string;
  yaml_Model : Model → res string;
  yaml_encoder : Type;
  yaml_NewEncoder : yaml_encoder;
  yaml_Encode : Workspace → yaml_encoder → res yaml_encoder;
  yaml_Close : yaml_encoder → res yaml_encoder;
  yaml_String : yaml_encoder → string;
}.

(** The status code of a GET request with the given headers. *)
Class Http (W : Type) := http_Get : string → list (string * string) → M W (res Z).

(** How often the readiness ticker fires before the polling context ends. *)
Class Ticker (W : Type) := poll_ticks : M W nat.

Definition geminiSecretName : string := "gemini-api-secret".
Definition geminiSecretKey : string := "GEMINI_API_KEY".
Definition templateDigestBytes : nat := 4.
Definition condReady : string := "Ready".
Definition condWorkspaceReady : string := "WorkspaceReady".
Definition condGatewayReady : string := "GatewayReady".

Section Reconciler.
Context {W : Type} `{!Control W, !Context W, !Http W, !Ticker W, !TimeNow W}.
Context `{!GrpcStatus, !Environment, !MapRange, !ErrorText, !Yaml, !UnicodeTables, !URLs}.

Record TaskReconciler := mkTaskReconciler {
  defaultTemplate : string;
  defaultTemplateAtespace : string;
  SecretResolver : option (string → string → string → M W (res string));
}.

Definition NewTaskReconciler (resolver : string → string → string → M W (res string))
    (template templateAtespace : string) : TaskReconciler :=
  mkTaskReconciler
    (if decide (template = "") then "default-template" else template)
    (if decide (templateAtespace = "") then "ax-system" else templateAtespace)
    (Some resolver).

(** ** Conditions *)

Fixpoint find_condition (condType : string) (cs : list Condition) : option Condition :=
  match cs with
  | [] => None
  | c :: rest => if decide (cond_type c = condType) then Some c else find_condition condType rest
  end.

Definition conditionTrue (task : Task) (condType : string) : bool :=
  match task_status task with
  | None => false
  | Some st =>
      match find_condition condType (st_conditions st) with
      | Some c => bool_decide (cond_status c = "True")
      | None => false
      end
  end.

(** The first condition of the type is overwritten; a new one goes to the end. *)
Fixpoint upsert_condition (condType status reason message : string) (t : Z) (cs : list Condition)
    : list Condition :=
  match cs with
  | [] => [mkCondition condType status (Some t) reason message]
  | c :: rest =>
      if decide (cond_type c = condType)
      then mkCondition condType status (Some t) reason message :: rest
      else c :: upsert_condition condType status reason message t rest
  end.

Definition setCondition (task : Task) (condType status reason message : string) (t : Z) : M W Task :=
  let! st := deref (task_status task) in
  ret (task_set_status (Some (st_set_conditions
         (upsert_condition condType status reason message t (st_conditions st)) st)) task).

Definition setNotReady (task : Task) (reason message : string) (t : Z) : M W Task :=
  setCondition task condReady "False" reason message t.

Definition set_status (f : TaskStatus → TaskStatus) (task : Task) : M W Task :=
  let! st := deref (task_status task) in
  ret (task_set_status (Some (f st)) task).

(** ** Credentials *)

Definition lookupGeminiKey (r : TaskReconciler) (atespace : string) : M W string :=
  let! resolved :=
    match SecretResolver r with
    | Some f => let! k := f atespace geminiSecretName geminiSecretKey in ret (found_key k)
    | None => ret None
    end in
  match resolved with
  | Some key => ret key
  | None => ret (Getenv geminiSecretKey)
  end.

Definition modelAPIKeyEnvironmentNames (protocol : string) : list string :=
  if decide (protocol = ProtocolOpenAI) then ["OPENAI_API_KEY"; "AX_MODEL_API_KEY"]
  else if decide (protocol = ProtocolAnthropic) then ["ANTHROPIC_API_KEY"; "AX_MODEL_API_KEY"]
  else if decide (protocol = ProtocolGoogle) then [geminiSecretKey; "AX_MODEL_API_KEY"]
  else ["AX_MODEL_API_KEY"].

(** The first environment variable of the list that is set. *)
Fixpoint first_env (names : list string) : string :=
  match names with
  | [] => ""
  | n :: rest => if decide (Getenv n ≠ "") then Getenv n else first_env rest
  end.

Definition lookupModelAPIKey (r : TaskReconciler) (atespace : string) (cfg : Config) : M W string :=
  let! resolved :=
    match cfg_secret_key cfg, SecretResolver r with
    | Some k, Some f => let! key := f atespace (sk_name k) (sk_key k) in ret (found_key key)
    | _, _ => ret None
    end in
  match resolved with
  | Some key => ret key
  | None => ret (first_env (modelAPIKeyEnvironmentNames (EffectiveProtocol cfg)))
  end.

Definition protocol_env (protocol model baseURL : string) (env : gmap string string) : gmap string string :=
  if decide (protocol = ProtocolOpenAI) then
    <["OPENAI_BASE_URL" := baseURL]> (<["OPENAI_MODEL" := model]> env)
  else if decide (protocol = ProtocolAnthropic) then
    <["ANTHROPIC_BASE_URL" := baseURL]> (<["ANTHROPIC_MODEL" := model]> env)
  else if decide (protocol = ProtocolGoogle) then <["GEMINI_MODEL" := model]> env
  else env.

Definition protocol_key (protocol apiKey : string) (env : gmap string string) : gmap string string :=
  if decide (protocol = ProtocolOpenAI) then <["OPENAI_API_KEY" := apiKey]> env
  else if decide (protocol = ProtocolAnthropic) then <["ANTHROPIC_API_KEY" := apiKey]> env
  else if decide (protocol = ProtocolGoogle) then <[geminiSecretKey := apiKey]> env
  else env.

(** The environment with the model's variables, or the error; the caller drops
    what was added so far in that case. *)
Definition injectModelEnvironment (r : TaskReconciler) (atespace : string) (configured : Model)
    (env : gmap string string) : M W (res (gmap string string)) :=
  match yaml_Model configured with
  | Err e => ret (Err (Errorf "marshaling Model resource: %w" [AWrap e]))
  | Ok modelYAML =>
      let env := <["AX_MODEL_YAML" := modelYAML]> env in
      let cfg := ConfigFromCRD (Some configured) in
      let protocol := EffectiveProtocol cfg in
      match EffectiveBaseURL cfg with
      | Err e => ret (Err e)
      | Ok baseURL =>
          let env := <["AX_MODEL_PROVIDER" := cfg_provider cfg]> env in
          let env := <["AX_MODEL_PROTOCOL" := protocol]> env in
          let env := <["AX_MODEL" := cfg_model cfg]> env in
          let env := <["AX_MODEL_BASE_URL" := baseURL]> env in
          let env := protocol_env protocol (cfg_model cfg) baseURL env in
          let! apiKey := lookupModelAPIKey r atespace cfg in
          if decide (apiKey ≠ "") then
            ret (Ok (protocol_key protocol apiKey (<["AX_MODEL_API_KEY" := apiKey]> env)))
          else ret (Ok env)
      end
  end.

(** ** Templates *)

(** sort.Strings of the keys of a map. *)
Definition sorted_keys (env : gmap string string) : list string :=
  merge_sort string_le (map_range env).*1.

(** What is hashed: the image and then [key=value;] for each variable. *)
Definition launch_text (image : string) (env : gmap string string) : string :=
  image +:+ String.concat "" ((λ k, k +:+ "=" +:+ default "" (env !! k) +:+ ";") <$> sorted_keys env).

Definition taskTemplateName (taskName image : string) (env : gmap string string) : string :=
  let digest := Sum256 (byte_values (launch_text image env)) in
  taskName +:+ "-tmpl-" +:+ hex (Z.to_N <$> take templateDigestBytes digest).

(** The pattern that matches [taskName]-tmpl-[0-9a-f]{8} and nothing else. *)
Definition taskTemplatePattern (taskName name : string) : bool :=
  match strip_prefix (taskName +:+ "-tmpl-") name with
  | Some digits =>
      bool_decide (String.length digits = 2 * templateDigestBytes)%nat && sall is_hex_lower digits
  | None => false
  end.

(** ** The launch environment *)

(** The task's own variables; the last one of a name counts, nameless ones are dropped. *)
Definition task_env (env : list EnvVar) : gmap string string :=
  fold_left (λ m e, if decide (env_name e ≠ "") then <[env_name e := env_value e]> m else m) env ∅.

Fixpoint encode_workspaces (workspaces : list (option Workspace)) (enc : yaml_encoder)
    : res yaml_encoder :=
  match workspaces with
  | [] => Ok enc
  | None :: rest => encode_workspaces rest enc
  | Some ws :: rest =>
      match yaml_Encode ws enc with
      | Err e => Err e
      | Ok enc => encode_workspaces rest enc
      end
  end.

Definition marshalWorkspaces (workspaces : list (option Workspace)) : res string :=
  match encode_workspaces workspaces yaml_NewEncoder with
  | Err e => Err e
  | Ok enc =>
      match yaml_Close enc with
      | Err e => Err e
      | Ok enc => Ok (yaml_String enc)
      end
  end.

(** The task as the template sees it: without its status and suspend flag. *)
Definition launch_task (task : Task) : Task :=
  task_set_status None (task_set_spec (ts_set_suspend false <$> task_spec task) task).

Definition launch_env (r : TaskReconciler) (atespace : string) (task : Task)
    (configuredModel : option Model) (workspaces : list (option Workspace))
    : M W (res (gmap string string)) :=
  let extraEnv := task_env (from_option ts_env [] (task_spec task)) in
  let! extraEnv :=
    match configuredModel with
    | Some m => injectModelEnvironment r atespace m extraEnv
    | None =>
        let! geminiKey := lookupGeminiKey r atespace in
        ret (Ok (if decide (geminiKey ≠ "") then <[geminiSecretKey := geminiKey]> extraEnv else extraEnv))
    end in
  match extraEnv with
  | Err e => ret (Err (Errorf "preparing model configuration for task runner: %w" [AWrap e]))
  | Ok extraEnv =>
      let extraEnv := match yaml_Task (launch_task task) with
                      | Ok taskYAML => <["AX_TASK_YAML" := taskYAML]> extraEnv
                      | Err _ => extraEnv
                      end in
      let extraEnv := match marshalWorkspaces workspaces with
                      | Ok wsYAML => if decide (wsYAML ≠ "") then <["AX_WORKSPACES_YAML" := wsYAML]> extraEnv
                                     else extraEnv
                      | Err _ => extraEnv
                      end in
      ret (Ok extraEnv)
  end.

(** The template the actor is created from, as atespace and name: the task's own
    one, or the default one when that cannot be provided. *)
Definition choose_template (r : TaskReconciler) (atespace name image : string)
    (extraEnv : gmap string string) : M W (string * string) :=
  let '(templateAtespace, templateName) :=
    match cut "/" (defaultTemplate r) with
    | Some (a, n) => (a, n)
    | None => (defaultTemplateAtespace r, defaultTemplate r)
    end in
  if negb (bool_decide (image = "")) || negb (bool_decide (extraEnv = ∅)) then
    let! (tmpl, err) := EnsureActorTemplateWithImage templateAtespace templateName atespace
                          (taskTemplateName name image extraEnv) image extraEnv in
    match err, tmpl with
    | None, Some tmpl =>
        match at_metadata tmpl with
        | Some m => ret (rm_atespace m, rm_name m)
        | None => ret (templateAtespace, templateName)
        end
    | _, _ => ret (templateAtespace, templateName)
    end
  else ret (templateAtespace, templateName).

(** ** Readiness *)

Definition ok_status (r : res Z) : bool := match r with Ok 200%Z => true | _ => false end.

(** http.NewRequestWithContext for a GET, its error ignored: [None] is the nil request
    that is left when the URL does not parse. *)
Definition get_request (url : string) (header : list (string * string))
    : option (string * list (string * string)) :=
  match url_Parse url with Ok _ => Some (url, header) | Err _ => None end.

(** httpClient.Do, which reads the URL off the request before anything else. *)
Definition client_Do (req : option (string * list (string * string))) : M W (res Z) :=
  let! (url, header) := deref req in http_Get url header.

Definition checkReady (readyURL atespace actorName : string) : M W bool :=
  let req := get_request readyURL [] in
  let! direct := client_Do req in
  if ok_status direct then ret true
  else
    let routerAddr := Getenv "ATENET_ROUTER_ADDR" in
    if decide (routerAddr ≠ "") then
      let rReq := get_request ("http://" +:+ routerAddr +:+ "/readyz?check=workspace")
                    [("ate-target-actor", atespace +:+ "/" +:+ actorName)] in
      match rReq with
      | Some _ => let! routed := client_Do rReq in ret (ok_status routed)
      | None => ret false
      end
    else ret false.

(** The checks on the ticks of the poll. *)
Fixpoint poll (ticks : nat) (check : M W bool) : M W bool :=
  match ticks with
  | 0%nat => ret false
  | S ticks => let! ok := check in if ok then ret true else poll ticks check
  end.

Definition ready_url (workerIP : string) : string :=
  let '(host, port) := match SplitHostPort workerIP with
                       | Some (h, p) => (h, p)
                       | None => (workerIP, "80")
                       end in
  "http://" +:+ host +:+ ":" +:+ port +:+ "/readyz?check=workspace".

Definition await_workspace (workerIP atespace actorName : string) : M W bool :=
  let check := checkReady (ready_url workerIP) atespace actorName in
  let! ready := check in
  if (ready : bool) then ret true
  else let! ticks := poll_ticks in poll ticks check.

(** ** Reconciling *)

(** The task with its nil parts, its atespace and its image filled in. *)
Definition normalize_task (task : Task) : Task :=
  let meta := default zero_ObjectMeta (task_metadata task) in
  let st := default zero_TaskStatus (task_status task) in
  let atespace := if decide (om_atespace meta = "") then "default" else om_atespace meta in
  let spec := default zero_TaskSpec (task_spec task) in
  let spec := if decide (ts_image spec = "") then ts_set_image DefaultTaskImage spec else spec in
  mkTask (task_api_version task) (task_kind task) (Some (om_set_atespace atespace meta))
    (Some spec) (Some st).

Definition egress_allowlist (gateway : option Gateway) : EgressAllowlist :=
  match ((gateway ≫= gw_spec) ≫= gs_egress) ≫= ec_allowlist with
  | Some a => a
  | None => mkEgressAllowlist [mkHostRule "*" 443]
  end.

(** The last part: the actor runs; report whether its workspace is ready. *)
Definition report_running (task : Task) (workerIP atespace actorName : string) : M W Task :=
  let! task := set_status (λ st, st_set_phase "Running" (st_set_worker_ip workerIP st)) task in
  let workspaceReady := conditionTrue task condWorkspaceReady in
  let! workspaceReady :=
    if negb (bool_decide (workerIP = "")) && negb workspaceReady
    then await_workspace workerIP atespace actorName
    else ret workspaceReady in
  if (workspaceReady : bool) then
    let! task :=
      if negb (conditionTrue task condWorkspaceReady) then
        let! now := time_Now in
        setCondition task condWorkspaceReady "True" "SetupComplete"
          ("Workspace setup completed at " +:+ workerIP) now
      else ret task in
    let! now := time_Now in
    setCondition task condReady "True" "TaskRunning" "Task is running and its workspace is ready" now
  else
    let! now := time_Now in
    let! task := setCondition task condWorkspaceReady "False" "Initializing"
                   ("Workspace is initializing at " +:+ workerIP) now in
    let! now := time_Now in
    setCondition task condReady "False" "WorkspaceInitializing"
      "Waiting for workspace setup to complete" now.

Definition seconds (ns : Z) : Z := (ns / 1000000000)%Z.

(** From the egress policy on, for an actor that exists. *)
Definition drive_actor (task : Task) (gateway : option Gateway) (atespace actorName : string) (now : Z)
    : M W (Task * option error) :=
  let! perr := ApplyEgressPolicy atespace actorName (Some (egress_allowlist gateway)) in
  let! task :=
    match perr with
    | Some e => setCondition task condGatewayReady "False" "PolicyApplyFailed" (error_text e) now
    | None => setCondition task condGatewayReady "True" "PoliciesApplied" "Network policies active" now
    end in
  if from_option ts_suspend false (task_spec task) then
    let! serr := SuspendActor atespace actorName in
    match serr with
    | Some e =>
        let! task := setNotReady task "ActorSuspendFailed" (error_text e) now in
        let! task := set_status (st_set_phase "Failed") task in
        ret (task, Some (Errorf "suspending actor: %w" [AWrap e]))
    | None =>
        let! task := set_status (λ st, st_set_phase "Suspended" (st_set_worker_ip "" st)) task in
        let! task := setCondition task condReady "False" "TaskSuspended" "Task is suspended" now in
        ret (task, None)
    end
  else
    let! resumed := ResumeActor atespace actorName in
    match resumed with
    | Err e =>
        let! task := setNotReady task "ActorResumeFailed" (error_text e) now in
        let! task := set_status (st_set_phase "Failed") task in
        ret (task, Some (Errorf "resuming actor: %w" [AWrap e]))
    | Ok (_, workerIP) =>
        let! task := report_running task workerIP atespace actorName in
        ret (task, None)
    end.

Definition reconcile (r : TaskReconciler) (task : Task) (gateway : option Gateway)
    (configuredModel : option Model) (workspaces : list (option Workspace))
    : M W (Task * option error) :=
  let task := normalize_task task in
  let! meta := deref (task_metadata task) in
  let! spec := deref (task_spec task) in
  let atespace := om_atespace meta in
  let! now := time_Now in
  let! aerr := EnsureAtespace atespace in
  match aerr with
  | Some e =>
      let! task := setCondition task condReady "False" "AtespaceCreationFailed" (error_text e) now in
      let! task := set_status (st_set_phase "Failed") task in
      ret (task, Some (Errorf "ensuring atespace: %w" [AWrap e]))
  | None =>
      let actorName := om_name meta in
      let! task := set_status (st_set_actor actorName) task in
      let! task := set_status (λ st, if decide (st_id st = "")
                     then st_set_id ("task-" +:+ om_name meta +:+ "-" +:+ dec (seconds now)) st
                     else st) task in
      let! env := launch_env r atespace task configuredModel workspaces in
      match env with
      | Err e => ret (task, Some e)
      | Ok extraEnv =>
          let! (templateAtespace, templateName) :=
            choose_template r atespace (om_name meta) (ts_image spec) extraEnv in
          let! (_, err) := EnsureActor atespace actorName templateAtespace templateName in
          match err with
          | Some e =>
              let! task := setNotReady task "ActorCreationFailed" (error_text e) now in
              let! task := set_status (st_set_phase "Failed") task in
              ret (task, Some (Errorf "ensuring actor: %w" [AWrap e]))
          | None => drive_actor task gateway atespace actorName now
          end
      end
  end.

Definition Reconcile (r : TaskReconciler) (task : Task) (gateway : option Gateway)
    (workspaces : list (option Workspace)) : M W (Task * option error) :=
  reconcile r task gateway None workspaces.
Definition ReconcileWithModel (r : TaskReconciler) (task : Task) (gateway : option Gateway)
    (configuredModel : option Model) (workspaces : list (option Workspace)) : M W (Task * option error) :=
  reconcile r task gateway configuredModel workspaces.

(** ** Deleting *)

(** The attempts to delete one template. The break in the select only leaves the
    select, so the end of the context does not end the attempts. *)
Fixpoint delete_template (attempts : nat) (atespace name : string) (delErr : option error)
    : M W (option error) :=
  match attempts with
  | 0%nat => ret delErr
  | S attempts =>
      let! delErr := DeleteActorTemplate atespace name in
      match delErr with
      | None => ret None
      | Some e =>
          if status_is CodeNotFound e then ret None
          else
            let! done := ctx_wait 500000000 in
            delete_template attempts atespace name
              (match done with Some ctxErr => Some ctxErr | None => Some e end)
      end
  end.

Definition template_name (t : option ActorTemplate) : string :=
  from_option rm_name "" (t ≫= at_metadata).

Fixpoint delete_templates (templates : list (option ActorTemplate)) (atespace taskName : string)
    (errs : list error) : M W (list error) :=
  match templates with
  | [] => ret errs
  | tmpl :: rest =>
      let name := template_name tmpl in
      if taskTemplatePattern taskName name then
        let! delErr := delete_template 5 atespace name None in
        delete_templates rest atespace taskName
          (match delErr with Some e => errs ++ [e] | None => errs end)
      else delete_templates rest atespace taskName errs
  end.

Definition deleteTaskTemplates (atespace taskName : string) : M W (option error) :=
  let! templates := ListActorTemplates atespace in
  match templates with
  | Err e => ret (Some e)
  | Ok templates =>
      let! errs := delete_templates templates atespace taskName [] in
      ret (errors_Join errs)
  end.

Definition ReconcileDelete (atespace taskName : string) : M W (option error) :=
  let atespace := if decide (atespace = "") then "default" else atespace in
  let! err := DeleteActor atespace taskName in
  match err with
  | Some e => ret (Some e)
  | None => let! _ := deleteTaskTemplates atespace taskName in ret None
  end.

End Reconciler.
Arguments TaskReconciler W : clear implicits.
