(* ===== verification/Worker.v ===== *)
(** The controller's worker (internal/controller/worker.go): it takes task events
    off a queue, reconciles the task or cleans it up, and writes the outcome
    back to the store. *)

From S2P Require Import Prelude GoStrings Types Bindings StoreApi Substrate ModelConfig Reconciler.

(** store.EventQueue and store.Subscription. *)
Class EventQueue (W : Type) := {
  q_subscription : Type;
  q_Subscribe : string → string → M W (res q_subscription);
  q_Next : q_subscription → M W (res TaskEvent * q_subscription);
  q_Ack : q_subscription → TaskEvent → M W (option error);
  q_Close : q_subscription → M W (option error);
}.

(** os.Hostname, empty when it fails. *)
Class Host (W : Type) := os_Hostname : M W string.

Definition defaultWorkerGroup : string := "ax-controllers".
Definition readRetryDelay : Z := 1000000000.

Section Worker.
Context {W : Type} `{!Store W, !EventQueue W, !Host W}.
Context `{!Control W, !Context W, !Http W, !Ticker W, !TimeNow W}.
Context `{!GrpcStatus, !Environment, !MapRange, !ErrorText, !Yaml, !UnicodeTables, !URLs}.

Record Worker := mkWorker {
  wk_reconciler : TaskReconciler W;
  wk_group : string;
  wk_consumer : string;
}.

Definition NewWorker (reconciler : TaskReconciler W) (group consumer : string) : M W Worker :=
  let group := if decide (group = "") then defaultWorkerGroup else group in
  let! consumer :=
    if decide (consumer = "") then
      let! hostname := os_Hostname in
      let! now := time_Now in
      ret (hostname +:+ "-" +:+ dec (Z.rem now 10000))
    else ret consumer in
  ret (mkWorker reconciler group consumer).

(** The gateway the task refers to, when it can be fetched. *)
Definition fetch_gateway (atespace : string) (ref : option GatewayRef) : M W (option Gateway) :=
  match ref with
  | Some g =>
      if decide (gr_name g ≠ "") then
        let! r := GetGateway atespace (gr_name g) in
        ret (match r with Ok gw => Some gw | Err _ => None end)
      else ret None
  | None => ret None
  end.

(** The bound workspaces that can be fetched, in order. *)
Fixpoint fetch_workspaces (atespace : string) (refs : list WorkspaceRef) (workspaces : list (option Workspace))
    : M W (list (option Workspace)) :=
  match refs with
  | [] => ret workspaces
  | ref :: rest =>
      if decide (wr_name ref = "") then fetch_workspaces atespace rest workspaces
      else
        let! r := GetWorkspace atespace (wr_name ref) in
        fetch_workspaces atespace rest
          (match r with Ok wsp => workspaces ++ [Some wsp] | Err _ => workspaces end)
  end.

Definition processEvent (w : Worker) (ev : TaskEvent) : M W (option error) :=
  if decide (ev_action ev = "delete") then
    let! err := ReconcileDelete (ev_atespace ev) (ev_name ev) in
    match err with
    | Some e => ret (Some (Errorf "cleaning up task %s/%s: %w"
                  [AStr (ev_atespace ev); AStr (ev_name ev); AWrap e]))
    | None =>
        let! err := DeleteTask (ev_atespace ev) (ev_name ev) in
        match err with
        | Some e => ret (Some (Errorf "removing task record %s/%s: %w"
                      [AStr (ev_atespace ev); AStr (ev_name ev); AWrap e]))
        | None => ret None
        end
    end
  else
    let! r := GetTask (ev_atespace ev) (ev_name ev) in
    match r with
    | Err e =>
        if errors_Is_NotFound e then ret None
        else ret (Some (Errorf "fetching task %s/%s: %w"
                [AStr (ev_atespace ev); AStr (ev_name ev); AWrap e]))
    | Ok task =>
        let! spec := deref (task_spec task) in
        let! meta := deref (task_metadata task) in
        let atespace := om_atespace meta in
        let! gw := fetch_gateway atespace (ts_gateway spec) in
        let! workspaces := fetch_workspaces atespace (WorkspaceRefs (Some spec)) [] in
        let! m := GetModel atespace DefaultModelResourceName in
        let model : res (option Model) :=
          match m with
          | Ok x => Ok (Some x)
          | Err e => if errors_Is_NotFound e then Ok None else Err e
          end in
        match model with
        | Err e => ret (Some (Errorf "fetching default Model for task %s/%s: %w"
                     [AStr atespace; AStr (om_name meta); AWrap e]))
        | Ok configuredModel =>
            let! (task, err) := ReconcileWithModel (wk_reconciler w) task gw configuredModel workspaces in
            let! meta := deref (task_metadata task) in
            match err with
            | Some e =>
                let! task := set_status (st_set_phase "Failed") task in
                let! _ := UpdateTaskStatus (om_atespace meta) (om_name meta) (task_status task) in
                ret (Some (Errorf "reconciling task %s/%s: %w"
                       [AStr (om_atespace meta); AStr (om_name meta); AWrap e]))
            | None =>
                let! err := UpdateTaskStatus (om_atespace meta) (om_name meta) (task_status task) in
                match err with
                | Some e => ret (Some (Errorf "updating task status %s/%s: %w"
                              [AStr (om_atespace meta); AStr (om_name meta); AWrap e]))
                | None => ret None
                end
            end
        end
    end.

(** [n] turns of the loop of Run; [None] when it is still running after them. *)
Fixpoint run_loop (n : nat) (w : Worker) (sub : q_subscription) : M W (option error) :=
  match n with
  | 0%nat => ret None
  | S n =>
      let! (r, sub) := q_Next sub in
      match r with
      | Err _ =>
          let! cerr := ctx_Err in
          match cerr with
          | Some e => ret (Some e)
          | None =>
              let! done := ctx_wait readRetryDelay in
              match done with
              | Some e => ret (Some e)
              | None => run_loop n w sub
              end
          end
      | Ok ev =>
          let! _ := processEvent w ev in
          let! _ := q_Ack sub ev in
          run_loop n w sub
      end
  end.

(** [Run] for at most [n] turns: the error it returns, [None] while it runs. *)
Definition Run (n : nat) (w : Worker) : M W (option error) :=
  let! sub := q_Subscribe (wk_group w) (wk_consumer w) in
  match sub with
  | Err e => ret (Some (Errorf "subscribing to task events: %w" [AWrap e]))
  | Ok sub =>
      let! out := run_loop n w sub in
      match out with
      | Some e => let! _ := q_Close sub in ret (Some e)
      | None => ret None
      end
  end.

End Worker.
