(* ===== verification/ReconcilerSpec.v ===== *)
(** What a reconciliation guarantees about the task it returns, over any control
    plane whose calls return; and the names of the templates it creates and
    deletes. *)

From stdpp Require Import sorting.
From S2P Require Import Prelude GoStrings Types StoreApi Substrate ModelConfig Sha256 Reconciler.

(** ** Conditions *)

Lemma find_upsert ty ty' status reason message t cs :
  find_condition ty (upsert_condition ty' status reason message t cs) =
    if decide (ty = ty') then Some (mkCondition ty' status (Some t) reason message)
    else find_condition ty cs.
Proof.
  induction cs as [|c cs IH]; cbn.
  - repeat case_decide; congruence.
  - destruct (decide (cond_type c = ty')) as [Hc|Hc]; cbn.
    + repeat case_decide; congruence.
    + rewrite IH. repeat case_decide; congruence.
Qed.

Lemma upsert_types ty status reason message t cs :
  cond_type <$> upsert_condition ty status reason message t cs =
    if decide (ty ∈ cond_type <$> cs) then cond_type <$> cs else (cond_type <$> cs) ++ [ty].
Proof.
  induction cs as [|c cs IH]; cbn [upsert_condition].
  { rewrite decide_False by (by intros ?%elem_of_nil). done. }
  rewrite fmap_cons. destruct (decide (cond_type c = ty)) as [<-|Hc].
  - rewrite fmap_cons. cbn. rewrite decide_True by (by left). done.
  - rewrite fmap_cons, IH. case_decide as Hin.
    + by rewrite decide_True by (by right).
    + rewrite decide_False; [done|]. by intros [?|?]%elem_of_cons.
Qed.

Lemma upsert_nodup ty status reason message t cs : NoDup (cond_type <$> cs) →
  NoDup (cond_type <$> upsert_condition ty status reason message t cs).
Proof.
  intros Hnd. rewrite upsert_types. case_decide as Hin; [done|].
  apply NoDup_app. split_and!; [done| |by apply NoDup_singleton].
  by intros x Hx ->%list_elem_of_singleton.
Qed.

(** The task with a status; the tasks a reconciliation goes through all have this
    form, over the normalized task. *)
Abbreviation with_st st T := (task_set_status (Some st) T).

(** ** Computations that return *)

(** A control plane whose calls return, with errors or not, and keep [I], as long
    as they are about the actors [own] and delete the templates [old] only. *)
Class Responsive {W : Type} `{!Control W, !Context W, !Http W, !Ticker W, !TimeNow W}
    (I : W → Prop) (own old : ObjectRef → Prop) : Prop := {
  total_CreateAtespace a : total I (CreateAtespace (W := W) a);
  total_GetActorTemplate o : total I (ctl_GetActorTemplate (W := W) o);
  total_CreateActorTemplate t : total I (CreateActorTemplate (W := W) t);
  total_ListActorTemplates a : total I (ctl_ListActorTemplates (W := W) a);
  total_DeleteActorTemplate o : old o → total I (ctl_DeleteActorTemplate (W := W) o);
  total_CreateActor m t st : own (mkObjectRef (rm_atespace m) (rm_name m)) →
    total I (CreateActor (W := W) (mkActor (Some m) t st));
  total_GetActor o : total I (GetActor (W := W) o);
  total_DeleteActor o b : own o → total I (ctl_DeleteActor (W := W) o b);
  total_ResumeActor o : own o → total I (ctl_ResumeActor (W := W) o);
  total_SuspendActor o : own o → total I (ctl_SuspendActor (W := W) o);
  total_CreateActorEgressPolicy o p : own o → total I (CreateActorEgressPolicy (W := W) o p);
  total_GetActorEgressPolicy o : total I (GetActorEgressPolicy (W := W) o);
  total_UpdateActorEgressPolicy o p : own o → total I (UpdateActorEgressPolicy (W := W) o p);
  total_ctx_Err : total I (ctx_Err (W := W));
  total_ctx_wait d : total I (ctx_wait (W := W) d);
  total_http_Get u h : total I (http_Get (W := W) u h);
  total_poll_ticks : total I (poll_ticks (W := W));
  total_time_Now : total I (time_Now (S := W));
}.
#[export] Hint Resolve total_CreateAtespace total_GetActorTemplate total_CreateActorTemplate
  total_ListActorTemplates total_DeleteActorTemplate total_CreateActor total_GetActor
  total_DeleteActor total_ResumeActor total_SuspendActor total_CreateActorEgressPolicy
  total_GetActorEgressPolicy total_UpdateActorEgressPolicy total_ctx_Err total_ctx_wait total_http_Get
  total_poll_ticks total_time_Now : go.

(** A worker address a request can be made of. *)
Definition addressable `{!URLs} (ip : string) : Prop := ip = "" ∨ ∃ u, url_Parse (ready_url ip) = Ok u.
(** The address in the answer to a resume request. *)
Definition worker_ip (actor : Actor) : string :=
  match ac_status actor with Some st => default "" (as_worker_pod_ip st) | None => "" end.

(** A control plane whose workers have such addresses. *)
Class Addressed {W : Type} `{!Control W, !URLs} (I : W → Prop) (own : ObjectRef → Prop) : Prop :=
  addressed_ResumeActor o : own o → returns I (ctl_ResumeActor (W := W) o)
    (λ r, ∀ actor, r = Ok (Some actor) → addressable (worker_ip actor)).

Section Returns.
Context {W : Type} `{!Control W, !Context W, !Http W, !Ticker W, !TimeNow W}.
Context {I : W → Prop} {own old : ObjectRef → Prop} `{!Responsive I own old}.
Context `{!GrpcStatus, !Environment, !MapRange, !ErrorText, !Yaml, !UnicodeTables, !URLs}.

Ltac go_total := repeat go_step; eauto with go.

Lemma total_EnsureAtespace a : total I (EnsureAtespace (W := W) a).
Proof. unfold EnsureAtespace. go_total. Qed.
Lemma total_EnsureTemplate a b c d e f : total I (EnsureActorTemplateWithImage (W := W) a b c d e f).
Proof. unfold EnsureActorTemplateWithImage, GetActorTemplate. go_total. Qed.
Lemma total_recreate k m t st a n : own (mkObjectRef (rm_atespace m) (rm_name m)) →
  total I (recreate (W := W) k (mkActor (Some m) t st) a n).
Proof. intros Ho. induction k; cbn; go_total. Qed.
Lemma total_EnsureActor a n ta tn : own (mkObjectRef a n) → total I (EnsureActor (W := W) a n ta tn).
Proof.
  intros Ho. unfold EnsureActor. cbv zeta.
  eapply total_then; [by apply total_CreateActor|]. intros [actor [e|]]; go_total;
    try by apply total_recreate.
Qed.
Lemma total_Apply a n l : own (mkObjectRef a n) → total I (ApplyEgressPolicy (W := W) a n l).
Proof. intros Ho. unfold ApplyEgressPolicy. go_total. Qed.
Lemma total_Suspend a n : own (mkObjectRef a n) → total I (SuspendActor (W := W) a n).
Proof. intros Ho. unfold SuspendActor. go_total. Qed.
Lemma Resume_addressed `{!Addressed I own} a n : own (mkObjectRef a n) →
  returns I (ResumeActor (W := W) a n) (λ r, ∀ p, r = Ok p → addressable (snd p)).
Proof.
  intros Ho. unfold ResumeActor. eapply returns_bind; [by apply addressed_ResumeActor|].
  intros [[actor|]|e] Ha; apply returns_ret; [|done..]. intros p [= <-]. by apply Ha.
Qed.
Lemma total_Delete a n : own (mkObjectRef a n) → total I (DeleteActor (W := W) a n).
Proof. intros Ho. unfold DeleteActor. go_total. Qed.
Lemma total_client_Do url header u : url_Parse url = Ok u → total I (client_Do (W := W) (get_request url header)).
Proof. intros Hu. unfold client_Do, get_request. rewrite Hu. exact (total_http_Get _ _). Qed.
Lemma total_checkReady url a n u : url_Parse url = Ok u → total I (checkReady (W := W) url a n).
Proof.
  intros Hu. unfold checkReady. cbv zeta. eapply total_then; [by eapply total_client_Do|]. intros r.
  case_match; [by apply returns_ret|]. case_decide; [|by apply returns_ret].
  destruct (get_request _ _) as [[url' h]|]; [|by apply returns_ret].
  eapply total_then; [exact (total_http_Get _ _)|]. intros; by apply returns_ret.
Qed.
Lemma total_poll n (check : M W bool) : total I check → total I (poll n check).
Proof. intros Hc. induction n; cbn; go_total. Qed.
Lemma total_await ip a n : addressable ip → ip ≠ "" → total I (await_workspace (W := W) ip a n).
Proof.
  intros [?|[u Hu]] Hip; [done|]. unfold await_workspace. cbv zeta.
  eapply total_then; [by eapply total_checkReady|]. intros []; [by apply returns_ret|].
  eapply total_then; [apply total_poll_ticks|]. intros ticks. eapply total_poll, total_checkReady, Hu.
Qed.
Lemma total_delete_template n a t e : old (mkObjectRef a t) → total I (delete_template (W := W) n a t e).
Proof. intros Ho. revert e. induction n; intros e; cbn; unfold DeleteActorTemplate; go_total. Qed.
Lemma total_delete_templates l a t errs :
  (∀ name, taskTemplatePattern t name = true → old (mkObjectRef a name)) →
  total I (delete_templates (W := W) l a t errs).
Proof.
  intros Ho. revert errs. induction l; intros errs; cbn [delete_templates]; [by apply returns_ret|].
  cbv zeta. case_match; [|auto].
  eapply total_then; [by apply total_delete_template, Ho|auto].
Qed.

Lemma total_ReconcileDelete a n :
  own (mkObjectRef (default_atespace a) n) →
  (∀ name, taskTemplatePattern n name = true → old (mkObjectRef (default_atespace a) name)) →
  total I (ReconcileDelete (W := W) a n).
Proof.
  intros Hown Hold. unfold ReconcileDelete. cbv zeta. fold (default_atespace a).
  eapply total_then; [by apply total_Delete|]. intros [e|]; [by apply returns_ret|].
  eapply total_then; [|intros; by apply returns_ret].
  unfold deleteTaskTemplates, ListActorTemplates. repeat go_step; try done.
  eapply total_then; [by apply total_delete_templates|]. intros; by apply returns_ret.
Qed.

(** C18: cleaning up a deleted task returns, whatever the control plane answers (at
    most five attempts are made for each template), and it is confined to the
    task: it keeps whatever survives the calls about the task's own actor and the
    deletion of templates of its atespace whose name is the task's name followed
    by -tmpl- and eight hex digits. *)
Theorem ReconcileDelete_confined a n :
  own (mkObjectRef (default_atespace a) n) →
  (∀ name, taskTemplatePattern n name = true → old (mkObjectRef (default_atespace a) name)) →
  total I (ReconcileDelete (W := W) a n).
Proof. apply total_ReconcileDelete. Qed.

(** ** The status a reconciliation leaves *)

Definition st_true (st : TaskStatus) (ty : string) : bool :=
  match find_condition ty (st_conditions st) with
  | Some c => bool_decide (cond_status c = "True")
  | None => false
  end.

Lemma st_true_upsert ty ty' status reason message now st :
  st_true (st_set_conditions (upsert_condition ty' status reason message now (st_conditions st)) st) ty =
    if decide (ty = ty') then bool_decide (status = "True") else st_true st ty.
Proof. unfold st_true. cbn. rewrite find_upsert. by case_decide. Qed.

Definition st_types (st : TaskStatus) : list string := cond_type <$> st_conditions st.

Lemma set_condition_step st T ty status reason message now {B} (k : Task → M W B) Q :
  returns I (k (with_st (st_set_conditions
    (upsert_condition ty status reason message now (st_conditions st)) st) T)) Q →
  returns I (bind (setCondition (with_st st T) ty status reason message now) k) Q.
Proof. done. Qed.

Lemma set_status_step st T f {B} (k : Task → M W B) Q :
  returns I (k (with_st (f st) T)) Q → returns I (bind (set_status f (with_st st T)) k) Q.
Proof. done. Qed.

(** What holds of the status at every point, against the one it started from. *)
Record kept (st0 st : TaskStatus) : Prop := {
  kept_sticky : st_true st0 condWorkspaceReady = true → st_true st condWorkspaceReady = true;
  kept_nodup : NoDup (st_types st0) → NoDup (st_types st);
}.

Lemma kept_refl st : kept st st.
Proof. by split. Qed.

Lemma kept_same st0 st st' : kept st0 st → st_conditions st' = st_conditions st → kept st0 st'.
Proof.
  intros [Hst Hnd] Hc. split; [unfold st_true in *|unfold st_types in *]; by rewrite Hc.
Qed.

Lemma st_true_phase p st ty : st_true (st_set_phase p st) ty = st_true st ty.
Proof. reflexivity. Qed.

Lemma kept_phase st0 st p : kept st0 st → kept st0 (st_set_phase p st).
Proof. intros. by eapply kept_same. Qed.

Lemma kept_upsert st0 st ty status reason message now : kept st0 st →
  (ty = condWorkspaceReady → status = "True" ∨ st_true st0 condWorkspaceReady = false) →
  kept st0 (st_set_conditions (upsert_condition ty status reason message now (st_conditions st)) st).
Proof.
  intros [Hst Hnd] Hty. split.
  - intros Ht0. rewrite st_true_upsert. case_decide as Hd; [|auto].
    destruct Hty as [->|?]; [done|done|congruence].
  - intros Ht0. unfold st_types. cbn. by apply upsert_nodup, Hnd.
Qed.

Definition is_preparing (e : error) : bool :=
  match e with
  | Errorf f _ => bool_decide (f = "preparing model configuration for task runner: %w")
  | _ => false
  end.

(** How a status reports the outcome of a reconciliation. *)
Definition outcome (suspend : bool) (st0 st : TaskStatus) (err : option error) : Prop :=
  match err with
  | None =>
      if suspend then st_phase st = "Suspended" ∧ st_true st condReady = false ∧ st_worker_ip st = ""
      else st_phase st = "Running" ∧ st_true st condReady = st_true st condWorkspaceReady
  | Some e =>
      if is_preparing e then st_phase st = st_phase st0 ∧ st_conditions st = st_conditions st0
      else st_phase st = "Failed" ∧ st_true st condReady = false
  end.

Lemma report_running_returns st0 st T ip a n : kept st0 st → addressable ip →
  returns I (report_running (with_st st T) ip a n) (λ t, ∃ st',
    t = with_st st' T ∧ kept st0 st' ∧ outcome false st0 st' None ∧ st_actor st' = st_actor st ∧
    st_id st' = st_id st).
Proof.
  intros Hk Hip. unfold report_running. apply set_status_step.
  set (st1 := st_set_phase "Running" (st_set_worker_ip ip st)).
  assert (kept st0 st1) as Hk1 by (by eapply kept_same).
  cbv zeta. change (conditionTrue (with_st st1 T) condWorkspaceReady) with (st_true st1 condWorkspaceReady).
  apply (returns_bind _ _ (λ b : bool, st_true st1 condWorkspaceReady = true → b = true)).
  { destruct (negb (bool_decide (ip = "")) && negb (st_true st1 condWorkspaceReady)) eqn:E.
    - apply andb_true_iff in E as [Hne E]. apply negb_true_iff in E. rewrite E.
      apply negb_true_iff, bool_decide_eq_false in Hne.
      eapply returns_weaken; [by apply total_await|done].
    - by apply returns_ret. }
  intros [] Hready.
  - destruct (st_true st1 condWorkspaceReady) eqn:Hw; cbn [negb].
    + apply returns_pure. eapply total_then; [eauto with go|]. intros now.
      apply returns_ret. eexists. split; [reflexivity|]. split_and!; [|split; [done|]|done|done].
      * apply kept_upsert; [done|]. done.
      * rewrite !st_true_upsert. by rewrite decide_True, decide_False, Hw.
    + apply returns_assoc. eapply total_then; [eauto with go|]. intros now1.
      apply set_condition_step. eapply total_then; [eauto with go|]. intros now2.
      apply returns_ret. eexists. split; [reflexivity|]. split_and!; [|split; [done|]|done|done].
      * apply kept_upsert; [|done]. apply kept_upsert; [done|by left].
      * rewrite !st_true_upsert. by rewrite decide_True, decide_False, decide_True.
  - assert (st_true st0 condWorkspaceReady = false) as Hw0.
    { destruct (st_true st0 condWorkspaceReady) eqn:E; [|done].
      by specialize (Hready (kept_sticky _ _ Hk1 E)). }
    eapply total_then; [eauto with go|]. intros now1. apply set_condition_step.
    eapply total_then; [eauto with go|]. intros now2.
    apply returns_ret. eexists. split; [reflexivity|]. split_and!; [|split; [done|]|done|done].
    + apply kept_upsert; [|done]. apply kept_upsert; [done|by right].
    + rewrite !st_true_upsert. by rewrite decide_True, decide_False, decide_True.
Qed.

Lemma drive_actor_returns `{!Addressed I own} st0 st T gw a n now : own (mkObjectRef a n) → kept st0 st →
  returns I (drive_actor (with_st st T) gw a n now) (λ r, ∃ st',
    fst r = with_st st' T ∧ kept st0 st' ∧
    outcome (from_option ts_suspend false (task_spec T)) st0 st' (snd r) ∧
    st_actor st' = st_actor st ∧ st_id st' = st_id st ∧ from_option is_preparing false (snd r) = false).
Proof.
  intros Hown Hk. unfold drive_actor. eapply total_then; [by apply total_Apply|]. intros perr.
  apply (returns_bind _ _ (λ t, ∃ st1, t = with_st st1 T ∧ kept st0 st1 ∧ st_actor st1 = st_actor st ∧
    st_id st1 = st_id st)).
  { destruct perr; (apply returns_ret; eexists; split; [reflexivity|]; split_and!; [|done..];
      by apply kept_upsert). }
  intros t (st1 & -> & Hk1 & Ha & Hid).
  change (task_spec (with_st st1 T)) with (task_spec T).
  destruct (from_option ts_suspend false (task_spec T)) eqn:Hs.
  - eapply total_then; [by apply total_Suspend|]. intros [e|].
    + apply set_condition_step, set_status_step, returns_ret. eexists. split; [reflexivity|].
      split_and!; [|split; [done|]|done|done|done].
      * apply kept_phase. by apply kept_upsert.
      * rewrite st_true_phase, st_true_upsert. by rewrite decide_True.
    + apply set_status_step, set_condition_step, returns_ret. eexists. split; [reflexivity|].
      split_and!; [|split; [done|split; [|done]]|done|done|done].
      * apply kept_upsert; [|done]. by eapply kept_same.
      * rewrite st_true_upsert. by rewrite decide_True.
  - eapply returns_bind; [by apply Resume_addressed|]. intros [[ac ip]|e] Hip.
    + eapply returns_bind; [apply report_running_returns; [done|exact (Hip _ eq_refl)]|].
      intros t (st2 & -> & Hk2 & Ho & Ha2 & Hid2). apply returns_ret. exists st2.
      split_and!; [done|done|exact Ho|congruence|congruence|done].
    + apply set_condition_step, set_status_step, returns_ret. eexists. split; [reflexivity|].
      split_and!; [|split; [done|]|done|done|done].
      * apply kept_phase. by apply kept_upsert.
      * rewrite st_true_phase, st_true_upsert. by rewrite decide_True.
Qed.

(** A secret resolver that returns. *)
Definition resolver_total (r : TaskReconciler W) : Prop :=
  ∀ f, SecretResolver r = Some f → ∀ ns name key, total I (f ns name key).

Lemma total_lookupGeminiKey r a : resolver_total r → total I (lookupGeminiKey r a).
Proof.
  intros Hr. unfold lookupGeminiKey. destruct (SecretResolver r) as [f|] eqn:E; [|go_total].
  apply returns_assoc. eapply total_then; [by apply Hr|]. intros k. go_total.
Qed.
Lemma total_lookupModelAPIKey r a cfg : resolver_total r → total I (lookupModelAPIKey r a cfg).
Proof.
  intros Hr. unfold lookupModelAPIKey.
  destruct (cfg_secret_key cfg); [|go_total]. destruct (SecretResolver r) as [f|] eqn:E; [|go_total].
  apply returns_assoc. eapply total_then; [by apply Hr|]. intros k. go_total.
Qed.

Lemma launch_env_returns r a t m ws : resolver_total r →
  returns I (launch_env r a t m ws) (λ res, match res with
    | Ok _ => True
    | Err e => is_preparing e = true ∧ m ≠ None
    end).
Proof.
  intros Hr. unfold launch_env. cbv zeta.
  apply (returns_bind _ _ (λ res, match res with Ok _ => True | Err e => m ≠ None end)).
  - destruct m as [m|].
    + unfold injectModelEnvironment. destruct (yaml_Model m); [|by apply returns_ret]. cbv zeta.
      destruct (EffectiveBaseURL _); [|by apply returns_ret].
      eapply total_then; [by apply total_lookupModelAPIKey|]. intros k. case_decide; by apply returns_ret.
    + eapply total_then; [by apply total_lookupGeminiKey|]. intros k. by apply returns_ret.
  - intros [env|e] He; by apply returns_ret.
Qed.

Lemma total_choose_template r a n i env : total I (choose_template (W := W) r a n i env).
Proof.
  unfold choose_template. destruct (match cut _ _ with Some _ => _ | None => _ end).
  case_match; [|by apply returns_ret]. eapply total_then; [apply total_EnsureTemplate|].
  intros [tmpl err]. go_total; by apply returns_ret.
Qed.

Definition normal_meta (task : Task) : ObjectMeta :=
  let meta := default zero_ObjectMeta (task_metadata task) in
  om_set_atespace (default_atespace (om_atespace meta)) meta.
Definition normal_spec (task : Task) : TaskSpec :=
  let spec := default zero_TaskSpec (task_spec task) in
  if decide (ts_image spec = "") then ts_set_image DefaultTaskImage spec else spec.

(** Everything a reconciliation guarantees of its result. *)
Definition reconciled (task : Task) (m : option Model) (res : Task * option error) : Prop :=
  let T := normalize_task task in
  let st0 := default zero_TaskStatus (task_status task) in
  ∃ st, fst res = with_st st T ∧ kept st0 st ∧
    outcome (from_option ts_suspend false (task_spec T)) st0 st (snd res) ∧
    ((∃ e, snd res = Some (Errorf "ensuring atespace: %w" [AWrap e])) ∨
     st_actor st = from_option om_name "" (task_metadata task) ∧ st_id st ≠ "") ∧
    (from_option is_preparing false (snd res) = true → m ≠ None).

Lemma reconcile_returns `{!Addressed I own} r task gw m ws : resolver_total r →
  own (mkObjectRef (om_atespace (normal_meta task)) (om_name (normal_meta task))) →
  returns I (reconcile r task gw m ws) (reconciled task m).
Proof.
  intros Hr Hown. unfold reconcile. set (T := normalize_task task).
  set (st0 := default zero_TaskStatus (task_status task)).
  assert (kept st0 st0) as Hk by apply kept_refl. cbv zeta.
  set (meta := normal_meta task).
  apply (returns_pure meta). apply (returns_pure (normal_spec task)).
  eapply total_then; [eauto with go|]. intros now.
  eapply total_then; [apply total_EnsureAtespace|]. intros [e|].
  { apply (set_condition_step st0 T), set_status_step, returns_ret. eexists. split; [reflexivity|].
    split_and!; [|split; [done|]|left; by eexists|done].
    - apply kept_phase. by apply kept_upsert.
    - rewrite st_true_phase, st_true_upsert. by rewrite decide_True. }
  apply (set_status_step st0 T), set_status_step.
  set (st1 := if decide _ then _ else _).
  assert (st_conditions st1 = st_conditions st0 ∧ st_phase st1 = st_phase st0 ∧
    st_actor st1 = from_option om_name "" (task_metadata task) ∧ st_id st1 ≠ "") as (Hc1 & Hp1 & Ha1 & Hid1).
  { unfold st1, meta, normal_meta. destruct (task_metadata task); case_decide; by split_and!. }
  assert (kept st0 st1) as Hk1 by (by eapply kept_same).
  eapply returns_bind; [by apply launch_env_returns|]. intros [env|e] He.
  2:{ destruct He as [He Hm]. apply returns_ret. exists st1. cbn [fst snd from_option].
      split_and!; [done|done|by unfold outcome; rewrite He|by right|done]. }
  eapply total_then; [apply total_choose_template|]. intros [ta tn].
  eapply total_then; [by apply total_EnsureActor|]. intros [a [e|]].
  { apply set_condition_step, set_status_step, returns_ret. eexists. split; [reflexivity|].
    split_and!; [|split; [done|]|by right|done].
    - apply kept_phase. by apply kept_upsert.
    - rewrite st_true_phase, st_true_upsert. by rewrite decide_True. }
  eapply returns_weaken; [by apply (drive_actor_returns st0)|].
  intros [t' err] (st' & Ht' & Hk' & Ho & Ha' & Hid' & Hprep). exists st'.
  split_and!; [exact Ht'|done|exact Ho|right; split; congruence|]. cbn [snd] in *. congruence.
Qed.

(** C5: with a control plane that answers and names workers by addresses a request can be
    made to, a reconciliation returns, keeps whatever survives the calls about the
    task's own actor, and reports its outcome: a suspended task is Suspended, not Ready
    and without a worker; a running one is Running, and Ready exactly when its workspace
    is; after a failure the task is Failed and not Ready, except that a model
    configuration that cannot be prepared leaves the phase and every condition as they
    were. *)
Theorem reconcile_reports `{!Addressed I own} r task gw m ws : resolver_total r →
  own (mkObjectRef (om_atespace (normal_meta task)) (om_name (normal_meta task))) →
  returns I (reconcile r task gw m ws) (λ res, ∃ st, task_status (fst res) = Some st ∧
    outcome (from_option ts_suspend false (task_spec task))
      (default zero_TaskStatus (task_status task)) st (snd res)).
Proof.
  intros Hr Ho. eapply returns_weaken; [by apply reconcile_returns|].
  intros res (st & Hst & _ & Hout & _). exists st. rewrite Hst. split; [done|].
  replace (from_option ts_suspend false (task_spec task)) with
    (from_option ts_suspend false (task_spec (normalize_task task))); [done|].
  cbn. destruct (task_spec task) as [spec|]; cbn; by case_decide.
Qed.

(** C17: a reconciliation never takes WorkspaceReady back, never reports a condition type
    twice when none was before, and leaves metadata and specification alone up to the
    filled-in defaults; and it has named the actor after the task and given the task an
    id, unless the atespace could not be ensured. The control plane answers and names
    workers by addresses a request can be made to. *)
Theorem reconcile_keeps `{!Addressed I own} r task gw m ws : resolver_total r →
  own (mkObjectRef (om_atespace (normal_meta task)) (om_name (normal_meta task))) →
  let st0 := default zero_TaskStatus (task_status task) in
  returns I (reconcile r task gw m ws) (λ res, ∃ st,
    fst res = mkTask (task_api_version task) (task_kind task)
      (Some (normal_meta task)) (Some (normal_spec task)) (Some st) ∧
    (st_true st0 condWorkspaceReady = true → st_true st condWorkspaceReady = true) ∧
    (NoDup (cond_type <$> st_conditions st0) → NoDup (cond_type <$> st_conditions st)) ∧
    (st_actor st = om_name (normal_meta task) ∧ st_id st ≠ "" ∨
     ∃ e, snd res = Some (Errorf "ensuring atespace: %w" [AWrap e]))).
Proof.
  intros Hr Ho st0. eapply returns_weaken; [by apply reconcile_returns|].
  intros res (st & Hst & [Hsticky Hnd] & _ & Hactor & _). exists st.
  split_and!; [exact Hst|done|done|]. destruct Hactor as [He|[Ha Hid]]; [by right|left].
  split; [|done]. rewrite Ha. unfold normal_meta. by destruct (task_metadata task).
Qed.

(** An address no request can be made of makes the readiness check panic, as long as
    the workspace is not known to be ready: the error of NewRequest is ignored and Do
    reads the nil request. *)
Theorem unaddressable_worker_panics st T ip a n e s :
  ip ≠ "" → st_true st condWorkspaceReady = false → url_Parse (ready_url ip) = Err e →
  fst (report_running (W := W) (with_st st T) ip a n s) = Panic.
Proof.
  intros Hip Hw Hu.
  assert (Hawait : await_workspace (W := W) ip a n s = (Panic, s)).
  { unfold await_workspace, checkReady, client_Do, get_request. by rewrite Hu. }
  set (st1 := st_set_phase "Running" (st_set_worker_ip ip st)).
  unfold report_running. rewrite (bind_Ret _ _ s (with_st st1 T) s) by reflexivity. cbv zeta.
  change (conditionTrue (with_st st1 T) condWorkspaceReady) with (st_true st condWorkspaceReady). rewrite Hw.
  rewrite bool_decide_false by done. cbn [negb andb]. unfold bind at 1. by rewrite Hawait.
Qed.
End Returns.
