(* ===== verification/TemplateSpec.v ===== *)
(** The names of the templates a task is launched from: what they depend on, and
    that the pattern a deletion matches them with finds exactly the task's own. *)

From stdpp Require Import sorting.
From S2P Require Import Prelude GoStrings Types StoreApi Substrate ModelConfig Sha256 Reconciler.

(** ** Names *)

Lemma sorted_keys_range (r1 r2 : MapRange) env : @sorted_keys r1 env = @sorted_keys r2 env.
Proof.
  unfold sorted_keys. apply (StronglySorted_unique string_le);
    try (apply StronglySorted_merge_sort; apply _).
  rewrite !merge_sort_Permutation. by rewrite !map_range_perm.
Qed.

Lemma sapp_inj (a a' b b' : string) : String.length a = String.length a' →
  a +:+ b = a' +:+ b' → a = a' ∧ b = b'.
Proof.
  revert a'. induction a as [|c a IH]; intros [|c' a']; cbn; try done. intros [= Hl].
  intros H. injection H as -> H. destruct (IH _ Hl H) as [-> ->]. done.
Qed.

Lemma hex_length l : String.length (hex l) = (2 * length l)%nat.
Proof. induction l as [|b l IH]; [done|]. cbn [hex String.length length]. rewrite IH. lia. Qed.

Lemma hex_digit_lower n : (n < 16)%N → is_hex_lower (hex_digit n) = true.
Proof.
  intros Hn. assert (Hall : forallb (λ i, is_hex_lower (hex_digit (N.of_nat i))) (seq 0 16) = true)
    by (vm_compute; reflexivity).
  rewrite forallb_forall in Hall. rewrite <- (N2Nat.id n). apply Hall, in_seq. lia.
Qed.

Lemma hex_lower l : Forall (λ b, b < 256)%N l → sall is_hex_lower (hex l) = true.
Proof.
  induction 1 as [|b l Hb _ IH]; [done|]. cbn [hex sall].
  rewrite IH, !hex_digit_lower; [done|by apply N.mod_lt|].
  apply N.Div0.div_lt_upper_bound. lia.
Qed.

(** The digits at the end of a template name. *)
Definition template_digits `{!MapRange} (image : string) (env : gmap string string) : string :=
  hex (Z.to_N <$> take templateDigestBytes (Sum256 (byte_values (launch_text image env)))).

Lemma template_digits_length `{!MapRange} image env : String.length (template_digits image env) = 8%nat.
Proof.
  unfold template_digits. rewrite hex_length, length_fmap, length_take, length_Sum256. reflexivity.
Qed.
Lemma template_digits_lower `{!MapRange} image env : sall is_hex_lower (template_digits image env) = true.
Proof.
  apply hex_lower, Forall_fmap, Forall_take. eapply Forall_impl; [apply Sum256_range|].
  intros b [??]. change (Z.to_N b < 256)%N. lia.
Qed.

(** C19: the pattern that a deletion uses to find a task's templates matches every
    name the task's templates can have, whatever the image and the environment,
    and no template of any other task, even one whose name extends this one's. *)
Theorem taskTemplatePattern_own `{!MapRange} other taskName image env :
  taskTemplatePattern other (taskTemplateName taskName image env) = bool_decide (other = taskName).
Proof.
  unfold taskTemplatePattern. change (taskTemplateName taskName image env)
    with (taskName +:+ "-tmpl-" +:+ template_digits image env).
  rewrite <- sapp_assoc. case_bool_decide as Hn.
  - subst. rewrite strip_prefix_app, template_digits_length, template_digits_lower. done.
  - destruct (strip_prefix _ _) as [digits|] eqn:Hs; [|done].
    apply strip_prefix_Some in Hs. case_bool_decide as Hl; [|done]. exfalso. apply Hn.
    assert (String.length (taskName +:+ "-tmpl-") = String.length (other +:+ "-tmpl-")) as Hlen.
    { pose proof (f_equal String.length Hs) as He. rewrite !string_length_app, template_digits_length, Hl in He.
      rewrite !string_length_app. unfold templateDigestBytes in *. lia. }
    destruct (sapp_inj _ _ _ _ Hlen Hs) as [He _].
    symmetry. refine (proj1 (sapp_inj _ _ _ _ _ He)). rewrite !string_length_app in Hlen. lia.
Qed.

(** The name of a task's template is determined by the task's name, the image
    and the contents of the environment: the order in which Go happens to range
    over the map plays no part. *)
Theorem taskTemplateName_range (r1 r2 : MapRange) taskName image env :
  @taskTemplateName r1 taskName image env = @taskTemplateName r2 taskName image env.
Proof.
  unfold taskTemplateName, launch_text. by rewrite (sorted_keys_range r1 r2).
Qed.

(** The hashed text does not delimit keys and values, so two different
    environments can give one task the same template name: a variable whose
    value spells a separator, and two variables. *)
Theorem taskTemplateName_collides taskName image :
  let one := {["A" := "1;B=2"]} : gmap string string in
  let two := <["A" := "1"]> {["B" := "2"]} : gmap string string in
  one ≠ two ∧ taskTemplateName taskName image one = taskTemplateName taskName image two.
Proof.
  split.
  - intros H. by apply (f_equal (λ m : gmap string string, m !! "B")) in H.
  - unfold taskTemplateName, launch_text. reflexivity.
Qed.

(** Suspending or resuming a task and any change of its status leave the
    environment its template is built from, and so the template, as they are. *)
Theorem launch_env_ignores_status {W} `{!Environment, !ErrorText, !Yaml, !UnicodeTables, !URLs}
    (r : TaskReconciler W) a task m ws st b :
  launch_env r a (task_set_status st (task_set_spec (ts_set_suspend b <$> task_spec task) task)) m ws =
  launch_env r a task m ws.
Proof.
  unfold launch_env, launch_task. destruct task as [v k meta [spec|] st0]; [|done]. by destruct spec.
Qed.

(** ** Retrying a deletion *)

(** The error DeleteActorTemplate makes of a failed call. *)
Definition template_delete_error (a name : string) (e : error) : error :=
  Errorf "deleting actor template %s/%s: %w" [AStr a; AStr name; AWrap e].

(** The end of the context does not end the attempts to delete a template: the
    break in the select leaves the select only, so a call that keeps failing is
    made as often as without it, and the context's error is what is reported. *)
Theorem delete_template_ignores_cancel {W} `{!Control W, !Context W, !GrpcStatus}
    (n : nat) a name e ctxErr (f : W → W) s :
  (∀ s, ctl_DeleteActorTemplate (mkObjectRef a name) s = (Ret (Some e), f s)) →
  (∀ d s, ctx_wait d s = (Ret (Some ctxErr), s)) →
  status_is CodeNotFound e = false →
  status_is CodeNotFound (template_delete_error a name e) = false →
  delete_template (S n) a name None s = (Ret (Some ctxErr), Nat.iter (S n) f s).
Proof.
  intros Hdel Hctx He Hwrapped.
  assert (Hstep : ∀ n d s, delete_template (S n) a name d s = delete_template n a name (Some ctxErr) (f s)).
  { intros k d s1. cbn [delete_template]. unfold DeleteActorTemplate. rewrite bind_assoc.
    rewrite (bind_Ret _ _ _ _ _ (Hdel s1)), He, bind_ret_l.
    fold (template_delete_error a name e). by rewrite Hwrapped, (bind_Ret _ _ _ _ _ (Hctx _ _)). }
  generalize (None : option error). revert s.
  induction n as [|n IH]; intros s d; rewrite Hstep; [done|].
  rewrite IH. f_equal. by rewrite <- (Nat.iter_succ_r (S n)).
Qed.

(** A control plane that counts the deletions and refuses them all. *)
Section Witness.
#[local] Instance refusing : Control nat := {
  CreateAtespace _ := ret None; ctl_GetActorTemplate _ := ret (None, None);
  CreateActorTemplate _ := ret (None, None); ctl_ListActorTemplates _ := ret (Ok ([], ""));
  ctl_DeleteActorTemplate _ := λ s, (Ret (Some (ErrForeign 1)), S s);
  CreateActor _ := ret (None, None); GetActor _ := ret (None, None);
  ctl_DeleteActor _ _ := ret None; ctl_ResumeActor _ := ret (Ok None); ctl_SuspendActor _ := ret None;
  CreateActorEgressPolicy _ _ := ret None; GetActorEgressPolicy _ := ret (None, None);
  UpdateActorEgressPolicy _ _ := ret None;
}.
#[local] Instance cancelled : Context nat := {
  ctx_Err := ret (Some ErrCtx); ctx_wait _ := ret (Some ErrCtx);
}.
#[local] Instance plain_status : GrpcStatus := {
  status_Code e := match e with ErrStatus c _ _ => c | _ => CodeUnknown end;
  status_Code_status _ _ _ := eq_refl;
}.

Lemma delete_template_ignores_cancel_witness :
  delete_template 5 "ws" "job-tmpl-00000000" None 0%nat = (Ret (Some ErrCtx), 5%nat).
Proof.
  apply (delete_template_ignores_cancel 4 "ws" "job-tmpl-00000000" (ErrForeign 1) ErrCtx S 0%nat);
    vm_compute; reflexivity.
Defined.
End Witness.
