(* ===== verification/WorkerSpec.v ===== *)
(** What the worker guarantees over any store that keeps the contract
    [StoreLaws] and any control plane whose calls return and leave the store
    alone: how a task event ends up in the stored record. *)

From S2P Require Import Prelude GoStrings Types Bindings StoreApi Server ServerSpec Substrate.
From S2P Require Import ModelConfig Reconciler ReconcilerSpec Worker.

(** The states of the store that keep a condition and show a given view. *)
Definition kept {W} `{!Store W, !StoreLaws W} (F : W → Prop) (s : W) : Prop := s_inv s ∧ F s.
Definition at_view {W} `{!Store W, !StoreLaws W} (F : W → Prop) (v : StoreView) : W → Prop :=
  λ s, kept F s ∧ s_view s = v.

(** A condition on the rest of the system that the worker's calls keep: reading the
    store, writing a status and deleting a task there, and whatever the control plane
    is asked for, which lives apart from the store. *)
Class Framed {W : Type} `{!Store W, !StoreLaws W, !Control W, !Context W, !Http W, !Ticker W, !TimeNow W}
    (F : W → Prop) : Prop := {
  framed_GetTask s a n : kept F s → F (state_of (GetTask a n) s);
  framed_GetGateway s a n : kept F s → F (state_of (GetGateway a n) s);
  framed_GetWorkspace s a n : kept F s → F (state_of (GetWorkspace a n) s);
  framed_GetModel s a n : kept F s → F (state_of (GetModel a n) s);
  framed_UpdateTaskStatus s a n st : kept F s → F (state_of (UpdateTaskStatus a n st) s);
  framed_DeleteTask s a n : kept F s → F (state_of (DeleteTask a n) s);
  framed_plane v :: Responsive (at_view F v) (λ _, True) (λ _, True);
}.

Abbreviation anything := (λ _, True).
(** Workers a request can be made to, under such a condition. *)
Class Reaching {W : Type} `{!Store W, !StoreLaws W, !Control W, !URLs} (F : W → Prop) : Prop :=
  #[global] reaching v :: Addressed (at_view F v) anything.

(** A control plane that lives apart from the store. *)
Class Detached (W : Type) `{!Store W, !StoreLaws W, !Control W, !Context W, !Http W, !Ticker W, !TimeNow W}
    : Prop :=
  #[global] detached v :: Responsive (at_view anything v) (λ _, True) (λ _, True).
#[export] Instance detached_framed `{Detached W} : Framed (W := W) anything.
Proof. by split. Qed.

Section Frame.
Context {W : Type} `{!Store W, !StoreLaws W} {F : W → Prop}.

(** A call that runs as the contract says and keeps the condition. *)
Lemma framed_runs {A} (m : M W A) s r v :
  (s_inv s → runs_to s_inv s_view m s r v) → F (state_of m s) → kept F s →
  runs_to (kept F) s_view m s r v.
Proof.
  intros Hm HF [Hi _]. destruct (Hm Hi) as (s' & Hrun & Hi' & Hv). exists s'.
  unfold state_of in HF. rewrite Hrun in HF. by split_and!.
Qed.
Lemma runs_unframed {A} (m : M W A) s r v : runs_to (kept F) s_view m s r v → runs_to s_inv s_view m s r v.
Proof. intros (s' & ? & [? _] & ?). by exists s'. Qed.
Lemma kept_anything s : s_inv s → kept (W := W) anything s.
Proof. done. Qed.
End Frame.

Section Worker.
Context {W : Type} `{!Store W, !StoreLaws W, !EventQueue W, !Host W}.
Context `{!Control W, !Context W, !Http W, !Ticker W, !TimeNow W}.
Context `{!GrpcStatus, !Environment, !MapRange, !ErrorText, !Yaml, !UnicodeTables, !URLs}.

(** The record after the status of a reconciled task was written. *)
Definition settled (spec : TaskSpec) (err : option error) (st : TaskStatus) : Prop :=
  match err with
  | Some _ => st_phase st = "Failed"
  | None =>
      if ts_suspend spec then st_phase st = "Suspended" ∧ st_true st condReady = false
      else st_phase st = "Running" ∧ st_true st condReady = st_true st condWorkspaceReady
  end.

Definition with_task (key : string) (t : Task) (v : StoreView) : StoreView :=
  v_set_tasks (<[key := t]> (v_tasks v)) v.

(** ** Under a condition that is kept *)

Section Framed.
Context (F : W → Prop) `{!Framed F}.

Lemma framed_law_GetTask s a n : kept F s →
  runs_to (kept F) s_view (GetTask a n) s (found (v_tasks (s_view s) !! res_key a n)) (s_view s).
Proof. intros Hk. apply framed_runs; [apply law_GetTask|by apply framed_GetTask|done]. Qed.

Lemma runs_returns {A} (m : M W A) (f : StoreView → A) v :
  (∀ s, kept F s → runs_to (kept F) s_view m s (f (s_view s)) (s_view s)) →
  returns (at_view F v) m (λ a, a = f v).
Proof.
  intros Hm s [Hi <-]. destruct (Hm s Hi) as (s' & ? & ? & ?). by exists (f (s_view s)), s'.
Qed.

Lemma total_fetch_gateway v a ref : total (at_view F v) (fetch_gateway (W := W) a ref).
Proof.
  unfold fetch_gateway. destruct ref as [g|]; [|by apply returns_ret].
  case_decide; [|by apply returns_ret].
  eapply returns_bind; [|intros r _; by apply returns_ret].
  apply (runs_returns _ (λ v, found (v_gateways v !! res_key a (gr_name g)))).
  intros s Hs. apply framed_runs; [apply law_GetGateway|by apply framed_GetGateway|done].
Qed.

Lemma total_fetch_workspaces v a refs acc : total (at_view F v) (fetch_workspaces (W := W) a refs acc).
Proof.
  revert acc. induction refs as [|ref refs IH]; intros acc; cbn [fetch_workspaces]; [by apply returns_ret|].
  case_decide; [done|]. eapply returns_bind; [|intros r _; by apply IH].
  apply (runs_returns _ (λ v, found (v_workspaces v !! res_key a (wr_name ref)))).
  intros s Hs. apply framed_runs; [apply law_GetWorkspace|by apply framed_GetWorkspace|done].
Qed.

(** A secret resolver that lives apart from the store. *)
Definition resolver_framed (r : TaskReconciler W) : Prop :=
  ∀ v, resolver_total (I := at_view F v) r.

(** The status update at the end, for a record that is still there. *)
Lemma settle_runs v s (t : Task) m key st : at_view F v s → v_tasks v !! key = Some t →
  meta_key m = key →
  runs_to (kept F) s_view (UpdateTaskStatus (default_atespace (om_atespace m)) (om_name m) st) s None
    (with_task key (task_set_status st t) v).
Proof.
  intros [Hi <-] Ht <-. apply framed_runs; [intros Hinv|by apply framed_UpdateTaskStatus|done].
  pose proof (law_UpdateTaskStatus s (default_atespace (om_atespace m)) (om_name m) st Hinv) as Hu.
  rewrite res_key_default in Hu. fold (meta_key m) in Hu. rewrite Ht in Hu. apply Hu.
  unfold default_atespace. by case_decide.
Qed.

(** The end of processEvent: the status of the reconciled task is written. *)
Definition finish_event (meta : ObjectMeta) (task : Task) (err : option error) : M W (option error) :=
  match err with
  | Some e =>
      let! task := set_status (st_set_phase "Failed") task in
      let! _ := UpdateTaskStatus (om_atespace meta) (om_name meta) (task_status task) in
      ret (Some (Errorf "reconciling task %s/%s: %w" [AStr (om_atespace meta); AStr (om_name meta); AWrap e]))
  | None =>
      let! err := UpdateTaskStatus (om_atespace meta) (om_name meta) (task_status task) in
      match err with
      | Some e => ret (Some (Errorf "updating task status %s/%s: %w"
                    [AStr (om_atespace meta); AStr (om_name meta); AWrap e]))
      | None => ret None
      end
  end.

Lemma finish_runs spec v s t m key T st0 st err : at_view F v s → v_tasks v !! key = Some t →
  meta_key m = key → outcome (ts_suspend spec) st0 st err →
  ∃ err' st', settled spec err' st' ∧
    runs_to (kept F) s_view
      (finish_event (om_set_atespace (default_atespace (om_atespace m)) m) (with_st st T) err) s err'
      (with_task key (task_set_status (Some st') t) v).
Proof.
  intros Hs Ht Hkey Hout. destruct err as [e|].
  - exists (Some (Errorf "reconciling task %s/%s: %w"
        [AStr (default_atespace (om_atespace m)); AStr (om_name m); AWrap e])), (st_set_phase "Failed" st).
    split; [done|].
    destruct (settle_runs v s t m key (Some (st_set_phase "Failed" st)) Hs Ht Hkey)
      as (s' & Hu & Hi' & Hv').
    exists s'. split; [|done]. exact (bind_Ret _ _ _ _ _ Hu).
  - exists None, st. split.
    { cbn [outcome settled] in *. destruct (ts_suspend spec); naive_solver. }
    destruct (settle_runs v s t m key (Some st) Hs Ht Hkey) as (s' & Hu & Hi' & Hv').
    exists s'. split; [|done]. exact (bind_Ret _ _ _ _ _ Hu).
Qed.

(** What processEvent fetches before it reconciles. *)
Lemma fetches_run v s a gref refs : at_view F v s → ∃ gw wss s1 s2 s3,
  fetch_gateway a gref s = (Ret gw, s1) ∧ fetch_workspaces a refs [] s1 = (Ret wss, s2) ∧
  GetModel a DefaultModelResourceName s2 =
    (Ret (found (v_models v !! res_key a DefaultModelResourceName)), s3) ∧ at_view F v s3.
Proof.
  intros Hs. destruct (total_fetch_gateway v a gref s Hs) as (gw & s1 & Hgw & Hs1 & _).
  destruct (total_fetch_workspaces v a refs [] s1 Hs1) as (wss & s2 & Hwss & Hs2 & _).
  destruct (runs_returns (GetModel a DefaultModelResourceName)
    (λ v, found (v_models v !! res_key a DefaultModelResourceName)) v
    (λ s Hs, framed_runs _ _ _ _ (law_GetModel s _ _) (framed_GetModel s _ _ Hs) Hs) s2 Hs2) as (? & s3 & Hmod & Hs3 & ->).
  by exists gw, wss, s1, s2, s3.
Qed.

Lemma get_event_task s ev : kept F s → ∃ s1,
  GetTask (ev_atespace ev) (ev_name ev) s =
    (Ret (found (v_tasks (s_view s) !! res_key (ev_atespace ev) (ev_name ev))), s1) ∧
  at_view F (s_view s) s1.
Proof.
  intros Hi. destruct (framed_law_GetTask s (ev_atespace ev) (ev_name ev) Hi) as (s1 & ? & ? & ?).
  by exists s1.
Qed.

Lemma event_reconciles `{!Reaching F} w ev s t spec : resolver_framed (wk_reconciler w) →
  kept F s → ev_action ev ≠ "delete" →
  v_tasks (s_view s) !! res_key (ev_atespace ev) (ev_name ev) = Some t → task_spec t = Some spec →
  ∃ err st, settled spec err st ∧
    runs_to (kept F) s_view (processEvent w ev) s err
      (with_task (res_key (ev_atespace ev) (ev_name ev)) (task_set_status (Some st) t) (s_view s)).
Proof.
  intros Hr Hi Hact Ht Hspec. destruct (get_event_task s ev Hi) as (s1 & Hget & Hs1).
  rewrite Ht in Hget. set (v := s_view s) in *. set (key := res_key _ _) in *.
  destruct (law_filed s _ _ (proj1 Hi) Ht) as (m & Hm & Hkey & _).
  destruct (fetches_run v s1 (om_atespace m) (ts_gateway spec) (WorkspaceRefs (Some spec)) Hs1)
    as (gw & wss & s2 & s3 & s4 & Hgw & Hwss & Hmod & Hs4).
  set (mo := v_models v !! _) in *.
  destruct (reconcile_returns (I := at_view F v) (own := λ _, True) (old := λ _, True)
    (wk_reconciler w) t gw mo wss (Hr v) Logic.I s4 Hs4)
    as ([t' err] & s5 & Hrec & Hs5 & st & Hres & _ & Hout & _). cbn [fst snd] in Hres, Hout.
  assert (from_option ts_suspend false (task_spec (normalize_task t)) = ts_suspend spec) as Hst0.
  { cbn. rewrite Hspec. cbn. by case_decide. }
  rewrite Hst0 in Hout.
  destruct (finish_runs spec v s5 t m key (normalize_task t) _ st err Hs5 Ht Hkey Hout)
    as (err' & st' & Hsettled & s6 & Hfin & Hs6).
  exists err', st'. split; [done|]. exists s6. split; [|done]. rewrite <- Hfin.
  unfold processEvent. rewrite decide_False by done. rewrite (bind_Ret _ _ _ _ _ Hget).
  cbv beta iota. cbn [found]. rewrite Hspec, Hm, !bind_deref_Some, (bind_Ret _ _ _ _ _ Hgw),
    (bind_Ret _ _ _ _ _ Hwss), (bind_Ret _ _ _ _ _ Hmod).
  assert (match found mo with Ok x => Ok (Some x) | Err e => if errors_Is_NotFound e then Ok None else Err e end
    = Ok mo) as -> by by destruct mo.
  unfold ReconcileWithModel. rewrite (bind_Ret _ _ _ _ _ Hrec). cbv beta iota. rewrite Hres.
  change (task_metadata (with_st st (normalize_task t))) with (Some (normal_meta t)).
  rewrite bind_deref_Some. unfold normal_meta. by rewrite Hm.
Qed.


Lemma event_deletes w ev s : kept F s → ev_action ev = "delete" →
  let v := s_view s in
  ∃ cleanup s1 err, ReconcileDelete (ev_atespace ev) (ev_name ev) s = (Ret cleanup, s1) ∧
    (cleanup = None ↔ err = None) ∧
    runs_to (kept F) s_view (processEvent w ev) s err
      (match cleanup with
       | None => v_set_tasks (delete (res_key (ev_atespace ev) (ev_name ev)) (v_tasks v)) v
       | Some _ => v
       end).
Proof.
  intros Hi Hact v.
  destruct (total_ReconcileDelete (I := at_view F v) (own := λ _, True) (old := λ _, True)
    (ev_atespace ev) (ev_name ev) Logic.I (λ _ _, Logic.I) s (conj Hi eq_refl))
    as (cleanup & s1 & Hdel & [Hi1 Hv1] & _).
  exists cleanup, s1. unfold runs_to, processEvent. rewrite decide_True by done.
  rewrite (bind_Ret _ _ _ _ _ Hdel). destruct cleanup as [e|].
  - eexists. split; [done|]. split; [|by exists s1]. by split.
  - destruct (framed_runs _ _ _ _ (law_DeleteTask s1 (ev_atespace ev) (ev_name ev))
      (framed_DeleteTask s1 _ _ Hi1) Hi1) as (s2 & Hd & Hi2 & Hv2).
    exists None. split_and!; [done|done|]. exists s2.
    rewrite (bind_Ret _ _ _ _ _ Hd). by rewrite Hv2, Hv1.
Qed.

Lemma event_absent w ev s : kept F s → ev_action ev ≠ "delete" →
  v_tasks (s_view s) !! res_key (ev_atespace ev) (ev_name ev) = None →
  runs_to (kept F) s_view (processEvent w ev) s None (s_view s).
Proof.
  intros Hi Hact Ht. destruct (get_event_task s ev Hi) as (s1 & Hget & Hi1 & Hv1).
  rewrite Ht in Hget. exists s1. unfold processEvent. rewrite decide_False by done.
  by rewrite (bind_Ret _ _ _ _ _ Hget).
Qed.

Lemma event_specless w ev s t : kept F s → ev_action ev ≠ "delete" →
  v_tasks (s_view s) !! res_key (ev_atespace ev) (ev_name ev) = Some t → task_spec t = None →
  ∃ s', processEvent w ev s = (Panic, s') ∧ kept F s' ∧ s_view s' = s_view s.
Proof.
  intros Hi Hact Ht Hspec. destruct (get_event_task s ev Hi) as (s1 & Hget & Hi1 & Hv1).
  rewrite Ht in Hget. exists s1. unfold processEvent. rewrite decide_False by done.
  rewrite (bind_Ret _ _ _ _ _ Hget). cbv beta iota. cbn [found]. by rewrite Hspec, bind_deref_None.
Qed.

End Framed.

(** ** Properties *)

Section Detached.
Context `{!Detached W}.

(** A secret resolver that lives apart from the store. *)
Definition resolver_detached (r : TaskReconciler W) : Prop := resolver_framed anything r.

(** [event_deletes] where nothing is framed. *)
Lemma event_deletes_stored w ev s : s_inv s → ev_action ev = "delete" →
  let v := s_view s in
  ∃ cleanup s1 err, ReconcileDelete (ev_atespace ev) (ev_name ev) s = (Ret cleanup, s1) ∧
    (cleanup = None ↔ err = None) ∧
    runs_to s_inv s_view (processEvent w ev) s err
      (match cleanup with
       | None => v_set_tasks (delete (res_key (ev_atespace ev) (ev_name ev)) (v_tasks v)) v
       | Some _ => v
       end).
Proof.
  intros Hi Hact. destruct (event_deletes anything w ev s (kept_anything s Hi) Hact)
    as (cleanup & s1 & err & Hdel & Herr & Hrun).
  exists cleanup, s1, err. split; [done|]. split; [done|]. exact (runs_unframed _ _ _ _ Hrun).
Qed.

(** C2: an event that is not a deletion, about a stored task that has a specification,
    always ends with a status written to its record and with nothing else changed in
    the store: the phase is Failed when an error is reported, and otherwise Suspended
    or Running as the specification asks, Ready exactly when the workspace is and the
    task runs. The control plane names workers by addresses a request can be made to. *)
Theorem processEvent_settles `{!Reaching (W := W) anything} w ev s t spec : resolver_detached (wk_reconciler w) →
  s_inv s → ev_action ev ≠ "delete" →
  v_tasks (s_view s) !! res_key (ev_atespace ev) (ev_name ev) = Some t → task_spec t = Some spec →
  ∃ err st, settled spec err st ∧
    runs_to s_inv s_view (processEvent w ev) s err
      (with_task (res_key (ev_atespace ev) (ev_name ev)) (task_set_status (Some st) t) (s_view s)).
Proof.
  intros Hr Hi Hact Ht Hspec.
  destruct (event_reconciles anything w ev s t spec Hr (kept_anything s Hi) Hact Ht Hspec) as (err & st & Hset & Hrun).
  exists err, st. split; [done|]. exact (runs_unframed _ _ _ _ Hrun).
Qed.

(** C16: a delete event removes the record exactly when the cleanup on the control
    plane succeeded; when it failed the record stays as it was, so that the
    failure stays visible, and the error is reported. *)
Theorem processEvent_delete w ev s : s_inv s → ev_action ev = "delete" →
  let v := s_view s in
  ∃ cleanup s1 err, ReconcileDelete (ev_atespace ev) (ev_name ev) s = (Ret cleanup, s1) ∧
    (cleanup = None ↔ err = None) ∧
    runs_to s_inv s_view (processEvent w ev) s err
      (match cleanup with
       | None => v_set_tasks (delete (res_key (ev_atespace ev) (ev_name ev)) (v_tasks v)) v
       | Some _ => v
       end).
Proof. apply event_deletes_stored. Qed.

(** A task without a specification is accepted by the API and then makes the
    worker panic: it reads the gateway off the specification before the
    reconciler fills in an empty one. *)
Theorem specless_task_panics `{!TimeLaws W} w t m s :
  s_inv s → task_metadata t = Some m → om_name m ≠ "" → task_spec t = None →
  ∃ t' s1, srv_UpdateTask (Some (Some t)) s = (Ret (Ok t'), s1) ∧
    ∀ ev, ev_action ev ≠ "delete" → res_key (ev_atespace ev) (ev_name ev) = meta_key m →
      fst (processEvent w ev s1) = Panic.
Proof.
  intros Hi Hm Hn Hspec.
  assert (ValidateTask (Some t) = None) as Hval by (unfold ValidateTask; cbn; by rewrite Hspec).
  destruct (UpdateTask_runs s t m Hi Hval Hm Hn) as (c & (s1 & Hup & Hi1 & Hv1) & _).
  eexists _, s1. split; [exact Hup|]. intros ev Hact Hkey.
  edestruct (event_specless anything w ev s1) as (s' & -> & _); [by apply kept_anything|done| | |done].
  - rewrite Hkey, Hv1. apply lookup_insert_eq.
  - by rewrite saved_task_spec.
Qed.

(** ** The loop *)

(** Every stored task has a specification. *)
Definition specified : W → Prop :=
  λ s, s_inv s ∧ map_Forall (λ _ t, task_spec t ≠ None) (v_tasks (s_view s)).

Lemma event_specified `{!Reaching (W := W) anything} w ev : resolver_detached (wk_reconciler w) → total specified (processEvent w ev).
Proof.
  intros Hr s [Hi Hspec]. destruct (decide (ev_action ev = "delete")) as [Hd|Hd].
  - destruct (event_deletes_stored w ev s Hi Hd) as (cleanup & _ & err & _ & _ & s' & Hrun & Hi' & Hv').
    exists err, s'. split_and!; [done|split; [done|]|done]. rewrite Hv'.
    destruct cleanup; [done|]. by apply map_Forall_delete.
  - destruct (v_tasks (s_view s) !! res_key (ev_atespace ev) (ev_name ev)) as [t|] eqn:Ht.
    + destruct (task_spec t) as [spec|] eqn:Hts; [|by destruct (Hspec _ _ Ht)].
      destruct (event_reconciles anything w ev s t spec Hr (kept_anything s Hi) Hd Ht Hts)
        as (err & st & _ & s' & Hrun & [Hi' _] & Hv').
      exists err, s'. split_and!; [done|split; [done|]|done]. rewrite Hv'.
      apply map_Forall_insert_2; [|done]. cbn. by rewrite Hts.
    + destruct (event_absent anything w ev s (kept_anything s Hi) Hd Ht) as (s' & Hrun & [Hi' _] & Hv').
      exists None, s'. split_and!; [done|split; [done|]|done]. by rewrite Hv'.
Qed.

(** A queue whose calls return and that adds no records. *)
Class QueueLaws : Prop := {
  total_q_Subscribe g c : total specified (q_Subscribe (W := W) g c);
  total_q_Next sub : total specified (q_Next (W := W) sub);
  total_q_Ack sub ev : total specified (q_Ack (W := W) sub ev);
  total_q_Close sub : total specified (q_Close (W := W) sub);
  total_q_Err : total specified (ctx_Err (W := W));
  total_q_wait d : total specified (ctx_wait (W := W) d);
}.
#[local] Hint Resolve total_q_Subscribe total_q_Next total_q_Ack total_q_Close total_q_Err total_q_wait : go.

Lemma total_run_loop `{!QueueLaws, !Reaching (W := W) anything} n w sub : resolver_detached (wk_reconciler w) →
  total specified (run_loop n w sub).
Proof.
  intros Hr. revert sub. induction n as [|n IH]; intros sub; cbn [run_loop]; [by apply returns_ret|].
  eapply total_then; [eauto with go|]. intros [[ev|e] sub'].
  - eapply total_then; [by apply event_specified|]. intros _.
    eapply total_then; [eauto with go|]. intros _. apply IH.
  - repeat go_step; try done.
Qed.

(** C20: the controller's loop never panics and never gets stuck while every stored task
    has a specification and workers have addresses a request can be made to, whatever
    the queue delivers, the control plane answers and the events name; and every task
    it leaves stored still has a specification. *)
Theorem Run_safe `{!QueueLaws, !Reaching (W := W) anything} n w : resolver_detached (wk_reconciler w) → total specified (Run n w).
Proof.
  intros Hr. unfold Run. eapply total_then; [eauto with go|]. intros [sub|e]; [|by apply returns_ret].
  eapply total_then; [by apply total_run_loop|]. intros [e|]; [|by apply returns_ret].
  eapply total_then; [eauto with go|]. intros _. by apply returns_ret.
Qed.

End Detached.
End Worker.
