(* ===== verification/QueueSpec.v ===== *)
(** The controller over a queue that delivers: what a run of its loop makes of the
    stored tasks ([events_effect]), that [run_loop] does just that, and that every
    task an event names is settled once the queue is empty. *)

From S2P Require Import Prelude GoStrings Types Bindings StoreApi Server ServerSpec Substrate.
From S2P Require Import ModelConfig Reconciler ReconcilerSpec Worker WorkerSpec.

(** ** The effect of events on the stored resources *)

Definition ev_key (ev : TaskEvent) : string := res_key (ev_atespace ev) (ev_name ev).
Definition without_task (key : string) (v : StoreView) : StoreView :=
  v_set_tasks (delete key (v_tasks v)) v.

(** One event: the status of the task it names is settled; a task that is gone is
    left alone; a delete event removes the record, or leaves it when the cleanup
    failed. *)
Inductive event_effect (v : StoreView) (ev : TaskEvent) : StoreView → Prop :=
| effect_settled t spec err st : ev_action ev ≠ "delete" → v_tasks v !! ev_key ev = Some t →
    task_spec t = Some spec → settled spec err st →
    event_effect v ev (with_task (ev_key ev) (task_set_status (Some st) t) v)
| effect_absent : ev_action ev ≠ "delete" → v_tasks v !! ev_key ev = None → event_effect v ev v
| effect_removed : ev_action ev = "delete" → event_effect v ev (without_task (ev_key ev) v)
| effect_failed : ev_action ev = "delete" → event_effect v ev v.

Inductive events_effect : StoreView → list TaskEvent → StoreView → Prop :=
| effect_nil v : events_effect v [] v
| effect_cons v ev v1 evs v2 : event_effect v ev v1 → events_effect v1 evs v2 → events_effect v (ev :: evs) v2.

(** Every stored task has a specification. *)
Definition all_specified (v : StoreView) : Prop := map_Forall (λ _ t, task_spec t ≠ None) (v_tasks v).

Lemma effect_specified v ev v' : event_effect v ev v' → all_specified v → all_specified v'.
Proof.
  intros [t spec err st _ Ht Hs _| | |] Hv; [|done| |done].
  - apply map_Forall_insert_2; [|done]. cbn. by rewrite Hs.
  - by apply map_Forall_delete.
Qed.

(** An event changes no record but the one it names, and nothing but tasks. *)
Lemma effect_other v ev v' k : event_effect v ev v' → ev_key ev ≠ k → v_tasks v' !! k = v_tasks v !! k.
Proof. intros [] Hk; cbn; by rewrite ?lookup_insert_ne, ?lookup_delete_ne. Qed.
Lemma effect_rest v ev v' : event_effect v ev v' →
  v_gateways v' = v_gateways v ∧ v_workspaces v' = v_workspaces v ∧ v_models v' = v_models v.
Proof. by intros []. Qed.

Lemma effects_other v evs v' k : events_effect v evs v' → Forall (λ ev, ev_key ev ≠ k) evs →
  v_tasks v' !! k = v_tasks v !! k.
Proof.
  induction 1 as [|v ev v1 evs v2 Hev _ IH]; [done|]. intros [Hk Hks]%Forall_cons.
  by rewrite IH, (effect_other _ _ _ _ Hev Hk).
Qed.
Lemma effects_rest v evs v' : events_effect v evs v' →
  v_gateways v' = v_gateways v ∧ v_workspaces v' = v_workspaces v ∧ v_models v' = v_models v.
Proof.
  induction 1 as [|v ev v1 evs v2 Hev _ (-> & -> & ->)]; [done|]. by apply effect_rest in Hev.
Qed.

(** A record with a settled status. *)
Definition settled_as (t : Task) (spec : TaskSpec) (t' : option Task) : Prop :=
  ∃ err st, settled spec err st ∧ t' = Some (task_set_status (Some st) t).

(** A task named by events of which none deletes it is settled after them. *)
Lemma effects_settle v evs v' k t spec : events_effect v evs v' →
  v_tasks v !! k = Some t → task_spec t = Some spec →
  Forall (λ ev, ev_key ev = k → ev_action ev ≠ "delete") evs →
  Exists (λ ev, ev_key ev = k) evs → settled_as t spec (v_tasks v' !! k).
Proof.
  intros Heff. revert t. induction Heff as [|v ev v1 evs v2 Hev Hevs IH]; intros t Ht Hspec Hact Hex.
  { by apply Exists_nil in Hex. }
  apply Forall_cons in Hact as [Ha Hact]. apply Exists_cons in Hex.
  destruct (decide (ev_key ev = k)) as [Hk|Hk]; cycle 1.
  { destruct Hex as [?|Hex]; [done|]. apply (IH t); [|done|done|done].
    by rewrite (effect_other _ _ _ _ Hev Hk). }
  destruct Hev as [t0 spec0 err st _ Ht0 Hs0 Hset|_ Hnone|Hd|Hd]; rewrite Hk in *; try by destruct (Ha eq_refl).
  2: congruence.
  assert (t0 = t) as -> by congruence. assert (spec0 = spec) as -> by congruence.
  destruct (decide (Exists (λ ev, ev_key ev = k) evs)) as [Hmore|Hno].
  - destruct (IH (task_set_status (Some st) t)) as (err' & st' & Hset' & Hfin); [|done|done|done|].
    { cbn. by rewrite lookup_insert_eq. }
    exists err', st'. split; [done|]. by rewrite Hfin.
  - exists err, st. split; [done|]. rewrite (effects_other _ _ _ k Hevs).
    + cbn. by rewrite lookup_insert_eq.
    + by apply not_Exists_Forall in Hno; [|intros ?; apply _].
Qed.

(** ** The loop *)

Section Queue.
Context {W : Type} `{!Store W, !StoreLaws W, !EventQueue W, !Host W}.
Context `{!Control W, !Context W, !Http W, !Ticker W, !TimeNow W}.
Context `{!GrpcStatus, !Environment, !MapRange, !ErrorText, !Yaml, !UnicodeTables, !URLs}.

(** A state of the queue: [attached sub evs out s] says that the subscription is there,
    has [evs] still to hand out, and that of those it handed out [out] are not
    acknowledged yet. *)
Context (attached : q_subscription (W := W) → list TaskEvent → list TaskEvent → W → Prop).

(** A queue that hands out the events of a subscription in order and keeps them until
    they are acknowledged, and that the worker's other calls leave alone. *)
Class Delivering : Prop := {
  deliver_framed sub evs out :: Framed (attached sub evs out);
  deliver_Next sub ev evs out s : s_inv s → attached sub (ev :: evs) out s →
    ∃ sub' s', q_Next sub s = (Ret (Ok ev, sub'), s') ∧ s_inv s' ∧ s_view s' = s_view s
      ∧ attached sub' evs (ev :: out) s';
  deliver_none sub out s : s_inv s → attached sub [] out s →
    ∃ e sub' s', q_Next sub s = (Ret (Err e, sub'), s') ∧ s_inv s' ∧ s_view s' = s_view s
      ∧ attached sub' [] out s';
  deliver_Ack sub ev evs out s : s_inv s → attached sub evs (ev :: out) s →
    ∃ s', q_Ack sub ev s = (Ret None, s') ∧ s_inv s' ∧ s_view s' = s_view s ∧ attached sub evs out s';
}.

(** A store that queues the reconcile event of every task it saves, and the delete
    event of every task it marks for deletion, as long as there is room. *)
Class Publishing (room : list TaskEvent → Prop) : Prop := {
  publish_delivering :: Delivering;
  publish_SaveTask sub evs out s t m : s_inv s → attached sub evs out s → room evs →
    task_metadata t = Some m → om_name m ≠ "" →
    ∃ ev s', SaveTask t s = (Ret (None, saved_task t), s') ∧ s_inv s'
      ∧ s_view s' = with_task (meta_key m) (saved_task t) (s_view s)
      ∧ attached sub (evs ++ [ev]) out s' ∧ ev_key ev = meta_key m ∧ ev_action ev = "reconcile";
  publish_MarkTaskDeleting sub evs out s a n t : s_inv s → attached sub evs out s → room evs →
    v_tasks (s_view s) !! res_key a n = Some t →
    ∃ ev s', MarkTaskDeleting a n s = (Ret None, s') ∧ s_inv s'
      ∧ s_view s' = with_task (res_key a n) (marked_deleting t) (s_view s)
      ∧ attached sub (evs ++ [ev]) out s' ∧ ev_key ev = res_key a n ∧ ev_action ev = "delete";
  publish_absent sub evs out s a n : s_inv s → attached sub evs out s →
    v_tasks (s_view s) !! res_key a n = None →
    ∃ s', MarkTaskDeleting a n s = (Ret (Some ErrNotFound), s') ∧ s_inv s'
      ∧ s_view s' = s_view s ∧ attached sub evs out s';
}.

Section Delivering.
Context `{!Delivering, workers : !∀ sub evs out, Reaching (attached sub evs out)}.

(** A secret resolver that leaves the store and the queue alone. *)
Definition resolver_apart (r : TaskReconciler W) : Prop :=
  ∀ sub evs out, resolver_framed (attached sub evs out) r.

Lemma event_runs w sub ev evs out s : resolver_apart (wk_reconciler w) →
  s_inv s → all_specified (s_view s) → attached sub evs out s →
  ∃ err s', processEvent w ev s = (Ret err, s') ∧ s_inv s' ∧ attached sub evs out s'
    ∧ event_effect (s_view s) ev (s_view s').
Proof.
  intros Hr Hi Hspec Hp. set (F := attached sub evs out). assert (Hk : kept F s) by done.
  destruct (decide (ev_action ev = "delete")) as [Hd|Hd].
  - destruct (event_deletes F w ev s Hk Hd) as (cleanup & _ & err & _ & _ & s' & Hrun & [Hi' Hp'] & Hv').
    exists err, s'. split_and!; [done..|]. rewrite Hv'. destruct cleanup; by constructor.
  - destruct (v_tasks (s_view s) !! ev_key ev) as [t|] eqn:Ht.
    + destruct (task_spec t) as [spec|] eqn:Hts; [|by destruct (Hspec _ _ Ht)].
      destruct (event_reconciles F w ev s t spec (Hr sub evs out) Hk Hd Ht Hts)
        as (err & st & Hset & s' & Hrun & [Hi' Hp'] & Hv').
      exists err, s'. split_and!; [done..|]. rewrite Hv'. by eapply effect_settled.
    + destruct (event_absent F w ev s Hk Hd Ht) as (s' & Hrun & [Hi' Hp'] & Hv').
      exists None, s'. split_and!; [done..|]. rewrite Hv'. by apply effect_absent.
Qed.

Lemma run_loop_effects w evs out n sub s : resolver_apart (wk_reconciler w) →
  s_inv s → all_specified (s_view s) → attached sub evs out s →
  ∃ sub' s', run_loop (length evs + n) w sub s = run_loop n w sub' s' ∧ s_inv s' ∧ attached sub' [] out s'
    ∧ events_effect (s_view s) evs (s_view s').
Proof.
  intros Hr. revert sub s. induction evs as [|ev evs IH]; intros sub s Hi Hspec Hp.
  { exists sub, s. split_and!; [done..|constructor]. }
  destruct (deliver_Next sub ev evs out s Hi Hp) as (sub1 & s1 & Hnext & Hi1 & Hv1 & Hp1).
  rewrite <- Hv1 in Hspec |- *.
  destruct (event_runs w sub1 ev evs (ev :: out) s1 Hr Hi1 Hspec Hp1) as (err & s2 & Hev & Hi2 & Hp2 & Heff).
  destruct (deliver_Ack sub1 ev evs out s2 Hi2 Hp2) as (s3 & Hack & Hi3 & Hv3 & Hp3).
  destruct (IH sub1 s3 Hi3) as (sub' & s' & Hrun & Hi' & Hp' & Heffs).
  { rewrite Hv3. by eapply effect_specified. }
  { exact Hp3. }
  exists sub', s'. split; [|split; [done|]; split; [done|by eapply effect_cons; [exact Heff|rewrite <- Hv3]]].
  cbn [length Nat.add run_loop].
  rewrite (bind_Ret _ _ _ _ _ Hnext). cbv beta iota. rewrite (bind_Ret _ _ _ _ _ Hev), (bind_Ret _ _ _ _ _ Hack).
  exact Hrun.
Qed.

(** C7: while every stored task has a specification and workers have addresses a request
    can be made to, the loop of the controller does what the specification of events
    says: it handles the events that are pending, in order and each once, with the
    effect of each on the stored resources, acknowledges them whatever came of them, so
    that just those handed out before are left unacknowledged, and goes on with an
    empty queue. *)
Theorem run_loop_refines w evs out n sub s : resolver_apart (wk_reconciler w) →
  s_inv s → all_specified (s_view s) → attached sub evs out s →
  ∃ sub' s', run_loop (length evs + n) w sub s = run_loop n w sub' s' ∧ s_inv s' ∧ attached sub' [] out s'
    ∧ events_effect (s_view s) evs (s_view s').
Proof. apply run_loop_effects. Qed.

(** Once the controller has had a turn for every pending event, each stored task
    that was named by an event and not deleted is settled: its record is the one that
    was stored with a status that is Failed, Suspended or Running as the specification
    asks. Tasks no event names, and all other resources, are what they were. *)
Theorem queue_drained w evs out sub s : resolver_apart (wk_reconciler w) →
  s_inv s → all_specified (s_view s) → attached sub evs out s →
  ∃ s', run_loop (length evs) w sub s = (Ret None, s') ∧ s_inv s'
    ∧ (∀ k t spec, v_tasks (s_view s) !! k = Some t → task_spec t = Some spec →
         Exists (λ ev, ev_key ev = k) evs → Forall (λ ev, ev_key ev = k → ev_action ev ≠ "delete") evs →
         settled_as t spec (v_tasks (s_view s') !! k))
    ∧ (∀ k, Forall (λ ev, ev_key ev ≠ k) evs → v_tasks (s_view s') !! k = v_tasks (s_view s) !! k)
    ∧ v_gateways (s_view s') = v_gateways (s_view s) ∧ v_workspaces (s_view s') = v_workspaces (s_view s)
    ∧ v_models (s_view s') = v_models (s_view s).
Proof.
  intros Hr Hi Hspec Hp.
  destruct (run_loop_effects w evs out 0 sub s Hr Hi Hspec Hp) as (sub' & s' & Hrun & Hi' & _ & Heff).
  exists s'. rewrite Nat.add_0_r in Hrun. split; [exact Hrun|]. split; [done|]. split; [|split].
  - intros k t spec Ht Hs Hex Hact. by eapply effects_settle.
  - intros k Hk. by eapply effects_other.
  - by apply (effects_rest _ _ _ Heff).
Qed.

End Delivering.

(** ** From an update to its record *)

Section Publishing.
Context (room : list TaskEvent → Prop) `{!Publishing room, workers : !∀ sub evs out, Reaching (attached sub evs out)}.

Lemma lookup_framed F `{!Framed F} v a n :
  returns (at_view F v) (GetTask a n) (λ r, r = found (v_tasks v !! res_key a n)).
Proof.
  apply (runs_returns F _ (λ v, found (v_tasks v !! res_key a n))). intros s. by apply framed_law_GetTask.
Qed.

Lemma existing_framed F `{!Framed F} v a n :
  total (at_view F v) (existing_of (S := W) GetTask task_metadata a n).
Proof.
  unfold existing_of. eapply total_then; [|intros r; by apply returns_ret].
  eapply returns_weaken; [by apply lookup_framed|done].
Qed.

(** Completing the metadata of a request only reads. *)
Lemma defaultMetadata_framed F `{!Framed F} v m :
  returns (at_view F v) (defaultMetadata (S := W) (Some m) (existing_of GetTask task_metadata))
    (λ meta, ∃ c, meta = completed c m).
Proof.
  unfold defaultMetadata. cbv zeta. change (default zero_ObjectMeta (Some m)) with m.
  set (m' := if decide (om_atespace m = "") then om_set_atespace "default" m else m).
  assert (Hfill : ∀ c, om_set_creation (Some c) m' = completed c m).
  { intros c. unfold m', completed, saved_meta, default_atespace. destruct m as [n a cr]. cbn. by case_decide. }
  destruct (om_creation m') as [c|] eqn:Hc.
  { apply returns_ret. exists c. rewrite <- Hfill. unfold om_set_creation. destruct m' as [n a cr]. cbn in *. by subst. }
  eapply total_then; [by apply existing_framed|]. intros prev.
  destruct (prev ≫= om_creation) as [c|]; [apply returns_ret; by exists c|].
  eapply total_then; [apply total_time_Now|]. intros now. apply returns_ret. by exists now.
Qed.

(** An accepted update stores the task and queues its reconcile event. *)
Lemma UpdateTask_publishes sub evs out s t m :
  s_inv s → attached sub evs out s → room evs →
  ValidateTask (Some t) = None → task_metadata t = Some m → om_name m ≠ "" →
  ∃ c ev s', let t' := saved_task (task_set_metadata (Some (completed c m)) t) in
    srv_UpdateTask (Some (Some t)) s = (Ret (Ok t'), s') ∧ s_inv s' ∧
    s_view s' = with_task (meta_key m) t' (s_view s) ∧
    attached sub (evs ++ [ev]) out s' ∧ ev_key ev = meta_key m ∧ ev_action ev = "reconcile".
Proof.
  intros Hi Hq Hroom Hval Hm Hn. unfold srv_UpdateTask. rewrite Hval, Hm.
  destruct (defaultMetadata_framed (attached sub evs out) (s_view s) m s) as (meta & s1 & Hrun & [[Hi1 Hq1] Hv1] & c & ->).
  { done. }
  destruct (publish_SaveTask sub evs out s1 (task_set_metadata (Some (completed c m)) t) (completed c m) Hi1 Hq1 Hroom
    eq_refl Hn) as (ev & s2 & Hsave & Hi2 & Hv2 & Hq2 & Hkey & Hact).
  exists c, ev, s2. cbv zeta. rewrite completed_key in Hv2, Hkey. rewrite Hv1 in Hv2.
  split_and!; [by mstep|done..].
Qed.

(** The controller's turns for the queued events and for that of an update settle the
    record of the update. *)
Lemma update_run w sub evs out s t m spec : resolver_apart (wk_reconciler w) →
  s_inv s → all_specified (s_view s) → attached sub evs out s → room evs →
  ValidateTask (Some t) = None → task_metadata t = Some m → om_name m ≠ "" → task_spec t = Some spec →
  Forall (λ ev, ev_key ev = meta_key m → ev_action ev ≠ "delete") evs →
  ∃ t' s1 sub' s2 s3 err st,
    srv_UpdateTask (Some (Some t)) s = (Ret (Ok t'), s1) ∧ task_spec t' = Some spec ∧
    run_loop (length evs + 1) w sub s1 = (Ret None, s2) ∧ attached sub' [] out s2 ∧
    srv_GetTask (Some (mkNameRequest (om_atespace m) (om_name m))) s2 =
      (Ret (Ok (task_set_status (Some st) t')), s3) ∧
    settled spec err st.
Proof.
  intros Hr Hi Hall Hq Hroom Hval Hm Hn Hspec Hdel.
  destruct (UpdateTask_publishes sub evs out s t m Hi Hq Hroom Hval Hm Hn)
    as (c & ev & s1 & Hup & Hi1 & Hv1 & Hq1 & Hkey & Hact).
  set (t' := saved_task _) in *.
  assert (Hspec' : task_spec t' = Some spec) by (etrans; [apply saved_task_spec|exact Hspec]).
  destruct (run_loop_effects w (evs ++ [ev]) out 0 sub s1 Hr Hi1) as (sub' & s2 & Hrun & Hi2 & Hq2 & Heff).
  { rewrite Hv1. apply map_Forall_insert_2; [by rewrite Hspec'|exact Hall]. }
  { exact Hq1. }
  destruct (effects_settle _ _ _ (meta_key m) t' spec Heff) as (err & st & Hset & Hrec); [|done|..].
  { rewrite Hv1. apply lookup_insert_eq. }
  { apply Forall_app. split; [exact Hdel|]. repeat constructor. by rewrite Hact. }
  { apply Exists_app. right. by apply Exists_cons_hd. }
  destruct (srv_GetTask_runs s2 (om_atespace m) (om_name m) Hi2) as (s3 & Hget & _).
  exists t', s1, sub', s2, s3, err, st. split_and!; [exact Hup|done| |done| |done].
  - rewrite length_app, Nat.add_0_r in Hrun. exact Hrun.
  - rewrite Hget. change (res_key (om_atespace m) (om_name m)) with (meta_key m). by rewrite Hrec.
Qed.

(** C4: an accepted update of a named task with a specification, with room in the queue
    and no deletion of the task pending, ends in a settled record: once the controller
    has had its turns for the events queued so far and for this one, all of them are
    acknowledged, and a read of the task returns exactly what was stored, with a status
    that is Failed, Suspended or Running as its specification asks. Every stored task
    has a specification and workers have addresses a request can be made to. *)
Theorem update_settles w sub evs out s t m spec : resolver_apart (wk_reconciler w) →
  s_inv s → all_specified (s_view s) → attached sub evs out s → room evs →
  ValidateTask (Some t) = None → task_metadata t = Some m → om_name m ≠ "" → task_spec t = Some spec →
  Forall (λ ev, ev_key ev = meta_key m → ev_action ev ≠ "delete") evs →
  ∃ t' s1 sub' s2 s3 err st,
    srv_UpdateTask (Some (Some t)) s = (Ret (Ok t'), s1) ∧ task_spec t' = Some spec ∧
    run_loop (length evs + 1) w sub s1 = (Ret None, s2) ∧ attached sub' [] out s2 ∧
    srv_GetTask (Some (mkNameRequest (om_atespace m) (om_name m))) s2 =
      (Ret (Ok (task_set_status (Some st) t')), s3) ∧
    settled spec err st.
Proof. apply update_run. Qed.

End Publishing.
End Queue.
