(* ===== verification/SystemSpec.v ===== *)
(** The API server and the controller as one system: calls of users, turns of the
    controller and what goes on elsewhere in any order, as a step relation over the
    shared store; the invariant that no accepted change is forgotten, and that the
    controller catches up from wherever the system is. *)

From S2P Require Import Prelude GoStrings Types Bindings StoreApi Server ServerSpec Substrate.
From S2P Require Import ModelConfig Reconciler ReconcilerSpec Worker WorkerSpec QueueSpec.

(** What users ask of the API server about tasks. *)
Inductive Call :=
| CallUpdate (t : Task)
| CallSuspend (req : NameRequest)
| CallResume (req : NameRequest)
| CallDelete (req : NameRequest)
| CallGet (req : NameRequest).

(** Updates are of named tasks with a specification, as manifests give them. *)
Definition proper (c : Call) : Prop :=
  match c with
  | CallUpdate t => task_spec t ≠ None ∧ ∃ m, task_metadata t = Some m ∧ om_name m ≠ ""
  | _ => True
  end.

(** ** What a call does to the stored tasks and to the pending events *)

Inductive call_effect (v : StoreView) (evs : list TaskEvent) : StoreView → list TaskEvent → Prop :=
| call_reads : call_effect v evs v evs
| call_saves key t ev : task_spec t ≠ None → ev_key ev = key → ev_action ev = "reconcile" →
    call_effect v evs (with_task key t v) (evs ++ [ev])
| call_marks key t ev : v_tasks v !! key = Some t → ev_key ev = key → ev_action ev = "delete" →
    call_effect v evs (with_task key (marked_deleting t) v) (evs ++ [ev]).

(** A stored task is accounted for when the controller will get to it, when its status
    is settled, or when it is being deleted. *)
Definition at_rest (t : Task) : Prop :=
  ∃ spec st, task_spec t = Some spec ∧ task_status t = Some st
    ∧ (st_phase st = PhaseTerminating ∨ ∃ err, settled spec err st).
Definition accounted (evs : list TaskEvent) (k : string) (t : Task) : Prop :=
  Exists (λ ev, ev_key ev = k ∧ ev_action ev ≠ "delete") evs ∨ at_rest t.
Definition all_accounted (v : StoreView) (evs : list TaskEvent) : Prop :=
  all_specified v ∧ map_Forall (accounted evs) (v_tasks v).

Lemma accounted_snoc evs ev k t : accounted evs k t → accounted (evs ++ [ev]) k t.
Proof. intros [Hex|Hr]; [left; apply Exists_app; by left|by right]. Qed.

Lemma call_accounted v evs v' evs' : call_effect v evs v' evs' → all_accounted v evs → all_accounted v' evs'.
Proof.
  intros [|key t ev Hspec Hk Ha|key t ev Ht Hk Ha] [Hs Hall]; [done|split..].
  - by apply map_Forall_insert_2.
  - apply map_Forall_insert_2; [left; apply Exists_app; right; apply Exists_cons_hd; by rewrite Ha|].
    eapply map_Forall_impl; [exact Hall|]. intros k t'. apply accounted_snoc.
  - apply map_Forall_insert_2; [exact (Hs _ _ Ht)|done].
  - apply map_Forall_insert_2.
    + right. destruct (task_spec t) as [spec|] eqn:Hspec; [|by destruct (Hs _ _ Ht)].
      exists spec. eexists. split_and!; [exact Hspec|done|by left].
    + eapply map_Forall_impl; [exact Hall|]. intros k t'. apply accounted_snoc.
Qed.

Lemma event_accounted v ev evs v' : event_effect v ev v' → all_accounted v (ev :: evs) → all_accounted v' evs.
Proof.
  intros Hev [Hs Hall]. split; [by eapply effect_specified|]. intros k t' Ht'.
  destruct (decide (ev_key ev = k)) as [Hk|Hk]; cycle 1.
  { rewrite (effect_other _ _ _ _ Hev Hk) in Ht'. destruct (Hall k t' Ht') as [Hex|Hr]; [left|by right].
    apply Exists_cons in Hex as [[? _]|Hex]; done. }
  destruct Hev as [t spec err st Hd Ht Hspec Hset|Hd Hnone|Hd|Hd]; cbn in Ht'; rewrite ?Hk in *.
  - rewrite lookup_insert_eq in Ht'. injection Ht' as <-. right. exists spec, st.
    split_and!; [exact Hspec|done|right; by exists err].
  - congruence.
  - by rewrite lookup_delete_eq in Ht'.
  - destruct (Hall k t' Ht') as [Hex|Hr]; [left|by right].
    apply Exists_cons in Hex as [[_ ?]|Hex]; done.
Qed.

(** ** The system *)

Section System.
Context {W : Type} `{!Store W, !StoreLaws W, !EventQueue W, !Host W}.
Context `{!Control W, !Context W, !Http W, !Ticker W, !TimeNow W}.
Context `{!GrpcStatus, !Environment, !MapRange, !ErrorText, !Yaml, !UnicodeTables, !URLs}.
Context (attached : q_subscription (W := W) → list TaskEvent → list TaskEvent → W → Prop).
Context (room : list TaskEvent → Prop) `{!Publishing attached room}.
Context {workers : ∀ sub evs out, Reaching (attached sub evs out)}.

Definition served (c : Call) : M W unit :=
  match c with
  | CallUpdate t => let! _ := srv_UpdateTask (Some (Some t)) in ret tt
  | CallSuspend req => let! _ := srv_SuspendTask (Some req) in ret tt
  | CallResume req => let! _ := srv_ResumeTask (Some req) in ret tt
  | CallDelete req => let! _ := srv_DeleteTask (Some req) in ret tt
  | CallGet req => let! _ := srv_GetTask (Some req) in ret tt
  end.

(** A call, while there is room for its event; a turn of the controller, with an event
    or without; and anything else that leaves tasks and events alone: other resources,
    other watchers, the control plane. A call and a turn are one step each. *)
Inductive system_step (w : Worker) : q_subscription * W → q_subscription * W → Prop :=
| step_call c sub s s' : proper c → (∀ evs out, attached sub evs out s → room evs) →
    served c s = (Ret tt, s') → system_step w (sub, s) (sub, s')
| step_turn sub s ev sub1 s1 err s2 aerr s3 : q_Next sub s = (Ret (Ok ev, sub1), s1) →
    processEvent w ev s1 = (Ret err, s2) → q_Ack sub1 ev s2 = (Ret aerr, s3) →
    system_step w (sub, s) (sub1, s3)
| step_wait sub s e sub1 s1 : q_Next sub s = (Ret (Err e, sub1), s1) → system_step w (sub, s) (sub1, s1)
| step_rest sub s s' : s_inv s' → v_tasks (s_view s') = v_tasks (s_view s) →
    (∀ evs out, attached sub evs out s → attached sub evs out s') → system_step w (sub, s) (sub, s').

(** *** Calls *)

(** Suspending and resuming save the stored task with its specification. *)
Lemma resaved sub evs out s a n t f : s_inv s → attached sub evs out s → room evs →
  v_tasks (s_view s) !! res_key a n = Some t →
  ∃ t' ev s', SaveTask (task_set_spec (Some f) t) s = (Ret (None, t'), s') ∧ s_inv s'
    ∧ s_view s' = with_task (res_key a n) t' (s_view s) ∧ task_spec t' ≠ None
    ∧ attached sub (evs ++ [ev]) out s' ∧ ev_key ev = res_key a n ∧ ev_action ev = "reconcile".
Proof.
  intros Hi Hq Hroom Ht. destruct (law_filed s _ t Hi Ht) as (m & Hm & Hk & Hn).
  destruct (publish_SaveTask attached sub evs out s (task_set_spec (Some f) t) m Hi Hq Hroom Hm Hn)
    as (ev & s' & Hsave & Hi' & Hv' & Hq' & Hkey & Hact). rewrite Hk in *.
  exists (saved_task (task_set_spec (Some f) t)), ev, s'. split_and!; try done. by rewrite saved_task_spec.
Qed.

(** The calls of a handler, one after the other. *)
Ltac serve := do 3 (rewrite ?bind_assoc; mstep; cbv beta iota).
Ltac switched_to s evs out sub a n Hkept Hroom b :=
  destruct (framed_law_GetTask (attached sub evs out) s (default_atespace a) n Hkept) as (s1 & Hget & [Hi1 Hq1] & Hv1);
  rewrite res_key_default in Hget; unfold srv_SuspendTask, srv_ResumeTask; cbn [req_atespace req_name]; cbv zeta;
  fold (default_atespace a); rewrite <- Hv1 in Hget |- *;
  destruct (v_tasks (s_view s1) !! res_key a n) as [t|] eqn:Ht; cbn [found] in Hget;
  [destruct (resaved sub evs out s1 a n t (ts_set_suspend b (default zero_TaskSpec (task_spec t))) Hi1 Hq1 Hroom Ht)
     as (t' & ev & s' & Hsave & Hi' & Hv' & Hs' & Hq' & Hkey & Hact);
   exists s', (evs ++ [ev]); (split_and!; [by serve|done|done|rewrite Hv'; by eapply call_saves])
  |exists s1, evs; (split_and!; [by serve|done|done|constructor])].

Lemma served_effect c sub evs out s : proper c → s_inv s → attached sub evs out s → room evs →
  ∃ s' evs', served c s = (Ret tt, s') ∧ s_inv s' ∧ attached sub evs' out s'
    ∧ call_effect (s_view s) evs (s_view s') evs'.
Proof.
  intros Hc Hi Hq Hroom. pose proof (conj Hi Hq : kept (attached sub evs out) s) as Hkept.
  destruct c as [t|[a n]|[a n]|[a n]|[a n]]; cbn [served].
  - destruct Hc as [Hspec (m & Hm & Hn)]. destruct (ValidateTask (Some t)) as [e|] eqn:Hval.
    { exists s, evs. split_and!; [|done..|constructor]. unfold srv_UpdateTask. rewrite Hval. by mstep. }
    destruct (UpdateTask_publishes attached room sub evs out s t m Hi Hq Hroom Hval Hm Hn)
      as (c & ev & s' & Hup & Hi' & Hv' & Hq' & Hkey & Hact).
    exists s', (evs ++ [ev]). split_and!; [by rewrite (bind_Ret _ _ _ _ _ Hup)|done|done|].
    rewrite Hv'. eapply call_saves; [rewrite saved_task_spec; exact Hspec|exact Hkey|exact Hact].
  - switched_to s evs out sub a n Hkept Hroom true.
  - switched_to s evs out sub a n Hkept Hroom false.
  - unfold srv_DeleteTask. cbn [req_atespace req_name]. cbv zeta. fold (default_atespace a).
    destruct (v_tasks (s_view s) !! res_key a n) as [t|] eqn:Ht.
    + rewrite <- (res_key_default a n) in Ht.
      destruct (publish_MarkTaskDeleting attached sub evs out s (default_atespace a) n t Hi Hq Hroom Ht)
        as (ev & s' & Hm & Hi' & Hv' & Hq' & Hkey & Hact).
      exists s', (evs ++ [ev]). split_and!; [by serve|done|done|rewrite Hv'; by eapply call_marks].
    + rewrite <- (res_key_default a n) in Ht.
      destruct (publish_absent attached sub evs out s (default_atespace a) n Hi Hq Ht) as (s' & Hm & Hi' & Hv' & Hq').
      exists s', evs. split_and!; [by serve|done|done|rewrite Hv'; constructor].
  - destruct (framed_law_GetTask (attached sub evs out) s (default_atespace a) n Hkept) as (s1 & Hget & [Hi1 Hq1] & Hv1).
    unfold srv_GetTask. cbn [req_atespace req_name]. cbv zeta. fold (default_atespace a).
    exists s1, evs. rewrite Hv1. split_and!; [|done|done|constructor].
    destruct (_ !! _); cbn [found] in Hget; by serve.
Qed.

(** *** Steps *)

(** A subscription and a state in which everything is accounted for. *)
Definition consistent (c : q_subscription * W) : Prop :=
  s_inv c.2 ∧ ∃ evs, attached c.1 evs [] c.2 ∧ all_accounted (s_view c.2) evs.

Lemma step_consistent w c c' : resolver_apart attached (wk_reconciler w) →
  system_step w c c' → consistent c → consistent c'.
Proof.
  intros Hr Hstep (Hi & evs & Hq & Hall).
  destruct Hstep as [call sub s s' Hc Hroom Hrun|sub s ev sub1 s1 err s2 aerr s3 Hn He Ha|sub s e sub1 s1 Hn
    |sub s s' Hi' Hv' Hq']; cbn in *.
  - destruct (served_effect call sub evs [] s Hc Hi Hq (Hroom _ _ Hq)) as (s1 & evs' & Hrun1 & Hi1 & Hq1 & Heff).
    rewrite Hrun in Hrun1. injection Hrun1 as <-. split; [done|]. exists evs'. split; [done|]. by eapply call_accounted.
  - destruct evs as [|ev0 evs].
    { destruct (deliver_none attached sub [] s Hi Hq) as (? & ? & ? & Hn' & _). congruence. }
    destruct (deliver_Next attached sub ev0 evs [] s Hi Hq) as (sub1' & s1' & Hn' & Hi1 & Hv1 & Hq1).
    rewrite Hn in Hn'. injection Hn' as <- <- <-. rewrite <- Hv1 in Hall.
    destruct (event_runs attached w sub1 ev evs [ev] s1 Hr Hi1 (proj1 Hall) Hq1) as (err' & s2' & He' & Hi2 & Hq2 & Heff).
    rewrite He in He'. injection He' as <- <-.
    destruct (deliver_Ack attached sub1 ev evs [] s2 Hi2 Hq2) as (s3' & Ha' & Hi3 & Hv3 & Hq3).
    rewrite Ha in Ha'. injection Ha' as -> <-.
    split; [done|]. exists evs. cbn. rewrite Hv3. split; [done|]. by eapply event_accounted.
  - destruct evs as [|ev0 evs]; cycle 1.
    { destruct (deliver_Next attached sub ev0 evs [] s Hi Hq) as (? & ? & Hn' & _). congruence. }
    destruct (deliver_none attached sub [] s Hi Hq) as (e' & sub1' & s1' & Hn' & Hi1 & Hv1 & Hq1).
    rewrite Hn in Hn'. injection Hn' as <- <- <-. split; [done|]. exists []. cbn. by rewrite Hv1.
  - split; [done|]. exists evs. split; [by apply Hq'|]. cbn. unfold all_accounted, all_specified. by rewrite Hv'.
Qed.

Lemma steps_consistent w c c' : resolver_apart attached (wk_reconciler w) →
  rtc (system_step w) c c' → consistent c → consistent c'.
Proof. intros Hr. induction 1; [done|]. eauto using step_consistent. Qed.

Lemma effects_accounted v evs v' : events_effect v evs v' → all_accounted v evs → all_accounted v' [].
Proof. induction 1; [done|]. eauto using event_accounted. Qed.

(** C3: From a store without tasks, let calls of users be served while there is room in the
    queue (updates that name the task and have a specification, suspensions,
    resumptions, deletions and reads), the controller handle events and the rest of the
    system act, in any order, each call and each turn of the controller being one step.
    No accepted change is forgotten: the turns of the controller
    for the events that are pending end, without a panic, and every stored task is at
    rest: its status is Failed, Suspended or Running as its specification now asks, or
    it is being deleted; and no event is left unacknowledged. The control plane names
    workers by addresses a request can be made to. *)
Theorem system_converges w sub0 s0 sub s : resolver_apart attached (wk_reconciler w) →
  s_inv s0 → attached sub0 [] [] s0 → v_tasks (s_view s0) = ∅ →
  rtc (system_step w) (sub0, s0) (sub, s) →
  ∃ evs sub' s', attached sub evs [] s ∧ run_loop (length evs) w sub s = (Ret None, s') ∧ s_inv s'
    ∧ attached sub' [] [] s' ∧ map_Forall (λ _, at_rest) (v_tasks (s_view s')).
Proof.
  intros Hr Hi Hq Hempty Hsteps.
  destruct (steps_consistent w _ _ Hr Hsteps) as (Hi1 & evs & Hq1 & Hall); cbn in *.
  { split; [done|]. exists []. split; [done|].
    unfold all_accounted, all_specified. cbn. rewrite Hempty. split; apply map_Forall_empty. }
  destruct (run_loop_effects attached w evs [] 0 sub s Hr Hi1 (proj1 Hall) Hq1)
    as (sub' & s' & Hrun & Hi' & Hq' & Heff). rewrite Nat.add_0_r in Hrun.
  exists evs, sub', s'. split; [done|]. split; [exact Hrun|]. split; [done|]. split; [done|].
  destruct (effects_accounted _ _ _ Heff Hall) as [_ Hrest]. eapply map_Forall_impl; [exact Hrest|].
  intros k t [Hex|Ht]; [by apply Exists_nil in Hex|exact Ht].
Qed.

End System.
