(* ===== verification/ClientSpec.v ===== *)
(** What generation requests guarantee: how often a request is sent, how long a
    retry waits, the shape of the messages Anthropic is sent, and the parameters
    of its requests. *)

From S2P Require Import Prelude GoStrings Types StoreApi Substrate ModelConfig ModelClient.

(** ** Retries *)

(** A transport whose calls return, with the answers it gave on record. *)
Class Recorded (W : Type) `{!HttpClient W, !Context W, !TimeNow W} := {
  answers : W → list (res HttpResponse);
  answers_Do q s : ∃ r s', http_Do q s = (Ret r, s') ∧ answers s' = answers s ++ [r];
  answers_wait d s : ∃ e s', ctx_wait d s = (Ret e, s') ∧ answers s' = answers s;
  answers_now s : ∃ t s', time_Now s = (Ret t, s') ∧ answers s' = answers s;
}.

(** An answer after which the request may be sent again. *)
Definition definite (r : res HttpResponse) : Prop :=
  ∃ resp, r = Ok resp ∧ retryableStatus (hp_status resp) = true.

Section Retries.
Context {W : Type} `{!HttpClient W, !Context W, !TimeNow W, !Recorded W}.
Context `{!UnicodeTables, !URLs, !Json, !HttpTimes, !MapRange}.

Lemma wait_records retryAfter attempt s : ∃ e s',
  waitForProviderRetry retryAfter attempt s = (Ret e, s') ∧ answers s' = answers s.
Proof.
  assert (∃ d s', retry_delay retryAfter attempt s = (Ret d, s') ∧ answers s' = answers s)
    as (d & s1 & Hd & Hs1).
  { unfold retry_delay. destruct (answers_now s) as (t & s1 & Hnow & Hs1).
    repeat case_match; first [by eexists _, s|rewrite (bind_Ret _ _ _ _ _ Hnow); by eexists _, s1]. }
  destruct (answers_wait (clamp_delay d) s1) as (e & s2 & Hw & Hs2).
  exists e, s2. unfold waitForProviderRetry. rewrite (bind_Ret _ _ _ _ _ Hd). split; [done|congruence].
Qed.

(** A call that returns after at most [n] requests, each but the last answered
    definitely, and whose response is the last answer. *)
Definition exchange (n : nat) (m : M W (res HttpResponse)) (s : W) : Prop :=
  ∃ out l s', m s = (Ret out, s') ∧ answers s' = answers s ++ l ∧ (length l ≤ n)%nat ∧
    Forall definite (take (length l - 1) l) ∧
    ∀ resp, out = Ok resp → last l = Some (Ok resp) ∧ (200 ≤ hp_status resp < 300)%Z.

Lemma exchange_none n m s s' e : m s = (Ret (Err e), s') → answers s' = answers s → exchange n m s.
Proof.
  intros Hm Hs. exists (Err e), [], s'. rewrite app_nil_r. split_and!; [done..|cbn; lia|constructor|done].
Qed.

Lemma exchange_one n m s s' out r : m s = (Ret out, s') → answers s' = answers s ++ [r] →
  (∀ resp, out = Ok resp → r = Ok resp ∧ (200 ≤ hp_status resp < 300)%Z) → exchange (S n) m s.
Proof.
  intros Hm Hs Hout. exists out, [r], s'. split_and!; [done..|cbn; lia|constructor|].
  intros resp Hr. by destruct (Hout resp Hr) as [-> ?].
Qed.

Lemma exchange_more n m m' s s1 r : definite r → answers s1 = answers s ++ [r] →
  m s = m' s1 → exchange n m' s1 → exchange (S n) m s.
Proof.
  intros Hr Hs1 Hm (out & l & s' & Hm' & Hs' & Hl & Hd & Hout). exists out, (r :: l), s'. split_and!.
  - by rewrite Hm.
  - by rewrite Hs', Hs1, <- app_assoc.
  - cbn. lia.
  - destruct l as [|r' l]; [constructor|]. cbn [length Nat.sub] in Hd |- *.
    rewrite Nat.sub_0_r in Hd. by constructor.
  - intros resp Hresp. destruct (Hout resp Hresp) as [Hlast ?]. split; [|done].
    by destruct l.
Qed.

Lemma attempts_exchange retries attempt cfg protocol endpoint body s :
  exchange (S retries) (post_attempts retries attempt cfg protocol endpoint body) s.
Proof.
  revert attempt s. induction retries as [|retries IH]; intros attempt s;
    (destruct (answers_Do (mkHttpRequest endpoint (auth_headers cfg protocol (configured_headers cfg)) body) s)
       as (r & s1 & Hdo & Hs1));
    (destruct (url_Parse endpoint) eqn:Hu; cycle 1;
      [eapply exchange_none; [cbn [post_attempts]; by rewrite Hu|done]|]);
    (destruct r as [resp|e]; cycle 1;
      [eapply exchange_one; [cbn [post_attempts]; by rewrite Hu, (bind_Ret _ _ _ _ _ Hdo)|done|done]|]);
    (destruct (decide (200 ≤ hp_status resp < 300)%Z) as [Hok|Hok];
      [eapply exchange_one;
        [cbn [post_attempts]; rewrite Hu, (bind_Ret _ _ _ _ _ Hdo); cbv beta iota zeta; by rewrite decide_True
        |done|by intros ? [= <-]]|]).
  - eapply exchange_one;
      [cbn [post_attempts]; rewrite Hu, (bind_Ret _ _ _ _ _ Hdo); cbv beta iota zeta; by rewrite decide_False
      |done|done].
  - destruct (retryableStatus (hp_status resp)) eqn:Hr; cycle 1.
    { eapply exchange_one;
        [cbn [post_attempts]; rewrite Hu, (bind_Ret _ _ _ _ _ Hdo); cbv beta iota zeta;
         by rewrite decide_False, Hr by done|done|done]. }
    destruct (wait_records (default "" (hp_headers resp !! "Retry-After")) attempt s1)
      as (e & s2 & Hw & Hs2).
    assert (answers s2 = answers s ++ [Ok resp]) as Hs2' by congruence.
    destruct e as [e|].
    + eapply exchange_one;
        [cbn [post_attempts]; rewrite Hu, (bind_Ret _ _ _ _ _ Hdo); cbv beta iota zeta;
         rewrite decide_False, Hr by done; cbn [negb]; by rewrite (bind_Ret _ _ _ _ _ Hw)|done|done].
    + eapply exchange_more; [by eexists|exact Hs2'| |apply (IH (S attempt) s2)].
      cbn [post_attempts]. rewrite Hu, (bind_Ret _ _ _ _ _ Hdo). cbv beta iota zeta.
      rewrite decide_False, Hr by done. cbn [negb]. by rewrite (bind_Ret _ _ _ _ _ Hw).
Qed.

(** C37: a generation request is sent at most three times, and only sent again
    after the provider answered with 429, 502, 503 or 504: a request whose
    outcome is unknown is never replayed. The call always returns, and what it
    returns as a success is the last answer, with a 2xx status. *)
Theorem postJSON_replays cfg protocol endpoint payload s : ∃ out l s',
  postJSON cfg protocol endpoint payload s = (Ret out, s') ∧ answers s' = answers s ++ l ∧
  (length l ≤ 3)%nat ∧
  Forall (λ r, ∃ resp, r = Ok resp ∧ hp_status resp ∈ [429; 502; 503; 504]%Z) (take (length l - 1) l) ∧
  ∀ resp, out = Ok resp → last l = Some (Ok resp) ∧ (200 ≤ hp_status resp < 300)%Z.
Proof.
  assert (exchange 3 (postJSON cfg protocol endpoint payload) s)
    as (out & l & s' & Hm & Hs & Hl & Hd & Hout).
  { unfold postJSON. destruct (json_Marshal _) as [body|e]; [apply attempts_exchange|by eapply exchange_none]. }
  exists out, l, s'. split_and!; [done..| |done]. eapply Forall_impl; [exact Hd|].
  intros r (resp & -> & Hr). exists resp. split; [done|]. unfold retryableStatus in Hr.
  apply existsb_exists in Hr as (x & Hx & ->%Z.eqb_eq). by apply list_elem_of_In.
Qed.

(** A Retry-After so large that the delay in nanoseconds exceeds int64 wraps
    around to a negative delay, so that the request is retried at once instead
    of after the longest delay allowed. *)
Theorem Retry_After_overflow attempt s :
  waitForProviderRetry "9223372037" attempt s = ctx_wait 0 s ∧
  waitForProviderRetry "9223372036" attempt s = ctx_wait maxRetryDelay s.
Proof. split; reflexivity. Qed.

End Retries.

(** ** Messages *)

Lemma tool_blocks_split ms blocks :
  ∃ tools rest, tool_blocks ms blocks = (blocks ++ (tool_result <$> tools), rest) ∧ ms = tools ++ rest ∧
    Forall (λ m, msg_role m = "tool") tools ∧
    (match rest with m :: _ => msg_role m ≠ "tool" | [] => True end).
Proof.
  revert blocks. induction ms as [|m ms IH]; intros blocks; cbn [tool_blocks].
  - exists [], []. by rewrite app_nil_r.
  - case_decide as Hm.
    + destruct (IH (blocks ++ [tool_result m])) as (tools & rest & -> & -> & Ht & Hr).
      exists (m :: tools), rest. rewrite fmap_cons, <- app_assoc. split_and!; try done. by constructor.
    + exists [], (m :: ms). by rewrite app_nil_r.
Qed.

(** The tool results among the blocks of a message. *)
Definition is_tool_result (b : gmap string Body) : bool :=
  match b !! "type" with Some (BAny (AString t)) => bool_decide (t = "tool_result") | _ => false end.

Lemma message_blocks_results m : List.filter is_tool_result (message_blocks m) = [].
Proof.
  assert (∀ calls, List.filter is_tool_result (tool_use <$> calls) = []) as Hc
    by (induction calls; done).
  unfold message_blocks. case_decide; cbn [app].
  - cbn [List.filter]. change (is_tool_result (text_block (msg_content m))) with false. apply Hc.
  - destruct (msg_tool_calls m) as [|c calls]; [done|]. apply (Hc (c :: calls)).
Qed.

Lemma message_blocks_some m : message_blocks m ≠ [].
Proof. unfold message_blocks. destruct (_ ++ _) eqn:E; [done|]. congruence. Qed.

Definition encoded_ok (e : string * list (gmap string Body)) : Prop :=
  fst e ≠ "system" ∧ fst e ≠ "tool" ∧ snd e ≠ [].

Lemma results_all tools : List.filter is_tool_result (tool_result <$> tools) = tool_result <$> tools.
Proof. 
  induction tools as [|m tools IH]; [done|]. rewrite fmap_cons. cbn [List.filter].
  change (is_tool_result (tool_result m)) with true. by rewrite IH.
Qed.

Definition results (encoded : list (string * list (gmap string Body))) : list (gmap string Body) :=
  encoded ≫= λ e, List.filter is_tool_result (snd e).
Definition tool_messages (ms : list Message) : list Message := filter (λ m, msg_role m = "tool") ms.

Lemma filter_Forall {A} (P : A → Prop) `{!∀ x, Decision (P x)} l : Forall P l → filter P l = l.
Proof. induction 1 as [|x l Hx _ IH]; [done|]. by rewrite filter_cons_True, IH. Qed.

(** The conversation as Anthropic is sent it: a message of a user or an assistant keeps
    its role and its content; the results of consecutive tool messages are one message
    of the user; system messages are left out. *)
Inductive encodes : list Message → list (string * list (gmap string Body)) → Prop :=
| encodes_nil : encodes [] []
| encodes_system m ms enc : msg_role m = "system" → encodes ms enc → encodes (m :: ms) enc
| encodes_tools m tools rest enc : Forall (λ m, msg_role m = "tool") (m :: tools) →
    (match rest with m :: _ => msg_role m ≠ "tool" | [] => True end) → encodes rest enc →
    encodes ((m :: tools) ++ rest) (("user", tool_result <$> m :: tools) :: enc)
| encodes_message m ms enc : msg_role m ≠ "system" → msg_role m ≠ "tool" → encodes ms enc →
    encodes (m :: ms) ((msg_role m, message_blocks m) :: enc).

Lemma anthropic_loop_encodes turns ms sys enc : (length ms ≤ turns)%nat →
  ∃ new, snd (anthropic_loop turns ms sys enc) = enc ++ new ∧ encodes ms new.
Proof.
  revert ms sys enc. induction turns as [|turns IH]; intros [|m ms] sys enc Hl; cbn in Hl; try lia;
    [exists []; rewrite app_nil_r; by split; [|constructor]..|].
  cbn [anthropic_loop]. destruct (decide (msg_role m = "system")) as [Hm|Hm].
  - destruct (IH ms ((if decide (sys ≠ "") then sys +:+ blank_line else sys) +:+ msg_content m) enc) as (new & Hnew & Henc);
      [lia|]. exists new. split; [done|by constructor].
  - destruct (decide (msg_role m = "tool")) as [Ht|Ht].
    + destruct (tool_blocks_split (m :: ms) []) as (tools & rest & -> & Hsplit & Htools & Hrest).
      destruct tools as [|m' tools]; [cbn in Hsplit; subst rest; done|].
      assert (length (m :: ms) = length (m' :: tools) + length rest)%nat as Hlen
        by (by rewrite Hsplit, length_app).
      destruct (IH rest sys (enc ++ [("user", tool_result <$> (m' :: tools))])) as (new & Hnew & Henc); [cbn in Hlen; lia|].
      exists (("user", tool_result <$> (m' :: tools)) :: new). rewrite Hsplit.
      split; [cbn [app]; by rewrite Hnew, <- app_assoc|by constructor].
    + destruct (IH ms sys (enc ++ [(msg_role m, message_blocks m)])) as (new & Hnew & Henc); [lia|].
      exists ((msg_role m, message_blocks m) :: new). rewrite Hnew, <- app_assoc. split; [done|by constructor].
Qed.

(** The blocks with the role each is sent under, in order. *)
Definition sent (encoded : list (string * list (gmap string Body))) : list (string * gmap string Body) :=
  encoded ≫= λ e, pair (fst e) <$> snd e.
Definition spoken (m : Message) : list (string * gmap string Body) :=
  if decide (msg_role m = "system") then []
  else if decide (msg_role m = "tool") then [("user", tool_result m)]
  else pair (msg_role m) <$> message_blocks m.

Lemma spoken_tools tools : Forall (λ m, msg_role m = "tool") tools →
  tools ≫= spoken = pair "user" <$> (tool_result <$> tools).
Proof.
  induction 1 as [|m tools Hm _ IH]; [done|]. cbn. rewrite IH. unfold spoken at 1. rewrite Hm.
  rewrite decide_False, decide_True by done. done.
Qed.

Lemma encodes_sent ms enc : encodes ms enc → sent enc = ms ≫= spoken.
Proof.
  unfold sent. induction 1 as [|m ms enc Hm _ IH|m tools rest enc Htools _ _ IH|m ms enc Hs Ht _ IH]; [done|..].
  - cbn. unfold spoken at 1. by rewrite decide_True.
  - rewrite bind_app, spoken_tools by done. rewrite <- IH. done.
  - cbn. rewrite IH. unfold spoken at 2. by rewrite !decide_False.
Qed.

Lemma encodes_ok ms enc : encodes ms enc →
  Forall encoded_ok enc ∧ results enc = tool_result <$> tool_messages ms.
Proof.
  unfold results, tool_messages.
  induction 1 as [|m ms enc Hm _ [Hok Hres]|m tools rest enc Htools _ _ [Hok Hres]|m ms enc Hs Ht _ [Hok Hres]]; [done|..].
  - rewrite filter_cons_False; [done|by rewrite Hm].
  - split; [constructor; [by split_and!|done]|].
    rewrite filter_app, fmap_app, (filter_Forall _ (m :: tools)), <- Hres by done.
    change (?e :: enc) with ([e] ++ enc). rewrite bind_app, bind_singleton. cbn [snd]. by rewrite results_all.
  - split; [constructor; [split_and!; [done..|apply message_blocks_some]|done]|].
    rewrite filter_cons_False by done. change (?e :: enc) with ([e] ++ enc).
    rewrite bind_app, bind_singleton. cbn [snd]. by rewrite message_blocks_results.
Qed.

(** The text of the system messages, as the loop puts it together. *)
Definition add_system (text : string) (m : Message) : string :=
  if decide (msg_role m = "system")
  then (if decide (text ≠ "") then text +:+ blank_line else text) +:+ msg_content m else text.

Lemma add_system_skip ms text : Forall (λ m, msg_role m ≠ "system") ms → fold_left add_system ms text = text.
Proof.
  induction 1 as [|m ms Hm _ IH]; [done|]. cbn. unfold add_system at 2. by rewrite decide_False.
Qed.

Lemma add_system_prefix ms text : ∃ rest, fold_left add_system ms text = text +:+ rest.
Proof.
  revert text. induction ms as [|m ms IH]; intros text; cbn [fold_left].
  - exists "". by rewrite sapp_nil_r.
  - destruct (IH (add_system text m)) as [rest ->]. unfold add_system. repeat case_decide; eauto;
      eexists; rewrite ?sapp_assoc; reflexivity.
Qed.

Lemma anthropic_loop_system turns ms sys enc : (length ms ≤ turns)%nat →
  fst (anthropic_loop turns ms sys enc) = fold_left add_system ms sys.
Proof.
  revert ms sys enc. induction turns as [|turns IH]; intros [|m ms] sys enc Hl; cbn in Hl; try lia; [done..|].
  cbn [anthropic_loop]. destruct (decide (msg_role m = "system")) as [Hm|Hm].
  - rewrite IH by lia. cbn [fold_left]. f_equal. unfold add_system. by destruct (decide (msg_role m = "system")).
  - destruct (decide (msg_role m = "tool")) as [Ht|Ht].
    + destruct (tool_blocks_split (m :: ms) []) as (tools & rest & -> & Hsplit & Htools & Hrest).
      destruct tools as [|m' tools]; [cbn in Hsplit; subst rest; done|].
      assert (length (m :: ms) = length (m' :: tools) + length rest)%nat as Hlen
        by (by rewrite Hsplit, length_app).
      rewrite IH by (cbn in Hlen; lia). rewrite Hsplit, fold_left_app. f_equal. symmetry.
      apply add_system_skip. eapply Forall_impl; [exact Htools|]. cbn. by intros x ->.
    + rewrite IH by lia. cbn [fold_left]. f_equal. unfold add_system. by destruct (decide (msg_role m = "system")).
Qed.

Lemma join_system_spec sys ms :
  match join_system sys ms with
  | Some ms' => ∃ pre m post x, ms' = pre ++ m :: post ∧ Forall (λ m, msg_role m ≠ "system") pre ∧
      msg_role m = "system" ∧ msg_content m = sys +:+ x
  | None => Forall (λ m, msg_role m ≠ "system") ms
  end.
Proof.
  induction ms as [|m ms IH]; cbn [join_system]; [constructor|]. case_decide as Hm.
  - exists [], (message_set_content (if decide (msg_content m = "") then sys else sys +:+ blank_line +:+ msg_content m) m),
      ms, (if decide (msg_content m = "") then "" else blank_line +:+ msg_content m).
    split_and!; [done|constructor|done|]. cbn. case_decide; [|done].
    by rewrite sapp_nil_r.
  - destruct (join_system sys ms) as [ms'|]; cbn.
    + destruct IH as (pre & m' & post & x & -> & Hpre & ?). exists (m :: pre), m', post, x. split; [done|].
      split; [by constructor|done].
    + by constructor.
Qed.

Lemma requestMessages_system req : req_system req ≠ "" →
  ∃ pre m post x, requestMessages req = pre ++ m :: post ∧ Forall (λ m, msg_role m ≠ "system") pre ∧
    msg_role m = "system" ∧ msg_content m = req_system req +:+ x.
Proof.
  intros Hs.
  assert (∀ post, ∃ pre m post' x, system_message (req_system req) :: post = pre ++ m :: post' ∧
    Forall (λ m, msg_role m ≠ "system") pre ∧ msg_role m = "system" ∧ msg_content m = req_system req +:+ x)
    as Hfront.
  { intros post. exists [], (system_message (req_system req)), post, "". split_and!; [done|constructor|done|].
    by rewrite sapp_nil_r. }
  unfold requestMessages. destruct (req_messages req) as [|m ms].
  - rewrite decide_True by done. apply Hfront.
  - rewrite decide_True by done. pose proof (join_system_spec (req_system req) (m :: ms)) as Hj.
    destruct (join_system (req_system req) (m :: ms)); [exact Hj|apply Hfront].
Qed.


(** ** Parameters *)

Lemma moveParameter_from from to p : from ≠ to → moveParameter from to p !! from = None.
Proof.
  intros Hne. unfold moveParameter. destruct (p !! to); [apply lookup_delete_eq|].
  destruct (p !! from) eqn:E; [apply lookup_delete_eq|done].
Qed.
Lemma moveParameter_other from to p k : k ≠ from → k ≠ to → moveParameter from to p !! k = p !! k.
Proof.
  intros Hf Ht. unfold moveParameter. destruct (p !! to); [by rewrite lookup_delete_ne|].
  destruct (p !! from); [|done]. by rewrite lookup_delete_ne, lookup_insert_ne by done.
Qed.
Lemma moveParameter_to from to p : from ≠ to →
  moveParameter from to p !! to = match p !! to with Some v => Some v | None => p !! from end.
Proof.
  intros Hne. unfold moveParameter. destruct (p !! to) eqn:Hto; [by rewrite lookup_delete_ne|].
  destruct (p !! from); [by rewrite lookup_delete_ne, lookup_insert_eq|done].
Qed.

Lemma rename_lookup p :
  rename_max_tokens p !! "maxTokens" = None ∧ rename_max_tokens p !! "maxOutputTokens" = None ∧
  rename_max_tokens p !! "max_tokens" =
    match p !! "max_tokens" with
    | Some v => Some v
    | None => match p !! "maxTokens" with Some v => Some v | None => p !! "maxOutputTokens" end
    end ∧
  ∀ k, k ∉ ["maxTokens"; "maxOutputTokens"; "max_tokens"] → rename_max_tokens p !! k = p !! k.
Proof.
  unfold rename_max_tokens. split_and!.
  - rewrite moveParameter_other by done. by apply moveParameter_from.
  - by apply moveParameter_from.
  - rewrite !moveParameter_to, moveParameter_other by done. by repeat case_match.
  - intros k Hk. rewrite !not_elem_of_cons in Hk. destruct_and! Hk. by rewrite !moveParameter_other.
Qed.

Lemma override_other req name p k : k ≠ "temperature" → k ≠ name →
  override_parameters req name p !! k = p !! k.
Proof.
  intros Ht Hn. unfold override_parameters. case_decide; destruct (positive _);
    by rewrite ?lookup_insert_ne by done.
Qed.
Lemma override_max req name p : name ≠ "temperature" →
  override_parameters req name p !! name =
    if decide (0 < req_max_tokens req)%Z then Some (BAny (AInteger (req_max_tokens req))) else p !! name.
Proof.
  intros Hn. unfold override_parameters. case_decide; [apply lookup_insert_eq|].
  destruct (positive _); [by rewrite lookup_insert_ne|done].
Qed.

(** The parameter of a configuration, under the name the protocols use. *)
Definition configured_max (cfg : Config) : option any :=
  match cfg_parameters cfg !! "max_tokens" with
  | Some v => Some v
  | None => match cfg_parameters cfg !! "maxTokens" with
            | Some v => Some v
            | None => cfg_parameters cfg !! "maxOutputTokens"
            end
  end.

Lemma requestParameters_lookup cfg k : k ≠ systemInstructionParam →
  requestParameters cfg !! k = BAny <$> cfg_parameters cfg !! k.
Proof. intros Hk. unfold requestParameters. by rewrite lookup_fmap, lookup_delete_ne. Qed.

(** The parameters Anthropic is sent: max_tokens is always among them, from
    the request when it asks for one, else from the configuration under any of
    its three spellings, else 1024; the other spellings and the default system
    instruction are not sent; the model is the request's; and every parameter the
    code does not manage goes through as configured. *)
Theorem anthropic_parameters_spec cfg req :
  let p := anthropic_parameters cfg req in
  p !! "max_tokens" = Some (if decide (0 < req_max_tokens req)%Z then BAny (AInteger (req_max_tokens req))
                            else BAny (default (AInteger 1024) (configured_max cfg))) ∧
  p !! "maxTokens" = None ∧ p !! "maxOutputTokens" = None ∧ p !! systemInstructionParam = None ∧
  p !! "model" = Some (BString (req_model req)) ∧
  ∀ k, k ∉ ["max_tokens"; "maxTokens"; "maxOutputTokens"; systemInstructionParam; "model"; "messages"; "system";
            "tools"; "temperature"] → p !! k = BAny <$> cfg_parameters cfg !! k.
Proof.
  cbv zeta. unfold anthropic_parameters.
  destruct (rename_lookup (requestParameters cfg)) as (Hmax1 & Hmax2 & Hmax & Hother).
  set (p0 := rename_max_tokens (requestParameters cfg)) in *.
  destruct (anthropicMessages req) as [system messages].
  set (p1 := match req_tools req with [] => _ | _ => _ end).
  assert (Hp1 : ∀ k, k ∉ ["messages"; "system"; "tools"; "model"] → p1 !! k = p0 !! k).
  { intros k Hk. rewrite !not_elem_of_cons in Hk. destruct_and! Hk.
    unfold p1. destruct (req_tools req); case_decide; by rewrite !lookup_insert_ne by done. }
  assert (Hmodel : p1 !! "model" = Some (BString (req_model req))).
  { unfold p1. destruct (req_tools req); case_decide; by simplify_map_eq. }
  clearbody p1. set (p2 := match p1 !! "max_tokens" with Some _ => _ | None => _ end).
  assert (Hp2 : ∀ k, k ≠ "max_tokens" → p2 !! k = p1 !! k).
  { intros k Hk. unfold p2. destruct (p1 !! "max_tokens"); [done|by rewrite lookup_insert_ne]. }
  assert (Hv : p1 !! "max_tokens" = BAny <$> configured_max cfg).
  { rewrite (Hp1 "max_tokens") by (by apply (bool_decide_unpack _)). rewrite Hmax.
    rewrite !requestParameters_lookup by done. unfold configured_max. by repeat case_match; simplify_eq/=. }
  split_and!.
  - rewrite override_max by done. case_decide; [done|]. unfold p2. rewrite Hv.
    destruct (configured_max cfg); cbn; [by rewrite Hv|apply lookup_insert_eq].
  - rewrite override_other, Hp2, Hp1 by (done || by apply (bool_decide_unpack _)). done.
  - rewrite override_other, Hp2, Hp1 by (done || by apply (bool_decide_unpack _)). done.
  - rewrite override_other, Hp2, Hp1 by (done || by apply (bool_decide_unpack _)).
    rewrite (Hother systemInstructionParam) by (by apply (bool_decide_unpack _)).
    unfold requestParameters. by rewrite lookup_fmap, lookup_delete_eq.
  - rewrite override_other, Hp2 by done. done.
  - intros k Hk. rewrite !not_elem_of_cons in Hk. destruct_and! Hk.
    rewrite override_other, Hp2 by done.
    rewrite Hp1 by (rewrite !not_elem_of_cons; split_and!; [done..|by apply not_elem_of_nil]).
    rewrite (Hother k) by (rewrite !not_elem_of_cons; split_and!; [done..|by apply not_elem_of_nil]).
    by apply requestParameters_lookup.
Qed.
