(* ===== verification/ModelSpec.v ===== *)
(** What the model configuration guarantees: the defaults of a client, the base
    URL it talks to, and the environment a task runner gets for a model. *)

From S2P Require Import Prelude GoStrings Types StoreApi Substrate ModelConfig Reconciler ReconcilerSpec.

(** ** Defaults *)

Section Config.
Context `{!UnicodeTables}.

Lemma protocolFor_set provider protocol : ToLower (TrimSpace protocol) ≠ "" →
  protocolFor provider protocol = ToLower (TrimSpace protocol).
Proof. intros Hne. unfold protocolFor. by rewrite decide_True. Qed.

Lemma protocolFor_unset provider protocol : ToLower (TrimSpace protocol) = "" →
  protocolFor provider protocol = protocolFor provider "".
Proof. intros Hne. unfold protocolFor at 1. rewrite decide_False; [done|]. by intros []. Qed.

(** The provider a configuration without one gets. *)
Definition provider_of (protocol : string) : string :=
  if decide (protocolFor "" protocol = ProtocolGoogle) then ProviderGoogle
  else if decide (protocolFor "" protocol = ProtocolAnthropic) then ProviderAnthropic
  else if decide (protocolFor "" protocol = ProtocolOpenAI) then ProviderOpenAI
  else protocol.

Lemma provider_of_protocol protocol :
  protocolFor (provider_of protocol) protocol = protocolFor "" protocol.
Proof.
  destruct (decide (ToLower (TrimSpace protocol) = "")) as [He|He].
  - unfold provider_of. by rewrite !(protocolFor_unset _ protocol).
  - by rewrite !(protocolFor_set _ protocol).
Qed.

(** A configuration by its fields the defaults look at. *)
Lemma config_defaults_eq cfg : config_defaults cfg =
  let provider := if decide (cfg_provider cfg = "") then provider_of (cfg_protocol cfg) else cfg_provider cfg in
  let google := bool_decide (EffectiveProtocol cfg = ProtocolGoogle) in
  mkConfig
    (if decide (cfg_name cfg = "") then DefaultModelResourceName else cfg_name cfg)
    (if decide (cfg_atespace cfg = "") then DefaultAtespace else cfg_atespace cfg)
    provider (cfg_protocol cfg)
    (if bool_decide (cfg_model cfg = "") && google then DefaultModel else cfg_model cfg)
    (cfg_parameters cfg)
    (match cfg_secret_key cfg with None => if google then Some default_secret else None | k => k end)
    (cfg_api_key cfg) (cfg_base_url cfg) (cfg_headers cfg) (cfg_api_key_header cfg)
    (cfg_api_key_prefix cfg) (cfg_disable_remote cfg).
Proof.
  assert (protocolFor (if decide (cfg_provider cfg = "") then provider_of (cfg_protocol cfg) else cfg_provider cfg)
    (cfg_protocol cfg) = EffectiveProtocol cfg) as Hp.
  { case_decide as He; [|done]. unfold EffectiveProtocol. rewrite He. apply provider_of_protocol. }
  unfold config_defaults. cbv zeta.
  destruct cfg as [name atespace provider protocol model params secret key url hdrs kh kp dis].
  cbn in Hp |- *.
  destruct (decide (name = "")); cbn; destruct (decide (atespace = "")); cbn;
    destruct (decide (provider = "")) as [->|]; cbn; fold (provider_of protocol); rewrite ?Hp;
    destruct (bool_decide (model = "")); cbn;
    destruct (bool_decide (EffectiveProtocol _ = _)); cbn; destruct secret; reflexivity.
Qed.

Lemma default_protocol cfg : EffectiveProtocol (config_defaults cfg) = EffectiveProtocol cfg.
Proof.
  rewrite config_defaults_eq. unfold EffectiveProtocol. cbn. case_decide as He; [|done].
  rewrite He. apply provider_of_protocol.
Qed.

(** The defaults a client fills in never change the wire protocol that was
    selected, name the model, the atespace and, for Google, the model and the
    secret; and filling them in once more changes nothing. *)
Theorem config_defaults_stable cfg :
  EffectiveProtocol (config_defaults cfg) = EffectiveProtocol cfg ∧
  cfg_name (config_defaults cfg) ≠ "" ∧ cfg_atespace (config_defaults cfg) ≠ "" ∧
  (EffectiveProtocol cfg = ProtocolGoogle →
     cfg_model (config_defaults cfg) ≠ "" ∧ cfg_secret_key (config_defaults cfg) ≠ None) ∧
  config_defaults (config_defaults cfg) = config_defaults cfg.
Proof.
  split_and!; [apply default_protocol| | | |].
  - rewrite config_defaults_eq. cbn. by case_decide.
  - rewrite config_defaults_eq. cbn. by case_decide.
  - intros Hg. rewrite config_defaults_eq. cbn. rewrite Hg. cbn.
    split; [by case_bool_decide|by destruct (cfg_secret_key cfg)].
  - rewrite (config_defaults_eq (config_defaults cfg)). cbv zeta. rewrite default_protocol.
    rewrite config_defaults_eq. cbn. f_equal; repeat case_decide; repeat case_bool_decide; try done.
    all: by destruct (cfg_secret_key cfg).
Qed.

(** The ModelSpec of a client describes the client: a configuration made from it is the
    client's own, up to its name, its atespace, and what a spec does not hold (the key
    and the switch for tests). *)
Lemma Spec_round_trip {W} `{!StructValues} (c : Client (W := W)) :
  let cfg := cl_cfg c in
  cfg_parameters cfg = ∅ ∨ structpb_NewStruct (cfg_parameters cfg) = Ok (cfg_parameters cfg) →
  (EffectiveProtocol cfg = ProtocolGoogle → cfg_secret_key cfg ≠ None) →
  ConfigFromSpec (Some (Spec c)) =
    cfg_set_name DefaultModelResourceName (cfg_set_atespace DefaultAtespace
      (cfg_set_api_key "" (cfg_set_disable_remote false cfg))).
Proof.
  intros cfg Hp Hk. subst cfg. unfold ConfigFromSpec, Spec, cfg_set_name, cfg_set_atespace, cfg_set_api_key,
    cfg_set_disable_remote, EffectiveProtocol in *.
  destruct c as [[name atespace provider protocol model params secret key url headers hdr prefix off] resolver].
  cbn -[decide protocolFor] in *. f_equal.
  - case_decide as Hempty; [by rewrite Hempty|]. destruct Hp as [?|Hp]; [done|]. by rewrite Hp.
  - destruct secret; [done|]. rewrite decide_False; [done|]. intros Hg. by apply Hk.
Qed.

(** ** Endpoints *)

(** A base URL is only accepted when it parses as an absolute http or https URL
    with a host and without embedded credentials, whether it was configured or is
    a provider's default, and it is handed out without trailing slashes. *)
Theorem baseURLFor_safe `{!URLs} cfg protocol u : baseURLFor cfg protocol = Ok u →
  ∃ raw parsed, url_Parse raw = Ok parsed ∧ u = TrimRightByte "/" (url_String parsed) ∧
    (url_scheme parsed = "http" ∨ url_scheme parsed = "https") ∧
    url_host parsed ≠ "" ∧ url_has_user parsed = false ∧
    (TrimRightByte "/" (cfg_base_url cfg) ≠ "" → raw = TrimRightByte "/" (cfg_base_url cfg)).
Proof.
  unfold baseURLFor. cbv zeta. set (base := TrimRightByte "/" (cfg_base_url cfg)).
  match goal with |- match ?x with _ => _ end = _ → _ => destruct x as [raw|] eqn:Hraw; [|done] end.
  destruct (url_Parse raw) as [parsed|] eqn:Hp; [|done].
  repeat case_bool_decide; cbn; try done; destruct (url_has_user parsed) eqn:Hu; try done;
    intros [= <-]; exists raw, parsed; (split_and!; [done|done|by auto|done|done|]);
    intros Hb; rewrite decide_False in Hraw by done; by injection Hraw.
Qed.

(** ** The task runner's environment *)

(** The variables a model configuration may set. *)
Definition model_variables : list string :=
  ["AX_MODEL_YAML"; "AX_MODEL_PROVIDER"; "AX_MODEL_PROTOCOL"; "AX_MODEL"; "AX_MODEL_BASE_URL"; "AX_MODEL_API_KEY";
   "OPENAI_MODEL"; "OPENAI_BASE_URL"; "OPENAI_API_KEY"; "ANTHROPIC_MODEL"; "ANTHROPIC_BASE_URL";
   "ANTHROPIC_API_KEY"; "GEMINI_MODEL"; geminiSecretKey].

(** The variables that describe the model, and all others. *)
Record model_env (y : string) (cfg : Config) (u : string) (env env' : gmap string string) : Prop := {
  me_yaml : env' !! "AX_MODEL_YAML" = Some y;
  me_provider : env' !! "AX_MODEL_PROVIDER" = Some (cfg_provider cfg);
  me_protocol : env' !! "AX_MODEL_PROTOCOL" = Some (EffectiveProtocol cfg);
  me_model : env' !! "AX_MODEL" = Some (cfg_model cfg);
  me_base_url : env' !! "AX_MODEL_BASE_URL" = Some u;
  me_others : ∀ k, k ∉ model_variables → env' !! k = env !! k;
}.

Lemma model_env_insert y cfg u env env' k x : k ∈ drop 5 model_variables →
  model_env y cfg u env env' → model_env y cfg u env (<[k := x]> env').
Proof.
  intros Hk [].
  assert (k ∉ take 5 model_variables) as Hk5.
  { intros Hk'. assert (Hnd : NoDup model_variables) by (by apply (bool_decide_unpack _)).
    rewrite <- (take_drop 5 model_variables) in Hnd. apply NoDup_app in Hnd as (_ & Hd & _). by apply (Hd k). }
  split; try (rewrite lookup_insert_ne; [done|]; intros ->; apply Hk5; by apply (bool_decide_unpack _)).
  intros k' Hk'. rewrite lookup_insert_ne; [auto|]. intros ->. apply Hk'. by eapply subseteq_drop.
Qed.

Lemma model_env_protocol y cfg u env env' protocol b : model_env y cfg u env env' →
  model_env y cfg u env (protocol_env protocol (cfg_model cfg) b env').
Proof.
  intros Henv. unfold protocol_env. repeat case_decide; try done;
    repeat (apply model_env_insert; [by apply (bool_decide_unpack _)|]); done.
Qed.

Lemma model_env_key y cfg u env env' protocol key : model_env y cfg u env env' →
  model_env y cfg u env (protocol_key protocol key env').
Proof.
  intros Henv. unfold protocol_key. repeat case_decide; try done;
    (apply model_env_insert; [by apply (bool_decide_unpack _)|done]).
Qed.

(** The environment a configured model is launched with: whichever credentials
    turn up, it describes the model, its protocol and its validated base URL, these
    override what the task set itself, and no variable outside the fixed list of
    model variables changes. *)
Theorem injectModelEnvironment_spec {W} {I : W → Prop} `{!URLs, !Environment, !Yaml}
    (r : TaskReconciler W) a m env : resolver_total (I := I) r →
  returns I (injectModelEnvironment r a m env) (λ res, ∀ env', res = Ok env' →
    ∃ y u, yaml_Model m = Ok y ∧ EffectiveBaseURL (ConfigFromCRD (Some m)) = Ok u ∧
      model_env y (ConfigFromCRD (Some m)) u env env').
Proof.
  intros Hr. unfold injectModelEnvironment. destruct (yaml_Model m) as [y|e]; [|by apply returns_ret].
  cbv zeta. set (cfg := ConfigFromCRD (Some m)).
  destruct (EffectiveBaseURL cfg) as [u|e]; [|by apply returns_ret].
  eapply total_then; [by apply total_lookupModelAPIKey|]. intros key.
  match goal with |- context [protocol_env _ _ _ ?e] => assert (model_env y cfg u env e) as Henv end.
  { split; [by simplify_map_eq..|]. intros k Hk. unfold model_variables in Hk.
    rewrite !not_elem_of_cons in Hk. destruct_and! Hk. by rewrite !lookup_insert_ne. }
  apply (model_env_protocol _ _ _ _ _ (EffectiveProtocol cfg) u) in Henv.
  case_decide; apply returns_ret; intros env' [= <-]; exists y, u; (split_and!; [done..|]); [|done].
  apply model_env_key, model_env_insert; [by apply (bool_decide_unpack _)|done].
Qed.

End Config.
