(* ===== verification/Paths.v ===== *)
(** Slash-separated paths as path/filepath handles them on Unix: [Clean], [Join],
    [IsAbs], with the lemmas about cleaned paths the workspace setup needs. *)

From S2P Require Import Prelude GoStrings.

(** ** Splitting *)

(** strings.Split with a one-byte separator: never an empty list. *)
Fixpoint Split (c : ascii) (s : string) : list string :=
  match s with
  | EmptyString => [""]
  | String d s' =>
      if Ascii.eqb c d then "" :: Split c s'
      else match Split c s' with
           | x :: l => String d x :: l
           | [] => [String d ""]
           end
  end.

(** ** filepath

    [Clean] keeps the elements of a path that count on a stack: an empty one and
    "." are dropped, ".." takes the last one away; where none is left it is kept
    in a relative path and dropped at the root. *)
Definition IsAbs (path : string) : bool := HasPrefix path "/".

Definition clean_step (rooted : bool) (stack : list string) (elem : string) : list string :=
  if decide (elem = "") then stack
  else if decide (elem = ".") then stack
  else if decide (elem = "..") then
    match stack with
    | [] => if rooted then [] else [".."]
    | top :: rest => if decide (top = "..") then ".." :: stack else rest
    end
  else elem :: stack.

Definition clean_stack (path : string) : list string :=
  fold_left (clean_step (IsAbs path)) (Split "/" path) [].

Definition Clean (path : string) : string :=
  let body := Join "/" (reverse (clean_stack path)) in
  if IsAbs path then "/" +:+ body
  else if decide (body = "") then "." else body.

(** filepath.Join of two elements: an empty first element is skipped. *)
Definition path_Join (dir elem : string) : string :=
  if decide (dir = "") then (if decide (elem = "") then "" else Clean elem)
  else Clean (dir +:+ "/" +:+ elem).

(** * Lemmas *)

#[local] Arguments Ascii.eqb : simpl never.

Lemma Split_nonempty c s : Split c s ≠ [].
Proof. destruct s as [|d s]; cbn; [done|]. repeat case_match; done. Qed.

Lemma Split_elems c s : Forall (λ x, string_in c x = false) (Split c s).
Proof.
  induction s as [|d s IH]; cbn; [by constructor|].
  destruct (Ascii.eqb c d) eqn:E; [by constructor|].
  destruct (Split c s) as [|x l]; [by constructor; [cbn; by rewrite E|]|].
  inversion IH as [|? ? Hx Hl]. constructor; [|done]. cbn. by rewrite E.
Qed.

Lemma Split_plain c s : string_in c s = false → Split c s = [s].
Proof.
  induction s as [|d s IH]; cbn; [done|]. intros [Hd Hs]%orb_false_iff. by rewrite Hd, IH.
Qed.

Lemma Split_app c a b : string_in c a = false → Split c (a +:+ String c b) = a :: Split c b.
Proof.
  induction a as [|d a IH]; simpl; [by rewrite Ascii.eqb_refl|].
  intros [Hd Ha]%orb_false_iff. by rewrite Hd, IH.
Qed.

Lemma Split_Join (c : ascii) l : l ≠ [] → Forall (λ x, string_in c x = false) l →
  Split c (Join (String c "") l) = l.
Proof.
  intros Hne Hl. induction Hl as [|x l Hx Hl IH]; [done|].
  destruct l as [|y l]; [by apply Split_plain|].
  change (Join _ (x :: y :: l)) with (x +:+ String c (Join (String c "") (y :: l))).
  by rewrite Split_app, IH.
Qed.

(** An element a cleaned path holds. *)
Definition proper (x : string) : Prop := x ≠ "" ∧ x ≠ "." ∧ string_in "/" x = false.

(** The stack of a rooted path has no "..", that of a relative one only at its
    bottom. *)
Definition clean_ok (rooted : bool) (stack : list string) : Prop :=
  Forall proper stack ∧
  if rooted then ".." ∉ stack
  else ∃ up down, stack = down ++ replicate up ".." ∧ ".." ∉ down.

Lemma clean_step_ok rooted stack elem :
  string_in "/" elem = false → clean_ok rooted stack → clean_ok rooted (clean_step rooted stack elem).
Proof.
  intros He [Hp Hd]. unfold clean_step. repeat case_decide; [done..| |]; subst.
  - destruct stack as [|top rest].
    + destruct rooted; [done|]. split; [by repeat constructor|]. exists 1, []. split; [done|set_solver].
    + inversion Hp as [|? ? Ht Hr]; subst. case_decide as Htop; subst.
      * split; [repeat constructor; done|]. destruct rooted; [set_solver|].
        destruct Hd as (up & down & Hs & Hn). destruct down as [|x down].
        { exists (S up), []. cbn in Hs |- *. by rewrite Hs. }
        exfalso. injection Hs as <- _. set_solver.
      * split; [done|]. destruct rooted; [set_solver|].
        destruct Hd as (up & down & Hs & Hn). destruct down as [|x down].
        { destruct up; [done|]. by injection Hs as -> _. }
        injection Hs as <- ->. exists up, down. split; [done|set_solver].
  - split; [by constructor|]. destruct rooted; [set_solver|].
    destruct Hd as (up & down & -> & Hn). exists up, (elem :: down). split; [done|set_solver].
Qed.

Lemma clean_fold_ok rooted l stack : Forall (λ x, string_in "/" x = false) l →
  clean_ok rooted stack → clean_ok rooted (fold_left (clean_step rooted) l stack).
Proof.
  intros Hl. revert stack. induction Hl as [|x l Hx Hl IH]; intros stack Hs; [done|].
  cbn. apply IH. by apply clean_step_ok.
Qed.

Lemma clean_stack_ok path : clean_ok (IsAbs path) (clean_stack path).
Proof.
  apply clean_fold_ok; [apply Split_elems|]. split; [constructor|].
  destruct (IsAbs path); [set_solver|]. exists 0%nat, []. split; [done|set_solver].
Qed.

(** Pushing the elements of a clean stack again gives the stack back. *)
Lemma clean_again rooted stack : clean_ok rooted stack →
  fold_left (clean_step rooted) (reverse stack) [] = stack.
Proof.
  induction stack as [|x stack IH]; intros [Hp Hd]; [done|].
  inversion Hp as [|? ? (Hx1 & Hx2 & Hx3) Hp']; subst.
  rewrite reverse_cons, fold_left_app, IH; cycle 1.
  { split; [done|]. destruct rooted; [set_solver|].
    destruct Hd as (up & [|y down] & Hs & Hn).
    - destruct up as [|up]; [done|]. injection Hs as _ ->. exists up, []. split; [done|set_solver].
    - injection Hs as _ ->. exists up, down. split; [done|set_solver]. }
  cbn. unfold clean_step. rewrite !decide_False by done. case_decide as Hdd; [|done]. subst.
  destruct stack as [|top rest]; [destruct rooted; [set_solver|done]|].
  destruct rooted; [set_solver|]. destruct Hd as (up & [|y down] & Hs & Hn).
  - destruct up as [|[|up]]; [done..|]. injection Hs as -> ->. by rewrite decide_True.
  - injection Hs as <- Hs. set_solver.
Qed.

(** ** Cleaned paths *)

Lemma proper_elems stack : Forall proper stack →
  Forall (λ x, string_in "/" x = false) (reverse stack).
Proof. intros H. apply Forall_reverse. eapply Forall_impl; [exact H|]. by intros x (_ & _ & ?). Qed.

Lemma Join_empty l : Forall proper l → Join "/" l = "" → l = [].
Proof.
  intros Hl. destruct l as [|x l]; [done|]. inversion Hl as [|? ? (Hx & _)]; subst.
  destruct x; [done|]. by destruct l.
Qed.

Lemma IsAbs_cons s : IsAbs ("/" +:+ s) = true.
Proof. apply HasPrefix_spec. by exists s. Qed.

Lemma IsAbs_Join l : Forall proper l → IsAbs (Join "/" l) = false.
Proof.
  intros Hl. destruct l as [|x l]; [done|]. inversion Hl as [|? ? (Hx & _ & Hs)]; subst.
  destruct x as [|c x]; [done|]. unfold IsAbs, HasPrefix.
  assert (Ascii.eqb "/" c = false) as Hc by (cbn in Hs; by apply orb_false_iff in Hs as [? _]).
  destruct l; simpl; by rewrite Hc.
Qed.

Lemma Clean_abs path : IsAbs path = true →
  Clean path = "/" +:+ Join "/" (reverse (clean_stack path)).
Proof. unfold Clean. by intros ->. Qed.

Lemma IsAbs_Clean path : IsAbs (Clean path) = IsAbs path.
Proof.
  destruct (clean_stack_ok path) as [Hp _]. apply Forall_reverse in Hp. unfold Clean.
  destruct (IsAbs path); [apply IsAbs_cons|]. case_decide; [done|by apply IsAbs_Join].
Qed.

Lemma clean_stack_Clean path : clean_stack (Clean path) = clean_stack path.
Proof.
  pose proof (clean_stack_ok path) as Hok. pose proof Hok as [Hp _].
  unfold clean_stack at 1. rewrite IsAbs_Clean.
  assert (fold_left (clean_step (IsAbs path)) (Split "/" (Join "/" (reverse (clean_stack path)))) []
          = clean_stack path) as Hfold.
  { destruct (decide (clean_stack path = [])) as [->|Hne]; [done|].
    rewrite (Split_Join "/"); [by apply clean_again| |by apply proper_elems].
    intros H. by apply Hne, (inj reverse). }
  unfold Clean. destruct (IsAbs path) eqn:Ha.
  - exact Hfold.
  - case_decide as Hb; [|exact Hfold].
    apply Join_empty in Hb; [|by apply Forall_reverse].
    assert (clean_stack path = []) as -> by by apply (inj reverse). done.
Qed.

Lemma Clean_idemp path : Clean (Clean path) = Clean path.
Proof. unfold Clean at 1. rewrite clean_stack_Clean, IsAbs_Clean. reflexivity. Qed.

(** ** Trimming slashes *)

Lemma TrimRightByte_plain c s : string_in c s = false → TrimRightByte c s = s.
Proof.
  induction s as [|d s IH]; cbn; [done|]. intros [Hd Hs]%orb_false_iff. rewrite (IH Hs).
  destruct s; [by rewrite Hd|done].
Qed.

Lemma TrimRightByte_app c a b : TrimRightByte c b ≠ "" →
  TrimRightByte c (a +:+ b) = a +:+ TrimRightByte c b.
Proof.
  intros Hb. induction a as [|d a IH]; [done|]. simpl. rewrite IH.
  assert (a +:+ TrimRightByte c b ≠ "") as Hab by by destruct a.
  change (String d a +:+ TrimRightByte c b) with (String d (a +:+ TrimRightByte c b)).
  by destruct (a +:+ TrimRightByte c b).
Qed.

Lemma TrimRightByte_Join l : Forall proper l → TrimRightByte "/" (Join "/" l) = Join "/" l.
Proof.
  induction l as [|x l IH]; intros Hl; [done|]. inversion Hl as [|? ? (Hx & _ & Hs) Hl']; subst.
  destruct l as [|y l]; [by apply TrimRightByte_plain|]. specialize (IH Hl').
  change (Join "/" (x :: y :: l)) with (x +:+ "/" +:+ Join "/" (y :: l)).
  assert (Join "/" (y :: l) ≠ "") as Hne by by intros ?%Join_empty.
  assert (TrimRightByte "/" ("/" +:+ Join "/" (y :: l)) = "/" +:+ Join "/" (y :: l)) as Hsep.
  { rewrite TrimRightByte_app; by rewrite IH. }
  rewrite TrimRightByte_app; by rewrite Hsep.
Qed.

Lemma TrimLeftByte_Join l : Forall proper l → TrimLeftByte "/" (Join "/" l) = Join "/" l.
Proof.
  intros Hl%IsAbs_Join. destruct (Join "/" l) as [|c s]; [done|].
  unfold IsAbs, HasPrefix in Hl. cbn in Hl |- *. by destruct (Ascii.eqb "/" c).
Qed.

(** The elements of a path, from the root down. *)
Definition path_elems (path : string) : list string := reverse (clean_stack path).

Lemma path_elems_proper path : Forall proper (path_elems path).
Proof. apply Forall_reverse, clean_stack_ok. Qed.

Lemma TrimByte_Clean path : IsAbs path = true →
  TrimByte "/" (Clean path) = Join "/" (path_elems path).
Proof.
  intros Ha. rewrite Clean_abs by done. unfold TrimByte.
  change (TrimLeftByte "/" ("/" +:+ Join "/" (reverse (clean_stack path))))
    with (TrimLeftByte "/" (Join "/" (path_elems path))).
  rewrite TrimLeftByte_Join, TrimRightByte_Join by apply path_elems_proper. done.
Qed.

(** Replacing one byte by another loses nothing where the other does not occur. *)
Lemma ReplaceByte_inj from to a b : string_in to a = false → string_in to b = false →
  ReplaceByte from to a = ReplaceByte from to b → a = b.
Proof.
  unfold ReplaceByte. revert b. induction a as [|x a IH]; intros [|y b]; cbn; try done.
  intros [Hx Ha]%orb_false_iff [Hy Hb]%orb_false_iff [= Hxy Hab]. f_equal; [|by apply IH].
  apply Ascii.eqb_neq in Hx, Hy. revert Hxy.
  destruct (Ascii.eqb_spec x from), (Ascii.eqb_spec y from); congruence.
Qed.

(** ** Joining *)

Lemma Split_sep c a b : Split c (a +:+ String c b) = Split c a ++ Split c b.
Proof.
  induction a as [|d a IH]; simpl; [by rewrite Ascii.eqb_refl|].
  destruct (Ascii.eqb c d); [by rewrite IH|]. rewrite IH.
  pose proof (Split_nonempty c a). by destruct (Split c a).
Qed.

Lemma IsAbs_app a b : IsAbs a = true → IsAbs (a +:+ b) = true.
Proof. unfold IsAbs. intros [r ->]%HasPrefix_spec. apply HasPrefix_spec. exists (r +:+ b). done. Qed.

(** An element below an absolute directory. *)
Lemma clean_stack_Join dir x : IsAbs dir = true → proper x → x ≠ ".." →
  clean_stack (dir +:+ "/" +:+ x) = x :: clean_stack dir.
Proof.
  intros Ha (Hx1 & Hx2 & Hx3) Hx. unfold clean_stack. rewrite IsAbs_app, Ha by done.
  change (dir +:+ "/" +:+ x) with (dir +:+ String "/" x).
  rewrite Split_sep, (Split_plain _ x), fold_left_app by done. cbn. unfold clean_step.
  by rewrite !decide_False.
Qed.

Lemma path_elems_Join dir x : IsAbs dir = true → proper x → x ≠ ".." →
  path_elems (path_Join dir x) = path_elems dir ++ [x].
Proof.
  intros Ha Hx Hd. unfold path_elems, path_Join.
  rewrite decide_False by (intros ->; done).
  by rewrite clean_stack_Clean, clean_stack_Join, reverse_cons.
Qed.

Lemma path_Join_inj dir x y : IsAbs dir = true → proper x → x ≠ ".." → proper y → y ≠ ".." →
  path_Join dir x = path_Join dir y → x = y.
Proof.
  intros Ha Hx Hdx Hy Hdy H. apply (f_equal path_elems) in H.
  rewrite !path_elems_Join in H by done. by apply app_inj_2 in H as [_ [= ->]].
Qed.

(** An absolute path is determined by its elements. *)
Lemma Clean_elems p q : IsAbs p = true → IsAbs q = true →
  path_elems p = path_elems q → Clean p = Clean q.
Proof. intros Hp Hq H. rewrite !Clean_abs by done. unfold path_elems in H. by rewrite H. Qed.

Lemma Join_inj l l' : Forall proper l → Forall proper l' → Join "/" l = Join "/" l' → l = l'.
Proof.
  intros Hl Hl' H. destruct (decide (l = [])) as [->|Hne].
  { symmetry. apply Join_empty; [done|]. by rewrite <- H. }
  destruct (decide (l' = [])) as [->|Hne']; [by apply Join_empty|].
  rewrite <- (Split_Join "/" l), <- (Split_Join "/" l');
    [change (String "/" "") with "/"; by rewrite H|done| |done|];
    eapply Forall_impl; try done; by intros x (_ & _ & ?).
Qed.
