(* ===== verification/Metadata.v ===== *)
(** The metadata server in the task's container (internal/metadata/server.go): its
    state, how it is put together, its handlers and how a request finds one. *)

From S2P Require Import Prelude GoStrings Types StoreApi.

Record MetaServer := mkMetaServer {
  ms_port : Z;
  ms_task : option Task;
  ms_workspaces : list Workspace;
  ms_workspace_ready : bool;
  ms_guest : bool;                 (* grpcServer != nil *)
}.

(** ** State *)

Fixpoint compactWorkspaces (workspaces : list (option Workspace)) : list Workspace :=
  match workspaces with
  | [] => []
  | Some ws :: rest => ws :: compactWorkspaces rest
  | None :: rest => compactWorkspaces rest
  end.

Definition UpdateState (task : option Task) (workspaces : list (option Workspace)) (s : MetaServer) : MetaServer :=
  mkMetaServer (ms_port s) task (compactWorkspaces workspaces) (ms_workspace_ready s) (ms_guest s).
Definition SetWorkspaceReady (ready : bool) (s : MetaServer) : MetaServer :=
  mkMetaServer (ms_port s) (ms_task s) (ms_workspaces s) ready (ms_guest s).
Definition IsWorkspaceReady (s : MetaServer) : bool := ms_workspace_ready s.

(** Package guest of Agent Substrate: the default configuration (its workspace and
    its log directory), and the construction of the gRPC server from one. *)
Class GuestServices (W : Type) := {
  guest_DefaultConfig : string * string;
  guest_NewServer : string * string → M W (option error);
}.

Record ServerOptions := mkServerOptions { so_workspace_path : string; so_log_dir : string }.

Definition spec_debug (task : option Task) : bool :=
  match task ≫= task_spec with Some spec => ts_debug spec | None => false end.

Definition NewServer {W} `{!GuestServices W} (port : Z) (task : option Task) (workspaces : list (option Workspace))
    (opts : list ServerOptions) : M W MetaServer :=
  let port := if decide (port <= 0)%Z then 9999%Z else port in
  let opt := default (mkServerOptions "" "") (head opts) in
  let! guest :=
    if spec_debug task then
      let '(workspace, logs) := guest_DefaultConfig in
      let workspace := if decide (so_workspace_path opt ≠ "") then so_workspace_path opt else workspace in
      let logs := if decide (so_log_dir opt ≠ "") then so_log_dir opt else logs in
      let! err := guest_NewServer (workspace, logs) in
      ret (match err with Some _ => false | None => true end)
    else ret false in
  ret (mkMetaServer port task (compactWorkspaces workspaces) false guest).

(** ** Responses

    net/http: the first write or WriteHeader fixes the status and the headers. *)
Record Response := mkResponse { rs_status : option Z; rs_type : string; rs_body : string }.
Definition response_new : Response := mkResponse None "" "".

Definition set_type (t : string) (w : Response) : Response :=
  match rs_status w with
  | None => mkResponse None t (rs_body w)
  | Some _ => w
  end.
Definition WriteHeader (status : Z) (w : Response) : Response :=
  match rs_status w with
  | None => mkResponse (Some status) (rs_type w) (rs_body w)
  | Some _ => w
  end.
Definition Write (p : string) (w : Response) : Response :=
  let w := WriteHeader 200 w in mkResponse (rs_status w) (rs_type w) (rs_body w +:+ p).
Definition line (s : string) : string := s +:+ bytes [10]%nat.
Definition http_Error (msg : string) (status : Z) (w : Response) : Response :=
  Write (line msg) (WriteHeader status (set_type "text/plain; charset=utf-8" w)).

(** ** Handlers *)

(** An encoder of yaml.v3 on a response: the writes a call makes, and its error.
    Of a stream the workspaces encoded before are given. *)
Class YamlEncoder := {
  yaml_Encode_task : Task → list string * option error;
  yaml_Encode_ws : list Workspace → Workspace → list string * option error;
  yaml_Close : list Workspace → list string * option error;
}.

Section Handlers.
Context `{!YamlEncoder, !ErrorText}.

Definition writes (ps : list string) (w : Response) : Response := fold_left (λ w p, Write p w) ps w.

Definition handleHealthz (s : MetaServer) (w : Response) : Response := Write (line "ok") (WriteHeader 200 w).

Definition handleReadyz (s : MetaServer) (w : Response) : Response :=
  if negb (ms_workspace_ready s) then http_Error "workspace initializing" 503 w
  else Write (line "ok") (WriteHeader 200 w).

Definition encoded (r : list string * option error) (w : Response) : Response * bool :=
  let w := writes (fst r) w in
  match snd r with
  | Some e => (http_Error (error_text e) 500 w, false)
  | None => (w, true)
  end.

Definition handleTask (s : MetaServer) (w : Response) : Response :=
  match ms_task s with
  | None => http_Error "task metadata not available" 404 w
  | Some task => fst (encoded (yaml_Encode_task task) (set_type "application/yaml" w))
  end.

Fixpoint encode_workspaces (done workspaces : list Workspace) (w : Response) : Response :=
  match workspaces with
  | [] => fst (encoded (yaml_Close done) w)
  | ws :: rest =>
      let '(w, ok) := encoded (yaml_Encode_ws done ws) w in
      if ok then encode_workspaces (done ++ [ws]) rest w else w
  end.

Definition handleWorkspaces (s : MetaServer) (w : Response) : Response :=
  match ms_workspaces s with
  | [] => http_Error "workspace metadata not available" 404 w
  | workspaces => encode_workspaces [] workspaces (set_type "application/yaml" w)
  end.

(** ** Routing *)

Definition routes : list (string * (MetaServer → Response → Response)) :=
  [("/healthz", handleHealthz); ("/readyz", handleReadyz);
   ("/metadata/v1alpha1/ax/task", handleTask);
   ("/metadata/v1alpha1/ax/workspaces", handleWorkspaces)].

Record Request := mkRequest { rq_proto_major : Z; rq_content_type : string; rq_path : string }.

(** Who answers a request: the guest services, a handler, or the mux on its own
    (a path without a pattern). *)
Inductive Answer := ToGuest | Handled (r : Response) | ByMux.

Definition serve (s : MetaServer) (r : Request) : Answer :=
  if ms_guest s && bool_decide (rq_proto_major r = 2%Z) && HasPrefix (rq_content_type r) "application/grpc"
  then ToGuest
  else match find (λ p, bool_decide (fst p = rq_path r)) routes with
       | Some (_, handle) => Handled (handle s response_new)
       | None => ByMux
       end.

End Handlers.
