(* ===== verification/Container.v ===== *)
(** The container a task runs in, as the runner, the workspace setup and the
    bootstrap see it: interfaces for files, commands, environment variables and
    the task's process; the events these calls leave; and the triple [emits],
    which states what a computation returns together with the events it adds. *)

From S2P Require Import Prelude GoStrings Types StoreApi Substrate ModelConfig ModelClient Metadata.

(** ** Interfaces *)

(** Package os. Of os.Stat only the error is used. *)
Class Files (W : Type) := {
  os_Getwd : M W (res string);
  os_MkdirAll : string → M W (option error);
  os_Stat : string → M W (option error);
  os_WriteFile : string → string → M W (option error);
}.

(** os.ReadFile *)
Class FileReads (W : Type) := os_ReadFile : string → M W (res string).

Class EnvVars (W : Type) := {
  os_Getenv : string → M W string;
  os_Setenv : string → string → M W unit;
  os_Environ : M W (list string);
}.

(** Package os/exec, for a command with standard output and standard error at
    the same writer: its time limit, its working directory, the program with its
    arguments. It returns what was written, write by write, and the error of
    Cmd.Run. *)
Class Commands (W : Type) := exec_Run : option Z → string → list string → M W (list string * option error).

(** The child process of the task's command, in a process group of its own:
    Cmd.Start in a directory with an environment, the signals sent to the group,
    and the waits. [proc_select] is the select between the exit and the end of
    the runner's context, [proc_grace] the one between the exit and a timer. An
    exit is the exit code and the error of Cmd.Wait. *)
Record ProcExit := mkProcExit { px_code : Z; px_err : option error }.
Class Processes (W : Type) := {
  proc_Start : string → list string → list string → M W (res Z);
  proc_select : M W (option ProcExit);
  proc_grace : Z → M W (option ProcExit);
  proc_wait : M W ProcExit;
  proc_kill : Z → string → M W unit;
  ctx_done : M W unit;                         (* <-ctx.Done() *)
}.

(** The listener of the metadata server, and the state its handlers answer from:
    the fields behind the mutex. *)
Class Serving (W : Type) := {
  net_Listen : Z → M W (option error);
  publish : MetaServer → M W unit;
  srv_Shutdown : M W unit;
}.

(** ** Events *)

Inductive Event :=
| EMkdir (dir : string) (err : option error)
| EStat (path : string) (err : option error)
| EWrite (path data : string) (err : option error)
| EExec (limit : option Z) (dir : string) (argv : list string) (err : option error)
| EWait (d : Z) (err : option error)
| EHttp (q : HttpRequest) (r : res HttpResponse)
| ESetenv (name value : string)
| EListen (port : Z) (err : option error)
| EPublish (srv : MetaServer)
| EShutdown
| EStart (dir : string) (argv env : list string) (r : res Z)
| ESelect (exit : option ProcExit)
| EKill (pid : Z) (signal : string)
| EGrace (d : Z) (exit : option ProcExit)
| EExited (exit : ProcExit)
| EReport (pid code : Z) (err : option error)
| EDone.

(** The computation returns, with a result and new entries of a record [trace]
    that satisfy [P]. *)
Definition emits {W E A} (trace : W → list E) (m : M W A) (P : A → list E → Prop) : Prop :=
  ∀ s, ∃ a s' l, m s = (Ret a, s') ∧ trace s' = trace s ++ l ∧ P a l.

(** A container whose calls return and are on record. *)
Class Traced (W : Type) `{!Files W, !EnvVars W, !Commands W, !Context W, !TimeNow W, !HttpClient W} := {
  trace : W → list Event;
  trace_Getwd : emits trace os_Getwd (λ _ l, l = []);
  trace_MkdirAll d : emits trace (os_MkdirAll d) (λ err l, l = [EMkdir d err]);
  trace_Stat p : emits trace (os_Stat p) (λ err l, l = [EStat p err]);
  trace_WriteFile p d : emits trace (os_WriteFile p d) (λ err l, l = [EWrite p d err]);
  trace_Getenv n : emits trace (os_Getenv n) (λ _ l, l = []);
  trace_exec lim dir argv : emits trace (exec_Run lim dir argv) (λ r l, l = [EExec lim dir argv (snd r)]);
  trace_wait d : emits trace (ctx_wait d) (λ err l, l = [EWait d err]);
  trace_Now : emits trace time_Now (λ _ l, l = []);
  trace_Do q : emits trace (http_Do q) (λ r l, l = [EHttp q r]);
}.

(** The same for what only the runner uses. *)
Class TracedRun (W : Type) `{Traced W, !Processes W, !Serving W, !GuestServices W} := {
  trace_Setenv n v : emits trace (os_Setenv n v) (λ _ l, l = [ESetenv n v]);
  trace_Environ : emits trace os_Environ (λ _ l, l = []);
  trace_Listen port : emits trace (net_Listen port) (λ err l, l = [EListen port err]);
  trace_publish srv : emits trace (publish srv) (λ _ l, l = [EPublish srv]);
  trace_Shutdown : emits trace srv_Shutdown (λ _ l, l = [EShutdown]);
  trace_Start dir argv env : emits trace (proc_Start dir argv env) (λ r l, l = [EStart dir argv env r]);
  trace_select : emits trace proc_select (λ exit l, l = [ESelect exit]);
  trace_grace d : emits trace (proc_grace d) (λ exit l, l = [EGrace d exit]);
  trace_waited : emits trace proc_wait (λ exit l, l = [EExited exit]);
  trace_kill pid sig : emits trace (proc_kill pid sig) (λ _ l, l = [EKill pid sig]);
  trace_done : emits trace ctx_done (λ _ l, l = [EDone]);
  trace_guest cfg : emits trace (guest_NewServer cfg) (λ _ l, l = []);
}.

(** ** Rules *)

Section Emits.
Context {W E : Type} (trace : W → list E).

Lemma emits_ret {A} (a : A) (P : A → list E → Prop) : P a [] → emits trace (ret a) P.
Proof. intros HP s. exists a, s, []. by rewrite app_nil_r. Qed.

Lemma emits_bind {A B} (m : M W A) (k : A → M W B) P Q :
  emits trace m P → (∀ a l, P a l → emits trace (k a) (λ b l', Q b (l ++ l'))) → emits trace (bind m k) Q.
Proof.
  intros Hm Hk s. destruct (Hm s) as (a & s1 & l & Hm1 & Hl & HP).
  destruct (Hk a l HP s1) as (b & s2 & l' & Hk1 & Hl' & HQ). exists b, s2, (l ++ l').
  rewrite (bind_Ret _ _ _ _ _ Hm1), Hl', Hl, <- app_assoc. done.
Qed.

Lemma emits_weaken {A} (m : M W A) P Q :
  emits trace m P → (∀ a l, P a l → Q a l) → emits trace m Q.
Proof. intros Hm HPQ s. destruct (Hm s) as (a & s' & l & ? & ? & ?). exists a, s', l. auto. Qed.

(** A call that leaves no event. *)
Lemma emits_silent {A B} (m : M W A) (k : A → M W B) Q :
  emits trace m (λ _ l, l = []) → (∀ a, emits trace (k a) Q) → emits trace (bind m k) Q.
Proof. intros Hm Hk. eapply emits_bind; [exact Hm|]. intros a l ->. apply Hk. Qed.

(** A call that leaves the event [e a]. *)
Lemma emits_event {A B} (m : M W A) (e : A → E) (k : A → M W B) Q :
  emits trace m (λ a l, l = [e a]) →
  (∀ a, emits trace (k a) (λ b l, Q b (e a :: l))) → emits trace (bind m k) Q.
Proof. intros Hm Hk. eapply emits_bind; [exact Hm|]. intros a l ->. apply Hk. Qed.

(** A call that leaves the event [e], whatever it returns. *)
Lemma emits_same {A B} (m : M W A) (e : E) (k : A → M W B) Q :
  emits trace m (λ _ l, l = [e]) →
  (∀ a, emits trace (k a) (λ b l, Q b (e :: l))) → emits trace (bind m k) Q.
Proof. apply (emits_event m (λ _, e)). Qed.

Lemma emits_assoc {A B C} (m : M W A) (f : A → M W B) (g : B → M W C) Q :
  emits trace (bind m (λ a, bind (f a) g)) Q → emits trace (bind (bind m f) g) Q.
Proof. intros H s. destruct (H s) as (c & s' & l & ? & ?). exists c, s', l. by rewrite bind_assoc. Qed.

Lemma emits_pure {A B} (a : A) (k : A → M W B) Q :
  emits trace (k a) Q → emits trace (bind (ret a) k) Q.
Proof. done. Qed.

(** A loop over a slice: [P] relates what is done so far to the events so far. *)
Lemma emits_for_range {A B R} (body : B → A → M W (B + R)) (P : list A → B → list E → Prop)
    (Q : B + R → list E → Prop) l0 acc0 ev0 :
  P [] acc0 ev0 →
  (∀ pre x suf acc ev, l0 = pre ++ x :: suf → P pre acc ev →
     emits trace (body acc x) (λ r ev', match r with
       | inl acc' => P (pre ++ [x]) acc' (ev ++ ev')
       | inr out => Q (inr out) (ev ++ ev')
       end)) →
  (∀ acc ev, P l0 acc ev → Q (inl acc) ev) →
  emits trace (for_range body acc0 l0) (λ r ev, Q r (ev0 ++ ev)).
Proof.
  intros H0 Hbody Hend.
  enough (∀ suf pre acc ev, l0 = pre ++ suf → P pre acc ev →
    emits trace (for_range body acc suf) (λ r ev', Q r (ev ++ ev'))) as H.
  { exact (H l0 [] acc0 ev0 eq_refl H0). }
  induction suf as [|x suf IH]; intros pre acc ev Hl HP; cbn [for_range].
  - apply emits_ret. rewrite app_nil_r in *. subst. by apply Hend.
  - eapply emits_bind; [by eapply Hbody|]. intros [acc'|out] ev' HP'; cbn beta iota in *.
    + eapply emits_weaken; [apply (IH (pre ++ [x]) acc' (ev ++ ev')); [by rewrite <- app_assoc|done]|].
      intros r ev'' HQ. by rewrite app_assoc.
    + apply emits_ret. by rewrite app_nil_r.
Qed.
End Emits.

#[export] Hint Resolve emits_ret : go.

(** One step through a computation over a traced container: silent calls and
    calls that leave one event are taken, cases are split. *)
Ltac emit_step :=
  lazymatch goal with
  | |- emits _ (bind (bind _ _) _) _ => apply emits_assoc
  | |- emits _ (bind (ret _) _) _ => apply emits_pure
  | |- emits _ (bind (match ?x with _ => _ end) _) _ => destruct x eqn:?
  | |- emits _ (match ?x with _ => _ end) _ => destruct x eqn:?
  | |- emits _ (let _ := _ in _) _ => cbv zeta
  | |- emits _ (ret _) _ => apply emits_ret
  | |- emits _ (bind _ _) _ =>
      first [ eapply emits_silent; [solve [eauto with nocore trace]|intros ?]
            | eapply emits_event; [solve [eauto with nocore trace]|intros ?]
            | eapply emits_same; [solve [eauto with nocore trace]|intros ?] ]
  end.

Create HintDb trace discriminated.
#[export] Hint Resolve trace_Getwd trace_MkdirAll trace_Stat trace_WriteFile trace_Getenv trace_exec
  trace_wait trace_Now trace_Do : trace.
#[export] Hint Resolve trace_Setenv trace_Environ trace_Listen trace_publish trace_Shutdown trace_Start
  trace_select trace_grace trace_waited trace_kill trace_done trace_guest : trace.
