(* ===== verification/Connect.v ===== *)
(** Connecting to Agent Substrate (the first part of internal/substrate/client.go):
    where the token and the certificates come from, the options a connection is
    dialed with, and the bearer token of a call. *)

From S2P Require Import Prelude GoStrings Types StoreApi Substrate ModelConfig ModelClient Metadata Container.

Record ClientOptions := mkClientOptions {
  co_target : string;
  co_authority : string;
  co_token_file : string;
  co_ca_file : string;
  co_insecure_tls : bool;
  co_plaintext : bool;
}.

(** The fields of tls.Config that are set; the roots are the certificates of a PEM file. *)
Record TLSConfig := mkTLSConfig {
  tc_insecure_skip_verify : bool;
  tc_server_name : string;
  tc_root_cas : option string;
}.
Inductive TransportCredentials := insecure_NewCredentials | credentials_NewTLS (c : TLSConfig).
Inductive DialOption :=
| WithTransportCredentials (c : TransportCredentials)
| WithAuthority (authority : string)
| WithPerRPCCredentials (tokenFile : string)
| OtherDialOption (tag : N).

(** grpc.NewClient, with a handle for the connection, and its Close. *)
Class Dialer (W : Type) := {
  grpc_NewClient : string → list DialOption → M W (res N);
  conn_Close : N → M W (option error);
}.
(** CertPool.AppendCertsFromPEM: whether a certificate was found. *)
Class Certificates := pem_has_certificates : string → bool.

Definition defaultTarget : string := "api.ate-system.svc.cluster.local:443".
Definition serviceName : string := "api.ate-system.svc".
Definition defaultTokenFile : string := "/var/run/secrets/ateapi/token".
Definition trustBundle : string := "/run/servicedns-ca/trust-bundle.pem".
Definition caBundle : string := "/run/servicedns-ca/ca.pem".

Section Connect.
Context {W : Type} `{!Files W, !FileReads W, !EnvVars W, !Dialer W, !Certificates}.

(** The metadata of a call: the token file is read anew for each. *)
Definition GetRequestMetadata (tokenFile : string) : M W (res (list (string * string))) :=
  if decide (tokenFile = "") then ret (Ok [])
  else
    let! r := os_ReadFile tokenFile in
    ret (match r with
         | Err e => Err (Errorf "reading token file %q: %w" [AStr tokenFile; AWrap e])
         | Ok b => Ok [("authorization", "Bearer " +:+ TrimSpace b)]
         end).

(** The first of some files that exists, empty when none does. *)
Fixpoint first_present (files : list string) : M W string :=
  match files with
  | [] => ret ""
  | f :: files =>
      let! err := os_Stat f in
      match err with None => ret f | Some _ => first_present files end
  end.

(** A file: the one given, else the one the variable names, else the first present. *)
Definition detect_file (given variable : string) (files : list string) : M W string :=
  if decide (given = "") then
    let! env := os_Getenv variable in
    if decide (env ≠ "") then ret env else first_present files
  else ret given.

(** The server name, and the authority, of a connection. *)
Definition server_name (authority target : string) : string :=
  if decide (authority ≠ "") then authority
  else if Contains target serviceName then serviceName else "".

(** The pool of the certificates in a file; none without a file. *)
Definition root_pool (caFile : string) : M W (res (option string)) :=
  if decide (caFile ≠ "") then
    let! r := os_ReadFile caFile in
    ret (match r with
         | Err e => Err (Errorf "reading CA file %q: %w" [AStr caFile; AWrap e])
         | Ok caCert =>
             if pem_has_certificates caCert then Ok (Some caCert)
             else Err (Errorf "failed to parse CA certificate from %q" [AStr caFile])
         end)
  else ret (Ok None).

Definition transport_credentials (opts : ClientOptions) (target caFile : string) : M W (res TransportCredentials) :=
  if co_plaintext opts then ret (Ok insecure_NewCredentials)
  else
    let! pool := root_pool caFile in
    ret (match pool with
         | Err e => Err e
         | Ok pool => Ok (credentials_NewTLS
             (mkTLSConfig (co_insecure_tls opts) (server_name (co_authority opts) target) pool))
         end).

(** The connection of a client. *)
Definition dial (target : string) (opts : list DialOption) : M W (res N) :=
  let! conn := grpc_NewClient target opts in
  ret (match conn with
       | Err e => Err (Errorf "failed to connect to Substrate control service at %s: %w" [AStr target; AWrap e])
       | Ok conn => Ok conn
       end).

Definition NewClientWithOptions (opts : ClientOptions) (extraDialOpts : list DialOption) : M W (res N) :=
  let target := if decide (co_target opts = "") then defaultTarget else co_target opts in
  let! tokenFile := detect_file (co_token_file opts) "SUBSTRATE_TOKEN_FILE" [defaultTokenFile] in
  let! caFile := detect_file (co_ca_file opts) "SUBSTRATE_CA_FILE" [trustBundle; caBundle] in
  let! creds := transport_credentials opts target caFile in
  match creds with
  | Err e => ret (Err e)
  | Ok creds =>
      let authority := server_name (co_authority opts) target in
      dial target
        (extraDialOpts ++ [WithTransportCredentials creds] ++
         (if decide (authority ≠ "") then [WithAuthority authority] else []) ++
         (if decide (tokenFile ≠ "") then [WithPerRPCCredentials tokenFile] else []))
  end.

Definition NewClient (target : string) (opts : list DialOption) : M W (res N) :=
  match opts with
  | [] => NewClientWithOptions (mkClientOptions target "" "" "" false false) []
  | _ => dial (if decide (target = "") then defaultTarget else target) opts
  end.

(** A client without a connection is closed at once. *)
Definition Close (conn : option N) : M W (option error) :=
  match conn with Some c => conn_Close c | None => ret None end.

End Connect.

(** ** What a connection is dialed with

    The last option of a kind counts; credentials of calls add up. *)
Definition transport_of (opts : list DialOption) : option TransportCredentials :=
  last (omap (λ o, match o with WithTransportCredentials c => Some c | _ => None end) opts).
Definition authority_of (opts : list DialOption) : option string :=
  last (omap (λ o, match o with WithAuthority a => Some a | _ => None end) opts).
Definition tokens_of (opts : list DialOption) : list string :=
  omap (λ o, match o with WithPerRPCCredentials f => Some f | _ => None end) opts.

(** What is seen of a client being made: variables and files looked up and read, and
    connections. *)
Inductive DialEvent :=
| DEnv (name value : string)
| DStat (path : string) (err : option error)
| DRead (path : string) (r : res string)
| DDial (target : string) (opts : list DialOption) (r : res N).

Class TracedDial (W : Type) `{!Files W, !FileReads W, !EnvVars W, !Dialer W} := {
  dials : W → list DialEvent;
  dials_Getenv n : emits dials (os_Getenv n) (λ v l, l = [DEnv n v]);
  dials_Stat p : emits dials (os_Stat p) (λ err l, l = [DStat p err]);
  dials_ReadFile p : emits dials (os_ReadFile p) (λ r l, l = [DRead p r]);
  dials_NewClient t o : emits dials (grpc_NewClient t o) (λ r l, l = [DDial t o r]);
}.
#[export] Hint Resolve dials_Getenv dials_Stat dials_ReadFile dials_NewClient : trace.
