(* ===== verification/ConnectSpec.v ===== *)
(** What a connection to Agent Substrate guarantees (Connect): certificates are
    verified unless the options say otherwise, and against the file that was given,
    named by its variable, or found. *)

From S2P Require Import Prelude GoStrings Types StoreApi Substrate ModelConfig ModelClient Metadata Container Connect.

(** Nothing was dialed. *)
Definition undialed (l : list DialEvent) : Prop :=
  Forall (λ e, match e with DDial _ _ _ => False | _ => True end) l.

(** The first of some files that was there when they were looked for; empty when none
    was. *)
Definition first_there (files : list string) (l : list DialEvent) (f : string) : Prop :=
  (∃ pre post, files = pre ++ f :: post ∧ DStat f None ∈ l ∧ ∀ x, x ∈ pre → ∃ e, DStat x (Some e) ∈ l)
  ∨ (f = "" ∧ ∀ x, x ∈ files → ∃ e, DStat x (Some e) ∈ l).
(** A file: the one given; else what the variable holds; else, when it holds nothing,
    the first one there. *)
Definition chosen (given variable : string) (files : list string) (l : list DialEvent) (f : string) : Prop :=
  (given ≠ "" ∧ f = given)
  ∨ (given = "" ∧ ∃ v, DEnv variable v ∈ l ∧ ((v ≠ "" ∧ f = v) ∨ (v = "" ∧ first_there files l f))).

Lemma chosen_app given variable files l l' f :
  chosen given variable files l f → ∀ l0, chosen given variable files (l0 ++ l ++ l') f.
Proof.
  intros Hc l0. destruct Hc as [Hc|(Hg & v & Hv & Hc)]; [by left|]. right. split; [done|].
  exists v. split; [rewrite !elem_of_app; auto|]. destruct Hc as [Hc|[Hv0 Hc]]; [by left|]. right. split; [done|].
  destruct Hc as [(pre & post & Hfiles & Hstat & Hpre)|[Hf Hc]]; [left|right].
  - exists pre, post. split; [done|]. split; [rewrite !elem_of_app; auto|].
    intros x Hx. destruct (Hpre x Hx) as [e He]. exists e. rewrite !elem_of_app. auto.
  - split; [done|]. intros x Hx. destruct (Hc x Hx) as [e He]. exists e. rewrite !elem_of_app. auto.
Qed.

(** The roots of a connection: the certificates of the chosen CA file, and those of the
    system only when there is none. *)
Definition rooted `{!Certificates} (opts : ClientOptions) (l : list DialEvent) (roots : option string) : Prop :=
  ∃ f, chosen (co_ca_file opts) "SUBSTRATE_CA_FILE" [trustBundle; caBundle] l f
    ∧ match roots with
      | Some pem => f ≠ "" ∧ DRead f (Ok pem) ∈ l ∧ pem_has_certificates pem = true
      | None => f = ""
      end.

(** The options of a connection: what carries it, what it is called, whose token it
    sends. The name a certificate is checked for is the authority. *)
Definition secured `{!Certificates} (opts : ClientOptions) (extra : list DialOption) (l : list DialEvent)
    (target : string) (o : list DialOption) : Prop :=
  match transport_of o with
  | Some insecure_NewCredentials => co_plaintext opts = true
  | Some (credentials_NewTLS c) =>
      co_plaintext opts = false ∧ tc_insecure_skip_verify c = co_insecure_tls opts
      ∧ rooted opts l (tc_root_cas c)
      ∧ (tc_server_name c ≠ "" → authority_of o = Some (tc_server_name c))
      ∧ (co_authority opts ≠ "" → tc_server_name c = co_authority opts)
  | None => False
  end
  ∧ (∃ f, chosen (co_token_file opts) "SUBSTRATE_TOKEN_FILE" [defaultTokenFile] l f
     ∧ tokens_of o = tokens_of extra ++ (if decide (f ≠ "") then [f] else []))
  ∧ target = (if decide (co_target opts = "") then defaultTarget else co_target opts).

Section Spec.
Context {W : Type} `{!Files W, !FileReads W, !EnvVars W, !Dialer W, !TracedDial W, !Certificates}.

Lemma undialed_app l l' : undialed l → undialed l' → undialed (l ++ l').
Proof. apply Forall_app_2. Qed.

Lemma first_present_there files : emits dials (first_present files) (λ f l, undialed l ∧ first_there files l f).
Proof.
  induction files as [|x files IH]; cbn [first_present].
  { apply emits_ret. split; [constructor|]. right. split; [done|set_solver]. }
  emit_step. destruct a as [e|].
  2:{ apply emits_ret. split; [by repeat constructor|]. left. exists [], files. split_and!; [done|by left|set_solver]. }
  eapply emits_weaken; [exact IH|]. intros f l [Hu Hf]. split; [by constructor|].
  assert (∀ pre, (∀ y, y ∈ pre → ∃ e, DStat y (Some e) ∈ l) →
    ∀ y, y ∈ x :: pre → ∃ e', DStat y (Some e') ∈ DStat x (Some e) :: l) as Hcons.
  { intros pre Hpre y [->|Hy]%elem_of_cons; [exists e; by left|]. destruct (Hpre y Hy) as [e' ?]. exists e'. by right. }
  destruct Hf as [(pre & post & -> & Hstat & Hpre)|[-> Hf]]; [left|right].
  - exists (x :: pre), post. split_and!; [done|by right|by apply Hcons].
  - split; [done|]. by apply Hcons.
Qed.

Lemma detect_file_chosen given variable files :
  emits dials (detect_file given variable files) (λ f l, undialed l ∧ chosen given variable files l f).
Proof.
  unfold detect_file. case_decide as Hg; [|apply emits_ret; split; [constructor|by left]].
  emit_step. case_decide as Hv.
  - apply emits_ret. split; [by repeat constructor|]. right. split; [done|]. exists a. split; [by left|left; by split].
  - eapply emits_weaken; [apply first_present_there|]. intros f l [Hu Hf]. split; [by constructor|].
    right. split; [done|]. exists a. split; [by left|]. right. split; [by destruct (decide (a = ""))|].
    destruct Hf as [(pre & post & Hfiles & Hstat & Hpre)|[Hf Hno]]; [left|right].
    + exists pre, post. split_and!; [done|by right|]. intros x Hx. destruct (Hpre x Hx) as [e ?]. exists e. by right.
    + split; [done|]. intros x Hx. destruct (Hno x Hx) as [e ?]. exists e. by right.
Qed.

Lemma root_pool_reads caFile : emits dials (root_pool caFile) (λ r l, undialed l ∧
  match r with
  | Ok (Some pem) => caFile ≠ "" ∧ DRead caFile (Ok pem) ∈ l ∧ pem_has_certificates pem = true
  | Ok None => caFile = ""
  | Err _ => True
  end).
Proof.
  unfold root_pool. case_decide as Hf; [|apply emits_ret; by split; [constructor|]].
  emit_step. apply emits_ret. split; [by repeat constructor|].
  destruct a as [pem|]; [|done]. destruct (pem_has_certificates pem) eqn:?; [|done].
  split_and!; [done|by left|done].
Qed.

(** The options the code adds come last, so they count. *)
Lemma added_options extra creds authority token :
  let o := extra ++ [WithTransportCredentials creds] ++
    (if decide (authority ≠ "") then [WithAuthority authority] else []) ++
    (if decide (token ≠ "") then [WithPerRPCCredentials token] else []) in
  transport_of o = Some creds ∧ (authority ≠ "" → authority_of o = Some authority)
  ∧ tokens_of o = tokens_of extra ++ (if decide (token ≠ "") then [token] else []).
Proof.
  unfold transport_of, authority_of, tokens_of. cbv zeta. rewrite !omap_app.
  destruct (decide (authority ≠ "")), (decide (token ≠ "")); cbn; rewrite ?app_nil_r, ?last_snoc; done.
Qed.

Lemma dial_once target o : emits dials (dial target o) (λ r l,
  ∃ x, l = [DDial target o x] ∧ ∀ c, r = Ok c ↔ x = Ok c).
Proof.
  unfold dial. emit_step. apply emits_ret. exists a. split; [done|]. by destruct a.
Qed.

(** C26: A client of Agent Substrate dials at most once, after everything it needs was
    read, and gives up before that when its CA file cannot be read or holds no
    certificate. A connection that was dialed is a TLS connection unless plaintext was
    asked for, with certificates verified unless that was switched off, for the name
    it is addressed by and against the chosen CA file: the one given, else the one
    SUBSTRATE_CA_FILE names, else the first of the two bundles that is there, and the
    system's certificates only when there is none. The token is that of the file chosen
    likewise with SUBSTRATE_TOKEN_FILE. *)
Theorem NewClientWithOptions_secure opts extra :
  emits dials (NewClientWithOptions opts extra) (λ r l,
    (undialed l ∧ ∃ e, r = Err e)
    ∨ ∃ pre target o x, l = pre ++ [DDial target o x] ∧ undialed pre
        ∧ secured opts extra pre target o ∧ ∀ c, r = Ok c ↔ x = Ok c).
Proof.
  unfold NewClientWithOptions. cbv zeta.
  eapply emits_bind; [apply detect_file_chosen|]. intros token l1 (Hu1 & Ht).
  eapply emits_bind; [apply detect_file_chosen|]. intros ca l2 (Hu2 & Hca).
  set (target := if decide (co_target opts = "") then defaultTarget else co_target opts).
  eapply emits_bind.
  { instantiate (1 := λ r l, undialed l ∧ match r with
      | Ok insecure_NewCredentials => co_plaintext opts = true
      | Ok (credentials_NewTLS c) => co_plaintext opts = false ∧ tc_insecure_skip_verify c = co_insecure_tls opts
          ∧ rooted opts (l1 ++ l2 ++ l) (tc_root_cas c)
          ∧ tc_server_name c = server_name (co_authority opts) target
      | Err _ => True
      end).
    unfold transport_credentials. destruct (co_plaintext opts) eqn:Hp; [apply emits_ret; split; [constructor|done]|].
    eapply emits_bind; [apply root_pool_reads|]. intros r l (Hu & Hr). apply emits_ret. rewrite app_nil_r.
    split; [done|]. destruct r as [[pem|]|e]; [..|done]; (split_and!; [done|done| |done]); cbn.
    - exists ca. split; [by apply chosen_app|]. destruct Hr as (? & ? & ?). split_and!; [done|set_solver|done].
    - exists ca. by split; [apply chosen_app|]. }
  intros [creds|e] l3 [Hu3 Hc].
  - eapply emits_weaken; [apply dial_once|]. intros r l (x & -> & Hx). right.
    exists (l1 ++ l2 ++ l3), target. do 2 eexists. split; [by rewrite <- !app_assoc|].
    split; [by repeat apply undialed_app|]. split; [|exact Hx].
    destruct (added_options extra creds (server_name (co_authority opts) target) token) as (H1 & H2 & H3).
    unfold secured. rewrite H1, H3. split; [|split; [|done]].
    + destruct creds as [|c]; [done|]. destruct Hc as (? & ? & ? & Hname). split_and!; try done.
      * intros Hn. rewrite Hname in *. by apply H2.
      * intros Ha. rewrite Hname. unfold server_name. by rewrite decide_True.
    + exists token. split; [|done]. by apply (chosen_app _ _ _ l1 (l2 ++ l3) token Ht []).
  - apply emits_ret. left. rewrite app_nil_r. split; [by repeat apply undialed_app|by exists e].
Qed.

End Spec.
