(* ===== verification/Bootstrap.v ===== *)
(** The model-backed workspace bootstrap (internal/workspace/model_bootstrap.go)
    and the planner (planner.go): a bounded conversation in which the configured
    model asks for shell commands and is given what they print. *)

From Stdlib Require Import Floats.SpecFloat.
From S2P Require Import Prelude GoStrings Types StoreApi Substrate ModelConfig ModelClient Container.

(** ** Constants *)

Definition maxBootstrapTurns : nat := 24.
Definition maxBootstrapToolCalls : Z := 48.
Definition bootstrapCommandTimeout : Z := 120000000000.      (* nanoseconds *)
Definition maxBootstrapOutput : Z := 32 * 1024.
Definition maxBootstrapTranscript : Z := 128 * 1024.
Definition maxBootstrapCommandSize : Z := 16 * 1024.

Definition modelConfigEnv : string := "AX_MODEL_YAML".
Definition modelAPIKeyEnv : string := "AX_MODEL_API_KEY".
Definition bootstrapTimeoutEnv : string := "AX_BOOTSTRAP_TIMEOUT".
Definition defaultBootstrapTimeout : Z := 600000000000.

(** ** Interfaces *)

(** yaml.Unmarshal into a Model. *)
Class ModelYaml := yaml_Unmarshal_Model : string → res Model.
(** time.ParseDuration, in nanoseconds. *)
Class Durations := time_ParseDuration : string → res Z.
(** strconv.Quote, the verb %q of a string. *)
Class Quoting := strconv_Quote : string → string.
(** json.Unmarshal of a tool call's arguments: the field "command". *)
Class CommandJson := json_command : string → res string.

(** ** Captured output *)

Definition len (s : string) : Z := Z.of_nat (String.length s).

Record limitedOutput := mkLimitedOutput {
  lo_output : string;
  lo_limit : Z;
  lo_truncated : bool;
}.
Definition limited_new (limit : Z) : limitedOutput := mkLimitedOutput "" limit false.

Definition limited_Write (w : limitedOutput) (p : string) : limitedOutput :=
  let remaining := (lo_limit w - len (lo_output w))%Z in
  if decide (0 < remaining)%Z then
    if decide (remaining < len p)%Z
    then mkLimitedOutput (lo_output w +:+ String.substring 0 (Z.to_nat remaining) p) (lo_limit w) true
    else mkLimitedOutput (lo_output w +:+ p) (lo_limit w) (lo_truncated w)
  else if decide (0 < len p)%Z then mkLimitedOutput (lo_output w) (lo_limit w) true
  else w.

Definition newline : string := bytes [10]%nat.

Definition limited_String (w : limitedOutput) : string :=
  if lo_truncated w then lo_output w +:+ newline +:+ "[command output truncated]" else lo_output w.

(** ** The tool *)

(** The schema of the arguments: lines indented by tabs. *)
Definition tabs (n : nat) : string := bytes (repeat 9%nat n).
Definition run_command_schema : string :=
  Join newline
    ["{";
     tabs 3 +:+ quoted "type" +:+ ":" +:+ quoted "object" +:+ ",";
     tabs 3 +:+ quoted "properties" +:+ ":{" +:+ quoted "command" +:+ ":{" +:+ quoted "type" +:+ ":" +:+
       quoted "string" +:+ "," +:+ quoted "description" +:+ ":" +:+
       quoted "A shell command to run from the workspace directory." +:+ "}},";
     tabs 3 +:+ quoted "required" +:+ ":[" +:+ quoted "command" +:+ "],";
     tabs 3 +:+ quoted "additionalProperties" +:+ ":false";
     tabs 2 +:+ "}"].
Definition run_command_tool : ToolDefinition :=
  mkToolDefinition "run_command"
    "Run one shell command with the workspace as its working directory. Use this to inspect files, install dependencies, or prepare the project. The command runs inside the task container and its output is returned to you."
    run_command_schema.

Section Bootstrap.
Context {W : Type} `{!EnvVars W, !Commands W}.
Context `{!ErrorText, !Quoting, !CommandJson}.

Definition executeWorkspaceCommand (workspacePath : string) (call : ToolCall) (outputLimit : Z) : M W string :=
  if decide (tc_name call ≠ "run_command") then
    ret ("unknown tool " +:+ strconv_Quote (tc_name call) +:+ "; use run_command")
  else
    match json_command (tc_arguments call) with
    | Err e => ret ("invalid run_command arguments: " +:+ error_text e)
    | Ok command =>
        if decide (command = "") then ret "run_command requires a non-empty command"
        else if decide (maxBootstrapCommandSize < len command)%Z then
          ret ("run_command is limited to " +:+ dec maxBootstrapCommandSize +:+ " bytes")
        else
          let! (writes, err) := exec_Run (Some bootstrapCommandTimeout) workspacePath
                                  ["/bin/sh"; "-c"; command] in
          let output := fold_left limited_Write writes (limited_new outputLimit) in
          match err with
          | Some e => ret ("command failed: " +:+ error_text e +:+ newline +:+ limited_String output)
          | None => ret (limited_String output)
          end
    end.

(** ** The conversation *)

Record Progress := mkProgress {
  pr_messages : list Message;
  pr_tool_calls : Z;
  pr_transcript : Z;
}.

(** The messages the conversation starts with. *)
Definition opening_messages (goal workspacePath : string) : list Message :=
  [mkMessage "system"
     ("You prepare an AX workspace for a task. The workspace directory is " +:+ strconv_Quote workspacePath +:+
      ". Use the run_command tool to inspect the project and make only the changes needed for the goal. " +:+
      "Run commands from the workspace directory, keep all project files there, and stop when setup is complete.")
     "" "" [];
   mkMessage "user" ("Prepare this workspace for the following goal: " +:+ goal) "" "" []].

Definition numbered_call (n : Z) (call : ToolCall) : ToolCall :=
  if decide (tc_id call = "")
  then mkToolCall ("workspace-setup-" +:+ dec n) (tc_name call) (tc_arguments call) else call.

(** The body of the loop over the tool calls of an answer; [inr] is the value the
    whole bootstrap returns. *)
Definition bootstrap_call (workspacePath : string) (st : Progress) (call : ToolCall) : M W (Progress + bool) :=
  let toolCalls := (pr_tool_calls st + 1)%Z in
  if decide (maxBootstrapToolCalls < toolCalls)%Z then ret (inr false)
  else
    let call := numbered_call toolCalls call in
    let remaining := (maxBootstrapTranscript - pr_transcript st)%Z in
    if decide (remaining <= 0)%Z then ret (inr false)
    else
      let outputLimit := if decide (remaining < maxBootstrapOutput)%Z then remaining else maxBootstrapOutput in
      let! result := executeWorkspaceCommand workspacePath call outputLimit in
      ret (inl (mkProgress (pr_messages st ++ [mkMessage "tool" result (tc_id call) (tc_name call) []])
                  toolCalls (pr_transcript st + len result)%Z)).

(** The request of a turn. *)
Definition bootstrap_request (messages : list Message) : GenerateRequest :=
  mkGenerateRequest "" "" "" (S754_zero false) 4096 messages [run_command_tool].

(** The loop over the turns, over the client's Generate. *)
Fixpoint bootstrap_turns (generate : GenerateRequest → M W (res GenerateResponse)) (workspacePath : string)
    (turns : nat) (st : Progress) : M W bool :=
  match turns with
  | 0%nat => ret false
  | S turns =>
      let! r := generate (bootstrap_request (pr_messages st)) in
      match r with
      | Err _ => ret false
      | Ok response =>
          match resp_tool_calls response with
          | [] => ret (negb (bool_decide (TrimSpace (resp_content response) = "")))
          | calls =>
              let assistant := mkMessage "assistant" (resp_content response) "" "" calls in
              let! r := for_range (bootstrap_call workspacePath)
                          (mkProgress (pr_messages st ++ [assistant]) (pr_tool_calls st) (pr_transcript st))
                          calls in
              match r with
              | inr done => ret done
              | inl st => bootstrap_turns generate workspacePath turns st
              end
          end
      end
  end.

(** ** Selection and configuration *)

Context `{!HttpClient W, !Context W, !TimeNow W}.
Context `{!UnicodeTables, !URLs, !Json, !HttpTimes, !MapRange, !ModelYaml, !Durations}.
(** Reads the cluster: only used for a configuration that names a secret. *)
Context (GetKubernetesSecret : string → string → string → M W (res string)).

Definition modelBootstrapSelected : M W bool :=
  let! raw := os_Getenv modelConfigEnv in
  if decide (raw = "") then ret false
  else
    match yaml_Unmarshal_Model raw with
    | Err _ => ret true
    | Ok configured =>
        ret (negb (bool_decide (EffectiveProtocol (ConfigFromCRD (Some configured)) = ProtocolGoogle)))
    end.

Definition bootstrapTimeout : M W Z :=
  let! raw := os_Getenv bootstrapTimeoutEnv in
  if decide (raw = "") then ret defaultBootstrapTimeout
  else
    match time_ParseDuration raw with
    | Err _ => ret defaultBootstrapTimeout
    | Ok d => ret (if decide (d <= 0)%Z then defaultBootstrapTimeout else d)
    end.

Definition runModelBootstrap (goal workspacePath : string) : M W bool :=
  let! raw := os_Getenv modelConfigEnv in
  match yaml_Unmarshal_Model raw with
  | Err _ => ret false
  | Ok configured =>
      let cfg := ConfigFromCRD (Some configured) in
      let! key := os_Getenv modelAPIKeyEnv in
      let cfg := cfg_set_secret_key None (cfg_set_api_key key cfg) in
      let! client := NewClient GetKubernetesSecret cfg [] in
      let! _ := bootstrapTimeout in
      bootstrap_turns (λ req, Generate (cl_cfg client) (Some req)) workspacePath maxBootstrapTurns
        (mkProgress (opening_messages goal workspacePath) 0 0)
  end.

(** ** The planner *)

Record EnvironmentPlan := mkEnvironmentPlan {
  ep_workspace_name : string;
  ep_goal : string;
  ep_model_used : string;
  ep_summary : string;
  ep_git : list (option GitRepo);
  ep_mcp : option MCPConfig;
  ep_skills : option SkillsConfig;
}.

Definition plan_prompt (wsName goal : string) (repos : nat) (mcp : bool) : string :=
  "Synthesize an environment bootstrap and toolchain plan for workspace " +:+ strconv_Quote wsName +:+
  " with goal " +:+ strconv_Quote goal +:+ ". Git repositories: " +:+ dec (Z.of_nat repos) +:+
  ", MCP servers: " +:+ (if mcp then "true" else "false").

Definition NewPlanner (client : option (@Client W)) : M W (@Client W) :=
  match client with
  | None => NewDefaultClient GetKubernetesSecret []
  | Some c => ret c
  end.

Definition NewPlannerWithConfig (cfg : Config) (opts : list (@Option W)) : M W (@Client W) :=
  let! c := NewClient GetKubernetesSecret cfg opts in NewPlanner (Some c).

Definition NewPlannerFromStore `{!Store W} (has_store : bool) (atespace : string) (opts : list (@Option W))
    : M W (res (@Client W)) :=
  let! r := NewDefaultClientFromStore GetKubernetesSecret has_store atespace opts in
  match r with
  | Err e => ret (Err e)
  | Ok c => let! p := NewPlanner (Some c) in ret (Ok p)
  end.

Definition PlanEnvironment (p : @Client W) (ws : option Workspace) (goal : string) : M W (res EnvironmentPlan) :=
  match ws with
  | None => ret (Err (Errorf "workspace cannot be nil" []))
  | Some ws =>
      let wsName := match ws_metadata ws with Some m => om_name m | None => "" end in
      let '(gitRepos, mcpConfig, skills) :=
        match ws_spec ws with
        | Some spec => (wss_git spec, wss_mcp spec, wss_skills spec)
        | None => ([], None, None)
        end in
      let prompt := plan_prompt wsName goal (length gitRepos) (bool_decide (is_Some mcpConfig)) in
      let! r := Generate (cl_cfg p) (Some (mkGenerateRequest "" prompt
                  "You are the AX system workspace environment planner. Output concise bootstrap plans for agent workspaces."
                  (S754_zero false) 0 [] [])) in
      match r with
      | Err e => ret (Err (Errorf "generating environment plan for workspace %s: %w" [AStr wsName; AWrap e]))
      | Ok resp => ret (Ok (mkEnvironmentPlan wsName goal (resp_model resp) (resp_content resp)
                              gitRepos mcpConfig skills))
      end
  end.

End Bootstrap.
