(* ===== verification/Setup.v ===== *)
(** Workspace setup (internal/workspace/setup.go): the maiden run that clones the
    declared repositories, prepares the skills directory and runs the bootstrap,
    and the marker file that records it. *)

From S2P Require Import Prelude GoStrings Paths Types StoreApi Substrate ModelConfig ModelClient Container Bootstrap.

(** ** Constants *)

Definition InitializedMarkerFilename : string := "initialized".
Definition defaultWorkspacePath : string := "/workspace".
Definition defaultBranch : string := "main".
Definition defaultRepoDirName : string := "repo".
Definition gitSuccessLog : string := "git-success.log".
Definition gitErrorLog : string := "git-error.log".
Definition gitRetries : nat := 5.
Definition gitRetryDelay : Z := 2000000000.                  (* nanoseconds *)
Definition bootstrapScriptPath : string := "/usr/local/bin/antigravity_bootstrap.py".
Definition bootstrapAPIKeyEnv : string := "GEMINI_API_KEY".
Definition bootstrapDataDir : string := "antigravity".

Record SetupResult := mkSetupResult {
  sr_workspace_path : string;
  sr_cloned_repos : list string;
  sr_skills_mounted : string;
  sr_is_maiden_run : bool;
  sr_bootstrap_ran : bool;
}.

(** Time.Format(time.RFC3339) in UTC of a time in nanoseconds. *)
Class Rfc3339 := time_Format : Z → string.

(** ** Names *)

(** The name of the repository an URL or a local path points to. *)
Definition RepoDirName (repoURL : string) : string :=
  let trimmed := TrimSuffix (TrimSpace repoURL) "/" in
  let trimmed := TrimSuffix trimmed ".git" in
  match rcut (λ c, Ascii.eqb c "/" || Ascii.eqb c ":") trimmed with
  | None => trimmed
  | Some (_, name) => name
  end.

Definition cloneDestination (repo : GitRepo) (targetPath : string) : string :=
  if decide (git_dir repo ≠ "") then
    if decide (git_dir repo = ".") then targetPath
    else if IsAbs (git_dir repo) then git_dir repo
    else path_Join targetPath (git_dir repo)
  else
    let name := git_name repo in
    let name :=
      if bool_decide (name = "") || bool_decide (name = defaultRepoDirName) || bool_decide (name = "origin") then
        let derived := RepoDirName (git_repo repo) in
        if decide (derived ≠ "") then derived
        else if decide (name = "") then defaultRepoDirName
        else name
      else name in
    path_Join targetPath name.

(** The marker file of the workspace at a path. *)
Definition MarkerName (path : string) : string :=
  let path := if decide (path = "") then defaultWorkspacePath else path in
  let clean := TrimByte "/" (Clean path) in
  let clean := if decide (clean = "") then "root" else clean in
  InitializedMarkerFilename +:+ "-" +:+ ReplaceByte "/" "-" clean.

(** ** Retries *)

(** The loop of retry with [attempts] left. *)
Fixpoint retry {W} `{!Context W} (attempts : nat) (delay : Z) (op : M W (string * option error))
    : M W (string * option error) :=
  match attempts with
  | 0%nat => ret ("", None)
  | S rest =>
      let! (out, err) := op in
      match err with
      | None => ret (out, None)
      | Some e =>
          match rest with
          | 0%nat => ret (out, Some e)
          | S _ =>
              let! done := ctx_wait delay in
              match done with
              | Some c => ret (out, errors_Join [e; c])
              | None => retry rest delay op
              end
          end
      end
  end.

(** ** Git *)

Section Git.
Context {W : Type} `{!Commands W}.

(** The closure run of fetchRepo: the output so far goes in and comes out. *)
Definition git (dir : string) (args : list string) (combined : string) : M W (string * option error) :=
  let! (writes, err) := exec_Run None dir ("git" :: args) in
  let combined := combined +:+ String.concat "" writes in
  ret (combined, match err with
                 | Some e => Some (Errorf "git %s: %w" [AStr (default "" (head args)); AWrap e])
                 | None => None
                 end).

Definition fetch_args (branch : string) (depth : Z) : list string :=
  ["fetch"] ++ (if decide (0 < depth)%Z then ["--depth=" +:+ dec depth] else []) ++ ["origin"; branch].

Definition fetchRepo (dir repoURL branch : string) (depth : Z) : M W (string * option error) :=
  let! (combined, err) := git dir ["init"] "" in
  match err with
  | Some e => ret (combined, Some e)
  | None =>
      let! (combined, err) := git dir ["remote"; "add"; "origin"; repoURL] combined in
      let! (combined, err) :=
        match err with
        | Some _ => git dir ["remote"; "set-url"; "origin"; repoURL] combined
        | None => ret (combined, None)
        end in
      match err with
      | Some e => ret (combined, Some e)
      | None =>
          let! (combined, err) := git dir (fetch_args branch depth) combined in
          match err with
          | Some e => ret (combined, Some e)
          | None => git dir ["checkout"; "-f"; "FETCH_HEAD"] combined
          end
      end
  end.
End Git.

Section Setup.
Context {W : Type} `{!Files W, !EnvVars W, !Commands W, !Context W, !TimeNow W, !HttpClient W}.
Context `{!UnicodeTables, !URLs, !Json, !HttpTimes, !MapRange, !ModelYaml, !Durations}.
Context `{!ErrorText, !Quoting, !CommandJson, !Rfc3339}.
Context (GetKubernetesSecret : string → string → string → M W (res string)).
(** The variable AXDir. *)
Context (AXDir : string).

Definition writeStateFile (name data : string) : M W unit :=
  os_WriteFile (path_Join AXDir name) data ;;; ret tt.

Definition clone_log (e : error) (out : string) : string :=
  "error: " +:+ error_text e +:+ newline +:+ "output: " +:+ out +:+ newline.

Definition clone_branch (repo : GitRepo) : string :=
  if decide (git_branch repo = "") then defaultBranch else git_branch repo.

(** The body of the loop over the repositories: those cloned and whether all were. *)
Definition cloneRepo (targetPath : string) (acc : list string * bool) (repo : option GitRepo)
    : M W (list string * bool) :=
  let '(cloned, ok) := acc in
  match repo with
  | None => ret (cloned, ok)
  | Some repo =>
      if decide (git_repo repo = "") then ret (cloned, ok)
      else
        let dest := cloneDestination repo targetPath in
        let! _ := os_MkdirAll dest in
        let! (out, err) := retry gitRetries gitRetryDelay
          (fetchRepo dest (git_repo repo) (clone_branch repo) (git_depth repo)) in
        match err with
        | Some e => writeStateFile gitErrorLog (clone_log e out) ;;; ret (cloned, false)
        | None => writeStateFile gitSuccessLog out ;;; ret (cloned ++ [git_repo repo], ok)
        end
  end.

Fixpoint clone_loop (targetPath : string) (repos : list (option GitRepo)) (acc : list string * bool)
    : M W (list string * bool) :=
  match repos with
  | [] => ret acc
  | repo :: repos => let! acc := cloneRepo targetPath acc repo in clone_loop targetPath repos acc
  end.

Definition cloneRepos (repos : list (option GitRepo)) (targetPath : string) : M W (list string * bool) :=
  clone_loop targetPath repos ([], true).

Definition setupSkills (skills : option SkillsConfig) : M W string :=
  match skills with
  | None => ret ""
  | Some skills =>
      if decide (sc_path skills = "") then ret ""
      else os_MkdirAll (sc_path skills) ;;; ret (sc_path skills)
  end.

(** ** Bootstrap *)

Definition runAntigravityBootstrap (goal targetPath : string) : M W bool :=
  let! err := os_Stat bootstrapScriptPath in
  match err with
  | Some _ => ret false
  | None =>
      let! key := os_Getenv bootstrapAPIKeyEnv in
      if decide (key = "") then ret false
      else
        let! timeout := bootstrapTimeout in
        let dataDir := path_Join AXDir bootstrapDataDir in
        let! _ := os_MkdirAll dataDir in
        let! (_, err) := exec_Run (Some timeout) targetPath
          ["python3"; bootstrapScriptPath; "--goal"; goal; "--workspace"; targetPath; "--data-dir"; dataDir] in
        ret (match err with Some _ => false | None => true end)
  end.

Definition runBootstrap (goal targetPath : string) : M W bool :=
  let! model := modelBootstrapSelected in
  if model then runModelBootstrap GetKubernetesSecret goal targetPath
  else runAntigravityBootstrap goal targetPath.

(** ** The maiden run *)

Definition marker_owner (ws : option Workspace) : string :=
  match ws ≫= ws_metadata with
  | Some m => if decide (om_name m ≠ "") then om_name m else "unknown"
  | None => "unknown"
  end.

Definition writeMarker (path : string) (ws : option Workspace) : M W unit :=
  let! now := time_Now in
  let content := "workspace: " +:+ marker_owner ws +:+ newline +:+
                 "initialized_at: " +:+ time_Format now +:+ newline in
  os_WriteFile path content ;;; ret tt.

(** filepath.Abs, where a failure leaves the path as it is. *)
Definition absolute (path : string) : M W string :=
  if IsAbs path then ret (Clean path)
  else
    let! wd := os_Getwd in
    ret (match wd with Ok wd => path_Join wd path | Err _ => path end).

(** The result, which is nil on the first error only, and the error. *)
Definition SetupWorkspace (ws : option Workspace) (targetPath goal : string)
    : M W (option SetupResult * option error) :=
  let targetPath := if decide (targetPath = "") then defaultWorkspacePath else targetPath in
  let! targetPath := absolute targetPath in
  let! err := os_MkdirAll targetPath in
  match err with
  | Some e => ret (None, Some (Errorf "creating workspace directory %s: %w" [AStr targetPath; AWrap e]))
  | None =>
      let! _ := os_MkdirAll AXDir in
      let markerPath := path_Join AXDir (MarkerName targetPath) in
      let! err := os_Stat markerPath in
      match err with
      | None => ret (Some (mkSetupResult targetPath [] "" false false), None)
      | Some _ =>
          let! (cloned, gitOK, skills) :=
            match ws ≫= ws_spec with
            | Some spec =>
                let! (cloned, gitOK) := cloneRepos (wss_git spec) targetPath in
                let! skills := setupSkills (wss_skills spec) in
                ret (cloned, gitOK, skills)
            | None => ret ([], true, "")
            end in
          let! (ran, failed) :=
            if decide (goal ≠ "") then
              let! modelBootstrap := modelBootstrapSelected in
              let! ran := runBootstrap goal targetPath in
              ret (ran, modelBootstrap && negb ran)
            else ret (false, false) in
          let res := mkSetupResult targetPath cloned skills true ran in
          if failed then ret (Some res, Some (Errorf "configured model bootstrap did not complete" []))
          else if negb gitOK then ret (Some res, None)
          else writeMarker markerPath ws ;;; ret (Some res, None)
      end
  end.

End Setup.
