(* ===== verification/BootstrapSpec.v ===== *)
(** What the model-backed bootstrap guarantees: how output is captured, how many
    commands and requests a conversation makes and where they run, and the shape
    of the conversation. *)

From S2P Require Import Prelude GoStrings Types StoreApi Substrate ModelConfig ModelClient.
From S2P Require Import Container Bootstrap.

(** ** What a list of events shows *)

Definition commands (l : list Event) : list (option Z * string * list string) :=
  omap (λ e, match e with EExec lim dir argv _ => Some (lim, dir, argv) | _ => None end) l.
Definition requests (l : list Event) : list HttpRequest :=
  omap (λ e, match e with EHttp q _ => Some q | _ => None end) l.
Definition written (l : list Event) : list string :=
  omap (λ e, match e with EWrite path _ _ => Some path | _ => None end) l.

(** Events of requests and of waits between them. *)
Definition is_net (e : Event) : Prop :=
  match e with EHttp _ _ | EWait _ _ => True | _ => False end.
Definition is_net_or_exec (e : Event) : Prop :=
  match e with EHttp _ _ | EWait _ _ | EExec _ _ _ _ => True | _ => False end.

Lemma commands_app l l' : commands (l ++ l') = commands l ++ commands l'.
Proof. apply omap_app. Qed.
Lemma requests_app l l' : requests (l ++ l') = requests l ++ requests l'.
Proof. apply omap_app. Qed.
Lemma written_app l l' : written (l ++ l') = written l ++ written l'.
Proof. apply omap_app. Qed.

Lemma net_commands l : Forall is_net l → commands l = [].
Proof. induction 1 as [|e l He Hl IH]; [done|]. by destruct e. Qed.
Lemma net_exec_written l : Forall is_net_or_exec l → written l = [].
Proof. induction 1 as [|e l He Hl IH]; [done|]. by destruct e. Qed.
Lemma net_net_exec l : Forall is_net l → Forall is_net_or_exec l.
Proof. intros H. eapply Forall_impl; [exact H|]. by intros []. Qed.

(** ** Captured output *)

Lemma len_app a b : len (a +:+ b) = (len a + len b)%Z.
Proof.
  unfold len. induction a as [|c a IH]; [done|].
  change (String.length (String c a +:+ b)) with (S (String.length (a +:+ b))).
  change (String.length (String c a)) with (S (String.length a)). lia.
Qed.

Lemma substring_app_le n a b : (n ≤ String.length a)%nat →
  String.substring 0 n (a +:+ b) = String.substring 0 n a.
Proof.
  revert n. induction a as [|c a IH]; intros [|n] Hn; simpl in *; try lia; try done; [by destruct b|].
  f_equal. apply IH. lia.
Qed.

Lemma substring_app_ge n a b : (String.length a ≤ n)%nat →
  String.substring 0 n (a +:+ b) = a +:+ String.substring 0 (n - String.length a) b.
Proof.
  revert n. induction a as [|c a IH]; intros n Hn; simpl in *; [by rewrite Nat.sub_0_r|].
  destruct n as [|n]; [lia|]. exact (f_equal (String c) (IH n ltac:(lia))).
Qed.

Lemma substring_all n a : (String.length a ≤ n)%nat → String.substring 0 n a = a.
Proof.
  revert n. induction a as [|c a IH]; intros [|n] Hn; simpl in *; try lia; try done.
  f_equal. apply IH. lia.
Qed.

Lemma substring_length n a : String.length (String.substring 0 n a) = Nat.min n (String.length a).
Proof.
  revert n. induction a as [|c a IH]; intros [|n]; simpl; try done. by rewrite IH.
Qed.

Definition prefix (limit : Z) (s : string) : string := String.substring 0 (Z.to_nat limit) s.

(** The writer after the output [s]: what a limit leaves of it. *)
Definition captured (limit : Z) (s : string) : limitedOutput :=
  mkLimitedOutput (prefix limit s) limit (bool_decide (limit < len s)%Z).

Lemma limited_Write_captured limit s p : (0 ≤ limit)%Z →
  limited_Write (captured limit s) p = captured limit (s +:+ p).
Proof.
  intros Hlim. unfold limited_Write, captured, prefix. cbn [lo_limit lo_output lo_truncated].
  rewrite len_app. assert (len s = Z.of_nat (String.length s)) as Hs by done.
  assert (len p = Z.of_nat (String.length p)) as Hp by done.
  set (n := Z.to_nat limit).
  assert (len (String.substring 0 n s) = Z.min limit (len s)) as Hlen.
  { unfold len. rewrite substring_length. lia. }
  rewrite Hlen. destruct (decide (limit ≤ len s)%Z) as [Hfull|Hroom].
  - rewrite decide_False by lia.
    rewrite (substring_app_le n s p) by lia. case_decide.
    + f_equal. symmetry. apply bool_decide_eq_true. lia.
    + f_equal. apply bool_decide_ext. lia.
  - rewrite (substring_all n s) by lia.
    rewrite decide_True by lia. rewrite (substring_app_ge n s p) by lia. case_decide.
    + f_equal; [f_equal; f_equal; lia|]. symmetry. apply bool_decide_eq_true. lia.
    + rewrite (substring_all _ p) by lia. f_equal. apply bool_decide_ext. lia.
Qed.

(** C28: however a command splits its output into writes, what is captured is the
    output up to the limit, and the note that it was cut off is given exactly
    when something was. *)
Theorem limitedOutput_captures limit writes : (0 ≤ limit)%Z →
  let out := String.concat "" writes in
  limited_String (fold_left limited_Write writes (limited_new limit)) =
  (if decide (limit < len out)%Z
   then prefix limit out +:+ newline +:+ "[command output truncated]" else out).
Proof.
  intros Hlim out.
  assert (∀ l s, fold_left limited_Write l (captured limit s) = captured limit (s +:+ String.concat "" l)) as H.
  { induction l as [|p l IH]; intros s; cbn [fold_left]; [by rewrite sapp_nil_r|].
    rewrite limited_Write_captured, IH, sapp_assoc by done. f_equal. f_equal.
    destruct l; cbn; [by rewrite sapp_nil_r|done]. }
  assert (limited_new limit = captured limit "") as ->.
  { unfold limited_new, captured, prefix. f_equal; [by destruct (Z.to_nat limit)|].
    symmetry. apply bool_decide_eq_false. unfold len. cbn. lia. }
  rewrite H. unfold limited_String, captured. cbn [lo_truncated lo_output].
  change ("" +:+ String.concat "" writes) with out.
  destruct (decide (limit < len out)%Z) as [Hlt|Hge].
  - by rewrite bool_decide_eq_true_2.
  - rewrite bool_decide_eq_false_2 by done. apply substring_all. unfold len in Hge. lia.
Qed.

(** ** Requests *)

Section Net.
Context {W : Type} `{!Files W, !EnvVars W, !Commands W, !Context W, !TimeNow W, !HttpClient W, !Traced W}.
Context `{!UnicodeTables, !URLs, !Json, !HttpTimes, !MapRange}.

(** At most [n] requests and the waits between them. *)
Definition asks (n : nat) {A} (_ : A) (l : list Event) : Prop :=
  Forall is_net l ∧ (length (requests l) ≤ n)%nat.

Lemma asks_nil n {A} (a : A) : asks n a [].
Proof. split; [constructor|cbn; lia]. Qed.
Lemma asks_http n {A} (a : A) q r l : asks n a l → asks (S n) a (EHttp q r :: l).
Proof. intros [? ?]. split; [by constructor|]. change (S (length (requests l)) ≤ S n)%nat. lia. Qed.
Lemma asks_wait n {A} (a : A) d e l : asks n a l → asks n a (EWait d e :: l).
Proof. intros [? ?]. split; [by constructor|done]. Qed.

Lemma retry_delay_silent retryAfter attempt :
  emits trace (retry_delay retryAfter attempt) (λ _ l, l = []).
Proof. unfold retry_delay. repeat emit_step; done. Qed.

Hint Resolve retry_delay_silent : trace.
Hint Resolve asks_nil asks_http asks_wait : go.

Lemma post_attempts_asks retries attempt cfg protocol endpoint body :
  emits trace (post_attempts retries attempt cfg protocol endpoint body) (asks (S retries)).
Proof.
  revert attempt. induction retries as [|retries IH]; intros attempt; cbn [post_attempts];
    (destruct (url_Parse endpoint); [cbv zeta|by apply emits_ret; auto with go]);
    (eapply emits_event; [apply trace_Do|]);
    (intros [resp|e]; [cbv zeta|by apply emits_ret; auto with go]);
    (case_decide; [by apply emits_ret; auto with go|]).
  - apply emits_ret; auto with go.
  - case_match; [by apply emits_ret; auto with go|].
    unfold waitForProviderRetry. repeat emit_step; [by auto with go|].
    eapply emits_weaken; [apply IH|]. auto with go.
Qed.

Lemma postJSON_asks cfg protocol endpoint payload :
  emits trace (postJSON cfg protocol endpoint payload) (asks 3).
Proof. unfold postJSON. case_match; [apply post_attempts_asks|by apply emits_ret; auto with go]. Qed.

Lemma asks_then n {A B} (m : M W A) (k : A → M W B) :
  emits trace m (asks n) → (∀ a, emits trace (k a) (λ _ l, l = [])) → emits trace (bind m k) (asks n).
Proof.
  intros Hm Hk. eapply emits_bind; [exact Hm|]. intros a l Hl.
  eapply emits_weaken; [apply Hk|]. intros b l' ->. by rewrite app_nil_r.
Qed.

Lemma Generate_asks cfg req : emits trace (Generate cfg req) (asks 3).
Proof.
  assert (∀ {A} (a : A), emits trace (ret a) (asks 3)) as Hret.
  { intros A a. apply emits_ret. auto with go. }
  unfold Generate. destruct req as [req|]; [|apply Hret].
  repeat (case_match; [apply Hret|]).
  unfold adapter_Generate, openai_Generate, anthropic_Generate, generateGoogle.
  cbv zeta. set (ereq := effective_request _ _ _). clearbody ereq.
  repeat first
    [ apply Hret
    | apply asks_then; [apply postJSON_asks|intros ?; repeat emit_step; done]
    | match goal with |- emits _ (match ?x with _ => _ end) _ => destruct x end
    | eapply emits_event; [apply trace_Do|intros ?; repeat emit_step; eauto with go] ].
Qed.

End Net.

(** ** Bounds *)

(** What a bootstrap may do: send requests, wait between them, and run shell
    commands in the workspace, under a time limit. *)
Definition confined (workspacePath : string) (e : Event) : Prop :=
  match e with
  | EHttp _ _ | EWait _ _ => True
  | EExec lim dir argv _ =>
      lim = Some bootstrapCommandTimeout ∧ dir = workspacePath ∧
      ∃ command, argv = ["/bin/sh"; "-c"; command] ∧ command ≠ "" ∧ (len command ≤ maxBootstrapCommandSize)%Z
  | _ => False
  end.

(** At most [n] requests and [c] commands, all confined. *)
Definition bounded (workspacePath : string) (n : nat) (c : Z) (l : list Event) : Prop :=
  Forall (confined workspacePath) l ∧ (length (requests l) ≤ n)%nat ∧ (Z.of_nat (length (commands l)) ≤ c)%Z.

Lemma bounded_nil ws n c : (0 ≤ c)%Z → bounded ws n c [].
Proof. intros Hc. split_and!; [constructor|cbn; lia|cbn; lia]. Qed.

Lemma bounded_app ws n n' c c' l l' :
  bounded ws n c l → bounded ws n' c' l' → bounded ws (n + n') (c + c') (l ++ l').
Proof.
  intros (Hl & Hn & Hc) (Hl' & Hn' & Hc'). split_and!.
  - by apply Forall_app.
  - rewrite requests_app, length_app. lia.
  - rewrite commands_app, length_app. lia.
Qed.

Lemma bounded_weaken ws n n' c c' l : bounded ws n c l → (n ≤ n')%nat → (c ≤ c')%Z → bounded ws n' c' l.
Proof. intros (Hl & Hn & Hc) ? ?. split_and!; [done|lia|lia]. Qed.

Lemma asks_bounded ws n {A} (a : A) l : asks n a l → bounded ws n 0 l.
Proof.
  intros [Hl Hn]. split_and!; [|done|by rewrite net_commands].
  eapply Forall_impl; [exact Hl|]. by intros [].
Qed.

Section Bounds.
Context {W : Type} `{!Files W, !EnvVars W, !Commands W, !Context W, !TimeNow W, !HttpClient W, !Traced W}.
Context `{!ErrorText, !Quoting, !CommandJson}.

Lemma executeWorkspaceCommand_bounded ws call limit :
  emits trace (executeWorkspaceCommand ws call limit) (λ _ l, bounded ws 0 1 l).
Proof.
  assert (∀ r : string, emits trace (ret r) (λ _ l, bounded ws 0 1 l)) as Hret.
  { intros r. apply emits_ret. by apply bounded_nil. }
  unfold executeWorkspaceCommand. case_decide; [apply Hret|].
  destruct (json_command _) as [command|e]; [|apply Hret].
  case_decide; [apply Hret|]. case_decide; [apply Hret|].
  eapply emits_event; [apply trace_exec|]. intros [writes err].
  assert (bounded ws 0 1 [EExec (Some bootstrapCommandTimeout) ws ["/bin/sh"; "-c"; command] err]) as Hb.
  { split_and!; [|cbn; lia|cbn; lia]. repeat constructor. exists command. split_and!; [done..|lia]. }
  case_match; by apply emits_ret.
Qed.

(** One call takes one command off the budget. *)
Lemma bootstrap_call_bounded ws st call :
  emits trace (bootstrap_call ws st call) (λ r l,
    match r with
    | inl st' => pr_tool_calls st' = (pr_tool_calls st + 1)%Z ∧ (pr_tool_calls st' ≤ maxBootstrapToolCalls)%Z ∧
                 bounded ws 0 1 l
    | inr b => b = false ∧ l = []
    end).
Proof.
  unfold bootstrap_call. case_decide; [by apply emits_ret|].
  case_decide; [by apply emits_ret|]. cbv zeta. eapply emits_bind; [apply executeWorkspaceCommand_bounded|].
  intros result l Hl. apply emits_ret. rewrite app_nil_r. split_and!; [done|cbn; lia|done].
Qed.

Lemma bootstrap_turns_bounded generate ws turns st :
  (∀ req, emits trace (generate req) (asks 3)) → (0 ≤ pr_tool_calls st ≤ maxBootstrapToolCalls)%Z →
  emits trace (bootstrap_turns generate ws turns st)
    (λ _ l, bounded ws (3 * turns) (maxBootstrapToolCalls - pr_tool_calls st) l).
Proof.
  intros Hgen. revert st. induction turns as [|turns IH]; intros st Hst; cbn [bootstrap_turns].
  { apply emits_ret, bounded_nil. lia. }
  eapply emits_bind; [apply Hgen|]. intros r l Hl%(asks_bounded ws).
  assert (∀ b : bool, emits trace (ret b) (λ _ l',
            bounded ws (3 * S turns) (maxBootstrapToolCalls - pr_tool_calls st) (l ++ l'))) as Hret.
  { intros b. apply emits_ret. rewrite app_nil_r. eapply bounded_weaken; [exact Hl|lia|lia]. }
  destruct r as [response|e]; [|apply Hret].
  destruct (resp_tool_calls response) as [|c calls] eqn:Hcalls; [apply Hret|]. cbv zeta. rewrite <- Hcalls.
  eapply emits_bind.
  - apply (emits_for_range trace _ (λ pre st' l',
        pr_tool_calls st' = (pr_tool_calls st + Z.of_nat (length pre))%Z ∧
        (pr_tool_calls st' ≤ maxBootstrapToolCalls)%Z ∧ bounded ws 0 (Z.of_nat (length pre)) l')
      (λ r l', match r with
               | inl st' => (pr_tool_calls st ≤ pr_tool_calls st' ≤ maxBootstrapToolCalls)%Z ∧
                            bounded ws 0 (pr_tool_calls st' - pr_tool_calls st) l'
               | inr _ => bounded ws 0 (maxBootstrapToolCalls - pr_tool_calls st) l'
               end) _ _ []).
    + cbn. split_and!; [lia|lia|by apply bounded_nil].
    + intros pre x suf st' ev _ (Hn & Hmax & Hev).
      eapply emits_weaken; [apply bootstrap_call_bounded|]. intros [st''|b] ev' Hc; cbn beta iota in *.
      * destruct Hc as (Hn' & Hmax' & Hev'). rewrite length_app. cbn [length].
        split_and!; [lia|done|]. eapply bounded_weaken; [by eapply bounded_app|lia|lia].
      * destruct Hc as [-> ->]. rewrite app_nil_r. eapply bounded_weaken; [exact Hev|lia|lia].
    + intros st' ev (Hn & Hmax & Hev). split; [lia|]. eapply bounded_weaken; [exact Hev|lia|lia].
  - intros [st'|b] l' Hl'; cbn [app] in Hl'; cbn beta iota in Hl'.
    + destruct Hl' as [Hst' Hl']. eapply emits_weaken; [apply IH; lia|]. intros b l'' Hl''.
      eapply bounded_weaken; [eapply bounded_app; [exact Hl|eapply bounded_app; [exact Hl'|exact Hl'']]|lia|lia].
    + apply emits_ret. rewrite app_nil_r.
      eapply bounded_weaken; [eapply bounded_app; [exact Hl|exact Hl']|lia|lia].
Qed.
End Bounds.

(** ** The conversation *)

(** A round: what the model said and asked for, and the result of every call. *)
Definition round (r : string * list (ToolCall * string)) : list Message :=
  mkMessage "assistant" (fst r) "" "" (fst <$> snd r) ::
  ((λ cr, mkMessage "tool" (snd cr) (tc_id (fst cr)) (tc_name (fst cr)) []) <$> snd r).

Definition conversation (opening : list Message) (rounds : list (string * list (ToolCall * string))) : list Message :=
  opening ++ (rounds ≫= round).

(** The calls of an answer have identifiers. *)
Definition identified (r : res GenerateResponse) : Prop :=
  match r with Ok resp => Forall (λ c, tc_id c ≠ "") (resp_tool_calls resp) | Err _ => True end.

Lemma numbered_call_id n call : tc_id call ≠ "" → numbered_call n call = call.
Proof. intros H. unfold numbered_call. by rewrite decide_False. Qed.

Section Conversation.
Context {W : Type} `{!Commands W, !ErrorText, !Quoting, !CommandJson}.
(** The requests the model was sent. *)
Context (asked : W → list GenerateRequest).
Context (asked_exec : ∀ lim dir argv, emits asked (exec_Run lim dir argv) (λ _ l, l = [])).

Lemma execute_silent ws call limit : emits asked (executeWorkspaceCommand ws call limit) (λ _ l, l = []).
Proof.
  unfold executeWorkspaceCommand.
  repeat (case_match; try (by apply emits_ret)).
  eapply emits_silent; [apply asked_exec|]. intros [writes err]. case_match; by apply emits_ret.
Qed.

Lemma bootstrap_call_adds ws st call : tc_id call ≠ "" →
  emits asked (bootstrap_call ws st call) (λ r l, l = [] ∧
    match r with
    | inl st' => ∃ result, pr_messages st' = pr_messages st ++ [mkMessage "tool" result (tc_id call) (tc_name call) []]
    | inr b => b = false
    end).
Proof.
  intros Hid. unfold bootstrap_call. case_decide; [by apply emits_ret|]. case_decide; [by apply emits_ret|].
  cbv zeta. rewrite numbered_call_id by done. eapply emits_silent; [apply execute_silent|].
  intros result. apply emits_ret. split; [done|]. by exists result.
Qed.

(** The requests of a conversation that went on for [rounds]. *)
Definition requests_of (opening : list Message) (rounds : list (string * list (ToolCall * string))) (n : nat)
    : list GenerateRequest :=
  (λ k, bootstrap_request (conversation opening (take k rounds))) <$> seq 0 n.

Lemma conversation_snoc opening rounds r : conversation opening (rounds ++ [r]) = conversation opening rounds ++ round r.
Proof. unfold conversation. rewrite bind_app, app_assoc. cbn. by rewrite app_nil_r. Qed.

Lemma requests_of_S opening rounds n : (length rounds = n)%nat →
  requests_of opening rounds (S n) = requests_of opening rounds n ++ [bootstrap_request (conversation opening rounds)].
Proof. intros <-. unfold requests_of. rewrite seq_S, fmap_app. cbn. by rewrite firstn_all. Qed.

Lemma requests_of_more opening rounds more n : (n ≤ S (length rounds))%nat →
  requests_of opening (rounds ++ more) n = requests_of opening rounds n.
Proof.
  intros Hn. unfold requests_of. apply list_fmap_ext. intros i k Hk.
  apply lookup_seq in Hk as [-> Hi]. cbn. by rewrite take_app_le by lia.
Qed.

Lemma turns_converse generate ws opening turns : 
  (∀ req, emits asked (generate req) (λ r l, l = [req] ∧ identified r)) →
  ∀ done st, pr_messages st = conversation opening done →
  emits asked (bootstrap_turns generate ws turns st) (λ _ l, ∃ more,
    requests_of opening done (length done) ++ l = requests_of opening (done ++ more) (length done + length l) ∧
    (length l ≤ turns)%nat ∧ (length l ≤ S (length more))%nat).
Proof.
  intros Hgen. induction turns as [|turns IH]; intros rounds st Hst; cbn [bootstrap_turns].
  { apply emits_ret. exists []. rewrite !app_nil_r, Nat.add_0_r. cbn. auto with lia. }
  eapply emits_bind; [apply Hgen|]. intros r l [-> Hid]. rewrite Hst.
  assert (∀ b : bool, emits asked (ret b) (λ _ l', ∃ more,
    requests_of opening rounds (length rounds) ++ ([bootstrap_request (conversation opening rounds)] ++ l') =
      requests_of opening (rounds ++ more) (length rounds + length ([bootstrap_request (conversation opening rounds)] ++ l')) ∧
    (length ([bootstrap_request (conversation opening rounds)] ++ l') ≤ S turns)%nat ∧
    (length ([bootstrap_request (conversation opening rounds)] ++ l') ≤ S (length more))%nat)) as Hret.
  { intros b. apply emits_ret. exists []. rewrite !app_nil_r. cbn [length].
    rewrite Nat.add_1_r, requests_of_S by done. cbn. auto with lia. }
  destruct r as [response|e]; [|apply Hret]. cbn in Hid.
  destruct (resp_tool_calls response) as [|c calls] eqn:Hcalls; [apply Hret|]. cbv zeta.
  rewrite <- Hcalls in Hid |- *.
  set (assistant := mkMessage "assistant" (resp_content response) "" "" (resp_tool_calls response)).
  eapply emits_bind.
  - apply (emits_for_range asked _ (λ pre st' l', l' = [] ∧ ∃ results, fst <$> results = pre ∧
        pr_messages st' = conversation opening rounds ++ [assistant] ++ tail (round ("", results)))
      (λ r l', l' = [] ∧ match r with
         | inl st' => ∃ results, fst <$> results = resp_tool_calls response ∧
             pr_messages st' = conversation opening rounds ++ round (resp_content response, results)
         | inr b => b = false
         end) _ _ []).
    + split; [done|]. exists []. split; reflexivity.
    + intros pre x suf st' ev Hl (-> & results & Hpre & Hm).
      assert (tc_id x ≠ "") as Hx.
      { rewrite Hl in Hid. apply Forall_app in Hid as [_ Hid]. by inversion Hid. }
      eapply emits_weaken; [by apply bootstrap_call_adds|]. intros [st''|b] l' [-> Hr]; cbn beta iota; [|done].
      split; [done|]. destruct Hr as (result & Hr). exists (results ++ [(x, result)]).
      rewrite fmap_app, Hpre, Hr, Hm. split; [done|].
      cbn [round tail fst snd]. rewrite fmap_app. cbn. by rewrite <- !app_assoc.
    + intros st' ev (-> & results & Hpre & Hm). split; [done|]. exists results. split; [done|].
      rewrite Hm. unfold round. cbn [fst snd]. by rewrite Hpre.
  - intros [st'|b] l' [Hl' Hr]; cbn beta iota in *; cbn [app] in Hl'; subst l'; [|apply Hret].
    destruct Hr as (results & Hres & Hm). cbn [app].
    eapply emits_weaken; [apply (IH (rounds ++ [(resp_content response, results)]))|].
    { by rewrite conversation_snoc, Hm. }
    intros b l'' (more & Hreq & Hturns & Hmore).
    exists ((resp_content response, results) :: more).
    rewrite length_app in Hreq. cbn [length] in Hreq |- *. rewrite Nat.add_1_r in Hreq.
    rewrite requests_of_more, requests_of_S in Hreq by (done || lia). rewrite <- !app_assoc in Hreq.
    cbn [app] in Hreq |- *. rewrite Hreq. split_and!; [f_equal; lia|lia|lia].
Qed.

(** C22: as long as the model names its calls, every request of a bootstrap carries
    on the one before by exactly one round: what the model said, and the result
    of each of its calls, once, in order, under the identifier of the call. *)
Theorem bootstrap_conversation generate goal ws :
  (∀ req, emits asked (generate req) (λ r l, l = [req] ∧ identified r)) →
  emits asked (bootstrap_turns generate ws maxBootstrapTurns (mkProgress (opening_messages goal ws) 0 0))
    (λ _ l, ∃ rounds, l = requests_of (opening_messages goal ws) rounds (length l) ∧
      (length l ≤ maxBootstrapTurns)%nat ∧ (length l ≤ S (length rounds))%nat).
Proof.
  intros Hgen. eapply emits_weaken.
  - apply (turns_converse _ _ (opening_messages goal ws) _ Hgen []). unfold conversation. by rewrite app_nil_r.
  - intros _ l (more & Hl & Hn & Hm). by exists more.
Qed.

End Conversation.

(** A call the model did not name is answered under a made-up identifier that
    the assistant message on record does not carry: the next request holds a
    result without a call. *)
Theorem bootstrap_unnamed_call {W} `{!Commands W, !ErrorText, !Quoting, !CommandJson}
    (generate : GenerateRequest → M W (res GenerateResponse)) ws turns messages s s1 s2 response call result :
  generate (bootstrap_request messages) s = (Ret (Ok response), s1) →
  resp_tool_calls response = [call] → tc_id call = "" →
  executeWorkspaceCommand ws (numbered_call 1 call) maxBootstrapOutput s1 = (Ret result, s2) →
  bootstrap_turns generate ws (S turns) (mkProgress messages 0 0) s =
  bootstrap_turns generate ws turns
    (mkProgress (messages ++
       [mkMessage "assistant" (resp_content response) "" "" [call];
        mkMessage "tool" result "workspace-setup-1" (tc_name call) []]) 1 (len result)) s2 ∧
  Forall (λ c, tc_id c ≠ "workspace-setup-1") [call].
Proof.
  intros Hgen Hcalls Hid Hexec. split; [|constructor; [by rewrite Hid|constructor]].
  cbn [bootstrap_turns]. rewrite (bind_Ret _ _ _ _ _ Hgen). cbv beta iota. rewrite Hcalls. cbv zeta.
  assert (bootstrap_call ws (mkProgress (messages ++ [mkMessage "assistant" (resp_content response) "" "" [call]]) 0 0)
    call s1 = (Ret (inl (mkProgress (messages ++
       [mkMessage "assistant" (resp_content response) "" "" [call];
        mkMessage "tool" result "workspace-setup-1" (tc_name call) []]) 1 (len result))), s2)) as Hcall.
  { unfold bootstrap_call. cbn [pr_tool_calls pr_transcript pr_messages].
    rewrite decide_False by done. cbv zeta.
    rewrite !decide_False by (unfold maxBootstrapTranscript, maxBootstrapOutput; lia). change (0 + 1)%Z with 1%Z.
    rewrite (bind_Ret _ _ _ _ _ Hexec). unfold ret. rewrite <- app_assoc.
    unfold numbered_call. by rewrite decide_True. }
  cbn [for_range]. erewrite bind_Ret; [|rewrite (bind_Ret _ _ _ _ _ Hcall); reflexivity]. reflexivity.
Qed.

Section Run.
Context {W : Type} `{!Files W, !EnvVars W, !Commands W, !Context W, !TimeNow W, !HttpClient W, !Traced W}.
Context `{!UnicodeTables, !URLs, !Json, !HttpTimes, !MapRange, !ModelYaml, !Durations}.
Context `{!ErrorText, !Quoting, !CommandJson}.
Context (GetKubernetesSecret : string → string → string → M W (res string)).
Context (secrets_silent : ∀ ns name key, emits trace (GetKubernetesSecret ns name key) (λ _ l, l = [])).

Lemma resolveAPIKey_silent cfg :
  emits trace (resolveAPIKey GetKubernetesSecret (mkClient cfg None)) (λ _ l, l = []).
Proof.
  unfold resolveAPIKey. cbn [cl_cfg cl_secretResolver]. case_decide; [by apply emits_ret|].
  destruct (cfg_secret_key cfg) as [k|]; [|by apply emits_ret]. apply emits_pure. cbv beta iota zeta.
  eapply emits_silent; [apply secrets_silent|]. intros r. by apply emits_ret.
Qed.

Lemma NewClient_silent cfg : emits trace (NewClient GetKubernetesSecret cfg []) (λ _ l, l = []).
Proof.
  unfold NewClient, apply_options. apply emits_pure. case_decide; [|by apply emits_ret].
  eapply emits_silent; [apply resolveAPIKey_silent|]. intros key. by apply emits_ret.
Qed.

Lemma bootstrapTimeout_silent : emits trace bootstrapTimeout (λ _ l, l = []).
Proof. unfold bootstrapTimeout. repeat emit_step; done. Qed.

Lemma modelBootstrapSelected_silent : emits trace modelBootstrapSelected (λ _ l, l = []).
Proof. unfold modelBootstrapSelected. repeat emit_step; done. Qed.

Lemma runModelBootstrap_events goal ws :
  emits trace (runModelBootstrap GetKubernetesSecret goal ws) (λ _ l, bounded ws 72 48 l).
Proof.
  unfold runModelBootstrap. apply (emits_silent trace); [apply trace_Getenv|]. intros raw.
  destruct (yaml_Unmarshal_Model raw) as [configured|e]; [|apply emits_ret; by apply bounded_nil].
  apply (emits_silent trace); [apply trace_Getenv|]. intros key. cbv zeta.
  apply (emits_silent trace); [apply NewClient_silent|]. intros client.
  apply (emits_silent trace); [apply bootstrapTimeout_silent|]. intros _.
  eapply emits_weaken; [apply bootstrap_turns_bounded; [intros req; apply Generate_asks|done]|].
  done.
Qed.

(** C21: a model-backed bootstrap always ends, with at most 72 requests to the model
    and at most 48 commands. Each command is a non-empty shell command of at most
    16 KiB, run in the workspace under a limit of two minutes. It writes no file
    and changes no directory itself. *)
Theorem runModelBootstrap_bounded goal ws :
  emits trace (runModelBootstrap GetKubernetesSecret goal ws) (λ _ l,
    Forall (confined ws) l ∧ (length (requests l) ≤ 72)%nat ∧ (Z.of_nat (length (commands l)) ≤ 48)%Z).
Proof. apply runModelBootstrap_events. Qed.

End Run.
