(* ===== verification/SetupSpec.v ===== *)
(** What the workspace setup guarantees: where repositories are checked out, which
    paths share a marker, how often git is tried, and when the marker that ends
    the maiden run is written. *)

From S2P Require Import Prelude GoStrings Paths Types Bindings StoreApi Substrate ModelConfig ModelClient.
From S2P Require Import Container Bootstrap Setup BootstrapSpec.

#[local] Arguments Ascii.eqb : simpl never.

(** ** Names *)

Lemma rcut_after p s a b : rcut p s = Some (a, b) → sall (λ c, negb (p c)) b = true.
Proof.
  revert a. induction s as [|d s IH]; intros a; cbn; [done|].
  destruct (rcut p s) as [[a' b']|] eqn:E; [intros [= <- <-]; by eapply IH|].
  destruct (p d); [|done]. intros [= <- <-]. clear IH.
  induction s as [|e s IH]; [done|]. cbn in E |- *.
  destruct (rcut p s) as [[]|]; [done|]. destruct (p e); [done|]. cbn. by apply IH.
Qed.

Lemma rcut_None p s : rcut p s = None → sall (λ c, negb (p c)) s = true.
Proof.
  induction s as [|e s IH]; [done|]. cbn.
  destruct (rcut p s) as [[]|]; [done|]. destruct (p e); [done|]. cbn. by apply IH.
Qed.

Lemma RepoDirName_plain url : string_in "/" (RepoDirName url) = false ∧ string_in ":" (RepoDirName url) = false.
Proof.
  assert (∀ s, sall (λ c, negb (Ascii.eqb c "/" || Ascii.eqb c ":")) s = true →
    string_in "/" s = false ∧ string_in ":" s = false) as H.
  { induction s as [|c s IH]; [done|]. cbn. intros [Hc Hs]%andb_true_iff.
    apply negb_true_iff, orb_false_iff in Hc as [H1 H2]. rewrite Ascii.eqb_sym in H1, H2.
    rewrite H1, H2. by apply IH. }
  unfold RepoDirName. destruct (rcut _ _) as [[a b]|] eqn:E.
  - apply H. by eapply rcut_after.
  - by apply H, rcut_None.
Qed.

(** The names that make the repository decide. *)
Definition generic_name (name : string) : Prop := name = "" ∨ name = "repo" ∨ name = "origin".

(** A repository that names neither a directory nor itself is checked out right
    below the workspace, under the last part of its URL, unless that part is a
    dot name. *)
Theorem cloneDestination_derived repo target :
  git_dir repo = "" → generic_name (git_name repo) → IsAbs target = true →
  RepoDirName (git_repo repo) ∉ [""; "."; ".."] →
  path_elems (cloneDestination repo target) = path_elems target ++ [RepoDirName (git_repo repo)].
Proof.
  intros Hdir Hname Ht Hd. unfold cloneDestination. rewrite decide_False by (rewrite Hdir; auto). cbv zeta.
  assert (bool_decide (git_name repo = "") || bool_decide (git_name repo = defaultRepoDirName) ||
          bool_decide (git_name repo = "origin") = true) as ->.
  { by destruct Hname as [-> | [-> | ->]]. }
  rewrite decide_True by set_solver. apply path_elems_Join; [done| |set_solver].
  split_and!; [set_solver|set_solver|apply RepoDirName_plain].
Qed.

(** ** Markers *)

Lemma MarkerName_abs p : IsAbs p = true → MarkerName p =
  "initialized-" +:+ (if decide (path_elems p = []) then "root" else ReplaceByte "/" "-" (Join "/" (path_elems p))).
Proof.
  intros Hp. unfold MarkerName. rewrite (decide_False (P := p = "")) by (intros ->; done).
  rewrite TrimByte_Clean by done. cbv zeta.
  destruct (decide (path_elems p = [])) as [->|Hne]; [done|].
  rewrite decide_False; [done|]. by intros ?%Join_empty; [|apply path_elems_proper].
Qed.

Lemma MarkerName_Clean p : IsAbs p = true → MarkerName (Clean p) = MarkerName p.
Proof.
  intros Hp. rewrite !MarkerName_abs by (by rewrite ?IsAbs_Clean). unfold path_elems.
  by rewrite clean_stack_Clean.
Qed.

(** Workspaces at different paths have different markers, as long as no element
    of the paths holds a hyphen and none of them is /root. *)
Theorem MarkerName_distinct p q :
  IsAbs p = true → IsAbs q = true →
  string_in "-" (Clean p) = false → string_in "-" (Clean q) = false →
  Clean p ≠ "/root" → Clean q ≠ "/root" →
  MarkerName p = MarkerName q ↔ Clean p = Clean q.
Proof.
  intros Hp Hq Hhp Hhq Hrp Hrq. split; [|intros H; by rewrite <- (MarkerName_Clean p), H, MarkerName_Clean].
  assert (∀ r, IsAbs r = true → string_in "-" (Clean r) = false →
    string_in "-" (Join "/" (path_elems r)) = false) as Hhyphen.
  { intros r Hr Hh. rewrite Clean_abs, string_in_app in Hh by done. by apply orb_false_iff in Hh as [_ Hh]. }
  assert (∀ r, IsAbs r = true → string_in "-" (Clean r) = false → Clean r ≠ "/root" → path_elems r ≠ [] →
    ReplaceByte "/" "-" (Join "/" (path_elems r)) ≠ "root") as Hroot.
  { intros r Hr Hh Hne _ Heq. apply Hne. rewrite Clean_abs by done. unfold path_elems in Heq.
    change "root" with (ReplaceByte "/" "-" "root") in Heq.
    apply ReplaceByte_inj in Heq; [by rewrite Heq|by apply Hhyphen|done]. }
  rewrite !MarkerName_abs by done. intros H%string_app_inj_l. apply Clean_elems; [done..|].
  destruct (decide (path_elems p = [])) as [Ep|Ep], (decide (path_elems q = [])) as [Eq|Eq].
  - by rewrite Ep, Eq.
  - by destruct (Hroot q).
  - by destruct (Hroot p).
  - apply ReplaceByte_inj in H; [|by apply Hhyphen..].
    apply Join_inj; [apply path_elems_proper..|done].
Qed.

(** Two bindings the API server accepts, at different paths, can share a marker:
    once the first is set up the other counts as set up too. *)
Theorem MarkerName_collides :
  let refs := [mkWorkspaceRef "tools" "/workspace/a-b" ""; mkWorkspaceRef "app" "/workspace/a/b" ""] in
  valid_bindings refs ∧
  Clean "/workspace/a-b" ≠ Clean "/workspace/a/b" ∧
  MarkerName "/workspace/a-b" = MarkerName "/workspace/a/b".
Proof.
  cbv zeta. split_and!; [|done|done].
  apply validate_refs_valid. reflexivity.
Qed.

(** ** Git *)

Section Git.
Context {W : Type} `{!Files W, !EnvVars W, !Commands W, !Context W, !TimeNow W, !HttpClient W, !Traced W}.

(** An operation run up to [used] times, [delay] apart; [P] is what one run does.
    The last run decides, unless the context ends during a wait. *)
Inductive retried (delay : Z) (P : string * option error → list Event → Prop)
    : nat → string * option error → list Event → Prop :=
| retried_last r l : P r l → retried delay P 1 r l
| retried_cancelled out e c l : P (out, Some e) l →
    retried delay P 1 (out, Some (ErrJoin [e; c])) (l ++ [EWait delay (Some c)])
| retried_again used out e l r l' : P (out, Some e) l → retried delay P used r l' →
    retried delay P (S used) r (l ++ EWait delay None :: l').

(** A retry gives up before its last attempt only when an attempt succeeded or the
    context ended. *)
Lemma retry_retried attempts delay op P : (0 < attempts)%nat → emits trace op P →
  emits trace (retry attempts delay op) (λ r l, ∃ used,
    retried delay P used r l ∧ (used ≤ attempts)%nat ∧
    ((used < attempts)%nat → snd r = None ∨ ∃ c, EWait delay (Some c) ∈ l)).
Proof.
  intros Hn Hop. induction attempts as [|attempts IH]; [lia|]. clear Hn. cbn [retry].
  eapply emits_bind; [exact Hop|]. intros [out [e|]] l HP.
  - destruct attempts as [|attempts].
    { apply emits_ret. rewrite app_nil_r. exists 1%nat. split_and!; [by constructor|lia|lia]. }
    eapply emits_event; [apply trace_wait|]. intros [c|].
    + apply emits_ret. exists 1%nat. split_and!; [by constructor|lia|]. intros _. right. exists c. set_solver.
    + eapply emits_weaken; [apply IH; lia|]. intros r l' (used & Hr & Hle & Hearly).
      exists (S used). split_and!; [by econstructor|lia|]. intros Hlt.
      destruct (Hearly ltac:(lia)) as [?|[c Hc]]; [by left|]. right. exists c. set_solver.
  - apply emits_ret. rewrite app_nil_r. exists 1%nat. split_and!; [by constructor|lia|by left].
Qed.

Definition git_event (dir : string) (e : Event) : Prop :=
  ∃ args err, e = EExec None dir ("git" :: args) err.

(** The commands of a fetch that succeeds; [again] tells whether the remote was
    there already. *)
Definition fetch_commands (dir repoURL branch : string) (depth : Z) (again : bool)
    : list (option Z * string * list string) :=
  (λ args, (None, dir, "git" :: args)) <$>
    [["init"]; ["remote"; "add"; "origin"; repoURL]] ++
    (if again then [["remote"; "set-url"; "origin"; repoURL]] else []) ++
    [fetch_args branch depth; ["checkout"; "-f"; "FETCH_HEAD"]].

(** One run of a fetch. *)
Definition fetched (dir repoURL branch : string) (depth : Z) (r : string * option error) (l : list Event) : Prop :=
  Forall (git_event dir) l ∧
  match snd r with
  | None => ∃ again, commands l = fetch_commands dir repoURL branch depth again
  | Some _ => (1 ≤ length l ≤ 5)%nat
  end.

Lemma emits_git {B} dir args combined (k : string * option error → M W B) Q :
  (∀ out err err', emits trace (k (out, err)) (λ b l, Q b (EExec None dir ("git" :: args) err' :: l))) →
  emits trace (bind (git dir args combined) k) Q.
Proof.
  intros Hk. unfold git. apply emits_assoc. eapply emits_event; [apply trace_exec|].
  intros [writes err]. apply emits_pure. apply Hk.
Qed.

Lemma fetchRepo_fetched dir repoURL branch depth :
  emits trace (fetchRepo dir repoURL branch depth) (fetched dir repoURL branch depth).
Proof.
  assert (∀ args err, git_event dir (EExec None dir ("git" :: args) err)) as Hgit by (intros args err; by exists args, err).
  unfold fetchRepo. apply emits_git. intros out [e|] err0.
  { apply emits_ret. split; [by repeat constructor|cbn; lia]. }
  apply emits_git. intros out1 err1 err1'.
  assert (∀ again l0, Forall (git_event dir) l0 → (length l0 ≤ 3)%nat → (1 ≤ length l0)%nat →
    commands l0 = take (length l0) (fetch_commands dir repoURL branch depth again) →
    length l0 = (if again then 3 else 2)%nat →
    ∀ combined, emits trace
      (let! (combined, err) := git dir (fetch_args branch depth) combined in
       match err with Some e => ret (combined, Some e) | None => git dir ["checkout"; "-f"; "FETCH_HEAD"] combined end)
      (λ r l, fetched dir repoURL branch depth r (l0 ++ l))) as Hrest.
  { intros again l0 Hl0 Hle Hge Hc Hlen combined. apply emits_git. intros out2 [e|] err2.
    { apply emits_ret. split; [apply Forall_app; split; [done|by repeat constructor]|].
      cbn [snd]. rewrite length_app. cbn. lia. }
    unfold git. eapply emits_event; [apply trace_exec|]. intros [writes err3]. apply emits_ret.
    split; [apply Forall_app; split; [done|by repeat constructor]|]. cbn [snd].
    destruct err3 as [e|]; [rewrite length_app; cbn; lia|].
    exists again. rewrite commands_app, Hc, Hlen. by destruct again. }
  destruct err1 as [e1|].
  - apply emits_git. intros out2 [e|] err2.
    { apply emits_ret. split; [by repeat constructor|cbn; lia]. }
    eapply emits_weaken; [apply (Hrest true
      [EExec None dir ["git"; "init"] err0; EExec None dir ["git"; "remote"; "add"; "origin"; repoURL] err1';
       EExec None dir ["git"; "remote"; "set-url"; "origin"; repoURL] err2])|].
    1: by repeat constructor. all: cbn; try lia; done.
  - apply emits_pure. eapply emits_weaken; [apply (Hrest false
      [EExec None dir ["git"; "init"] err0; EExec None dir ["git"; "remote"; "add"; "origin"; repoURL] err1'])|].
    1: by repeat constructor. all: cbn; try lia; done.
Qed.

(** C27: a repository is fetched in at most five attempts, two seconds apart, each in
    its own directory. An attempt that succeeds ran init, remote add (or set-url
    where the remote was there already), fetch and checkout, in this order; giving
    up earlier than the fifth attempt means success or the end of the context. *)
Theorem retry_fetch dir repoURL branch depth :
  emits trace (retry gitRetries gitRetryDelay (fetchRepo dir repoURL branch depth)) (λ r l, ∃ used,
    retried gitRetryDelay (fetched dir repoURL branch depth) used r l ∧ (used ≤ 5)%nat ∧
    ((used < 5)%nat → snd r = None ∨ ∃ c, EWait gitRetryDelay (Some c) ∈ l)).
Proof. apply retry_retried; [cbn; lia|apply fetchRepo_fetched]. Qed.

End Git.

(** ** The maiden run *)

Section Setup.
Context {W : Type} `{!Files W, !EnvVars W, !Commands W, !Context W, !TimeNow W, !HttpClient W, !Traced W}.
Context `{!UnicodeTables, !URLs, !Json, !HttpTimes, !MapRange, !ModelYaml, !Durations}.
Context `{!ErrorText, !Quoting, !CommandJson, !Rfc3339}.
Context (GetKubernetesSecret : string → string → string → M W (res string)).
Context (secrets_silent : ∀ ns name key, emits trace (GetKubernetesSecret ns name key) (λ _ l, l = [])).
Context (AXDir : string).

(** The repositories a workspace declares. *)
Definition declared_repos (repos : list (option GitRepo)) : list string :=
  omap (λ r, match r with
             | Some r => if decide (git_repo r = "") then None else Some (git_repo r)
             | None => None
             end) repos.

(** The events of a setup between the check for its marker and the marker: no
    file is written but the two logs of git. *)
Definition work_event (e : Event) : Prop :=
  match e with
  | EWrite p _ _ => p = path_Join AXDir gitSuccessLog ∨ p = path_Join AXDir gitErrorLog
  | EMkdir _ _ | EStat _ _ | EExec _ _ _ _ | EWait _ _ | EHttp _ _ => True
  | _ => False
  end.
Definition logs_only (l : list Event) : Prop := Forall work_event l.

Lemma logs_only_nil : logs_only [].
Proof. constructor. Qed.
Lemma logs_only_app l l' : logs_only l → logs_only l' → logs_only (l ++ l').
Proof. intros ? ?. by apply Forall_app. Qed.
Lemma logs_only_cons e l : work_event e → logs_only l → logs_only (e :: l).
Proof. by constructor. Qed.
Lemma logs_only_written l : logs_only l →
  Forall (λ p, p = path_Join AXDir gitSuccessLog ∨ p = path_Join AXDir gitErrorLog) (written l).
Proof. induction 1 as [|e l He Hl IH]; [constructor|]. destruct e; by try constructor. Qed.



Lemma git_logs dir l : Forall (git_event dir) l → logs_only l.
Proof. intros Hl. eapply Forall_impl; [exact Hl|]. by intros e (args & err & ->). Qed.

Lemma confined_logs ws l : Forall (confined ws) l → logs_only l.
Proof. intros Hl. eapply Forall_impl; [exact Hl|]. by intros []. Qed.

Lemma retried_logs delay P used r l :
  (∀ r l, P r l → logs_only l) → retried delay P used r l → logs_only l.
Proof.
  intros HP. induction 1 as [r l Hl|out e c l Hl|used out e l r l' Hl Hr IH]; [by eapply HP|..];
    (apply logs_only_app; [by eapply HP|]); by constructor.
Qed.

Lemma cloneRepo_step target cloned ok repo :
  emits trace (cloneRepo AXDir target (cloned, ok) repo) (λ r l, logs_only l ∧
    match declared_repos [repo] with
    | [url] => (snd r = ok ∧ fst r = cloned ++ [url]) ∨ (snd r = false ∧ fst r = cloned)
    | _ => r = (cloned, ok)
    end).
Proof.
  unfold cloneRepo. destruct repo as [repo|]; [|by apply emits_ret; split; [apply logs_only_nil|]].
  unfold declared_repos. cbn [omap list_omap].
  case_decide; [by apply emits_ret; split; [apply logs_only_nil|]|].
  cbv zeta. eapply emits_event; [apply trace_MkdirAll|]. intros mkerr.
  eapply emits_bind; [apply (retry_retried gitRetries); [unfold gitRetries; lia|apply fetchRepo_fetched]|].
  intros [out err] l (used & Hr & _).
  assert (logs_only l) as Hl.
  { eapply retried_logs; [|exact Hr]. intros r l' [Hg _]. by eapply git_logs. }
  assert (∀ name data (r : list string * bool) Q, (name = gitSuccessLog ∨ name = gitErrorLog) → Q r →
    emits trace (writeStateFile AXDir name data ;;; ret r) (λ r l', logs_only (l ++ l') ∧ Q r)) as Hlog.
  { intros name data r Q Hname HQ. unfold writeStateFile. apply emits_assoc.
    eapply emits_event; [apply trace_WriteFile|]. intros e. apply emits_pure, emits_ret. split; [|done].
    apply logs_only_app; [done|]. constructor; [|constructor].
    destruct Hname as [-> | ->]; [by left|by right]. }
  assert (∀ e l', logs_only l' → logs_only (EMkdir (cloneDestination repo target) e :: l')) as Hmk.
  { intros e l' Hl'. by apply logs_only_cons. }
  destruct err as [e|]; (eapply emits_weaken; [apply Hlog; [by auto|]|intros r l' [Hl' HQ]; split; [by apply Hmk|exact HQ]]).
  - right. done.
  - left. done.
Qed.

Lemma clone_loop_spec target repos cloned ok done :
  cloned `sublist_of` done → (ok = true ↔ cloned = done) →
  emits trace (clone_loop AXDir target repos (cloned, ok)) (λ r l, logs_only l ∧
    fst r `sublist_of` done ++ declared_repos repos ∧ (snd r = true ↔ fst r = done ++ declared_repos repos)).
Proof.
  revert cloned ok done. induction repos as [|repo repos IH]; intros cloned ok done Hsub Hok; cbn [clone_loop].
  { apply emits_ret. cbn [declared_repos omap list_omap]. rewrite app_nil_r. split; [apply logs_only_nil|by split]. }
  eapply emits_bind; [apply cloneRepo_step|]. intros [cloned' ok'] l [Hl Hstep].
  assert (cloned' `sublist_of` done ++ declared_repos [repo] ∧ (ok' = true ↔ cloned' = done ++ declared_repos [repo]))
    as [Hsub' Hok'].
  { destruct (declared_repos [repo]) as [|url [|]] eqn:E; [| |].
    - injection Hstep as -> ->. by rewrite app_nil_r.
    - cbn in Hstep. destruct Hstep as [[-> ->]|[-> ->]].
      + split; [by apply sublist_skips_r || by apply sublist_app|]. rewrite Hok.
        split; [by intros ->|]. intros Heq. by apply app_inj_tail in Heq as [-> _].
      + split; [by apply sublist_inserts_r|]. split; [done|]. intros ->.
        apply sublist_length in Hsub. rewrite length_app in Hsub. cbn in Hsub. lia.
    - exfalso. cbn in E. repeat case_match; done. }
  eapply emits_weaken; [by apply IH|]. intros r l' (Hl' & Hs & Hr).
  change (declared_repos (repo :: repos)) with (declared_repos ([repo] ++ repos)).
  unfold declared_repos at 1 2. rewrite omap_app. fold (declared_repos [repo]) (declared_repos repos).
  rewrite app_assoc. split; [by apply logs_only_app|done].
Qed.

Lemma setupSkills_logs skills : emits trace (setupSkills skills) (λ _ l, logs_only l).
Proof.
  unfold setupSkills. case_match; [|by apply emits_ret; repeat constructor].
  case_decide; [by apply emits_ret; repeat constructor|].
  eapply emits_event; [apply trace_MkdirAll|]. intros mkerr. by apply emits_ret; repeat constructor.
Qed.

Lemma runBootstrap_logs goal target : emits trace (runBootstrap GetKubernetesSecret AXDir goal target) (λ _ l, logs_only l).
Proof.
  unfold runBootstrap. apply (emits_silent trace); [apply modelBootstrapSelected_silent|]. intros [].
  { eapply emits_weaken; [by apply runModelBootstrap_events|]. intros b l (Hl & _).
    by eapply confined_logs. }
  unfold runAntigravityBootstrap. eapply emits_event; [apply trace_Stat|].
  intros [e|]; [by apply emits_ret; repeat constructor|].
  apply (emits_silent trace); [apply trace_Getenv|]. intros key.
  case_decide; [by apply emits_ret; repeat constructor|].
  apply (emits_silent trace); [apply bootstrapTimeout_silent|]. intros timeout. cbv zeta.
  eapply emits_event; [apply trace_MkdirAll|]. intros mkerr.
  eapply emits_event; [apply trace_exec|]. intros [writes err]. by apply emits_ret; repeat constructor.
Qed.

(** The repositories the specification of a workspace declares. *)
Definition repos_of (ws : option Workspace) : list string :=
  match ws ≫= ws_spec with Some spec => declared_repos (wss_git spec) | None => [] end.

Lemma initialized_proper p : IsAbs p = true → proper (MarkerName p).
Proof.
  intros Hp. rewrite MarkerName_abs by done. split_and!; [done|done|].
  rewrite string_in_app. apply orb_false_iff. split; [done|]. case_decide; [done|].
  generalize (Join "/" (path_elems p)). induction s as [|c s IH]; [done|].
  cbn. destruct (Ascii.eqb_spec c "/"); apply orb_false_iff; (split; [|exact IH]); [done|].
  apply Ascii.eqb_neq. congruence.
Qed.

Lemma marker_not_log p : IsAbs AXDir = true → IsAbs p = true →
  path_Join AXDir (MarkerName p) ≠ path_Join AXDir gitSuccessLog ∧
  path_Join AXDir (MarkerName p) ≠ path_Join AXDir gitErrorLog.
Proof.
  intros Hax Hp. pose proof (initialized_proper p Hp) as Hm.
  assert (∀ s, s ≠ ".." → proper s → MarkerName p ≠ s → path_Join AXDir (MarkerName p) ≠ path_Join AXDir s) as Hne.
  { intros s Hd Hs Hne Heq. apply Hne. apply (path_Join_inj AXDir); done. }
  rewrite MarkerName_abs in Hne by done. rewrite MarkerName_abs by done.
  split; apply Hne; done.
Qed.

Lemma logs_no_marker p l : IsAbs AXDir = true → IsAbs p = true → logs_only l →
  path_Join AXDir (MarkerName p) ∉ written l.
Proof.
  intros Hax Hp Hl Hin. destruct (marker_not_log p Hax Hp) as [Hm1 Hm2].
  apply logs_only_written in Hl. rewrite Forall_forall in Hl. by destruct (Hl _ Hin).
Qed.

Lemma writeMarker_writes path ws :
  emits trace (writeMarker path ws) (λ _ l, ∃ data err, l = [EWrite path data err]).
Proof.
  unfold writeMarker. apply (emits_silent trace); [apply trace_Now|]. intros now. cbv zeta.
  eapply emits_event; [apply trace_WriteFile|]. intros err. apply emits_ret. by eexists _, _.
Qed.

(** The middle of a maiden run: repositories and skills, then the bootstrap. *)
Lemma prepare_spec ws target :
  emits trace
    (match ws ≫= ws_spec with
     | Some spec =>
         let! (cloned, gitOK) := cloneRepos AXDir (wss_git spec) target in
         let! skills := setupSkills (wss_skills spec) in
         ret (cloned, gitOK, skills)
     | None => ret ([], true, "")
     end)
    (λ r l, logs_only l ∧ fst (fst r) `sublist_of` repos_of ws ∧ (snd (fst r) = true ↔ fst (fst r) = repos_of ws)).
Proof.
  unfold repos_of. destruct (ws ≫= ws_spec) as [spec|]; [|by apply emits_ret; split; [apply logs_only_nil|]].
  eapply emits_bind; [by apply (clone_loop_spec _ _ [] true [])|]. intros [cloned ok] l (Hl & Hsub & Hok).
  eapply emits_bind; [apply setupSkills_logs|]. intros skills l' Hl'. apply emits_ret.
  rewrite app_nil_r. split; [by apply logs_only_app|by split].
Qed.

(** The variable with the configured model holds [raw] throughout. *)
Definition configured (raw : string) : Prop := ∀ s : W, ∃ s', os_Getenv modelConfigEnv s = (Ret raw, s').
(** A configuration that asks for the model-backed bootstrap. *)
Definition asks_model (raw : string) : Prop :=
  raw ≠ "" ∧ match yaml_Unmarshal_Model raw with
             | Ok m => EffectiveProtocol (ConfigFromCRD (Some m)) ≠ ProtocolGoogle
             | Err _ => True
             end.
(** Among the events there are those of a model-backed bootstrap that ran to its end:
    the model called no more tools. *)
Definition completed (goal target : string) (l : list Event) : Prop := ∃ s s' pre l' post,
  runModelBootstrap GetKubernetesSecret goal target s = (Ret true, s') ∧
  trace s' = trace s ++ l' ∧ l = pre ++ l' ++ post.

Lemma completed_app goal target pre l post : completed goal target l → completed goal target (pre ++ l ++ post).
Proof.
  intros (s & s' & pre' & l' & post' & Hrun & Hl' & ->). exists s, s', (pre ++ pre'), l', (post' ++ post).
  by rewrite <- !app_assoc.
Qed.

Lemma selected_asked : emits trace modelBootstrapSelected (λ b l,
  l = [] ∧ ∀ raw, configured raw → asks_model raw → b = true).
Proof.
  intros s. destruct (modelBootstrapSelected_silent s) as (b & s' & l & Hrun & Hl & ->).
  exists b, s', []. split_and!; [done|done|done|]. intros raw Hraw [Hne Hasks]. unfold modelBootstrapSelected in Hrun.
  destruct (Hraw s) as (s1 & Hget). rewrite (bind_Ret _ _ _ _ _ Hget) in Hrun. rewrite decide_False in Hrun by done.
  destruct (yaml_Unmarshal_Model raw); [|by injection Hrun]. injection Hrun as <- _.
  by rewrite bool_decide_eq_false_2.
Qed.

(** The bootstrap of a goal: if the configuration asks for a model, it ran to its end or
    is reported as failed. *)
Lemma goal_completed target goal :
  emits trace
    (if decide (goal ≠ "") then
       let! modelBootstrap := modelBootstrapSelected in
       let! ran := runBootstrap GetKubernetesSecret AXDir goal target in
       ret (ran, modelBootstrap && negb ran)
     else ret (false, false))
    (λ r l, logs_only l ∧ (snd r = true → goal ≠ "" ∧ fst r = false) ∧
      (snd r = false → goal ≠ "" → ∀ raw, configured raw → asks_model raw → completed goal target l)).
Proof.
  case_decide; [|by apply emits_ret; split; [apply logs_only_nil|]].
  eapply emits_bind; [apply selected_asked|]. intros model _ [-> Hmodel].
  eapply (emits_bind _ _ _ (λ ran l, logs_only l ∧
    (ran = true → ∀ raw, configured raw → asks_model raw → completed goal target l))).
  { intros s. destruct (runBootstrap_logs goal target s) as (ran & s' & l & Hrun & Hl & Hlogs).
    exists ran, s', l. split_and!; [done|done|done|]. intros -> raw Hraw Hasks. unfold runBootstrap in Hrun.
    destruct (selected_asked s) as (b & s1 & l1 & Hsel & Hl1 & -> & Hb). rewrite (bind_Ret _ _ _ _ _ Hsel) in Hrun.
    rewrite (Hb raw Hraw Hasks) in Hrun. exists s1, s', [], l, []. rewrite app_nil_r in Hl1 |- *.
    split_and!; [done|by rewrite Hl1|done]. }
  intros ran l [Hlogs Hran]. apply emits_ret. rewrite app_nil_r. cbn. split_and!; [done| |].
  - by intros [_ ?%negb_true_iff]%andb_true_iff.
  - intros Hf _ raw Hraw Hasks. rewrite (Hmodel raw Hraw Hasks) in Hf. apply Hran with raw; [by destruct ran|done..].
Qed.

(** C12: a workspace is set up once. Where its marker exists nothing is cloned, run or
    written. Otherwise the repositories are fetched and the bootstrap is run, and
    the marker is written exactly when every declared repository was cloned and no
    error is returned; an error is only returned after a bootstrap that failed. *)
Theorem SetupWorkspace_marks ws target goal : IsAbs AXDir = true → IsAbs target = true →
  emits trace (SetupWorkspace GetKubernetesSecret AXDir ws target goal) (λ r l,
    let marker := path_Join AXDir (MarkerName target) in
    match r with
    | (None, err) => err ≠ None ∧ commands l = [] ∧ written l = []
    | (Some res, err) =>
        sr_workspace_path res = Clean target ∧
        if sr_is_maiden_run res then
          (∃ e, EStat marker (Some e) ∈ l) ∧ sr_cloned_repos res `sublist_of` repos_of ws ∧
          (marker ∈ written l ↔ sr_cloned_repos res = repos_of ws ∧ err = None) ∧
          (err ≠ None → goal ≠ "" ∧ sr_bootstrap_ran res = false)
        else EStat marker None ∈ l ∧ err = None ∧ commands l = [] ∧ written l = []
    end).
Proof.
  intros Hax Ht. unfold SetupWorkspace. rewrite (decide_False (P := target = "")) by (intros ->; done).
  unfold absolute. rewrite Ht. apply emits_pure. cbv zeta.
  rewrite MarkerName_Clean by done.
  eapply emits_event; [apply trace_MkdirAll|]. intros [e|]; [by apply emits_ret|].
  eapply emits_event; [apply trace_MkdirAll|]. intros axerr.
  eapply emits_event; [apply trace_Stat|]. intros [e|].
  2:{ apply emits_ret. split_and!; [done| |done..]. cbn. set_solver. }
  eapply emits_bind; [apply prepare_spec|]. intros [[cloned ok] skills] l (Hl & Hsub & Hok). cbn in Hsub, Hok.
  eapply emits_bind; [apply goal_completed|]. intros [ran failed] l' (Hl' & Hfailed & _). cbn in Hfailed. cbv zeta.
  pose proof (logs_no_marker target l Hax Ht Hl) as Hn. pose proof (logs_no_marker target l' Hax Ht Hl') as Hn'.
  assert (∀ pre l'' e', EStat (path_Join AXDir (MarkerName target)) (Some e')
    ∈ pre :: EMkdir AXDir axerr :: EStat (path_Join AXDir (MarkerName target)) (Some e') :: l'') as Hstat by set_solver.
  assert (∀ pre a b l'', written (EMkdir pre a :: EMkdir AXDir axerr :: EStat b (Some e) :: l'') = written l'') as Hw by done.
  destruct failed.
  { apply emits_ret. rewrite Hw, !written_app. split; [done|]. split_and!; [by eexists|done| |intros _; by apply Hfailed].
    rewrite app_nil_r. set_solver. }
  destruct ok; cbn [negb].
  - eapply emits_bind; [apply writeMarker_writes|]. intros u ? (data & werr & ->). apply emits_ret.
    rewrite Hw, !written_app. split; [done|]. split_and!; [by eexists|done| |done].
    cbn. split; [|set_solver]. intros _. split; [by apply Hok|done].
  - apply emits_ret. rewrite Hw, !written_app. split; [done|]. split_and!; [by eexists|done| |done].
    rewrite app_nil_r. split; [set_solver|]. intros [Heq _]. by apply Hok in Heq.
Qed.

(** The events of a whole setup, the marker included. *)
Definition setup_event (e : Event) : Prop :=
  match e with
  | EMkdir _ _ | EStat _ _ | EWrite _ _ _ | EExec _ _ _ _ | EWait _ _ | EHttp _ _ => True
  | _ => False
  end.

Lemma logs_setup l : logs_only l → Forall setup_event l.
Proof. intros Hl. eapply Forall_impl; [exact Hl|]. by intros []. Qed.

(** A workspace that was prepared: its directory was created, and either its marker was
    there already, or there was none and the model-backed bootstrap that its goal and
    the configuration ask for ran to its end. *)
Definition prepared (target goal : string) (l : list Event) : Prop :=
  EMkdir (Clean target) None ∈ l ∧
  let marker := path_Join AXDir (MarkerName target) in
  (EStat marker None ∈ l ∨
   (∃ e, EStat marker (Some e) ∈ l) ∧
   (goal ≠ "" → ∀ raw, configured raw → asks_model raw → completed goal (Clean target) l)).

(** What a run of the setup at [target] shows to its caller. *)
Definition setup_run (target goal : string) (err : option error) (l : list Event) : Prop :=
  Forall setup_event l ∧ (err = None → prepared target goal l) ∧
  (err ≠ None → goal ≠ "" ∨ ∃ e, EMkdir (Clean target) (Some e) ∈ l).

Lemma SetupWorkspace_run ws target goal : IsAbs target = true →
  emits trace (SetupWorkspace GetKubernetesSecret AXDir ws target goal) (λ r l, setup_run target goal (snd r) l).
Proof.
  intros Ht. unfold SetupWorkspace. rewrite (decide_False (P := target = "")) by (intros ->; done).
  unfold absolute. rewrite Ht. apply emits_pure. cbv zeta. rewrite MarkerName_Clean by done.
  eapply emits_event; [apply trace_MkdirAll|]. intros [e|].
  { apply emits_ret. split_and!; [by repeat constructor|done|]. intros _. right. exists e. set_solver. }
  eapply emits_event; [apply trace_MkdirAll|]. intros axerr.
  eapply emits_event; [apply trace_Stat|]. intros st.
  set (opening := [EMkdir (Clean target) None; EMkdir AXDir axerr; EStat (path_Join AXDir (MarkerName target)) st]).
  assert (∀ err l, Forall setup_event l → (err = None → prepared target goal (opening ++ l)) → (err ≠ None → goal ≠ "") →
    setup_run target goal err (opening ++ l)) as Hrun.
  { intros err l Hl Hprep Hgoal. split_and!; [by repeat constructor|done|]. intros He. left. by apply Hgoal. }
  destruct st as [e|].
  2:{ apply emits_ret, (Hrun _ []); [constructor| |done]. intros _. split; [set_solver|]. left. set_solver. }
  assert (∀ pre l post, (goal ≠ "" → ∀ raw, configured raw → asks_model raw → completed goal (Clean target) l) →
    prepared target goal (opening ++ pre ++ l ++ post)) as Hprep.
  { intros pre l post Hc. split; [set_solver|]. right. split; [exists e; set_solver|].
    intros Hg raw Hraw Hasks. rewrite (app_assoc opening). by eapply completed_app, Hc. }
  eapply emits_bind; [apply prepare_spec|]. intros [[cloned ok] skills] l (Hl%logs_setup & _).
  eapply emits_bind; [apply goal_completed|]. intros [ran failed] l' (Hl'%logs_setup & Hfailed & Hc). cbn in Hfailed, Hc. cbv zeta.
  destruct failed.
  { apply emits_ret, Hrun; [rewrite app_nil_r; by apply Forall_app|done|]. intros _. by apply Hfailed. }
  destruct ok; cbn [negb].
  - eapply emits_bind; [apply writeMarker_writes|]. intros u ? (data & werr & ->). apply emits_ret, Hrun; [| |done].
    + apply Forall_app; split; [done|]. apply Forall_app; split; [done|]. by repeat constructor.
    + intros _. by apply Hprep, Hc.
  - apply emits_ret, Hrun; [rewrite app_nil_r; by apply Forall_app| |done]. intros _. by apply Hprep, Hc.
Qed.

End Setup.
