(* ===== verification/Runner.v ===== *)
(** The task runner (runner/runner.go and cmd/ax-task-runner/main.go): specs are
    loaded, every binding is set up, the readiness is published, and the task's
    command is supervised until the runner is told to stop. *)

From S2P Require Import Prelude GoStrings Types Bindings StoreApi Substrate ModelConfig ModelClient Metadata.
From S2P Require Import Container Bootstrap Setup.

Definition DefaultPort : Z := 80.
Definition stopGracePeriod : Z := 10000000000.               (* nanoseconds *)

Record CommandExit := mkCommandExit { ce_pid : Z; ce_code : Z; ce_err : option error }.

Record RunConfig (W : Type) := mkRunConfig {
  rc_port : Z;
  rc_task : option Task;
  rc_workspaces : list (option Workspace);
  rc_on_exit : option (CommandExit → M W unit);
}.
Arguments mkRunConfig {W}. Arguments rc_port {W}. Arguments rc_task {W}.
Arguments rc_workspaces {W}. Arguments rc_on_exit {W}.

(** ** Mounts *)

Record mount := mkMount {
  mt_ref : WorkspaceRef;
  mt_ws : option Workspace;
  mt_path : string;
}.

Definition ws_name (ws : Workspace) : string :=
  match ws_metadata ws with Some m => om_name m | None => "" end.

Definition by_name (workspaces : list (option Workspace)) : gmap string Workspace :=
  fold_left (λ m ws, match ws with Some ws => <[ws_name ws := ws]> m | None => m end) workspaces ∅.

Definition task_spec_of (task : option Task) : option TaskSpec := task ≫= task_spec.

Definition resolveMounts {W} (cfg : RunConfig W) : list mount :=
  let byName := by_name (rc_workspaces cfg) in
  let spec := task_spec_of (rc_task cfg) in
  zip_with (λ ref path, mkMount ref (byName !! wr_name ref) path) (WorkspaceRefs spec) (WorkspacePaths spec).

(** The mounts of a run: without bindings, an empty directory at the default path. *)
Definition run_mounts {W} (cfg : RunConfig W) : list mount :=
  match resolveMounts cfg with
  | [] => [mkMount (mkWorkspaceRef "" "" "") None DefaultWorkspacePath]
  | mounts => mounts
  end.
Definition first_path (mounts : list mount) : string :=
  match mounts with m :: _ => mt_path m | [] => "" end.

Definition spec_env (task : option Task) : list EnvVar :=
  match task_spec_of task with Some spec => ts_env spec | None => [] end.
Definition spec_command (task : option Task) : list string :=
  match task_spec_of task with Some spec => ts_command spec | None => [] end.

Section Runner.
Context {W : Type} `{!Files W, !EnvVars W, !Commands W, !Context W, !TimeNow W, !HttpClient W}.
Context `{!Processes W, !Serving W, !GuestServices W}.
Context `{!UnicodeTables, !URLs, !Json, !HttpTimes, !MapRange, !ModelYaml, !Durations}.
Context `{!ErrorText, !Quoting, !CommandJson, !Rfc3339}.
Context (GetKubernetesSecret : string → string → string → M W (res string)).
Context (AXDir : string).

(** ** The command *)

Definition metadata_url (port : Z) : string := "http://127.0.0.1:" +:+ dec port.

Definition commandEnv (task : option Task) (port : Z) : M W (list string) :=
  let! env := os_Environ in
  ret (env ++ ["AX_METADATA_URL=" +:+ metadata_url port] ++
       ((λ e, env_name e +:+ "=" +:+ env_value e) <$> spec_env task)).

Definition reportExit (cfg : RunConfig W) (pid : Z) (exit : ProcExit) : M W unit :=
  match rc_on_exit cfg with
  | Some hook => hook (mkCommandExit pid (px_code exit) (px_err exit))
  | None => ret tt
  end.

Definition stopCommand (pid : Z) : M W ProcExit :=
  let! _ := proc_kill pid "SIGTERM" in
  let! exit := proc_grace stopGracePeriod in
  match exit with
  | Some exit => ret exit
  | None =>
      let! _ := proc_kill pid "SIGKILL" in
      proc_wait
  end.

(** The end of Run, once the workspaces are dealt with. *)
Definition run_command (cfg : RunConfig W) (port : Z) (wsPath : string) : M W (option error) :=
  match spec_command (rc_task cfg) with
  | [] => ctx_done ;;; ret None
  | cmdArgs =>
      let! env := commandEnv (rc_task cfg) port in
      let! r := proc_Start wsPath cmdArgs env in
      match r with
      | Err e => ret (Some (Errorf "starting task command %v: %w" ((AStr <$> cmdArgs) ++ [AWrap e])))
      | Ok pid =>
          let! exited := proc_select in
          match exited with
          | Some exit => reportExit cfg pid exit ;;; ctx_done ;;; ret None
          | None =>
              let! exit := stopCommand pid in
              reportExit cfg pid exit ;;; ret None
          end
      end
  end.

(** ** The run *)

Fixpoint set_env (env : list EnvVar) : M W unit :=
  match env with
  | [] => ret tt
  | e :: env => let! _ := os_Setenv (env_name e) (env_value e) in set_env env
  end.

(** The loop over the mounts: whether every setup went without an error. *)
Fixpoint setup_mounts (mounts : list mount) (ready : bool) : M W bool :=
  match mounts with
  | [] => ret ready
  | m :: mounts =>
      let! (_, err) := SetupWorkspace GetKubernetesSecret AXDir (mt_ws m) (mt_path m) (wr_goal (mt_ref m)) in
      setup_mounts mounts (match err with Some _ => false | None => ready end)
  end.

Definition Run (cfg : RunConfig W) : M W (option error) :=
  let port := if decide (rc_port cfg <= 0)%Z then DefaultPort else rc_port cfg in
  let mounts := run_mounts cfg in
  let wsPath := first_path mounts in
  let workspaces := Some <$> omap mt_ws mounts in
  let! _ := os_Setenv "AX_METADATA_URL" (metadata_url port) in
  let! _ := set_env (spec_env (rc_task cfg)) in
  let! metaServer := NewServer port (rc_task cfg) workspaces [mkServerOptions wsPath ""] in
  let! err := net_Listen (ms_port metaServer) in
  match err with
  | Some e => ret (Some (Errorf "starting metadata server: %w"
                [AWrap (Errorf "metadata server listening on %s: %w"
                   [AStr (":" +:+ dec (ms_port metaServer)); AWrap e])]))
  | None =>
      let! _ := publish metaServer in
      let! ready := setup_mounts mounts true in
      let! _ := if ready then publish (SetWorkspaceReady true metaServer) else ret tt in
      let! out := run_command cfg port wsPath in
      let! _ := srv_Shutdown in
      ret out
  end.

(** ** The specs *)

(** yaml.Unmarshal into a Task; and the documents a decoder gives until io.EOF or an
    error. *)
Class SpecReader := {
  yaml_Unmarshal_Task : string → res Task;
  yaml_Decode_Workspaces : string → list Workspace * option error;
}.
Context `{!SpecReader, !FileReads W}.

Definition loadSpec (file envVar : string) : M W (res (option Task)) :=
  let parse raw := match yaml_Unmarshal_Task raw with
                   | Err e => Err (Errorf "parsing %T: %w" [AWrap e])
                   | Ok task => Ok (Some task)
                   end in
  if decide (file ≠ "") then
    let! r := os_ReadFile file in
    match r with
    | Err e => ret (Err (Errorf "reading %s: %w" [AStr file; AWrap e]))
    | Ok data => ret (parse data)
    end
  else
    let! raw := os_Getenv envVar in
    if decide (raw ≠ "") then let! raw := os_Getenv envVar in ret (parse raw)
    else ret (Ok None).

Fixpoint read_files (files : list string) : M W (res (list string)) :=
  match files with
  | [] => ret (Ok [])
  | f :: files =>
      let! r := os_ReadFile f in
      match r with
      | Err e => ret (Err (Errorf "reading %s: %w" [AStr f; AWrap e]))
      | Ok data =>
          let! r := read_files files in
          ret (match r with Ok rest => Ok (data :: rest) | Err e => Err e end)
      end
  end.

Fixpoint decode_sources (sources : list string) : res (list Workspace) :=
  match sources with
  | [] => Ok []
  | src :: sources =>
      match yaml_Decode_Workspaces src with
      | (_, Some e) => Err (Errorf "parsing workspace yaml: %w" [AWrap e])
      | (docs, None) =>
          match decode_sources sources with
          | Ok rest => Ok (filter (λ ws, is_Some (ws_metadata ws)) docs ++ rest)
          | Err e => Err e
          end
      end
  end.

Definition loadWorkspaces (files : list string) : M W (res (list Workspace)) :=
  let! sources :=
    match files with
    | [] =>
        let! raw := os_Getenv "AX_WORKSPACES_YAML" in
        if decide (raw ≠ "") then let! raw := os_Getenv "AX_WORKSPACES_YAML" in ret (Ok [raw]) else ret (Ok [])
    | _ => read_files files
    end in
  match sources with
  | Err e => ret (Err e)
  | Ok sources => ret (decode_sources sources)
  end.

(** The body of main after the flags: the configuration it runs with. *)
Definition runner_main (port : Z) (taskFile : string) (wsFiles : list string) : M W (option error) :=
  let! task := loadSpec taskFile "AX_TASK_YAML" in
  match task with
  | Err e => ret (Some e)
  | Ok task =>
      let task := match task with
                  | Some t => if decide (is_Some (task_metadata t)) then Some t else None
                  | None => None
                  end in
      let! workspaces := loadWorkspaces wsFiles in
      match workspaces with
      | Err e => ret (Some e)
      | Ok workspaces => Run (mkRunConfig port task (Some <$> workspaces) None)
      end
  end.

End Runner.
