(* ===== verification/RunnerSpec.v ===== *)
(** What a run of the task runner guarantees: which workspace goes where, the order
    of setup, readiness and command, how the command is stopped, and who may reach
    the guest services. *)

From S2P Require Import Prelude GoStrings Paths Types Bindings StoreApi Substrate ModelConfig ModelClient Metadata.
From S2P Require Import Container Bootstrap Setup Runner BootstrapSpec SetupSpec.

(** ** Mounts *)

Lemma zip_with_fst {A B C} (f : A → B → C) (g : C → A) l k :
  (∀ a b, g (f a b) = a) → length l = length k → g <$> zip_with f l k = l.
Proof.
  intros Hg. revert k. induction l as [|a l IH]; intros [|b k] Hlen; try done. cbn.
  rewrite Hg. f_equal. apply IH. by injection Hlen.
Qed.
Lemma zip_with_snd {A B C} (f : A → B → C) (g : C → B) l k :
  (∀ a b, g (f a b) = b) → length l = length k → g <$> zip_with f l k = k.
Proof.
  intros Hg. revert k. induction l as [|a l IH]; intros [|b k] Hlen; try done. cbn.
  rewrite Hg. f_equal. apply IH. by injection Hlen.
Qed.

(** The last workspace of a name. *)
Definition last_named (name : string) (workspaces : list (option Workspace)) : option Workspace :=
  last (filter (λ ws, ws_name ws = name) (compactWorkspaces workspaces)).

Lemma by_name_snoc workspaces ws :
  by_name (workspaces ++ [ws]) = match ws with Some ws => <[ws_name ws := ws]> (by_name workspaces) | None => by_name workspaces end.
Proof. unfold by_name. by rewrite fold_left_app. Qed.

Lemma compact_app l l' : compactWorkspaces (l ++ l') = compactWorkspaces l ++ compactWorkspaces l'.
Proof. induction l as [|[ws|] l IH]; cbn; [done| |done]. by rewrite IH. Qed.

Lemma by_name_lookup workspaces name : by_name workspaces !! name = last_named name workspaces.
Proof.
  unfold last_named. induction workspaces as [|ws workspaces IH] using rev_ind; [done|].
  rewrite by_name_snoc, compact_app. destruct ws as [ws|]; cbn; [|by rewrite app_nil_r].
  rewrite filter_app, filter_cons. destruct (decide (ws_name ws = name)) as [<-|Hne].
  - by rewrite lookup_insert_eq, filter_nil, last_snoc.
  - by rewrite lookup_insert_ne, IH, filter_nil, app_nil_r.
Qed.

Lemma paths_length spec : length (WorkspaceRefs spec) = length (WorkspacePaths spec).
Proof. unfold WorkspacePaths. by rewrite length_fmap. Qed.

(** Every binding of the task has one mount, in the order of declaration, at the
    path the API validates, with the last workspace supplied under its name, or
    with none where no workspace of that name was supplied. *)
Theorem resolveMounts_spec {W} (cfg : RunConfig W) :
  let spec := task_spec_of (rc_task cfg) in
  mt_ref <$> resolveMounts cfg = WorkspaceRefs spec ∧
  mt_path <$> resolveMounts cfg = WorkspacePaths spec ∧
  mt_ws <$> resolveMounts cfg = (λ ref, last_named (wr_name ref) (rc_workspaces cfg)) <$> WorkspaceRefs spec.
Proof.
  cbv zeta. pose proof (paths_length (task_spec_of (rc_task cfg))) as Hlen. unfold resolveMounts. split_and!.
  - by apply zip_with_fst.
  - by apply zip_with_snd.
  - revert Hlen. generalize (WorkspacePaths (task_spec_of (rc_task cfg))).
    induction (WorkspaceRefs (task_spec_of (rc_task cfg))) as [|r l IH]; intros [|p k] Hlen; try done.
    cbn. rewrite by_name_lookup. f_equal. apply IH. by injection Hlen.
Qed.

(** The bindings of an accepted task are mounted at absolute paths. *)
Lemma run_mounts_abs {W} (cfg : RunConfig W) : valid_bindings (WorkspaceRefs (task_spec_of (rc_task cfg))) →
  Forall (λ m, IsAbs (mt_path m) = true) (run_mounts cfg).
Proof.
  intros [_ _ Habs _]. unfold run_mounts. destruct (resolveMounts cfg) as [|m ms] eqn:E.
  { constructor; [done|constructor]. }
  rewrite <- E. unfold resolveMounts, WorkspacePaths.
  assert (∀ l, Forall (λ r, wr_path r = "" ∨ ∃ p, wr_path r = "/" +:+ p) l →
    Forall (λ m, IsAbs (mt_path m) = true) (zip_with (λ ref path, mkMount ref (by_name (rc_workspaces cfg) !! wr_name ref) path)
      l (workspace_path <$> l))) as Hl; [|by apply Hl].
  induction 1 as [|r l Hr Hl IH]; [constructor|]. cbn. constructor; [|exact IH]. cbn. unfold workspace_path.
  case_decide as Hp; [done|]. destruct Hr as [?|[p ->]]; [done|apply IsAbs_cons].
Qed.

(** ** Supervision *)

Section Run.
Context {W : Type} `{!Files W, !EnvVars W, !Commands W, !Context W, !TimeNow W, !HttpClient W}.
Context `{!Processes W, !Serving W, !GuestServices W, !Traced W, !TracedRun W}.
Context `{!UnicodeTables, !URLs, !Json, !HttpTimes, !MapRange, !ModelYaml, !Durations}.
Context `{!ErrorText, !Quoting, !CommandJson, !Rfc3339, !YamlEncoder}.
Context (GetKubernetesSecret : string → string → string → M W (res string)).
Context (secrets_silent : ∀ ns name key, emits trace (GetKubernetesSecret ns name key) (λ _ l, l = [])).
Context (AXDir : string).
Context (cfg : RunConfig W).
(** The hook for the exit of the command returns and is on record. *)
Context (hook_reports : ∀ hook x, rc_on_exit cfg = Some hook →
  emits trace (hook x) (λ _ l, l = [EReport (ce_pid x) (ce_code x) (ce_err x)])).

Definition reports (pid : Z) (exit : ProcExit) : list Event :=
  match rc_on_exit cfg with Some _ => [EReport pid (px_code exit) (px_err exit)] | None => [] end.

(** The life of the command: it is started once; when it exits, or after it was
    stopped, its exit is reported once. It is asked to terminate first and killed
    only when the grace period is over. *)
Inductive supervised (dir : string) (argv : list string) : option error → list Event → Prop :=
| no_command : argv = [] → supervised dir argv None [EDone]
| start_failed env e err : argv ≠ [] → supervised dir argv (Some err) [EStart dir argv env (Err e)]
| exited env pid exit : argv ≠ [] →
    supervised dir argv None ([EStart dir argv env (Ok pid); ESelect (Some exit)] ++ reports pid exit ++ [EDone])
| terminated env pid exit : argv ≠ [] →
    supervised dir argv None ([EStart dir argv env (Ok pid); ESelect None; EKill pid "SIGTERM";
      EGrace stopGracePeriod (Some exit)] ++ reports pid exit)
| killed env pid exit : argv ≠ [] →
    supervised dir argv None ([EStart dir argv env (Ok pid); ESelect None; EKill pid "SIGTERM";
      EGrace stopGracePeriod None; EKill pid "SIGKILL"; EExited exit] ++ reports pid exit).

Lemma reportExit_reports {B} pid exit (k : unit → M W B) Q :
  emits trace (k tt) (λ b l, Q b (reports pid exit ++ l)) → emits trace (bind (reportExit cfg pid exit) k) Q.
Proof.
  intros Hk. unfold reportExit, reports in *. destruct (rc_on_exit cfg) as [hook|] eqn:E; [|by apply emits_pure].
  eapply emits_bind; [by apply hook_reports|]. by intros [] ? ->.
Qed.

Lemma run_command_supervised port dir :
  emits trace (run_command cfg port dir) (supervised dir (spec_command (rc_task cfg))).
Proof.
  unfold run_command. destruct (spec_command (rc_task cfg)) as [|c args] eqn:Hc.
  { eapply emits_event; [apply trace_done|]. intros []. apply emits_ret. by constructor. }
  assert (emits trace (commandEnv (rc_task cfg) port) (λ _ l, l = [])) as Henv.
  { unfold commandEnv. apply (emits_silent trace); [apply trace_Environ|]. intros env. by apply emits_ret. }
  apply (emits_silent trace); [exact Henv|]. intros env.
  eapply emits_event; [apply trace_Start|]. intros [pid|e]; [|apply emits_ret; by constructor].
  eapply emits_event; [apply trace_select|]. intros [exit|].
  { apply reportExit_reports. eapply emits_event; [apply trace_done|]. intros []. apply emits_ret. by constructor. }
  unfold stopCommand. apply emits_assoc. eapply emits_event; [apply trace_kill|]. intros [].
  apply emits_assoc. eapply emits_event; [apply trace_grace|]. intros [exit|].
  { apply emits_pure, reportExit_reports, emits_ret. rewrite app_nil_r. by apply terminated. }
  apply emits_assoc. eapply emits_event; [apply trace_kill|]. intros [].
  eapply emits_event; [apply trace_waited|]. intros exit.
  apply reportExit_reports, emits_ret. rewrite app_nil_r. by apply killed.
Qed.

(** ** Setup and readiness *)

(** One setup per mount, in order: [runs] has their errors and events. *)
Definition set_up (mounts : list mount) (runs : list (option error * list Event)) : Prop :=
  Forall2 (λ m run, setup_run GetKubernetesSecret AXDir (mt_path m) (wr_goal (mt_ref m)) (fst run) (snd run)) mounts runs.

Definition all_fine (runs : list (option error * list Event)) : bool :=
  forallb (λ run, match fst run with None => true | Some _ => false end) runs.

Lemma setup_mounts_runs mounts ready : Forall (λ m, IsAbs (mt_path m) = true) mounts →
  emits trace (setup_mounts GetKubernetesSecret AXDir mounts ready) (λ r l, ∃ runs,
    set_up mounts runs ∧ l = runs ≫= snd ∧ r = ready && all_fine runs).
Proof.
  intros Hm. revert ready. induction Hm as [|m mounts Habs Hm IH]; intros ready; cbn [setup_mounts].
  { apply emits_ret. exists []. rewrite andb_true_r. split_and!; [constructor|done|done]. }
  eapply emits_bind; [by apply (SetupWorkspace_run GetKubernetesSecret secrets_silent AXDir)|].
  intros [res err] l Hrun. cbn in Hrun. eapply emits_weaken; [apply IH|].
  intros r l' (runs & Hruns & -> & ->). exists ((err, l) :: runs). split_and!; [by constructor|done|].
  cbn. destruct err; [by rewrite andb_false_r|done].
Qed.

Lemma set_env_events env : emits trace (set_env env) (λ _ l, l = (λ e, ESetenv (env_name e) (env_value e)) <$> env).
Proof.
  induction env as [|e env IH]; cbn [set_env]; [by apply emits_ret|].
  eapply emits_event; [apply trace_Setenv|]. intros []. eapply emits_weaken; [exact IH|]. by intros [] l ->.
Qed.

Lemma NewServer_fresh port task workspaces opts :
  emits trace (NewServer port task workspaces opts) (λ srv l, l = [] ∧
    ms_workspace_ready srv = false ∧ ms_task srv = task ∧ ms_workspaces srv = compactWorkspaces workspaces ∧
    (ms_guest srv = true → spec_debug task = true)).
Proof.
  unfold NewServer. cbv zeta. destruct (spec_debug task); [|by apply emits_pure, emits_ret].
  destruct guest_DefaultConfig as [ws logs]. apply emits_assoc. cbv zeta.
  apply (emits_silent trace); [apply trace_guest|]. intros err. apply emits_pure, emits_ret. done.
Qed.

(** The events of a whole run. *)
Inductive lifecycle : option error → list Event → Prop :=
| no_listener err port e :
    lifecycle (Some err)
      (ESetenv "AX_METADATA_URL" (metadata_url (if decide (rc_port cfg <= 0)%Z then DefaultPort else rc_port cfg)) ::
       ((λ e, ESetenv (env_name e) (env_value e)) <$> spec_env (rc_task cfg)) ++ [EListen port (Some e)])
| served err port srv runs tail :
    ms_workspace_ready srv = false → ms_task srv = rc_task cfg → ms_workspaces srv = omap mt_ws (run_mounts cfg) →
    (ms_guest srv = true → spec_debug (rc_task cfg) = true) →
    set_up (run_mounts cfg) runs →
    supervised (first_path (run_mounts cfg)) (spec_command (rc_task cfg)) err tail →
    lifecycle err
      (ESetenv "AX_METADATA_URL" (metadata_url (if decide (rc_port cfg <= 0)%Z then DefaultPort else rc_port cfg)) ::
       ((λ e, ESetenv (env_name e) (env_value e)) <$> spec_env (rc_task cfg)) ++
       [EListen port None; EPublish srv] ++ (runs ≫= snd) ++
       (if all_fine runs then [EPublish (SetWorkspaceReady true srv)] else []) ++
       tail ++ [EShutdown]).

Lemma compact_Some l : compactWorkspaces (Some <$> l) = l.
Proof. induction l as [|ws l IH]; [done|]. cbn. by rewrite IH. Qed.

Lemma Run_events : valid_bindings (WorkspaceRefs (task_spec_of (rc_task cfg))) →
  emits trace (Run GetKubernetesSecret AXDir cfg) lifecycle.
Proof.
  intros Hv. unfold Run. cbv zeta. eapply emits_event; [apply trace_Setenv|]. intros [].
  eapply emits_bind; [apply set_env_events|]. intros [] ? ->.
  eapply emits_bind; [apply NewServer_fresh|]. intros srv ? (-> & Hready & Htask & Hws & Hguest).
  rewrite compact_Some in Hws. cbn [app].
  eapply emits_event; [apply trace_Listen|]. intros [e|]; [apply emits_ret; constructor|].
  eapply emits_event; [apply trace_publish|]. intros [].
  eapply emits_bind; [by apply setup_mounts_runs, run_mounts_abs|]. intros ready ? (runs & Hruns & -> & ->).
  eapply (emits_bind _ _ _ (λ _ l, l = if all_fine runs then [EPublish (SetWorkspaceReady true srv)] else [])).
  { cbn [andb]. destruct (all_fine runs); [apply trace_publish|by apply emits_ret]. }
  intros [] ? ->. eapply emits_bind; [apply run_command_supervised|]. intros out tail Htail.
  eapply emits_event; [apply trace_Shutdown|]. intros []. apply emits_ret. by apply served.
Qed.

(** C13: a run of the runner. The environment is set up, the metadata server starts
    unready, every binding is set up in the order of declaration, the server turns
    ready exactly when no setup failed, and only then the command is started, once,
    in the first workspace, and supervised to its end; the server is shut down last. *)
Theorem Run_lifecycle : valid_bindings (WorkspaceRefs (task_spec_of (rc_task cfg))) →
  emits trace (Run GetKubernetesSecret AXDir cfg) lifecycle.
Proof. apply Run_events. Qed.

Lemma supervised_unpublished dir argv err l srv : supervised dir argv err l → EPublish srv ∉ l.
Proof.
  intros Hl Hin. inversion Hl; subst; unfold reports in *; destruct (rc_on_exit cfg); set_unfold in Hin; naive_solver.
Qed.

Lemma set_up_unpublished mounts runs srv : set_up mounts runs → EPublish srv ∉ runs ≫= snd.
Proof.
  induction 1 as [|m run mounts runs (Hev & _) Hruns IH]; [cbn; set_solver|]. cbn.
  rewrite elem_of_app. intros [Hin|Hin]; [|done]. rewrite Forall_forall in Hev. exact (Hev _ Hin).
Qed.

(** What the server shows during a run. *)
Lemma lifecycle_published err l srv : lifecycle err l → EPublish srv ∈ l →
  (ms_guest srv = true → spec_debug (rc_task cfg) = true) ∧ ms_task srv = rc_task cfg ∧
  (ms_workspace_ready srv = true → ∃ runs pre post,
     set_up (run_mounts cfg) runs ∧ all_fine runs = true ∧ l = pre ++ (runs ≫= snd) ++ post).
Proof.
  assert (∀ env : list EnvVar, EPublish srv ∉ (λ e, ESetenv (env_name e) (env_value e)) <$> env) as Henv.
  { intros env (e & ? & _)%list_elem_of_fmap. done. }
  intros Hl Hin. inversion Hl as [? port e Herr Hev|? port srv0 runs tail Hr Ht Hw Hg Hruns Htail Herr Hev]; subst.
  { exfalso. apply elem_of_cons in Hin as [Hin|Hin]; [done|]. apply elem_of_app in Hin as [Hin|Hin].
    - by apply Henv in Hin.
    - by apply list_elem_of_singleton in Hin. }
  pose proof (supervised_unpublished _ _ _ _ srv Htail). pose proof (set_up_unpublished _ _ srv Hruns).
  assert (srv = srv0 ∨ (all_fine runs = true ∧ srv = SetWorkspaceReady true srv0)) as Hsrv.
  { apply elem_of_cons in Hin as [Hin|Hin]; [done|]. rewrite !elem_of_app, !list_elem_of_singleton in Hin.
    destruct Hin as [Hin|[Hin|[Hin|[Hin|[Hin|Hin]]]]]; try done; [by apply Henv in Hin|..].
    - apply elem_of_cons in Hin as [Hin|Hin]; [done|]. apply list_elem_of_singleton in Hin. left. congruence.
    - destruct (all_fine runs); [|by apply not_elem_of_nil in Hin].
      apply list_elem_of_singleton in Hin. right. split; [done|congruence]. }
  destruct Hsrv as [->|[Hfine ->]]; (split; [exact Hg|split; [exact Ht|]]); [congruence|].
  intros _. exists runs. rewrite (app_comm_cons _ _ (ESetenv _ _)), (app_assoc _ [EListen port None; _]).
  eexists _, _. split; [done|]. split; [done|]. reflexivity.
Qed.

Lemma prepared_app target goal pre l post :
  prepared GetKubernetesSecret AXDir target goal l → prepared GetKubernetesSecret AXDir target goal (pre ++ l ++ post).
Proof.
  intros (Hmk & Hmark). split; [rewrite !elem_of_app; auto|]. cbv zeta in *.
  destruct Hmark as [Hmark|[[e He] Hgoal]]; [left; rewrite !elem_of_app; auto|]. right. split.
  - exists e. rewrite !elem_of_app. auto.
  - intros Hg raw Hraw Hasks. by eapply completed_app, Hgoal.
Qed.

Lemma set_up_prepared mounts runs : set_up mounts runs → all_fine runs = true →
  Forall (λ m, prepared GetKubernetesSecret AXDir (mt_path m) (wr_goal (mt_ref m)) (runs ≫= snd)) mounts.
Proof.
  induction 1 as [|m [err l] mounts runs (_ & Hok & _) Hruns IH]; [constructor|]. cbn.
  destruct err as [e|]; [done|]. intros Hfine. constructor.
  - by apply (prepared_app _ _ []), Hok.
  - eapply Forall_impl; [by apply IH|]. intros m' Hm'. rewrite <- (app_nil_r (_ ≫= snd)). by apply prepared_app.
Qed.


(** C23: the guest services, which run processes and open files in the container, are
    reached only in the run of a task that asks for debugging, and only by gRPC
    requests. *)
Theorem Run_guest_gated : valid_bindings (WorkspaceRefs (task_spec_of (rc_task cfg))) →
  emits trace (Run GetKubernetesSecret AXDir cfg) (λ _ l, ∀ srv r,
    EPublish srv ∈ l → serve srv r = ToGuest →
    spec_debug (rc_task cfg) = true ∧ rq_proto_major r = 2%Z ∧ HasPrefix (rq_content_type r) "application/grpc" = true).
Proof.
  intros Hv. eapply emits_weaken; [by apply Run_events|]. intros err l Hl srv r Hpub Hserve.
  destruct (lifecycle_published err l srv Hl Hpub) as (Hguest & _ & _).
  unfold serve in Hserve. destruct (_ && _) eqn:E; [|by destruct (find _ _) as [[]|]].
  apply andb_true_iff in E as [[Hg Hp]%andb_true_iff Hc]. apply bool_decide_eq_true in Hp. by auto.
Qed.

(** Cloning is not part of readiness. When no binding has a goal, the server
    turns ready whatever git answers, as long as it can listen and the directories
    can be created. *)
Theorem Run_ready_without_clones : valid_bindings (WorkspaceRefs (task_spec_of (rc_task cfg))) →
  Forall (λ m, wr_goal (mt_ref m) = "") (run_mounts cfg) →
  emits trace (Run GetKubernetesSecret AXDir cfg) (λ _ l,
    (∀ port e, EListen port (Some e) ∉ l) → (∀ dir e, EMkdir dir (Some e) ∉ l) →
    ∃ srv, EPublish srv ∈ l ∧ ms_workspace_ready srv = true).
Proof.
  intros Hv Hgoals. eapply emits_weaken; [by apply Run_events|]. intros err l Hl Hlisten Hmk.
  inversion Hl as [? port e Herr Hev|? port srv runs tail Hr Ht Hw Hg Hruns Htail Herr Hev]; subst.
  { exfalso. apply (Hlisten port e), elem_of_cons. right. rewrite elem_of_app, list_elem_of_singleton. auto. }
  assert (∀ dir e, EMkdir dir (Some e) ∉ runs ≫= snd) as Hmk'.
  { intros dir e Hin. apply (Hmk dir e), elem_of_cons. right. rewrite !elem_of_app. auto. }
  assert (all_fine runs = true) as Hfine.
  { clear -Hruns Hgoals Hmk'. induction Hruns as [|m [err l] mounts runs (_ & _ & Herr) Hruns IH]; [done|].
    inversion Hgoals; subst. cbn. destruct err as [e|]; cbn.
    - exfalso. destruct (Herr ltac:(done)) as [?|[e' He']]; [done|]. apply (Hmk' _ _ (proj2 (elem_of_app _ _ _) (or_introl He'))).
    - apply IH; [done|]. intros dir e Hin. apply (Hmk' dir e). cbn. set_solver. }
  exists (SetWorkspaceReady true srv). split; [|done]. rewrite Hfine.
  apply elem_of_cons. right. rewrite !elem_of_app, !list_elem_of_singleton. auto 6.
Qed.

End Run.
