(* ===== verification/SandboxExamples.v ===== *)
(** The theorems about the container at concrete inputs: a box that answers every
    call, keeps the files that were written, and records what happened; and a model
    that is asked twice. *)

From S2P Require Import Prelude GoStrings Paths Types Bindings StoreApi Substrate ModelConfig ModelClient Metadata.
From S2P Require Import Base64 Container Secrets Bootstrap Setup Runner BootstrapSpec SetupSpec RunnerSpec.

(** ** The box *)

Record Box := mkBox {
  bx_events : list Event;
  bx_files : gset string;
  bx_env : gmap string string;
  bx_git_works : bool;
}.
Definition bx_log (e : Event) (b : Box) : Box :=
  mkBox (bx_events b ++ [e]) (bx_files b) (bx_env b) (bx_git_works b).
Definition bx_start (git_works : bool) : Box := mkBox [] ∅ ∅ git_works.

#[export] Instance bx_Files : Files Box := {
  os_Getwd := ret (Ok "/");
  os_MkdirAll d := λ b, (Ret None, bx_log (EMkdir d None) b);
  os_Stat p := λ b,
    let r := if decide (p ∈ bx_files b) then None else Some (ErrForeign 1) in (Ret r, bx_log (EStat p r) b);
  os_WriteFile p d := λ b,
    (Ret None, mkBox (bx_events b ++ [EWrite p d None]) ({[p]} ∪ bx_files b) (bx_env b) (bx_git_works b));
}.
#[export] Instance bx_EnvVars : EnvVars Box := {
  os_Getenv n := λ b, (Ret (default "" (bx_env b !! n)), b);
  os_Setenv n v := λ b,
    (Ret tt, mkBox (bx_events b ++ [ESetenv n v]) (bx_files b) (<[n := v]> (bx_env b)) (bx_git_works b));
  os_Environ := ret ["PATH=/bin"];
}.
#[export] Instance bx_Commands : Commands Box := λ lim dir argv b,
  let err := if bx_git_works b then None else Some (ErrForeign 2) in
  (Ret (["output"], err), bx_log (EExec lim dir argv err) b).
#[export] Instance bx_Context : Context Box := {
  ctx_Err := ret None;
  ctx_wait d := λ b, (Ret None, bx_log (EWait d None) b);
}.
#[export] Instance bx_TimeNow : TimeNow Box := ret 0%Z.
#[export] Instance bx_HttpClient : HttpClient Box := λ q b,
  (Ret (Err (ErrForeign 3)), bx_log (EHttp q (Err (ErrForeign 3))) b).
#[export] Instance bx_Processes : Processes Box := {
  proc_Start dir argv env := λ b, (Ret (Ok 7%Z), bx_log (EStart dir argv env (Ok 7%Z)) b);
  proc_select := λ b, (Ret None, bx_log (ESelect None) b);
  proc_grace d := λ b, (Ret None, bx_log (EGrace d None) b);
  proc_wait := λ b, (Ret (mkProcExit (-1) None), bx_log (EExited (mkProcExit (-1) None)) b);
  proc_kill pid sig := λ b, (Ret tt, bx_log (EKill pid sig) b);
  ctx_done := λ b, (Ret tt, bx_log EDone b);
}.
#[export] Instance bx_Serving : Serving Box := {
  net_Listen port := λ b, (Ret None, bx_log (EListen port None) b);
  publish srv := λ b, (Ret tt, bx_log (EPublish srv) b);
  srv_Shutdown := λ b, (Ret tt, bx_log EShutdown b);
}.
#[export] Instance bx_Guest : GuestServices Box := {
  guest_DefaultConfig := ("/workspace", "/ax"); guest_NewServer _ := ret None;
}.

(** A call that answers and logs one event, or none. *)
Ltac on_record := intros; do 3 eexists; repeat split; by rewrite ?app_nil_r.

#[export] Instance bx_Traced : Traced Box.
Proof. refine {| trace := bx_events |}; on_record. Defined.
#[export] Instance bx_TracedRun : TracedRun Box.
Proof. constructor; on_record. Defined.

#[export] Instance sx_tables : UnicodeTables := λ s, s.
#[export] Instance sx_urls : URLs := {
  url_Parse _ := Ok (mkURL "https" false "host" "" "" "" "" ""); url_String _ := "https://host";
  url_Redacted _ := "https://host"; query_Set _ _ _ := "";
}.
#[export] Instance sx_json : Json := {
  json_Marshal _ := Ok "{}"; json_Valid _ := true; json_string s := Some s; json_parts _ := None;
  decode_openai _ := Err (ErrForeign 4); decode_anthropic _ := Err (ErrForeign 4);
  decode_gemini _ := Err (ErrForeign 4);
}.
#[export] Instance sx_times : HttpTimes := λ _, None.
#[export] Instance sx_model : ModelYaml := λ _, Err (ErrForeign 5).
#[export] Instance sx_durations : Durations := λ _, Ok 1%Z.
#[export] Instance sx_text : ErrorText := λ _, "error".
#[export] Instance sx_quote : Quoting := λ s, s.
#[export] Instance sx_command : CommandJson := λ s, Ok s.
#[export] Instance sx_rfc : Rfc3339 := λ _, "1970-01-01T00:00:00Z".
#[export] Instance sx_encoder : YamlEncoder := {
  yaml_Encode_task _ := (["task"], None); yaml_Encode_ws _ _ := (["workspace"], None); yaml_Close _ := ([], None);
}.

(** A box without a cluster: neither the API server nor kubectl answers. *)
#[export] Instance bx_FileReads : FileReads Box := λ _, ret (Err (ErrForeign 1)).
#[export] Instance bx_Cluster : Cluster Box := {
  k8s_Do _ _ _ := ret (Err (ErrForeign 6)); kubectl_Output _ := ret (Err (ErrForeign 6));
}.
#[export] Instance bx_QuietCluster : QuietCluster Box.
Proof. constructor; on_record. Defined.
#[export] Instance sx_secret : SecretJson := λ _, Ok {["token" := EncodeToString "s3cret"]}.

Definition no_secrets (ns name key : string) : M Box (res string) := GetKubernetesSecret ns name key.
Lemma no_secrets_silent ns name key : emits trace (no_secrets ns name key) (λ _ l, l = []).
Proof. apply GetKubernetesSecret_quiet. Qed.

(** ** Secrets

    A cluster in which every secret holds one token, seen from inside a pod whose
    kubectl does not reach it, and from outside. *)
Record Place := mkPlace { pl_in_pod : bool }.
#[export] Instance pl_EnvVars : EnvVars Place := {
  os_Getenv n := λ p,
    (Ret (if pl_in_pod p && bool_decide (n = "KUBERNETES_SERVICE_HOST") then "10.0.0.1" else ""), p);
  os_Setenv _ _ := ret tt;
  os_Environ := ret [];
}.
#[export] Instance pl_FileReads : FileReads Place := λ path,
  ret (if decide (path = tokenPath) then Ok "jwt" else Err (ErrForeign 1)).
#[export] Instance pl_Cluster : Cluster Place := {
  k8s_Do _ _ hdrs := ret (Ok (mkHttpResponse (if decide (("Authorization", "Bearer jwt") ∈ hdrs) then 200 else 401) ∅ "{}"));
  kubectl_Output args := λ p,
    (Ret (if pl_in_pod p then Err (ErrForeign 2)
          else Ok (if decide (last args = Some "jsonpath={.data.token}") then EncodeToString "s3cret" else "")), p);
}.
Definition pl_held (ns name : string) : option (gmap string string) := Some {["token" := "s3cret"]}.
Definition pl_vantage (inside : bool) : Vantage :=
  mkVantage (if inside then "10.0.0.1" else "") "" (Some "jwt") true (negb inside).

#[export] Instance pl_laws inside : ClusterLaws Place (λ p, pl_in_pod p = inside) pl_held (pl_vantage inside).
Proof.
  constructor.
  - intros p Hp. eexists _, p. split; [reflexivity|]. split; [done|]. cbn. rewrite Hp. by destruct inside.
  - intros p Hp. eexists _, p. split; [reflexivity|]. split; [done|]. by rewrite andb_false_r.
  - by apply returns_ret.
  - intros p. by apply returns_ret.
  - intros ns name _ _ _. by eexists.
  - intros roots ns name hdrs _ _. apply returns_ret. split.
    + intros resp [= <-] _. exists {["token" := "s3cret"]}. split; [done|]. cbn. by rewrite map_fmap_singleton.
    + intros token data _ [= <-] _ Hin. eexists. split; [done|]. cbn. by rewrite decide_True.
  - intros ns name key _ _ _ p Hp. eexists _, p. split; [reflexivity|]. split; [done|]. cbn. rewrite Hp.
    destruct inside; [done|]. case_decide as Hkey.
    + injection Hkey as Hkey. change "token}" with ("token" +:+ "}") in Hkey.
      apply (string_app_inj_r key "token" "}") in Hkey as ->. reflexivity.
    + destruct (decide (key = "token")) as [->|Hne]; [done|]. rewrite lookup_singleton_ne by done. reflexivity.
Qed.


(** ** Setup *)

Definition sx_repo : GitRepo := mkGitRepo "" "https://host/team/app.git" "" "" 1.
Definition sx_workspace : Workspace :=
  mkWorkspace "" "" (Some (mkObjectMeta "code" "" None)) (Some (mkWorkspaceSpec [Some sx_repo] None None)).

Lemma cloneDestination_derived_witness :
  path_elems (cloneDestination sx_repo "/workspace") = ["workspace"; "app"].
Proof.
  apply (cloneDestination_derived sx_repo "/workspace"); [reflexivity|by left|reflexivity|].
  assert (RepoDirName (git_repo sx_repo) = "app") as -> by (vm_compute; reflexivity). set_solver.
Defined.

Lemma MarkerName_distinct_witness : MarkerName "/workspace/a" ≠ MarkerName "/workspace/b".
Proof.
  intros H. assert (Clean "/workspace/a" = Clean "/workspace/b") as E; [|vm_compute in E; discriminate].
  apply (MarkerName_distinct "/workspace/a" "/workspace/b"); try reflexivity; try done.
Defined.

(** The same workspace set up twice: the second run finds the marker. *)
Definition sx_setup (b : Box) : go (option SetupResult * option error) * Box :=
  SetupWorkspace no_secrets "/ax" (Some sx_workspace) "/workspace" "" b.

Definition sx_once : Box := snd (sx_setup (bx_start true)).
Definition sx_no_git : Box := snd (sx_setup (bx_start false)).

Example setup_once :
  fst (sx_setup (bx_start true)) =
    Ret (Some (mkSetupResult "/workspace" ["https://host/team/app.git"] "" true false), None) ∧
  fst (sx_setup sx_once) = Ret (Some (mkSetupResult "/workspace" [] "" false false), None) ∧
  written (bx_events sx_once) = ["/ax/git-success.log"; "/ax/initialized-workspace"] ∧
  commands (bx_events (snd (sx_setup sx_once))) = commands (bx_events sx_once).
Proof. split_and!; vm_compute; reflexivity. Qed.

Example setup_without_git :
  fst (sx_setup (bx_start false)) = Ret (Some (mkSetupResult "/workspace" [] "" true false), None) ∧
  written (bx_events sx_no_git) = ["/ax/git-error.log"] ∧
  length (commands (bx_events sx_no_git)) = 5%nat.
Proof. split_and!; vm_compute; reflexivity. Qed.

Lemma SetupWorkspace_marks_witness : ∃ res s' l,
  sx_setup (bx_start true) = (Ret (Some res, None), s') ∧ bx_events s' = l ∧
  ("/ax/initialized-workspace" ∈ written l ↔ sr_cloned_repos res = ["https://host/team/app.git"] ∧ @None error = None).
Proof.
  destruct (SetupWorkspace_marks no_secrets no_secrets_silent "/ax" (Some sx_workspace) "/workspace" ""
    eq_refl eq_refl (bx_start true)) as (r & s' & l & Hm & Hl & Hr).
  assert (r = (Some (mkSetupResult "/workspace" ["https://host/team/app.git"] "" true false), None)) as ->.
  { assert (Ret r = fst (sx_setup (bx_start true))) as E by (unfold sx_setup; by rewrite Hm).
    vm_compute in E. by injection E. }
  eexists _, s', l. split; [exact Hm|]. split; [exact Hl|].
  destruct Hr as (_ & _ & _ & Hmark & _). exact Hmark.
Defined.

(** ** The runner *)

Definition sx_task (debug : bool) : Task :=
  mkTask "" "" (Some (mkObjectMeta "demo" "" None))
    (Some (mkTaskSpec false "" ["run"; "it"] [mkEnvVar "A" "1"] None
       [Some (mkWorkspaceRef "code" "" ""); Some (mkWorkspaceRef "data" "/data" "")] None debug)) None.
Definition sx_cfg (debug : bool) : RunConfig Box := mkRunConfig 0 (Some (sx_task debug)) [Some sx_workspace] None.
Definition sx_run (debug : bool) (b : Box) : go (option error) * Box := Run no_secrets "/ax" (sx_cfg debug) b.

Lemma sx_bindings debug : valid_bindings (WorkspaceRefs (task_spec_of (rc_task (sx_cfg debug)))).
Proof. apply validate_refs_valid. reflexivity. Qed.
Lemma sx_hook debug : ∀ hook x, rc_on_exit (sx_cfg debug) = Some hook →
  emits trace (hook x) (λ _ l, l = [EReport (ce_pid x) (ce_code x) (ce_err x)]).
Proof. done. Qed.

(** The readiness values a run shows, one after the other. *)
Definition readiness (l : list Event) : list bool :=
  omap (λ e, match e with EPublish srv => Some (ms_workspace_ready srv) | _ => None end) l.

Example run_ready_either_way :
  fst (sx_run false (bx_start true)) = Ret None ∧
  readiness (bx_events (snd (sx_run false (bx_start true)))) = [false; true] ∧
  readiness (bx_events (snd (sx_run false (bx_start false)))) = [false; true].
Proof. split_and!; vm_compute; reflexivity. Qed.

Lemma Run_lifecycle_witness : ∃ err s' l, sx_run true (bx_start true) = (Ret err, s') ∧
  bx_events s' = l ∧ lifecycle no_secrets "/ax" (sx_cfg true) err l.
Proof.
  destruct (Run_lifecycle no_secrets no_secrets_silent "/ax" (sx_cfg true) (sx_hook true) (sx_bindings true)
    (bx_start true)) as (err & s' & l & Hrun & Hl & Hlife).
  exists err, s', l. split; [exact Hrun|]. split; [exact Hl|exact Hlife].
Defined.


(** A configured bootstrap that fails keeps the server unready. *)
Definition sx_goal_task : Task :=
  mkTask "" "" (Some (mkObjectMeta "demo" "" None))
    (Some (mkTaskSpec false "" [] [mkEnvVar modelConfigEnv "kind: Model"] None
       [Some (mkWorkspaceRef "code" "" "build it")] None false)) None.
Example run_unready :
  let '(r, b) := Run no_secrets "/ax" (mkRunConfig 0 (Some sx_goal_task) [Some sx_workspace] None) (bx_start true) in
  r = Ret None ∧ readiness (bx_events b) = [false].
Proof. vm_compute. split; reflexivity. Qed.
(** An environment that holds such a configuration throughout. *)
Definition steady_env : EnvVars Box := {|
  os_Getenv n := ret (if decide (n = modelConfigEnv) then "kind: Model" else "");
  os_Setenv _ _ := ret tt;
  os_Environ := ret [];
|}.
Example steady_configured : configured (EnvVars0 := steady_env) "kind: Model" ∧ asks_model "kind: Model".
Proof. split; [intros b; by exists b|done]. Qed.

Lemma Run_guest_gated_witness : ∃ err s' l, sx_run false (bx_start true) = (Ret err, s') ∧ bx_events s' = l ∧
  ∀ srv r, EPublish srv ∈ l → serve srv r ≠ ToGuest.
Proof.
  destruct (Run_guest_gated no_secrets no_secrets_silent "/ax" (sx_cfg false) (sx_hook false) (sx_bindings false)
    (bx_start true)) as (err & s' & l & Hrun & Hl & Hguest).
  exists err, s', l. split; [exact Hrun|]. split; [exact Hl|].
  intros srv r Hpub Hserve. destruct (Hguest srv r Hpub Hserve) as [Hdebug _]. discriminate Hdebug.
Defined.

(** Every fetch fails in this box. *)
Lemma Run_ready_without_clones_witness : ∃ err s' l, sx_run false (bx_start false) = (Ret err, s') ∧ bx_events s' = l ∧
  ((∀ port e, EListen port (Some e) ∉ l) → (∀ dir e, EMkdir dir (Some e) ∉ l) →
   ∃ srv, EPublish srv ∈ l ∧ ms_workspace_ready srv = true).
Proof.
  destruct (Run_ready_without_clones no_secrets no_secrets_silent "/ax" (sx_cfg false) (sx_hook false)
    (sx_bindings false) ltac:(by repeat constructor) (bx_start false)) as (err & s' & l & Hrun & Hl & Hready).
  exists err, s', l. split; [exact Hrun|]. split; [exact Hl|exact Hready].
Defined.

(** ** The bootstrap *)

Lemma limitedOutput_captures_witness :
  limited_String (fold_left limited_Write ["abc"; "de"] (limited_new 4)) = "abcd" +:+ newline +:+ "[command output truncated]".
Proof. exact (limitedOutput_captures 4 ["abc"; "de"] ltac:(discriminate)). Defined.

Lemma runModelBootstrap_bounded_witness :
  emits trace (runModelBootstrap no_secrets "goal" "/workspace") (λ _ l,
    Forall (confined "/workspace") l ∧ (length (requests l) ≤ 72)%nat ∧ (Z.of_nat (length (commands l)) ≤ 48)%Z).
Proof. exact (runModelBootstrap_bounded no_secrets no_secrets_silent "goal" "/workspace"). Defined.

(** A model that asks for one command and then is done; the requests it was sent. *)
Definition Chat : Type := list GenerateRequest.
#[export] Instance ch_Commands : Commands Chat := λ lim dir argv s, (Ret (["output"], None), s).
Definition ch_response (calls : list ToolCall) : GenerateResponse :=
  mkGenerateResponse "model" "done" calls (mkUsageStats 0 0 0).
Definition ch_generate (id : string) (req : GenerateRequest) : M Chat (res GenerateResponse) := λ s,
  (Ret (Ok (ch_response (match s with [] => [mkToolCall id "run_command" "ls"] | _ => [] end))), s ++ [req]).

Lemma bootstrap_conversation_witness : ∃ b s' l rounds,
  bootstrap_turns (ch_generate "call-1") "/workspace" maxBootstrapTurns
    (mkProgress (opening_messages "goal" "/workspace") 0 0) [] = (Ret b, s') ∧
  s' = l ∧ l = requests_of (opening_messages "goal" "/workspace") rounds (length l).
Proof.
  destruct (bootstrap_conversation (λ s : Chat, s) ltac:(on_record) (ch_generate "call-1") "goal" "/workspace"
    ltac:(intros req s; do 3 eexists; split; [reflexivity|]; split; [reflexivity|]; split; [reflexivity|];
          destruct s; repeat constructor; discriminate) [])
    as (b & s' & l & Hrun & Hl & rounds & Hrounds & _ & _).
  exists b, s', l, rounds. split; [exact Hrun|]. split; [exact Hl|exact Hrounds].
Defined.

Example conversation_length :
  let '(r, s) := bootstrap_turns (ch_generate "call-1") "/workspace" maxBootstrapTurns
                   (mkProgress (opening_messages "goal" "/workspace") 0 0) [] in
  r = Ret true ∧ length s = 2%nat.
Proof. vm_compute. split; reflexivity. Qed.

Lemma bootstrap_unnamed_call_witness :
  snd (bootstrap_turns (ch_generate "") "/workspace" 2 (mkProgress [] 0 0) []) =
  snd (bootstrap_turns (ch_generate "") "/workspace" 1
    (mkProgress [mkMessage "assistant" "done" "" "" [mkToolCall "" "run_command" "ls"];
                 mkMessage "tool" "output" "workspace-setup-1" "run_command" []] 1 6) [bootstrap_request []]).
Proof.
  assert (executeWorkspaceCommand "/workspace" (numbered_call 1 (mkToolCall "" "run_command" "ls"))
    maxBootstrapOutput [bootstrap_request []] = (Ret "output", [bootstrap_request []])) as Hexec
    by (vm_compute; reflexivity).
  destruct (bootstrap_unnamed_call (ch_generate "") "/workspace" 1 [] [] [bootstrap_request []] [bootstrap_request []]
    (ch_response [mkToolCall "" "run_command" "ls"]) (mkToolCall "" "run_command" "ls") "output"
    eq_refl eq_refl eq_refl Hexec) as [Hrun _].
  exact (f_equal snd Hrun).
Defined.
