(* ===== verification/Tunnel.v ===== *)
(** Tunnels from the command line to a cluster (internal/tunnel): which context is
    meant (context.go), the records of the background port-forwards under the
    user's home, and how a server address is found, with or without starting a
    port-forward (tunnel.go). *)

From S2P Require Import Prelude GoStrings Paths Types StoreApi ModelConfig Container.

Record TunnelInfo := mkTunnelInfo {
  ti_context : string;
  ti_namespace : string;
  ti_service : string;
  ti_port : Z;
  ti_pid : Z;
  ti_created : Z;                       (* nanoseconds *)
}.

Record TunnelOptions := mkTunnelOptions {
  to_server_url : string;
  to_context : string;
  to_namespace : string;
  to_service : string;
  to_target : string;
  to_port : Z;
}.

(** ** Interfaces *)

(** What a port-forward's pipe and the select around it yield, in order: a chunk
    of output, the end of the output, the end of the context. When the list ends
    the timer has fired. *)
Inductive forward_input := ForwardOutput (chunk : string) | ForwardClosed | ForwardDone.

(** The user's machine: packages os, os/exec and syscall for kubectl, and an HTTP
    GET with a timeout, of which the status is used. [kubectl_Start] has the
    output go to a file, or to a pipe without one. *)
Class Workstation (W : Type) := {
  os_UserHomeDir : M W (res string);
  os_Remove : string → M W (option error);
  os_ReadDir : string → M W (res (list (string * bool)));       (* name, directory *)
  os_Create : string → M W (option error);
  os_Pipe : M W (option error);
  close_Pipe : M W unit;
  kubectl_Output : list string → M W (res string);
  kubectl_Start : list string → option string → M W (res Z);
  sys_Kill : Z → string → M W (option error);
  http_Probe : Z → string → M W (res Z);
  time_Sleep : Z → M W unit;
  forward_inputs : M W (list forward_input);
}.

(** encoding/json of a TunnelInfo, and the current context of a kubeconfig by
    yaml.Unmarshal. *)
Class TunnelFormats := {
  json_Marshal_tunnel : TunnelInfo → res string;
  json_Unmarshal_tunnel : string → res TunnelInfo;
  yaml_current_context : string → res string;
}.

(** ** Names *)

Definition ascii_in (lo hi : nat) (c : ascii) : bool :=
  Nat.leb lo (nat_of_ascii c) && Nat.leb (nat_of_ascii c) hi.
Definition context_char (c : ascii) : bool :=
  ascii_in 97 122 c || ascii_in 65 90 c || ascii_in 48 57 c || Ascii.eqb c "-" || Ascii.eqb c "_".

Definition SanitizeContext (name : string) : string :=
  let s := String.string_of_list_ascii
    ((λ c, if context_char c then c else "_"%char) <$> rune_starts 0 name) in
  if decide (s = "") then "default" else s.

(** ** The forwarded port

    The first match of the expression Forwarding from .*:(\d+)\s+-> in a text. *)
Definition is_digit (c : ascii) : bool := ascii_in 48 57 c.
Definition is_space (c : ascii) : bool := ascii_in 9 10 c || ascii_in 12 13 c || Ascii.eqb c " ".

Fixpoint span (p : ascii → bool) (s : string) : string * string :=
  match s with
  | String c s' => if p c then let '(a, b) := span p s' in (String c a, b) else ("", s)
  | EmptyString => ("", "")
  end.

(** The group, when the text after the colon goes on as the expression does. *)
Definition port_group (s : string) : option string :=
  let '(digits, s1) := span is_digit s in
  let '(spaces, s2) := span is_space s1 in
  if decide (digits = "" ∨ spaces = "") then None
  else if HasPrefix s2 "->" then Some digits else None.

(** The greedy part: the last colon of the line after which it matches. *)
Fixpoint last_port (s : string) : option string :=
  match s with
  | EmptyString => None
  | String c s' =>
      if Ascii.eqb c (byte 10) then None
      else match last_port s' with
           | Some d => Some d
           | None => if Ascii.eqb c ":" then port_group s' else None
           end
  end.

Fixpoint portForwardRegex (s : string) : option string :=
  match s with
  | EmptyString => None
  | String _ s' =>
      match strip_prefix "Forwarding from " s ≫= last_port with
      | Some d => Some d
      | None => portForwardRegex s'
      end
  end.

(** The port announced in the output so far. *)
Definition announced_port (output : string) : option Z :=
  match portForwardRegex output ≫= Atoi with
  | Some p => if decide (0 < p)%Z then Some p else None
  | None => None
  end.

Section Tunnel.
Context {W : Type} `{!Files W, !FileReads W, !EnvVars W, !TimeNow W, !Workstation W, !TunnelFormats}.

(** ** The context *)

Definition kubeconfig_context (path : string) : M W (option string) :=
  if decide (path ≠ "" ∧ Contains path ":" = false) then
    let! r := os_ReadFile path in
    ret (match r with
         | Ok data =>
             match yaml_current_context data with
             | Ok name => if decide (name ≠ "") then Some name else None
             | Err _ => None
             end
         | Err _ => None
         end)
  else ret None.

Definition CurrentContext (override : string) : M W (res string) :=
  if decide (override ≠ "") then ret (Ok override)
  else
    let! env := os_Getenv "KUBECONTEXT" in
    if decide (env ≠ "") then ret (Ok env)
    else
      let! path := os_Getenv "KUBECONFIG" in
      let! path :=
        if decide (path = "") then
          let! home := os_UserHomeDir in
          ret (match home with Ok home => path_Join home ".kube/config" | Err _ => path end)
        else ret path in
      let! found := kubeconfig_context path in
      match found with
      | Some name => ret (Ok name)
      | None =>
          let! out := kubectl_Output ["config"; "current-context"] in
          ret (match out with Ok out => Ok (TrimSpace out) | Err e => Err e end)
      end.

(** ** Records of tunnels *)

Definition TunnelDir : M W (string * option error) :=
  let! dir := os_Getenv "AX_HOME" in
  if decide (dir ≠ "") then
    let p := path_Join dir "tunnels" in
    let! err := os_MkdirAll p in ret (p, err)
  else
    let! home := os_UserHomeDir in
    match home with
    | Err e => ret ("", Some e)
    | Ok home =>
        let p := path_Join home ".ax/tunnels" in
        let! err := os_MkdirAll p in ret (p, err)
    end.

Definition state_path (dir ctxName : string) : string := path_Join dir (SanitizeContext ctxName +:+ ".json").

Definition GetTunnel (ctxName : string) : M W (res TunnelInfo) :=
  let! (dir, err) := TunnelDir in
  match err with
  | Some e => ret (Err e)
  | None =>
      let! r := os_ReadFile (state_path dir ctxName) in
      ret (match r with Err e => Err e | Ok data => json_Unmarshal_tunnel data end)
  end.

Definition SaveTunnel (info : TunnelInfo) : M W (option error) :=
  let! (dir, err) := TunnelDir in
  match err with
  | Some e => ret (Some e)
  | None =>
      match json_Marshal_tunnel info with
      | Err e => ret (Some e)
      | Ok data => os_WriteFile (state_path dir (ti_context info)) data
      end
  end.

Definition StopTunnel (info : option TunnelInfo) : M W (option error) :=
  match info with
  | None => ret None
  | Some info =>
      let! _ :=
        if decide (0 < ti_pid info)%Z then
          let! _ := sys_Kill (- ti_pid info) "SIGTERM" in
          let! _ := sys_Kill (ti_pid info) "SIGTERM" in ret tt
        else ret tt in
      let! (dir, err) := TunnelDir in
      let! _ :=
        match err with
        | None => let! _ := os_Remove (state_path dir (ti_context info)) in ret tt
        | Some _ => ret tt
        end in
      ret None
  end.

Definition StopTunnelByContext (ctxName : string) : M W (option error) :=
  let! info := GetTunnel ctxName in
  match info with
  | Err e => ret (Some e)
  | Ok info => StopTunnel (Some info)
  end.

(** The entries that hold a record, in order. *)
Fixpoint read_tunnels (dir : string) (entries : list (string * bool)) : M W (list TunnelInfo) :=
  match entries with
  | [] => ret []
  | (name, is_dir) :: entries =>
      if is_dir || negb (HasSuffix name ".json") then read_tunnels dir entries
      else
        let! r := os_ReadFile (path_Join dir name) in
        match r with
        | Err _ => read_tunnels dir entries
        | Ok data =>
            match json_Unmarshal_tunnel data with
            | Err _ => read_tunnels dir entries
            | Ok info => let! rest := read_tunnels dir entries in ret (info :: rest)
            end
        end
  end.

Definition ListTunnels : M W (res (list TunnelInfo)) :=
  let! (dir, err) := TunnelDir in
  match err with
  | Some e => ret (Err e)
  | None =>
      let! entries := os_ReadDir dir in
      match entries with
      | Err e => ret (Err e)
      | Ok entries => let! infos := read_tunnels dir entries in ret (Ok infos)
      end
  end.

Definition local_url (port : Z) : string := "http://127.0.0.1:" +:+ dec port.

Definition IsTunnelHealthy (port : Z) : M W bool :=
  if decide (port <= 0)%Z then ret false
  else
    let! r := http_Probe 400000000 (local_url port +:+ "/healthz") in
    ret (match r with Ok status => bool_decide (status = 200%Z) | Err _ => false end).

(** ** Finding the server *)

(** The wait for the announcement in the log: the port, or 0 when the deadline
    passes; an error when kubectl is gone. [None] when the fuel is used up. *)
Fixpoint wait_port (fuel : nat) (deadline : Z) (logPath ctxName : string) (pid : Z) : M W (option (res Z)) :=
  match fuel with
  | O => ret None
  | S fuel =>
      let! now := time_Now in
      if decide (now < deadline)%Z then
        let! _ := time_Sleep 50000000 in
        let! log := os_ReadFile logPath in
        match log with
        | Err _ => wait_port fuel deadline logPath ctxName pid
        | Ok logData =>
            match announced_port logData with
            | Some p => ret (Some (Ok p))
            | None =>
                let! err := sys_Kill pid "0" in
                match err with
                | Some _ => ret (Some (Err (Errorf "kubectl port-forward exited for context %q: %s"
                              [AStr ctxName; AStr (TrimSpace logData)])))
                | None => wait_port fuel deadline logPath ctxName pid
                end
            end
        end
      else ret (Some (Ok 0%Z))
  end.

Fixpoint wait_healthy (fuel : nat) (deadline port : Z) : M W (option bool) :=
  match fuel with
  | O => ret None
  | S fuel =>
      let! now := time_Now in
      if decide (now < deadline)%Z then
        let! healthy := IsTunnelHealthy port in
        if healthy then ret (Some true)
        else let! _ := time_Sleep 100000000 in wait_healthy fuel deadline port
      else ret (Some false)
  end.

Definition forward_args (opts : TunnelOptions) (ctxName : string) : list string :=
  let targetRes := if decide (to_target opts ≠ "") then to_target opts else "svc/" +:+ to_service opts in
  (if decide (ctxName ≠ "") then ["--context"; ctxName] else []) ++
  ["port-forward"; "-n"; to_namespace opts; targetRes; ":" +:+ dec (to_port opts)].

(** From the start of kubectl on. *)
Definition start_tunnel (fuel : nat) (opts : TunnelOptions) (ctxName logPath : string) : M W (option (res string)) :=
  let! started := kubectl_Start (forward_args opts ctxName) (Some logPath) in
  match started with
  | Err e => ret (Some (Err (Errorf "spawning kubectl port-forward for context %q: %w" [AStr ctxName; AWrap e])))
  | Ok pid =>
      let! now := time_Now in
      let! localPort := wait_port fuel (now + 5000000000) logPath ctxName pid in
      match localPort with
      | None => ret None
      | Some (Err e) => ret (Some (Err e))
      | Some (Ok localPort) =>
          if decide (localPort = 0%Z) then
            let! _ := sys_Kill pid "SIGKILL" in
            let! log := os_ReadFile logPath in
            let logData := match log with Ok data => data | Err _ => "" end in
            ret (Some (Err (Errorf "timeout waiting for kubectl port-forward on context %q: %s"
                              [AStr ctxName; AStr (TrimSpace logData)])))
          else
            let! now := time_Now in
            let! healthy := wait_healthy fuel (now + 3000000000) localPort in
            match healthy with
            | None => ret None
            | Some false =>
                let! _ := sys_Kill pid "SIGKILL" in
                ret (Some (Err (Errorf "tunnel started on port %d but health check failed for context %q"
                                  [AInt localPort; AStr ctxName])))
            | Some true =>
                let! now := time_Now in
                let! _ := SaveTunnel (mkTunnelInfo ctxName (to_namespace opts) (to_service opts) localPort pid now) in
                ret (Some (Ok (local_url localPort)))
            end
      end
  end.

(** The options with the defaults filled in. *)
Definition complete_options (opts : TunnelOptions) : M W TunnelOptions :=
  let! namespace :=
    if decide (to_namespace opts = "") then
      let! envNs := os_Getenv "AX_SYSTEM_NAMESPACE" in
      ret (if decide (envNs ≠ "") then envNs else "ax-system")
    else ret (to_namespace opts) in
  ret (mkTunnelOptions (to_server_url opts) (to_context opts) namespace
         (if decide (to_service opts = "") then "ax-server" else to_service opts) (to_target opts)
         (if decide (to_port opts = 0%Z) then 8080%Z else to_port opts)).

(** The tunnel on record, when it answers; one that does not is stopped. *)
Definition existing_tunnel (ctxName : string) : M W (option string) :=
  let! existing := GetTunnel ctxName in
  match existing with
  | Err _ => ret None
  | Ok info =>
      let! healthy := IsTunnelHealthy (ti_port info) in
      if healthy then ret (Some (local_url (ti_port info)))
      else let! _ := StopTunnel (Some info) in ret None
  end.

Definition EnsureServerURL (fuel : nat) (opts : TunnelOptions) : M W (option (res string)) :=
  if decide (to_server_url opts ≠ "") then ret (Some (Ok (to_server_url opts)))
  else
    let! env := os_Getenv "AX_SERVER" in
    if decide (env ≠ "") then ret (Some (Ok env))
    else
      let! current := CurrentContext (to_context opts) in
      match current with
      | Err _ | Ok "" => ret (Some (Ok "http://localhost:8080"))
      | Ok ctxName =>
          let! opts := complete_options opts in
          let! url := existing_tunnel ctxName in
          match url with
          | Some url => ret (Some (Ok url))
          | None =>
              let! (dir, err) := TunnelDir in
              match err with
              | Some e => ret (Some (Err (Errorf "creating tunnel directory: %w" [AWrap e])))
              | None =>
                  let logPath := path_Join dir (SanitizeContext ctxName +:+ ".log") in
                  let! err := os_Create logPath in
                  match err with
                  | Some e => ret (Some (Err (Errorf "opening tunnel log: %w" [AWrap e])))
                  | None => start_tunnel fuel opts ctxName logPath
                  end
              end
          end
      end.

(** ** A port-forward for one command *)

Definition forward_cleanup (pid : Z) : M W unit :=
  close_Pipe ;;;
  (let! _ := sys_Kill (- pid) "SIGTERM" in
   let! _ := sys_Kill pid "SIGKILL" in
   ret tt).

(** The reader and the select: what they make of the inputs, in order. *)
Fixpoint forward_wait (targetResource : string) (pid : Z) (output : string) (inputs : list forward_input) : M W (res Z) :=
  match inputs with
  | ForwardOutput chunk :: inputs =>
      let output := output +:+ chunk in
      match announced_port output with
      | Some p => ret (Ok p)
      | None => forward_wait targetResource pid output inputs
      end
  | ForwardClosed :: _ =>
      forward_cleanup pid ;;;
      ret (Err (Errorf "kubectl port-forward exited: %s" [AStr (TrimSpace output)]))
  | ForwardDone :: _ => forward_cleanup pid ;;; ret (Err ErrCtx)
  | [] =>
      forward_cleanup pid ;;;
      ret (Err (Errorf "timed out waiting for port-forward to %s" [AStr targetResource]))
  end.

(** The local port, and the process its cleanup function stops. *)
Definition PortForward (kubeContext namespace targetResource : string) (remotePort : Z) : M W (res (Z * Z)) :=
  let! current := CurrentContext kubeContext in
  let ctxName := match current with Ok name => name | Err _ => "" end in
  let kArgs := (if decide (ctxName ≠ "") then ["--context"; ctxName] else []) ++
               (if decide (namespace ≠ "") then ["-n"; namespace] else []) ++
               ["port-forward"; targetResource; ":" +:+ dec remotePort] in
  let! err := os_Pipe in
  match err with
  | Some e => ret (Err (Errorf "creating pipe: %w" [AWrap e]))
  | None =>
      let! started := kubectl_Start kArgs None in
      match started with
      | Err e =>
          close_Pipe ;;;
          ret (Err (Errorf "spawning kubectl port-forward for %s: %w" [AStr targetResource; AWrap e]))
      | Ok pid =>
          let! inputs := forward_inputs in
          let! port := forward_wait targetResource pid "" inputs in
          ret (match port with Ok p => Ok (p, pid) | Err e => Err e end)
      end
  end.

End Tunnel.
