(* ===== verification/Guest.v ===== *)
(** The client of the guest services in a task's container (internal/guest/client.go):
    running a command, copying its output and returning its exit code. *)

From S2P Require Import Prelude GoStrings Substrate.

Record ExecOptions := mkExecOptions {
  eo_command : list string;
  eo_cwd : string;
  eo_env : gmap string string;
  eo_stdout : bool;                     (* whether a writer is set *)
  eo_stderr : bool;
}.

(** A message of the output stream: the exit code when it carries one, and output. *)
Record ProcessOutput := mkProcessOutput {
  po_exit : option Z;
  po_stdout : string;
  po_stderr : string;
}.
Inductive output_recv := OutputEOF | OutputErr (e : error) | OutputMsg (m : ProcessOutput).

(** The process service of the guest daemon and the connection to it; the two
    writers. [guest_Dial] takes the target and the metadata every call carries. *)
Class GuestClient (W : Type) := {
  guest_Dial : string → option (string * string) → M W (option error);
  guest_Close : M W unit;
  StartProcess : list string → string → gmap string string → M W (res string);
  StreamProcessOutput : string → M W (option error);
  output_Recv : M W output_recv;
  GetProcess : string → M W (res (bool * Z));             (* running, exit code *)
  write_Stdout : string → M W unit;
  write_Stderr : string → M W unit;
}.

Section Guest.
Context {W : Type} `{!GuestClient W, !Context W}.

Definition DialTarget (target targetActor : string) : M W (option error) :=
  let target := TrimPrefix (TrimPrefix target "http://") "https://" in
  let! err := guest_Dial target
                (if decide (targetActor ≠ "") then Some ("ate-target-actor", targetActor) else None) in
  ret (match err with
       | Some e => Some (Errorf "connecting to guest at %s: %w" [AStr target; AWrap e])
       | None => None
       end).
Definition Dial (target : string) : M W (option error) := DialTarget target "".

(** An exit code next to an error, as Exec returns them. *)
Definition exit_reply : Type := Z * option error.

(** The loop over the stream: the reply, or [inl] when the stream ended without
    an exit. [None] when the fuel is used up, here and below. *)
Fixpoint exec_stream (fuel : nat) (opts : ExecOptions) : M W (option (unit + exit_reply)) :=
  match fuel with
  | O => ret None
  | S fuel =>
      let! out := output_Recv in
      match out with
      | OutputEOF => ret (Some (inl tt))
      | OutputErr e => ret (Some (inr (1%Z, Some (Errorf "receiving output stream: %w" [AWrap e]))))
      | OutputMsg m =>
          match po_exit m with
          | Some code => ret (Some (inr (code, None)))
          | None =>
              let! _ := if decide (po_stdout m ≠ "" ∧ eo_stdout opts = true)
                        then write_Stdout (po_stdout m) else ret tt in
              let! _ := if decide (po_stderr m ≠ "" ∧ eo_stderr opts = true)
                        then write_Stderr (po_stderr m) else ret tt in
              exec_stream fuel opts
          end
      end
  end.

Fixpoint exec_poll (fuel : nat) (pid : string) : M W (option exit_reply) :=
  match fuel with
  | O => ret None
  | S fuel =>
      let! proc := GetProcess pid in
      match proc with
      | Err e => ret (Some (1%Z, Some (Errorf "getting process state: %w" [AWrap e])))
      | Ok (false, code) => ret (Some (code, None))
      | Ok (true, _) =>
          let! err := ctx_wait 50000000 in
          match err with
          | Some e => ret (Some (1%Z, Some e))
          | None => exec_poll fuel pid
          end
      end
  end.

Definition Exec (fuel : nat) (opts : ExecOptions) : M W (option exit_reply) :=
  match eo_command opts with
  | [] => ret (Some (1%Z, Some (Errorf "exec: command cannot be empty" [])))
  | _ =>
      let! proc := StartProcess (eo_command opts) (eo_cwd opts) (eo_env opts) in
      match proc with
      | Err e => ret (Some (1%Z, Some (Errorf "starting process: %w" [AWrap e])))
      | Ok pid =>
          let! err := StreamProcessOutput pid in
          match err with
          | Some e => ret (Some (1%Z, Some (Errorf "streaming process output: %w" [AWrap e])))
          | None =>
              let! out := exec_stream fuel opts in
              match out with
              | None => ret None
              | Some (inr reply) => ret (Some reply)
              | Some (inl _) => exec_poll fuel pid
              end
          end
      end
  end.

End Guest.
