(* ===== verification/AxClient.v ===== *)
(** The generated gRPC client of the AX service as the command line uses it: an
    interface, with the API server itself as an implementation whose transport
    loses nothing. *)

From S2P Require Import Prelude GoStrings Types StoreApi Server.

(** What stream.Recv of WatchTask yields: the task of an update, io.EOF, an error. *)
Inductive watch_recv := WatchMsg (task : option Task) | WatchEOF | WatchErr (e : error).

(** grpc.NewClient on a target, the time limit of the calls' context, and the calls. *)
Class AXClient (W : Type) := {
  grpc_NewClient : string → M W (option error);
  grpc_Close : M W unit;
  ctx_WithTimeout : Z → M W unit;

  rpc_GetTask : NameRequest → M W (res Task);
  rpc_ListTasks : ListTasksRequest → M W (res (list Task));
  rpc_UpdateTask : option Task → M W (res Task);
  rpc_DeleteTask : NameRequest → M W (res unit);
  rpc_SuspendTask : NameRequest → M W (res Task);
  rpc_ResumeTask : NameRequest → M W (res Task);

  rpc_GetGateway : NameRequest → M W (res Gateway);
  rpc_ListGateways : ScopeRequest → M W (res (list Gateway));
  rpc_UpdateGateway : option Gateway → M W (res Gateway);
  rpc_DeleteGateway : NameRequest → M W (res unit);

  rpc_GetWorkspace : NameRequest → M W (res Workspace);
  rpc_ListWorkspaces : ScopeRequest → M W (res (list Workspace));
  rpc_UpdateWorkspace : option Workspace → M W (res Workspace);
  rpc_DeleteWorkspace : NameRequest → M W (res unit);

  rpc_GetModel : NameRequest → M W (res Model);
  rpc_ListModels : ScopeRequest → M W (res (list Model));
  rpc_UpdateModel : option Model → M W (res Model);
  rpc_DeleteModel : NameRequest → M W (res unit);

  rpc_WatchTask : NameRequest → M W (res unit);
  watch_Recv : M W watch_recv;
}.

(** The handlers called directly. The stream of a watch is left to the caller. *)
Definition server_client {S : Type} `{!Store S, !TimeNow S}
    (watch : NameRequest → M S (res unit)) (recv : M S watch_recv) : AXClient S := {|
  grpc_NewClient _ := ret None;
  grpc_Close := ret tt;
  ctx_WithTimeout _ := ret tt;
  rpc_GetTask req := srv_GetTask (Some req);
  rpc_ListTasks req := srv_ListTasks (Some req);
  rpc_UpdateTask t := srv_UpdateTask (Some t);
  rpc_DeleteTask req := srv_DeleteTask (Some req);
  rpc_SuspendTask req := srv_SuspendTask (Some req);
  rpc_ResumeTask req := srv_ResumeTask (Some req);
  rpc_GetGateway req := srv_GetGateway (Some req);
  rpc_ListGateways req := srv_ListGateways (Some req);
  rpc_UpdateGateway g := srv_UpdateGateway (Some g);
  rpc_DeleteGateway req := srv_DeleteGateway (Some req);
  rpc_GetWorkspace req := srv_GetWorkspace (Some req);
  rpc_ListWorkspaces req := srv_ListWorkspaces (Some req);
  rpc_UpdateWorkspace w := srv_UpdateWorkspace (Some w);
  rpc_DeleteWorkspace req := srv_DeleteWorkspace (Some req);
  rpc_GetModel req := srv_GetModel (Some req);
  rpc_ListModels req := srv_ListModels (Some req);
  rpc_UpdateModel x := srv_UpdateModel (Some x);
  rpc_DeleteModel req := srv_DeleteModel (Some req);
  rpc_WatchTask := watch;
  watch_Recv := recv;
|}.
