(* ===== verification/Cli.v ===== *)
(** The command line (cmd/ax/main.go): global flags, the commands, and what they
    print. *)

From Stdlib Require Import Floats.SpecFloat.
From stdpp Require Import sorting.
From S2P Require Import Prelude GoStrings Types Codecs Bindings StoreApi RedisApi Manifests Server Substrate.
From S2P Require Import ModelConfig ModelClient Container Bootstrap Tunnel Guest AxClient.

(** ** Interfaces *)

(** Standard output and error; a table of tab-separated cells written through a
    text/tabwriter with the given padding; a tree encoded by yaml.v3; standard
    input; a TCP dial; and os.Exit inside a command. *)
Class Terminal (W : Type) := {
  fmt_Print : string → M W unit;
  fmt_Eprint : string → M W unit;
  tab_Flush : Z → string → M W (option error);
  yaml_Encode_out : ynode → M W (option error);
  io_ReadAll_stdin : M W (res string);
  net_Dial : Z → string → M W bool;
}.

(** The documents a yaml.Decoder yields before io.EOF or an error; the Kind of a
    yaml.Node and the length of its Content; and the field kind of a document. *)
Class ManifestDocs `{!YamlNodes} := {
  yaml_Documents : string → list yaml_node * option error;
  node_Kind : yaml_node → Z;
  node_Content : yaml_node → nat;
  node_kind : yaml_node → res string;
}.
Arguments ManifestDocs {_}.

Definition DocumentNode : Z := 1.
(** An empty document, such as a trailing --- . *)
Definition node_empty `{!YamlNodes, !ManifestDocs} (doc : yaml_node) : bool :=
  bool_decide (node_Kind doc = 0%Z) ||
  (bool_decide (node_Kind doc = DocumentNode) && bool_decide (node_Content doc = 0%nat)).

(** time.Time.Format in the local zone: the time of day, and date with time; and
    the verb %v of a float64. *)
Class LocalTimes := { time_Format_clock : Z → string; time_Format_date : Z → string; }.
Class FloatText := float_text : string → string.

(** ** Global flags *)

Record CliArgs := mkCliArgs {
  ca_cmd : string;
  ca_clean : list string;
  ca_atespace : string;
  ca_server : string;
  ca_context : string;
  ca_namespace : string;
}.
Definition no_args : CliArgs := mkCliArgs "" [] "default" "" "" "ax-system".

Definition ca_set_cmd (x : string) (a : CliArgs) : CliArgs :=
  mkCliArgs x (ca_clean a) (ca_atespace a) (ca_server a) (ca_context a) (ca_namespace a).
Definition ca_add (x : string) (a : CliArgs) : CliArgs :=
  mkCliArgs (ca_cmd a) (ca_clean a ++ [x]) (ca_atespace a) (ca_server a) (ca_context a) (ca_namespace a).
Definition ca_set_atespace (x : string) (a : CliArgs) : CliArgs :=
  mkCliArgs (ca_cmd a) (ca_clean a) x (ca_server a) (ca_context a) (ca_namespace a).
Definition ca_set_server (x : string) (a : CliArgs) : CliArgs :=
  mkCliArgs (ca_cmd a) (ca_clean a) (ca_atespace a) x (ca_context a) (ca_namespace a).
Definition ca_set_context (x : string) (a : CliArgs) : CliArgs :=
  mkCliArgs (ca_cmd a) (ca_clean a) (ca_atespace a) (ca_server a) x (ca_namespace a).
Definition ca_set_namespace (x : string) (a : CliArgs) : CliArgs :=
  mkCliArgs (ca_cmd a) (ca_clean a) (ca_atespace a) (ca_server a) (ca_context a) x.

(** A flag that takes the next argument, and one that holds its value. *)
Definition flag_setter (arg : string) : option (string → CliArgs → CliArgs) :=
  if bool_decide (arg = "-a") || bool_decide (arg = "--atespace") then Some ca_set_atespace
  else if bool_decide (arg = "--server") then Some ca_set_server
  else if bool_decide (arg = "--context") then Some ca_set_context
  else if bool_decide (arg = "-n") || bool_decide (arg = "--namespace") then Some ca_set_namespace
  else None.
Definition flag_value (arg : string) : option (CliArgs → CliArgs) :=
  match strip_prefix "--atespace=" arg with
  | Some v => Some (ca_set_atespace v)
  | None =>
      match strip_prefix "--server=" arg with
      | Some v => Some (ca_set_server v)
      | None =>
          match strip_prefix "--context=" arg with
          | Some v => Some (ca_set_context v)
          | None => ca_set_namespace <$> strip_prefix "--namespace=" arg
          end
      end
  end.

Fixpoint parse_args (args : list string) (a : CliArgs) : CliArgs :=
  match args with
  | [] => a
  | arg :: rest =>
      match flag_setter arg with
      | Some set =>
          match rest with
          | v :: rest => parse_args rest (set v a)
          | [] => a
          end
      | None =>
          match flag_value arg with
          | Some set => parse_args rest (set a)
          | None =>
              if bool_decide (ca_cmd a = "") && negb (HasPrefix arg "-")
              then parse_args rest (ca_set_cmd arg a)
              else parse_args rest (ca_add arg a)
          end
      end
  end.

(** ** Small functions *)

Definition normalizeKind `{!UnicodeTables} (kind : string) : res string :=
  let k := ToLower (TrimSuffix kind "s") in
  if decide (k = "task") then Ok KindTask
  else if decide (k = "gateway") then Ok KindGateway
  else if decide (k = "workspace") then Ok KindWorkspace
  else if decide (k = "model") then Ok KindModel
  else if decide (k = "") then Err (Errorf "missing kind" [])
  else Err (Errorf "unsupported kind %q (expected task, gateway, workspace, or model)" [AStr kind]).

(** Durations as float64: time.Duration's Seconds, Minutes and Hours. *)
Definition f64_of_Z (z : Z) : spec_float := binary_normalize 53 1024 z 0 false.
Definition f64_int (f : spec_float) : Z :=
  match f with
  | S754_finite s m e =>
      let n := if decide (0 <= e)%Z then (Zpos m * 2 ^ e)%Z else (Zpos m / 2 ^ (- e))%Z in
      if s then (- n)%Z else n
  | _ => 0%Z
  end.
Definition duration_in (unit d : Z) : spec_float :=
  SFadd 53 1024 (f64_of_Z (Z.quot d unit)) (SFdiv 53 1024 (f64_of_Z (Z.rem d unit)) (f64_of_Z unit)).

Definition Second : Z := 1000000000.
Definition Minute : Z := 60 * Second.
Definition Hour : Z := 60 * Minute.

Definition formatAge (d : Z) : string :=
  if decide (d < Minute)%Z then dec (f64_int (duration_in Second d)) +:+ "s"
  else if decide (d < Hour)%Z then dec (f64_int (duration_in Minute d)) +:+ "m"
  else if decide (d < 24 * Hour)%Z then dec (f64_int (duration_in Hour d)) +:+ "h"
  else dec (f64_int (SFdiv 53 1024 (duration_in Hour d) (f64_of_Z 24))) +:+ "d".

(** time.Since saturates at the ends of time.Duration. *)
Definition since (now t : Z) : Z := Z.max int64_min (Z.min int64_max (now - t)).

Definition or_none (s : string) : string := if decide (s = "") then "<none>" else s.
Definition tab : string := bytes [9]%nat.
Definition tab_line (cells : list string) : string := Join tab cells +:+ newline.

(** The verb %v of a []string, and of a value of structpb's AsMap. *)
Definition bracketed (l : list string) : string := "[" +:+ Join " " l +:+ "]".
Definition key_le (x y : string * string) : Prop := string_le x.1 y.1.
#[local] Instance key_le_dec : RelDecision key_le := λ x y, string_le_dec x.1 y.1.
Fixpoint any_text `{!FloatText} (v : any) : string :=
  match v with
  | ANil => "<nil>"
  | ABool b => if b then "true" else "false"
  | AInteger z => dec z
  | AFloat t => float_text t
  | AString s => s
  | ASlice l => bracketed (map any_text l)
  | AMap m =>
      "map[" +:+ Join " " ((λ kv, kv.1 +:+ ":" +:+ kv.2) <$>
        merge_sort key_le (map_to_list (any_text <$> m))) +:+ "]"
  end.

(** ** Commands *)

(** How a command ends: it returns an error or nil, or leaves the process. *)
Inductive ended := Returned (err : option error) | Exited (code : Z).

Section Cli.
Context {W : Type} `{!AXClient W, !Terminal W, !TimeNow W, !Context W, !FileReads W}.
Context `{!Files W, !EnvVars W, !Workstation W, !TunnelFormats, !GuestClient W}.
Context `{!GrpcStatus, !UnicodeTables, !ErrorText, !Quoting, !LocalTimes, !FloatText}.
Context `{!YamlNodes, !ManifestDocs, !JsonTokens, !TimeParse}.
Context `{!ProtoJSON Task, !ProtoJSON Gateway, !ProtoJSON Workspace, !ProtoJSON Model}.
Context `{!StrictJSON Task, !StrictJSON Gateway, !StrictJSON Workspace, !StrictJSON Model}.

Definition println (s : string) : M W unit := fmt_Print (s +:+ newline).
Fixpoint each {A} (f : A → M W unit) (l : list A) : M W unit :=
  match l with [] => ret tt | x :: l => f x ;;; each f l end.
Definition when (b : bool) (m : M W unit) : M W unit := if b then m else ret tt.

Definition getAXClient (serverURL : string) : M W (option error) :=
  let target := TrimPrefix (TrimPrefix serverURL "http://") "https://" in
  let! err := grpc_NewClient target in
  ret (match err with
       | Some e => Some (Errorf "connecting to %s: %w" [AStr target; AWrap e])
       | None => None
       end).

(** A command's calls between the connection and its deferred end, in a context
    with a time limit. *)
Definition connected (serverURL : string) (timeout : option Z) (calls : M W (option error)) : M W (option error) :=
  let! err := getAXClient serverURL in
  match err with
  | Some e => ret (Some e)
  | None =>
      let! _ := match timeout with Some d => ctx_WithTimeout d | None => ret tt end in
      let! out := calls in
      let! _ := grpc_Close in
      ret out
  end.

Definition named (what name : string) (e : error) : option error :=
  Some (Errorf (what +:+ " %q: %w") [AStr name; AWrap e]).

(** ** apply *)

Definition applyOutcome {B} `{!EqDecision B} (lookupErr : option error) (existingSpec newSpec : B) : res string :=
  match lookupErr with
  | Some e =>
      if status_is CodeNotFound e then Ok "created"
      else Err (Errorf "looking up existing resource: %w" [AWrap e])
  | None => if decide (existingSpec = newSpec) then Ok "unchanged" else Ok "configured"
  end.

Definition meta_atespace (m : option ObjectMeta) : string := from_option om_atespace "" m.
Definition meta_name (m : option ObjectMeta) : string := from_option om_name "" m.

(** One case of the switch over the kind: the kind, the name of the stored
    resource and the outcome. *)
Definition apply_resource {A B} `{!EqDecision B} (kind : string) (decoded : res A)
    (meta : A → option ObjectMeta) (spec : A → option B)
    (lookup : NameRequest → M W (res A)) (update : option A → M W (res A))
    : M W (res (string * string * string)) :=
  match decoded with
  | Err e => ret (Err e)
  | Ok x =>
      let! existing := lookup (mkNameRequest (meta_atespace (meta x)) (meta_name (meta x))) in
      let '(err, old) := match existing with Ok old => (None, spec old) | Err e => (Some e, None) end in
      match applyOutcome err old (spec x) with
      | Err e => ret (Err e)
      | Ok outcome =>
          let! stored := update (Some x) in
          ret (match stored with
               | Ok stored => Ok (kind, meta_name (meta stored), outcome)
               | Err e => Err e
               end)
      end
  end.

Definition applyDocument (doc : yaml_node) : M W (res (string * string * string)) :=
  match node_kind doc with
  | Err e => ret (Err (Errorf "reading kind: %w" [AWrap e]))
  | Ok kind =>
      if decide (kind = KindTask) then
        apply_resource kind (Task_UnmarshalYAML doc) task_metadata task_spec rpc_GetTask rpc_UpdateTask
      else if decide (kind = KindGateway) then
        apply_resource kind (Gateway_UnmarshalYAML doc) gw_metadata gw_spec rpc_GetGateway rpc_UpdateGateway
      else if decide (kind = KindWorkspace) then
        apply_resource kind (Workspace_UnmarshalYAML doc) ws_metadata ws_spec rpc_GetWorkspace rpc_UpdateWorkspace
      else if decide (kind = KindModel) then
        apply_resource kind (Model_UnmarshalYAML doc) model_metadata model_spec rpc_GetModel rpc_UpdateModel
      else if decide (kind = "") then ret (Err (Errorf "missing kind" []))
      else ret (Err (Errorf "unsupported kind %q (expected Task, Gateway, Workspace, or Model)" [AStr kind]))
  end.

(** The loop over the documents, the one numbered [docIndex] first. *)
Fixpoint apply_documents (docIndex : Z) (docs : list yaml_node) (end_err : option error) : M W (option error) :=
  match docs with
  | [] =>
      ret (match end_err with
           | Some e => Some (Errorf "decoding document %d: %w" [AInt docIndex; AWrap e])
           | None => None
           end)
  | doc :: docs =>
      if node_empty doc then apply_documents (docIndex + 1) docs end_err
      else
        let! r := applyDocument doc in
        match r with
        | Err e => ret (Some (Errorf "applying document %d: %w" [AInt docIndex; AWrap e]))
        | Ok (kind, name, outcome) =>
            println (ToLower kind +:+ ".ax.io/" +:+ name +:+ " " +:+ outcome) ;;;
            apply_documents (docIndex + 1) docs end_err
        end
  end.

(** The manifest named by the first -f; [None] when there is none. *)
Fixpoint manifestFromArgs (args : list string) : M W (option (res string)) :=
  match args with
  | [] => ret None
  | arg :: rest =>
      if decide (arg ≠ "-f" ∧ arg ≠ "--file") then manifestFromArgs rest
      else
        match rest with
        | [] => ret (Some (Err (Errorf "-f requires a file path (or - for stdin)" [])))
        | path :: _ =>
            let! data := if decide (path = "-") then io_ReadAll_stdin else os_ReadFile path in
            ret (Some (match data with
                       | Ok data => Ok data
                       | Err e => Err (Errorf "reading %s: %w" [AStr path; AWrap e])
                       end))
        end
  end.

Definition runApply (serverURL : string) (args : list string) : M W (option error) :=
  let! manifest := manifestFromArgs args in
  match manifest with
  | Some (Err e) => ret (Some e)
  | None => ret (Some (Errorf "missing required flag: -f <file>" []))
  | Some (Ok data) =>
      let '(docs, end_err) := yaml_Documents data in
      connected serverURL (Some (30 * Second)%Z) (apply_documents 1 docs end_err)
  end.

(** ** get *)

Definition task_row (now : option Z) (t : Task) : string :=
  let status := default zero_TaskStatus (task_status t) in
  let meta := default zero_ObjectMeta (task_metadata t) in
  let age := match now, om_creation meta with
             | Some now, Some c => formatAge (since now c)
             | _, _ => "<unknown>"
             end in
  tab_line [om_name meta; om_atespace meta;
            (if decide (st_phase status = "") then "Pending" else st_phase status);
            or_none (st_actor status); or_none (st_worker_ip status); age].

(** The rows, with a reading of the clock for every task that has a creation time. *)
Fixpoint task_rows (tasks : list Task) (w : string) : M W string :=
  match tasks with
  | [] => ret w
  | t :: tasks =>
      let! now := match task_metadata t ≫= om_creation with
                  | Some _ => let! now := time_Now in ret (Some now)
                  | None => ret None
                  end in
      task_rows tasks (w +:+ task_row now t)
  end.

Definition list_tasks (atespace : string) : M W (option error) :=
  let! resp := rpc_ListTasks (mkListTasksRequest atespace 0 0) in
  match resp with
  | Err e => ret (Some (Errorf "listing tasks: %w" [AWrap e]))
  | Ok tasks =>
      let! text := task_rows tasks (tab_line ["NAME"; "ATESPACE"; "PHASE"; "ACTOR"; "WORKER-IP"; "AGE"]) in
      tab_Flush 3 text
  end.

Definition allowed_hosts (g : Gateway) : list HostRule :=
  match (gw_spec g ≫= gs_egress) ≫= ec_allowlist with Some a => ea_hosts a | None => [] end.
Definition gateway_listeners (g : Gateway) : list Listener :=
  match gw_spec g with Some spec => gs_listeners spec | None => [] end.

Definition gateway_row (g : Gateway) : string :=
  let meta := default zero_ObjectMeta (gw_metadata g) in
  tab_line [om_name meta; om_atespace meta;
            or_none (Join "," ((λ l, dec (li_port l) +:+ "/" +:+ li_protocol l) <$> gateway_listeners g));
            or_none (Join "," (hr_host <$> allowed_hosts g))].

Definition list_gateways (atespace : string) : M W (option error) :=
  let! resp := rpc_ListGateways (mkScopeRequest atespace) in
  match resp with
  | Err e => ret (Some (Errorf "listing gateways: %w" [AWrap e]))
  | Ok gateways =>
      tab_Flush 3 (String.concat "" (tab_line ["NAME"; "ATESPACE"; "LISTENERS"; "EGRESS-HOSTS"] :: (gateway_row <$> gateways)))
  end.

Definition count {A} (l : list A) : string := dec (Z.of_nat (length l)).

Definition workspace_row (ws : Workspace) : string :=
  let meta := default zero_ObjectMeta (ws_metadata ws) in
  tab_line [om_name meta; om_atespace meta;
            match ws_spec ws with Some spec => count (wss_git spec) | None => "0" end;
            match ws_spec ws ≫= wss_mcp with Some mcp => count (mc_servers mcp) | None => "0" end].

Definition list_workspaces (atespace : string) : M W (option error) :=
  let! resp := rpc_ListWorkspaces (mkScopeRequest atespace) in
  match resp with
  | Err e => ret (Some (Errorf "listing workspaces: %w" [AWrap e]))
  | Ok workspaces =>
      tab_Flush 3 (String.concat "" (tab_line ["NAME"; "ATESPACE"; "GIT-REPOS"; "MCP-SERVERS"] :: (workspace_row <$> workspaces)))
  end.

Definition model_row (m : Model) : string :=
  let meta := default zero_ObjectMeta (model_metadata m) in
  tab_line [om_name meta; om_atespace meta;
            from_option ms_provider "" (model_spec m); from_option ms_model "" (model_spec m)].

Definition list_models (atespace : string) : M W (option error) :=
  let! resp := rpc_ListModels (mkScopeRequest atespace) in
  match resp with
  | Err e => ret (Some (Errorf "listing models: %w" [AWrap e]))
  | Ok models =>
      tab_Flush 3 (String.concat "" (tab_line ["NAME"; "ATESPACE"; "PROVIDER"; "MODEL"] :: (model_row <$> models)))
  end.

(** A message printed as YAML; [None] from the encoder's fuel cannot happen, see
    [jsonToYAMLNode_lossless]. *)
Definition print_yaml {A} `{!ProtoJSON A} (x : A) : M W (option error) :=
  match marshalYAML x with
  | Some (Ok n) => yaml_Encode_out n
  | Some (Err e) => ret (Some e)
  | None => panic
  end.

Definition get_one {A} `{!ProtoJSON A} (what : string) (lookup : NameRequest → M W (res A))
    (atespace name : string) : M W (option error) :=
  let! r := lookup (mkNameRequest atespace name) in
  match r with
  | Err e => ret (named what name e)
  | Ok x => print_yaml x
  end.

(** The resource of a get: a name in the plural lists, whatever follows it; one in
    the singular lists when nothing follows it. *)
Definition lists (resource singular : string) (rest : list string) : bool :=
  bool_decide (resource = singular +:+ "s") || bool_decide (resource = singular) && bool_decide (rest = []).
Definition gets_one (resource singular : string) : bool :=
  bool_decide (resource = singular) || bool_decide (resource = singular +:+ "s").

Definition runGet (serverURL atespace : string) (args : list string) : M W (option error) :=
  match args with
  | [] => ret (Some (Errorf "specify resource to get (e.g. 'ax get tasks' or 'ax get task <name>')" []))
  | arg :: rest =>
      let resource := ToLower arg in
      let one singular := match rest with name :: _ => if gets_one resource singular then Some name else None | [] => None end in
      connected serverURL (Some (15 * Second)%Z)
        (if lists resource "task" rest then list_tasks atespace
         else match one "task" with Some name => get_one "getting task" rpc_GetTask atespace name | None =>
         if lists resource "gateway" rest then list_gateways atespace
         else match one "gateway" with Some name => get_one "getting gateway" rpc_GetGateway atespace name | None =>
         if lists resource "workspace" rest then list_workspaces atespace
         else match one "workspace" with Some name => get_one "getting workspace" rpc_GetWorkspace atespace name | None =>
         if lists resource "model" rest then list_models atespace
         else match one "model" with Some name => get_one "getting model" rpc_GetModel atespace name | None =>
         ret (Some (Errorf "unknown resource %q" [AStr resource]))
         end end end end)
  end.

(** ** describe *)

Definition describe_secret (k : SecretKeyRef) : M W unit :=
  if decide (sk_name k ≠ "" ∧ sk_key k ≠ "" ∧ sk_name k ≠ sk_key k) then
    println ("Secret Key:         " +:+ sk_name k +:+ " (key: " +:+ sk_key k +:+ ")")
  else if decide (sk_key k ≠ "") then println ("Secret Key:         " +:+ sk_key k)
  else when (bool_decide (sk_name k ≠ "")) (println ("Secret Key:         " +:+ sk_name k)).

Definition describe_model (m : Model) : M W unit :=
  println ("Name:               " +:+ meta_name (model_metadata m)) ;;;
  println ("Atespace:           " +:+ meta_atespace (model_metadata m)) ;;;
  match model_spec m with
  | None => ret tt
  | Some spec =>
      println ("Provider:           " +:+ ms_provider spec) ;;;
      when (bool_decide (ms_protocol spec ≠ "")) (println ("Protocol:           " +:+ ms_protocol spec)) ;;;
      println ("Model:              " +:+ ms_model spec) ;;;
      when (bool_decide (ms_base_url spec ≠ "")) (println ("Base URL:           " +:+ ms_base_url spec)) ;;;
      when (bool_decide (ms_api_key_header spec ≠ "")) (println ("API key header:     " +:+ ms_api_key_header spec)) ;;;
      (let params := default ∅ (ms_parameters spec) in
       when (bool_decide (params ≠ ∅))
         (println "Parameters:" ;;;
          each (λ k, println ("  " +:+ k +:+ ": " +:+ from_option any_text "<nil>" (params !! k)))
            (merge_sort string_le (map_to_list params).*1))) ;;;
      match ms_secret_key spec with Some k => describe_secret k | None => ret tt end
  end.

Definition describe_mcp (mcp : MCPConfig) : M W unit :=
  when (bool_decide (mc_registries mcp ≠ []))
    (println "MCP Registries:" ;;;
     each (λ r, println ("  - Provider: " +:+ mr_provider r +:+ ", Query: " +:+ strconv_Quote (mr_query r)))
       (mc_registries mcp)) ;;;
  when (bool_decide (mc_servers mcp ≠ []))
    (println "MCP Servers:" ;;;
     each (λ s, if decide (mcp_endpoint s ≠ "")
                then println ("  - " +:+ mcp_name s +:+ ": " +:+ mcp_endpoint s)
                else println ("  - " +:+ mcp_name s +:+ ": " +:+ mcp_command s +:+ " " +:+ bracketed (mcp_args s)))
       (mc_servers mcp)).

Definition describe_skills (skills : SkillsConfig) : M W unit :=
  when (bool_decide (sc_registries skills ≠ []))
    (println "Skill Registries:" ;;;
     each (λ r, println ("  - Provider: " +:+ sr_provider r +:+ ", Query: " +:+ strconv_Quote (sr_query r)))
       (sc_registries skills)) ;;;
  when (bool_decide (sc_path skills ≠ "")) (println ("Skills Path:      " +:+ sc_path skills)).

Definition describe_workspace (ws : Workspace) : M W unit :=
  println ("Name:         " +:+ meta_name (ws_metadata ws)) ;;;
  println ("Atespace:     " +:+ meta_atespace (ws_metadata ws)) ;;;
  match ws_spec ws with
  | None => ret tt
  | Some spec =>
      when (bool_decide (wss_git spec ≠ []))
        (println "Git Repositories:" ;;;
         each (λ g, let! g := deref g in
                    let branch := if decide (git_branch g = "") then "main" else git_branch g in
                    println ("  - " +:+ git_name g +:+ " (" +:+ git_repo g +:+ ", branch: " +:+ branch +:+ ")"))
           (wss_git spec)) ;;;
      match wss_mcp spec with Some mcp => describe_mcp mcp | None => ret tt end ;;;
      match wss_skills spec with Some skills => describe_skills skills | None => ret tt end
  end.

Definition describe_gateway (g : Gateway) : M W unit :=
  println ("Name:         " +:+ meta_name (gw_metadata g)) ;;;
  println ("Atespace:     " +:+ meta_atespace (gw_metadata g)) ;;;
  when (bool_decide (gateway_listeners g ≠ []))
    (println "Listeners:" ;;;
     each (λ l, println ("  - " +:+ li_name l +:+ ": " +:+ dec (li_port l) +:+ " (" +:+ li_protocol l +:+ ")"))
       (gateway_listeners g)) ;;;
  when (bool_decide (allowed_hosts g ≠ []))
    (println "Egress Allowlist:" ;;;
     each (λ h, println ("  - " +:+ hr_host h +:+ ":" +:+ dec (hr_port h))) (allowed_hosts g)).

Definition describe_binding (r : WorkspaceRef) : M W unit :=
  fmt_Print ("  - " +:+ wr_name r +:+ "  path=" +:+ workspace_path r) ;;;
  when (bool_decide (wr_goal r ≠ "")) (fmt_Print ("  goal=" +:+ strconv_Quote (wr_goal r))) ;;;
  fmt_Print newline.

Definition describe_task (t : Task) : M W unit :=
  let status := default zero_TaskStatus (task_status t) in
  println ("Name:         " +:+ meta_name (task_metadata t)) ;;;
  println ("Atespace:     " +:+ meta_atespace (task_metadata t)) ;;;
  println ("Phase:        " +:+ st_phase status) ;;;
  println ("Actor:        " +:+ st_actor status) ;;;
  println ("Worker IP:    " +:+ st_worker_ip status) ;;;
  match task_spec t with
  | None => ret tt
  | Some spec =>
      match ts_gateway spec with Some g => println ("Gateway:      " +:+ gr_name g) | None => ret tt end ;;;
      when (bool_decide (WorkspaceRefs (Some spec) ≠ []))
        (println "Workspaces:" ;;; each describe_binding (WorkspaceRefs (Some spec))) ;;;
      when (bool_decide (ts_image spec ≠ "")) (println ("Image:        " +:+ ts_image spec)) ;;;
      when (bool_decide (ts_command spec ≠ [])) (println ("Command:      " +:+ bracketed (ts_command spec)))
  end ;;;
  when (bool_decide (st_conditions status ≠ []))
    (println (newline +:+ "Conditions:") ;;;
     let! _ := tab_Flush 2 (String.concat "" (tab_line ["  TYPE"; "STATUS"; "REASON"; "MESSAGE"] ::
       ((λ c, tab_line ["  " +:+ cond_type c; cond_status c; cond_reason c; cond_message c]) <$> st_conditions status))) in
     ret tt).

Definition describe_one {A} (what : string) (lookup : NameRequest → M W (res A)) (describe : A → M W unit)
    (atespace name : string) : M W (option error) :=
  let! r := lookup (mkNameRequest atespace name) in
  match r with
  | Err e => ret (named what name e)
  | Ok x => describe x ;;; ret None
  end.

Definition runDescribe (serverURL atespace : string) (args : list string) : M W (option error) :=
  match args with
  | kind :: name :: _ =>
      let kind := ToLower kind in
      connected serverURL (Some (15 * Second)%Z)
        (if gets_one kind "model" then describe_one "getting model" rpc_GetModel describe_model atespace name
         else if gets_one kind "workspace" then describe_one "getting workspace" rpc_GetWorkspace describe_workspace atespace name
         else if gets_one kind "gateway" then describe_one "getting gateway" rpc_GetGateway describe_gateway atespace name
         else describe_one "getting task" rpc_GetTask describe_task atespace name)
  | _ => ret (Some (Errorf "usage: ax describe <task|gateway|workspace|model> <name>" []))
  end.

(** ** watch *)

Definition watch_line (now : Z) (t : Task) : string :=
  let status := default zero_TaskStatus (task_status t) in
  "[" +:+ time_Format_clock now +:+ "] Phase: " +:+ pad_right 10 (st_phase status) +:+
  " Actor: " +:+ pad_right 18 (st_actor status) +:+ " WorkerIP: " +:+ st_worker_ip status.

(** The loop over the stream; [None] when the fuel is used up. *)
Fixpoint watch_stream (fuel : nat) : M W (option (option error)) :=
  match fuel with
  | O => ret None
  | S fuel =>
      let! resp := watch_Recv in
      match resp with
      | WatchEOF => ret (Some None)
      | WatchErr e => ret (Some (Some (Errorf "receiving stream update: %w" [AWrap e])))
      | WatchMsg None => watch_stream fuel
      | WatchMsg (Some task) =>
          let phase := st_phase (default zero_TaskStatus (task_status task)) in
          let! now := time_Now in
          println (watch_line now task) ;;;
          (if terminal_phase phase then
             println ("Task reached terminal phase " +:+ strconv_Quote phase +:+ ".") ;;; ret (Some None)
           else watch_stream fuel)
      end
  end.

Definition runWatch (fuel : nat) (serverURL atespace : string) (args : list string) : M W (option (option error)) :=
  match args with
  | _ :: name :: _ =>
      let! err := getAXClient serverURL in
      match err with
      | Some e => ret (Some (Some e))
      | None =>
          let! stream := rpc_WatchTask (mkNameRequest atespace name) in
          let! out :=
            match stream with
            | Err e => ret (Some (Some (Errorf "watching task: %w" [AWrap e])))
            | Ok _ =>
                println ("Watching task " +:+ atespace +:+ "/" +:+ name +:+ "...") ;;;
                watch_stream fuel
            end in
          match out with
          | None => ret None
          | Some err => grpc_Close ;;; ret (Some err)
          end
      end
  | _ => ret (Some (Some (Errorf "usage: ax watch task <name>" [])))
  end.

(** ** delete *)

Definition deleteTaskTimeout : Z := 5 * Minute.
Definition deletePollInterval : Z := 500000000.

Definition reply_error {A} (r : res A) : option error := match r with Ok _ => None | Err e => Some e end.

Definition delete_call (kind : string) (req : NameRequest) : option (M W (option error)) :=
  let call {A} (m : M W (res A)) := Some (let! r := m in ret (reply_error r)) in
  if decide (kind = KindTask) then call (rpc_DeleteTask req)
  else if decide (kind = KindGateway) then call (rpc_DeleteGateway req)
  else if decide (kind = KindWorkspace) then call (rpc_DeleteWorkspace req)
  else if decide (kind = KindModel) then call (rpc_DeleteModel req)
  else None.

Definition lookup_call (kind : string) (req : NameRequest) : M W (option error) :=
  let call {A} (m : M W (res A)) := let! r := m in ret (reply_error r) in
  if decide (kind = KindTask) then call (rpc_GetTask req)
  else if decide (kind = KindGateway) then call (rpc_GetGateway req)
  else if decide (kind = KindWorkspace) then call (rpc_GetWorkspace req)
  else if decide (kind = KindModel) then call (rpc_GetModel req)
  else ret None.

Definition resource_args (kind : string) (req : NameRequest) : list arg :=
  [AStr (ToLower kind); AStr (req_atespace req); AStr (req_name req)].

(** The polling; [None] when the fuel is used up before the context ends. *)
Fixpoint waitForDeletion (fuel : nat) (kind : string) (req : NameRequest) (announced : bool) : M W (option (option error)) :=
  match fuel with
  | O => ret None
  | S fuel =>
      let! err := lookup_call kind req in
      match err with
      | Some e =>
          if status_is CodeNotFound e then ret (Some None)
          else ret (Some (Some (Errorf "checking %s %s/%s after delete: %w" (resource_args kind req ++ [AWrap e]))))
      | None =>
          when (negb announced)
            (fmt_Eprint ("waiting for " +:+ ToLower kind +:+ " " +:+ req_atespace req +:+ "/" +:+ req_name req +:+
                         " to be deleted..." +:+ newline)) ;;;
          (let! done := ctx_wait deletePollInterval in
           match done with
           | Some _ =>
               ret (Some (Some (Errorf "timed out waiting for %s %s/%s to be deleted; it is still being torn down (check `ax describe` and the controller logs)"
                      (resource_args kind req))))
           | None => waitForDeletion fuel kind req true
           end)
      end
  end.

Definition deleteResource (fuel : nat) (kind : string) (req : NameRequest) : M W (option (option error)) :=
  match delete_call kind req with
  | None => ret (Some (Some (Errorf "unsupported kind %q" [AStr kind])))
  | Some call =>
      let! err := call in
      match err with
      | Some e => ret (Some (Some (Errorf "deleting %s %s/%s: %w" (resource_args kind req ++ [AWrap e]))))
      | None =>
          let! out := waitForDeletion fuel kind req false in
          match out with
          | Some None => println (ToLower kind +:+ ".ax.io/" +:+ req_name req +:+ " deleted") ;;; ret (Some None)
          | _ => ret out
          end
      end
  end.

Definition runDelete (fuel : nat) (serverURL atespace : string) (args : list string) : M W (option (option error)) :=
  match args with
  | k :: name :: _ =>
      match normalizeKind k with
      | Err e => ret (Some (Some e))
      | Ok kind =>
          let! err := getAXClient serverURL in
          match err with
          | Some e => ret (Some (Some e))
          | None =>
              let timeout := if decide (kind = KindTask) then deleteTaskTimeout else (15 * Second)%Z in
              ctx_WithTimeout timeout ;;;
              (let! out := deleteResource fuel kind (mkNameRequest atespace name) in
               match out with
               | None => ret None
               | Some err => grpc_Close ;;; ret (Some err)
               end)
          end
      end
  | _ => ret (Some (Some (Errorf "usage: ax delete <task|gateway|workspace|model> <name>" [])))
  end.

(** ** suspend and resume *)

Definition task_name_arg (args : list string) : option string :=
  match args with
  | [] => None
  | [name] => Some name
  | a :: b :: _ => Some (if decide (a = "task" ∨ a = "tasks") then b else a)
  end.

Definition switch_task (serverURL atespace : string) (args : list string) (usage failing done : string)
    (call : NameRequest → M W (res Task)) : M W (option error) :=
  match task_name_arg args with
  | None => ret (Some (Errorf usage []))
  | Some name =>
      connected serverURL (Some (15 * Second)%Z)
        (let! r := call (mkNameRequest atespace name) in
         match r with
         | Err e => ret (Some (Errorf failing [AWrap e]))
         | Ok _ => println ("task.ax.io/" +:+ name +:+ " " +:+ done) ;;; ret None
         end)
  end.

Definition runSuspend (serverURL atespace : string) (args : list string) : M W (option error) :=
  switch_task serverURL atespace args "usage: ax suspend task <name>" "suspending task: %w" "suspended" rpc_SuspendTask.
Definition runResume (serverURL atespace : string) (args : list string) : M W (option error) :=
  switch_task serverURL atespace args "usage: ax resume task <name>" "resuming task: %w" "resumed" rpc_ResumeTask.

(** ** ctx and tunnel *)

Definition runContext (kubeContext : string) : M W (option error) :=
  let! current := CurrentContext kubeContext in
  match current with
  | Err _ | Ok "" =>
      println "No active Kubernetes context detected." ;;;
      println "Fallback server: http://localhost:8080 (or set $AX_SERVER / --server)" ;;;
      ret None
  | Ok ctxName =>
      println ("Active Kubernetes Context: " +:+ ctxName) ;;;
      (let! t := GetTunnel ctxName in
       match t with
       | Ok t =>
           let! healthy := IsTunnelHealthy (ti_port t) in
           let status := if healthy then "Healthy" else "Stale / Not responding" in
           println ("AX Tunnel:                 " +:+ local_url (ti_port t) +:+ " -> " +:+ ti_namespace t +:+ "/svc/" +:+
                    ti_service t +:+ ":8080 (PID: " +:+ dec (ti_pid t) +:+ ", " +:+ status +:+ ")") ;;;
           ret None
       | Err _ =>
           println "AX Tunnel:                 No background tunnel running (will auto-connect on next command)" ;;;
           ret None
       end)
  end.

Fixpoint tunnel_rows (tunnels : list TunnelInfo) (w : string) : M W string :=
  match tunnels with
  | [] => ret w
  | t :: tunnels =>
      let! healthy := IsTunnelHealthy (ti_port t) in
      tunnel_rows tunnels (w +:+ tab_line
        [ti_context t; dec (ti_port t); ti_namespace t +:+ "/" +:+ ti_service t; dec (ti_pid t);
         (if healthy then "Active" else "Stale"); time_Format_date (ti_created t)])
  end.

Definition stop_tunnel (ctxName : string) : M W (option error) :=
  let! err := StopTunnelByContext ctxName in
  match err with
  | Some e => ret (Some (Errorf "stopping tunnel for context %q: %w" [AStr ctxName; AWrap e]))
  | None => println ("Tunnel stopped for context " +:+ strconv_Quote ctxName) ;;; ret None
  end.

Definition runTunnel (args : list string) : M W (option error) :=
  match args with
  | [] => ret (Some (Errorf "specify tunnel action: 'ax tunnel list' or 'ax tunnel stop [context]'" []))
  | action :: rest =>
      if decide (action = "list") then
        let! tunnels := ListTunnels in
        match tunnels with
        | Err e => ret (Some e)
        | Ok [] => println "No active tunnels found in ~/.ax/tunnels." ;;; ret None
        | Ok tunnels =>
            let! text := tunnel_rows tunnels
              (tab_line ["CONTEXT"; "LOCAL PORT"; "REMOTE SERVICE"; "PID"; "STATUS"; "CREATED"]) in
            tab_Flush 2 text
        end
      else if decide (action = "stop") then
        match rest with
        | ctxName :: _ => stop_tunnel ctxName
        | [] =>
            let! cur := CurrentContext "" in
            match cur with
            | Err _ | Ok "" => ret (Some (Errorf "no current context found to stop tunnel" []))
            | Ok cur => stop_tunnel cur
            end
        end
      else ret (Some (Errorf "unknown tunnel subcommand: %s (available: list, stop)" [AStr action]))
  end.

(** ** ssh *)

(** The arguments after the task: up to a first --, which drops the ones before it. *)
Fixpoint ssh_command (args cmdToRun : list string) : list string :=
  match args with
  | [] => cmdToRun
  | arg :: rest => if decide (arg = "--") then rest else ssh_command rest (cmdToRun ++ [arg])
  end.
Definition command_or_shell (cmd : list string) : list string :=
  match cmd with [] => ["/bin/sh"] | _ => cmd end.

Definition JoinHostPort (host port : string) : string :=
  if string_in ":"%char host then "[" +:+ host +:+ "]:" +:+ port else host +:+ ":" +:+ port.

Definition guest_address (workerIP : string) : string :=
  let '(host, port) := match SplitHostPort workerIP with
                       | Some (h, p) => (h, default 80%Z (Atoi p))
                       | None => (workerIP, 80%Z)
                       end in
  JoinHostPort host (dec port).

(** What the checks before the connection yield: the worker's address and the actor. *)
Definition ssh_target (taskName : string) (task : Task) : res (string * string) :=
  match task_status task with
  | None => Err (Errorf "task %q has no status available" [AStr taskName])
  | Some st =>
      if decide (st_phase st ≠ "Running") then
        Err (Errorf "task %q is in phase %q (must be Running to ssh)" [AStr taskName; AStr (st_phase st)])
      else if negb (from_option ts_debug false (task_spec task)) then
        Err (Errorf "task %q does not expose guest services; set spec.debug: true and re-apply to enable ax ssh" [AStr taskName])
      else if decide (st_worker_ip st = "") then Err (Errorf "task %q has no worker IP assigned" [AStr taskName])
      else Ok (guest_address (st_worker_ip st), st_actor st)
  end.

(** The connection to the guest, directly or through the router; with the process
    of the port-forward to clean up. *)
Definition guest_connect (kubeContext endpoint targetActor : string) : M W (res (option Z)) :=
  let! direct := net_Dial 500000000 endpoint in
  if direct then
    let! err := Dial endpoint in
    ret (match err with
         | Some e => Err (Errorf "connecting to guest at %s: %w" [AStr endpoint; AWrap e])
         | None => Ok None
         end)
  else
    let! forward := PortForward kubeContext "ate-system" "svc/atenet-router" 80 in
    match forward with
    | Err e => ret (Err (Errorf "establishing port-forward to atenet-router: %w" [AWrap e]))
    | Ok (localPort, pid) =>
        let routerEndpoint := "127.0.0.1:" +:+ dec localPort in
        let! err := DialTarget routerEndpoint targetActor in
        ret (match err with
             | Some e => Err (Errorf "connecting to guest via atenet-router at %s: %w" [AStr routerEndpoint; AWrap e])
             | None => Ok (Some pid)
             end)
    end.

Definition runSSH (fuel : nat) (serverURL atespace kubeContext : string) (args : list string) : M W (option ended) :=
  match args with
  | [] => ret (Some (Returned (Some (Errorf "usage: ax ssh <task-name> [-- command...]" []))))
  | taskName :: rest =>
      let cmdToRun := command_or_shell (ssh_command rest []) in
      let! err := getAXClient serverURL in
      match err with
      | Some e => ret (Some (Returned (Some e)))
      | None =>
          let fail e := grpc_Close ;;; ret (Some (Returned (Some e))) in
          ctx_WithTimeout (10 * Second)%Z ;;;
          (let! task := rpc_GetTask (mkNameRequest atespace taskName) in
           match task with
           | Err e => fail (Errorf "fetching task %q: %w" [AStr taskName; AWrap e])
           | Ok task =>
               match ssh_target taskName task with
               | Err e => fail e
               | Ok (guestEndpoint, actor) =>
                   let! meta := deref (task_metadata task) in
                   let! guest := guest_connect kubeContext guestEndpoint (om_atespace meta +:+ "/" +:+ actor) in
                   match guest with
                   | Err e => fail e
                   | Ok forward =>
                       let! reply := Exec fuel (mkExecOptions cmdToRun "" ∅ true true) in
                       let close := guest_Close ;;;
                                    match forward with Some pid => forward_cleanup pid | None => ret tt end ;;;
                                    grpc_Close in
                       match reply with
                       | None => ret None
                       | Some (_, Some e) => close ;;; ret (Some (Returned (Some e)))
                       | Some (code, None) =>
                           if decide (code ≠ 0)%Z then ret (Some (Exited code))
                           else close ;;; ret (Some (Returned None))
                       end
                   end
               end
           end)
      end
  end.

(** ** main *)

Definition usage_lines : list string :=
  ["AX CLI - Autonomous agent execution control"; ""; "Usage:"; "  ax [command] [flags]"; "";
   "Available Commands:";
   "  apply -f <file>         Apply resources (tasks, gateways, workspaces, models) from a file or stdin";
   "  get tasks               List tasks";
   "  get task <name>         Get a specific task";
   "  get gateways            List gateways";
   "  get gateway <name>      Get a specific gateway";
   "  get workspaces          List workspaces";
   "  get workspace <name>    Get a specific workspace";
   "  get models              List models";
   "  get model <name>        Get a specific model";
   "  describe task <name>    Show detailed information about a task";
   "  describe gateway <name> Show detailed information about a gateway";
   "  describe workspace <name> Show detailed information about a workspace";
   "  describe model <name>   Show detailed information about a model";
   "  watch task <name>       Stream live status and condition updates for a task";
   "  ssh <task-name> [-- cmd] Run a command or shell inside the running task container";
   "  suspend task <name>     Suspend execution of a task and checkpoint state";
   "  resume task <name>      Resume execution of a suspended task";
   "  delete task <name>      Delete a task";
   "  delete gateway <name>   Delete a gateway";
   "  delete workspace <name> Delete a workspace";
   "  delete model <name>     Delete a model";
   "  ctx, context            Show active Kubernetes context and AX connection";
   "  tunnel <list|stop>      Manage background tunnels to Kubernetes clusters";
   "  version                 Print AX version"; ""; "Flags:";
   "  -a, --atespace string       Task atespace scope (default: " +:+ quoted "default" +:+ ")";
   "  -n, --namespace string      Kubernetes namespace where AX is installed (default: " +:+ quoted "ax-system" +:+ ")";
   "  --context string            Kubernetes context (defaults to active kubectx / current-context)";
   "  --server string             AX API server address (default: auto-detected from kube context or $AX_SERVER)"].
Definition printUsage : M W unit := println (Join newline usage_lines).

(** The exit code for the error a command returns. *)
Definition finish (err : option error) : M W (option Z) :=
  match err with
  | Some e => fmt_Eprint ("Error: " +:+ error_text e +:+ newline) ;;; ret (Some 1%Z)
  | None => ret (Some 0%Z)
  end.
Definition finish_loop (out : option (option error)) : M W (option Z) :=
  match out with Some err => finish err | None => ret None end.

(** The commands that talk to a server. *)
Definition run_command_at (fuel : nat) (a : CliArgs) (serverURL : string) : M W (option Z) :=
  let cmd := ca_cmd a in
  let direct (m : M W (option error)) := let! err := m in finish err in
  let looping (m : M W (option (option error))) := let! out := m in finish_loop out in
  if decide (cmd = "apply") then direct (runApply serverURL (ca_clean a))
  else if decide (cmd = "get") then direct (runGet serverURL (ca_atespace a) (ca_clean a))
  else if decide (cmd = "describe") then direct (runDescribe serverURL (ca_atespace a) (ca_clean a))
  else if decide (cmd = "watch") then looping (runWatch fuel serverURL (ca_atespace a) (ca_clean a))
  else if decide (cmd = "suspend") then direct (runSuspend serverURL (ca_atespace a) (ca_clean a))
  else if decide (cmd = "resume") then direct (runResume serverURL (ca_atespace a) (ca_clean a))
  else if decide (cmd = "delete") then looping (runDelete fuel serverURL (ca_atespace a) (ca_clean a))
  else if decide (cmd = "ssh") then
    let! out := runSSH fuel serverURL (ca_atespace a) (ca_context a) (ca_clean a) in
    match out with
    | None => ret None
    | Some (Returned err) => finish err
    | Some (Exited code) => ret (Some code)
    end
  else
    fmt_Eprint ("unknown command: " +:+ cmd +:+ newline) ;;; printUsage ;;; ret (Some 1%Z).

(** main on the arguments after the program's name: its exit code. *)
Definition main (fuel : nat) (args : list string) : M W (option Z) :=
  let usage := printUsage ;;; ret (Some 1%Z) in
  match args with
  | [] => usage
  | _ =>
      let a := parse_args args no_args in
      let cmd := ca_cmd a in
      if decide (cmd = "") then usage
      else if decide (cmd = "version") then println "ax version v1alpha1 (standalone redis engine)" ;;; ret (Some 0%Z)
      else if bool_decide (cmd = "help") || bool_decide (cmd = "-h") || bool_decide (cmd = "--help") then
        printUsage ;;; ret (Some 0%Z)
      else if bool_decide (cmd = "ctx") || bool_decide (cmd = "context") then
        let! err := runContext (ca_context a) in finish err
      else if decide (cmd = "tunnel") then let! err := runTunnel (ca_clean a) in finish err
      else
        let! url := EnsureServerURL fuel
          (mkTunnelOptions (ca_server a) (ca_context a) (ca_namespace a) "" "" 0) in
        match url with
        | None => ret None
        | Some (Err e) => finish (Some e)
        | Some (Ok serverURL) => run_command_at fuel a serverURL
        end
  end.

End Cli.
