(* ===== verification/TunnelSpec.v ===== *)
(** What holds of the tunnels of the command line: where a server address comes
    from, that a port-forward that does not come up is not left behind, that the
    search ends, and where the records are kept. *)

From S2P Require Import Prelude GoStrings Paths Types StoreApi ModelConfig Container Tunnel.

(** ** Events *)

Inductive HostEvent :=
| HEnv (name value : string)
| HMkdir (dir : string) (err : option error)
| HRead (path : string) (r : res string)
| HWrite (path data : string) (err : option error)
| HRemove (path : string) (err : option error)
| HCreate (path : string) (err : option error)
| HOutput (args : list string) (r : res string)
| HStart (args : list string) (r : res Z)
| HKill (pid : Z) (signal : string) (err : option error)
| HProbe (url : string) (r : res Z)
| HSleep (d : Z).

(** A workstation whose calls return and are on record. *)
Class TracedHost (W : Type) `{!Files W, !FileReads W, !EnvVars W, !TimeNow W, !Workstation W} := {
  host_trace : W → list HostEvent;
  htrace_Getenv n : emits host_trace (os_Getenv n) (λ v l, l = [HEnv n v]);
  htrace_MkdirAll d : emits host_trace (os_MkdirAll d) (λ err l, l = [HMkdir d err]);
  htrace_ReadFile p : emits host_trace (os_ReadFile p) (λ r l, l = [HRead p r]);
  htrace_WriteFile p d : emits host_trace (os_WriteFile p d) (λ err l, l = [HWrite p d err]);
  htrace_Remove p : emits host_trace (os_Remove p) (λ err l, l = [HRemove p err]);
  htrace_Create p : emits host_trace (os_Create p) (λ err l, l = [HCreate p err]);
  htrace_Output a : emits host_trace (kubectl_Output a) (λ r l, l = [HOutput a r]);
  htrace_Start a log : emits host_trace (kubectl_Start a log) (λ r l, l = [HStart a r]);
  htrace_Kill p s : emits host_trace (sys_Kill p s) (λ err l, l = [HKill p s err]);
  htrace_Probe d u : emits host_trace (http_Probe d u) (λ r l, l = [HProbe u r]);
  htrace_Sleep d : emits host_trace (time_Sleep d) (λ _ l, l = [HSleep d]);
  htrace_Home : emits host_trace os_UserHomeDir (λ _ l, l = []);
  htrace_Now : emits host_trace time_Now (λ _ l, l = []);
}.
#[export] Hint Resolve htrace_Getenv htrace_MkdirAll htrace_ReadFile htrace_WriteFile htrace_Remove
  htrace_Create htrace_Output htrace_Start htrace_Kill htrace_Probe htrace_Sleep htrace_Home htrace_Now : trace.

(** The port-forwards that were started, and how one is known to be gone. *)
Definition started (l : list HostEvent) : list Z :=
  omap (λ e, match e with HStart _ (Ok pid) => Some pid | _ => None end) l.
Definition gone (pid : Z) (l : list HostEvent) : Prop :=
  (∃ err, HKill pid "SIGKILL" err ∈ l) ∨ ∃ e, HKill pid "0" (Some e) ∈ l.
(** A port that answered its health check. *)
Definition answered (port : Z) (l : list HostEvent) : Prop :=
  HProbe (local_url port +:+ "/healthz") (Ok 200%Z) ∈ l.

Lemma answered_app p l l' : answered p l ∨ answered p l' → answered p (l ++ l').
Proof. unfold answered. by rewrite elem_of_app. Qed.
Lemma started_app l l' : started (l ++ l') = started l ++ started l'.
Proof. apply omap_app. Qed.

Section Tunnels.
Context {W : Type} `{TracedHost W, !TunnelFormats}.

(** Calls that start nothing. *)
Ltac quietly := repeat emit_step; try done.

Lemma emits_quiet {A B} (m : M W A) (k : A → M W B) Q :
  emits host_trace m (λ _ l, started l = []) →
  (∀ a l, started l = [] → emits host_trace (k a) (λ b l', Q b (l ++ l'))) →
  emits host_trace (bind m k) Q.
Proof. intros Hm Hk. eapply emits_bind; [exact Hm|]. intros a l Hl. by apply Hk. Qed.

Lemma TunnelDir_quiet : emits host_trace TunnelDir (λ _ l, started l = []).
Proof. unfold TunnelDir. quietly. Qed.
Lemma CurrentContext_quiet o : emits host_trace (CurrentContext o) (λ _ l, started l = []).
Proof. unfold CurrentContext, kubeconfig_context. quietly. Qed.
Lemma complete_options_quiet o : emits host_trace (complete_options o) (λ _ l, started l = []).
Proof. unfold complete_options. quietly. Qed.

Lemma GetTunnel_quiet c : emits host_trace (GetTunnel c) (λ _ l, started l = []).
Proof.
  unfold GetTunnel. eapply emits_quiet; [apply TunnelDir_quiet|]. intros [dir [e|]] l Hl; quietly.
  all: by rewrite started_app, Hl.
Qed.
Lemma StopTunnel_quiet i : emits host_trace (StopTunnel i) (λ _ l, started l = []).
Proof.
  unfold StopTunnel. destruct i as [i|]; [|quietly]. case_decide; repeat emit_step;
    (eapply emits_quiet; [apply TunnelDir_quiet|]; intros [dir [e|]] l Hl; quietly);
    cbn; by rewrite started_app, Hl.
Qed.
Lemma SaveTunnel_quiet i : emits host_trace (SaveTunnel i) (λ _ l, started l = []).
Proof.
  unfold SaveTunnel. eapply emits_quiet; [apply TunnelDir_quiet|]. intros [dir [e|]] l Hl; quietly.
  - by rewrite started_app, Hl.
  - eapply emits_weaken; [apply htrace_WriteFile|]. intros err l' ->. by rewrite started_app, Hl.
  - by rewrite started_app, Hl.
Qed.

Lemma IsTunnelHealthy_answers p : emits host_trace (IsTunnelHealthy p)
  (λ ok l, started l = [] ∧ (ok = true → answered p l)).
Proof.
  unfold IsTunnelHealthy. repeat emit_step; [by split|].
  split; [done|]. destruct a as [status|e]; [|done]. intros ->%bool_decide_eq_true_1. left.
Qed.

Lemma existing_tunnel_answers c : emits host_trace (existing_tunnel c)
  (λ r l, started l = [] ∧ ∀ url, r = Some url → ∃ p, url = local_url p ∧ answered p l).
Proof.
  unfold existing_tunnel. eapply emits_quiet; [apply GetTunnel_quiet|]. intros [info|e] l Hl.
  - eapply emits_bind; [apply IsTunnelHealthy_answers|]. intros [] l' [Hl' Ha].
    + apply emits_ret. rewrite app_nil_r, started_app, Hl, Hl'. split; [done|].
      intros url [= <-]. exists (ti_port info). split; [done|]. apply answered_app. auto.
    + eapply emits_bind; [apply StopTunnel_quiet|]. intros ? l'' Hl''. apply emits_ret.
      by rewrite !app_nil_r, !started_app, Hl, Hl', Hl''.
  - apply emits_ret. by rewrite app_nil_r.
Qed.

Lemma wait_port_gone fuel deadline log c pid : emits host_trace (wait_port fuel deadline log c pid)
  (λ r l, started l = [] ∧ ∀ e, r = Some (Err e) → gone pid l).
Proof.
  assert (Hcons : ∀ e l (r : option (res Z)), started [e] = [] →
    (started l = [] ∧ ∀ x, r = Some (Err x) → gone pid l) →
    started (e :: l) = [] ∧ ∀ x, r = Some (Err x) → gone pid (e :: l)).
  { intros e l r He [Hl Hg]. split; [by change (started ([e] ++ l) = []); rewrite started_app, He, Hl|].
    intros x Hx. destruct (Hg x Hx) as [[err Hk]|[err Hk]]; [left|right]; exists err; by right. }
  induction fuel as [|fuel IH]; cbn [wait_port]; [by apply emits_ret|]. repeat emit_step; try done.
  all: try (eapply emits_weaken; [apply IH|]; intros r l' Hr; by repeat (apply Hcons; [done|])).
  all: split; [done|]; intros e' He'; try done.
  right. eexists. do 2 right. left.
Qed.

Lemma wait_healthy_answers fuel deadline p : emits host_trace (wait_healthy fuel deadline p)
  (λ r l, started l = [] ∧ (r = Some true → answered p l)).
Proof.
  induction fuel as [|fuel IH]; cbn [wait_healthy]; [by apply emits_ret|]. repeat emit_step; [|done].
  eapply emits_bind; [apply IsTunnelHealthy_answers|]. intros [] l0 [Hl Ha].
  - apply emits_ret. rewrite app_nil_r. auto.
  - repeat emit_step. eapply emits_weaken; [apply IH|]. intros r l' [Hl' Ha'].
    rewrite started_app, Hl. split; [done|]. intros Hr. apply answered_app. right. right. by apply Ha'.
Qed.

(** What a search for an address leaves behind. *)
Definition search_ok (out : option (res string)) (l : list HostEvent) : Prop :=
  (length (started l) ≤ 1)%nat ∧
  match out with
  | Some (Ok url) => ∃ p, url = local_url p ∧ answered p l
  | Some (Err _) => ∀ pid, pid ∈ started l → gone pid l
  | None => True
  end.

Lemma search_ok_app out l l' : started l = [] → search_ok out l' → search_ok out (l ++ l').
Proof.
  intros Hl [Hlen Hout]. unfold search_ok. rewrite started_app, Hl. split; [done|].
  destruct out as [[url|e]|]; [|intros pid Hp; destruct (Hout pid Hp) as [[x Hx]|[x Hx]]|done].
  - destruct Hout as (p & -> & Ha). exists p. split; [done|]. apply answered_app. auto.
  - left. exists x. apply elem_of_app. auto.
  - right. exists x. apply elem_of_app. auto.
Qed.

Lemma started_Start a pid l : started (HStart a (Ok pid) :: l) = pid :: started l.
Proof. done. Qed.

(** One port-forward of its own, that is gone. *)
Lemma search_failed e a pid l : started l = [] → gone pid l → search_ok (Some (Err e)) (HStart a (Ok pid) :: l).
Proof.
  intros Hl Hg. unfold search_ok. rewrite started_Start, Hl. split; [done|].
  intros pid' ->%list_elem_of_singleton. destruct Hg as [[x Hx]|[x Hx]]; [left|right]; exists x; by right.
Qed.

Lemma start_tunnel_ok fuel opts c log : emits host_trace (start_tunnel fuel opts c log) search_ok.
Proof.
  unfold start_tunnel. eapply emits_event; [apply htrace_Start|]. intros [pid|e]; cbn beta.
  2:{ apply emits_ret. split; [cbn; lia|]. intros pid Hp. by apply elem_of_nil in Hp. }
  eapply emits_silent; [apply htrace_Now|]. intros now.
  eapply emits_bind; [apply wait_port_gone|]. intros [[port|e]|] l [Hl Hg]; cbn beta iota.
  - case_decide.
    + eapply emits_event; [apply htrace_Kill|]. intros err. eapply emits_event; [apply htrace_ReadFile|].
      intros log'. apply emits_ret. apply search_failed; [by rewrite started_app, Hl|].
      left. exists err. apply elem_of_app. right. left.
    + eapply emits_silent; [apply htrace_Now|]. intros now'.
      eapply emits_bind; [apply wait_healthy_answers|]. intros [[]|] l' [Hl' Ha]; cbn beta iota.
      * eapply emits_silent; [apply htrace_Now|]. intros now''.
        eapply emits_bind; [apply SaveTunnel_quiet|]. intros ? l'' Hl''. apply emits_ret.
        unfold search_ok. rewrite started_Start, !started_app, Hl, Hl', Hl''. split; [done|].
        exists port. split; [done|]. right. apply answered_app. right. apply answered_app. left. by apply Ha.
      * eapply emits_event; [apply htrace_Kill|]. intros err. apply emits_ret.
        apply search_failed; [by rewrite !started_app, Hl, Hl'|].
        left. exists err. rewrite !elem_of_app. right. right. left.
      * apply emits_ret. unfold search_ok. by rewrite started_Start, !started_app, Hl, Hl'.
  - apply emits_ret. rewrite app_nil_r. apply search_failed; [done|]. by eapply Hg.
  - apply emits_ret. unfold search_ok. by rewrite app_nil_r, started_Start, Hl.
Qed.

(** A look for the context, with what it found and what it left on record. *)
Definition context_looked (override : string) (r : res string) (l : list HostEvent) : Prop :=
  ∃ s s', CurrentContext override s = (Ret r, s') ∧ host_trace s' = host_trace s ++ l.

Lemma CurrentContext_looked o :
  emits host_trace (CurrentContext o) (λ r l, started l = [] ∧ context_looked o r l).
Proof.
  intros s. destruct (CurrentContext_quiet o s) as (r & s' & l & Hrun & Hl & Hq).
  exists r, s', l. split_and!; [done..|]. by exists s, s'.
Qed.

(** Where an address comes from: the flag; else AX_SERVER; else, without a context, the
    default; else a search in the cluster of the context. *)
Definition address_found (opts : TunnelOptions) (out : option (res string)) (l : list HostEvent) : Prop :=
  (to_server_url opts ≠ "" ∧ out = Some (Ok (to_server_url opts)) ∧ l = [])
  ∨ (to_server_url opts = "" ∧ ∃ env, env ≠ "" ∧ out = Some (Ok env) ∧ l = [HEnv "AX_SERVER" env])
  ∨ (to_server_url opts = "" ∧ ∃ current lc ls,
      l = HEnv "AX_SERVER" "" :: lc ++ ls ∧ started lc = [] ∧ context_looked (to_context opts) current lc ∧
      match current with
      | Err _ | Ok "" => out = Some (Ok "http://localhost:8080") ∧ ls = []
      | Ok _ => search_ok out ls
      end).

Lemma search_context fuel opts ctxName :
  emits host_trace
    (let! opts := complete_options opts in
     let! url := existing_tunnel ctxName in
     match url with
     | Some url => ret (Some (Ok url))
     | None =>
         let! (dir, err) := TunnelDir in
         match err with
         | Some e => ret (Some (Err (Errorf "creating tunnel directory: %w" [AWrap e])))
         | None =>
             let logPath := path_Join dir (SanitizeContext ctxName +:+ ".log") in
             let! err := os_Create logPath in
             match err with
             | Some e => ret (Some (Err (Errorf "opening tunnel log: %w" [AWrap e])))
             | None => start_tunnel fuel opts ctxName logPath
             end
         end
     end) search_ok.
Proof.
  assert (Hnone : ∀ e l, started l = [] → search_ok (Some (Err e)) l).
  { intros e l Hl. split; rewrite Hl; [cbn; lia|]. intros pid Hp. by apply elem_of_nil in Hp. }
  eapply emits_bind; [apply complete_options_quiet|]. intros opts' l1 Hl1.
  eapply emits_bind; [apply existing_tunnel_answers|]. intros [url|] l2 [Hl2 Hurl].
  - apply emits_ret. rewrite app_nil_r. apply search_ok_app; [done|]. split; [by rewrite Hl2; cbn; lia|].
    by apply Hurl.
  - eapply emits_bind; [apply TunnelDir_quiet|]. intros [dir [e|]] l3 Hl3.
    + apply emits_ret. rewrite app_nil_r. do 2 (apply search_ok_app; [done|]). by apply Hnone.
    + eapply emits_event; [apply htrace_Create|]. intros [e|].
      * apply emits_ret. do 3 (apply search_ok_app; [done|]). by apply Hnone.
      * eapply emits_weaken; [apply start_tunnel_ok|]. intros out l' Hout.
        do 3 (apply search_ok_app; [done|]).
        by apply (search_ok_app out [HCreate (path_Join dir (SanitizeContext ctxName +:+ ".log")) None]).
Qed.

Lemma EnsureServerURL_found fuel opts : emits host_trace (EnsureServerURL fuel opts) (address_found opts).
Proof.
  unfold EnsureServerURL. case_decide as Hgiven; [apply emits_ret; by left|].
  assert (to_server_url opts = "") as Hurl by (by destruct (decide (to_server_url opts = ""))).
  eapply emits_event; [apply htrace_Getenv|]. intros env; cbn beta. case_decide as Henv.
  { apply emits_ret. right. left. split; [done|]. by exists env. }
  assert (env = "") as -> by (by destruct (decide (env = ""))).
  eapply emits_bind; [apply CurrentContext_looked|]. intros current l [Hl Hlook].
  assert (Hrest : ∀ out ls, match current with
      | Err _ | Ok "" => out = Some (Ok "http://localhost:8080") ∧ ls = []
      | Ok _ => search_ok out ls
      end → address_found opts out (HEnv "AX_SERVER" "" :: l ++ ls)).
  { intros out ls Hout. right. right. split; [done|]. by exists current, l, ls. }
  destruct current as [[|ch c]|e]; [by apply emits_ret, Hrest| |by apply emits_ret, Hrest].
  eapply emits_weaken; [apply search_context|]. intros out ls Hout. by apply Hrest.
Qed.

(** C29: an address is the one given by the flag; else the one AX_SERVER names; else,
    exactly when no context is found, the default one; and in these cases nothing is
    started. With a context it is a local port that answered its health
    check. At most one port-forward is started, and when the search fails it was
    killed or found gone: none is left behind. *)
Theorem EnsureServerURL_sound fuel opts :
  emits host_trace (EnsureServerURL fuel opts) (address_found opts).
Proof. apply EnsureServerURL_found. Qed.
End Tunnels.

(** ** The search ends *)

(** The states in which a clock has reached a point. *)
Definition at_least {W} (clk : W → Z) (c : Z) : W → Prop := λ s, (c <= clk s)%Z.

(** A workstation whose calls return, with a clock that does not go back and that a
    sleep moves on. *)
Class TimedHost (W : Type) `{!Files W, !FileReads W, !EnvVars W, !TimeNow W, !Workstation W} := {
  clk : W → Z;
  timed_Now s : ∃ t s', time_Now s = (Ret t, s') ∧ (clk s <= t <= clk s')%Z;
  timed_Sleep d s : (0 <= d)%Z → ∃ s', time_Sleep d s = (Ret tt, s') ∧ (clk s + d <= clk s')%Z;
  timed_Getenv c n : total (at_least clk c) (os_Getenv n);
  timed_MkdirAll c d : total (at_least clk c) (os_MkdirAll d);
  timed_ReadFile c p : total (at_least clk c) (os_ReadFile p);
  timed_WriteFile c p d : total (at_least clk c) (os_WriteFile p d);
  timed_Remove c p : total (at_least clk c) (os_Remove p);
  timed_Create c p : total (at_least clk c) (os_Create p);
  timed_Output c a : total (at_least clk c) (kubectl_Output a);
  timed_Start c a log : total (at_least clk c) (kubectl_Start a log);
  timed_Kill c p s : total (at_least clk c) (sys_Kill p s);
  timed_Probe c d u : total (at_least clk c) (http_Probe d u);
  timed_Home c : total (at_least clk c) os_UserHomeDir;
}.

(** The looks at the log of a port-forward, each after a sleep, and the health checks. *)
Definition looks (l : list HostEvent) : nat :=
  length (omap (λ e, match e with HSleep d => if decide (d = 50000000%Z) then Some d else None | _ => None end) l).
Definition probes (l : list HostEvent) : nat :=
  length (omap (λ e, match e with HProbe url _ => Some url | _ => None end) l).
Lemma looks_app l l' : looks (l ++ l') = (looks l + looks l')%nat.
Proof. unfold looks. by rewrite omap_app, length_app. Qed.
Lemma probes_app l l' : probes (l ++ l') = (probes l + probes l')%nat.
Proof. unfold probes. by rewrite omap_app, length_app. Qed.

Section Ends.
Context {W : Type} `{!Files W, !FileReads W, !EnvVars W, !TimeNow W, !Workstation W, !TracedHost W, !TimedHost W, !TunnelFormats}.

(** The clock has reached [c], after at most so many looks and checks. *)
Definition spent (c : Z) (k p : nat) : W → Prop := λ s,
  (c <= clk s)%Z ∧ (looks (host_trace s) ≤ k)%nat ∧ (probes (host_trace s) ≤ p)%nat.

(** What takes neither. *)
Lemma timed_spent {A} (m : M W A) c k p :
  (∀ c, total (at_least clk c) m) → emits host_trace m (λ _ l, looks l = 0%nat ∧ probes l = 0%nat) → total (spent c k p) m.
Proof.
  intros Ht He s (Hc & Hk & Hp). destruct (Ht c s Hc) as (a & s1 & Hrun & Hc1 & _).
  destruct (He s) as (a' & s1' & l & Hrun' & Hl & Hlooks & Hprobes). rewrite Hrun in Hrun'. injection Hrun' as <- <-.
  exists a, s1. split; [done|]. split; [|done]. unfold spent. rewrite Hl, looks_app, probes_app. split; [done|lia].
Qed.
Ltac spends law trace := apply timed_spent; [intros; apply law|]; eapply emits_weaken; [apply trace|]; by intros ? ? ->.

Lemma spent_Getenv c k p n : total (spent c k p) (os_Getenv n).
Proof. spends timed_Getenv htrace_Getenv. Qed.
Lemma spent_MkdirAll c k p d : total (spent c k p) (os_MkdirAll d).
Proof. spends timed_MkdirAll htrace_MkdirAll. Qed.
Lemma spent_ReadFile c k p f : total (spent c k p) (os_ReadFile f).
Proof. spends timed_ReadFile htrace_ReadFile. Qed.
Lemma spent_WriteFile c k p f d : total (spent c k p) (os_WriteFile f d).
Proof. spends timed_WriteFile htrace_WriteFile. Qed.
Lemma spent_Remove c k p f : total (spent c k p) (os_Remove f).
Proof. spends timed_Remove htrace_Remove. Qed.
Lemma spent_Create c k p f : total (spent c k p) (os_Create f).
Proof. spends timed_Create htrace_Create. Qed.
Lemma spent_Output c k p a : total (spent c k p) (kubectl_Output a).
Proof. spends timed_Output htrace_Output. Qed.
Lemma spent_Start c k p a log : total (spent c k p) (kubectl_Start a log).
Proof. spends timed_Start htrace_Start. Qed.
Lemma spent_Kill c k p pid sig : total (spent c k p) (sys_Kill pid sig).
Proof. spends timed_Kill htrace_Kill. Qed.
Lemma spent_Home c k p : total (spent c k p) os_UserHomeDir.
Proof. spends timed_Home htrace_Home. Qed.
#[local] Hint Resolve spent_Getenv spent_MkdirAll spent_ReadFile spent_WriteFile spent_Remove spent_Create
  spent_Output spent_Start spent_Kill spent_Home : go.

(** A computation that starts and ends within bounds. *)
Definition goes {A} (P : W → Prop) (m : M W A) (Q : A → Prop) (P' : W → Prop) : Prop :=
  ∀ s, P s → ∃ a s', m s = (Ret a, s') ∧ P' s' ∧ Q a.

Lemma goes_bind {A B} P (m : M W A) Q P1 (f : A → M W B) R P2 :
  goes P m Q P1 → (∀ a, Q a → goes P1 (f a) R P2) → goes P (bind m f) R P2.
Proof.
  intros Hm Hf s Hs. destruct (Hm s Hs) as (a & s1 & Hrun & Hs1 & Ha).
  destruct (Hf a Ha s1 Hs1) as (b & s2 & Hrun2 & Hs2 & Hb). exists b, s2. by rewrite (bind_Ret _ _ _ _ _ Hrun).
Qed.
Lemma goes_returns {A} c k p (m : M W A) Q k' p' : (k ≤ k')%nat → (p ≤ p')%nat →
  returns (spent c k p) m Q → goes (spent c k p) m Q (spent c k' p').
Proof.
  intros Hk Hp Hm s Hs. destruct (Hm s Hs) as (a & s' & Hrun & (? & ? & ?) & Ha). exists a, s'.
  split; [done|]. split; [|done]. split_and!; [done|lia|lia].
Qed.
(** What comes after a step that takes nothing. *)
Lemma goes_then {A B} c k p (m : M W A) (f : A → M W B) R P2 : total (spent c k p) m →
  (∀ a, goes (spent c k p) (f a) R P2) → goes (spent c k p) (bind m f) R P2.
Proof. intros Hm Hf. eapply goes_bind; [by apply goes_returns|]. intros a _. apply Hf. Qed.
Lemma goes_later {A} c c' k p k0 p0 (m : M W A) Q P' : (c' <= c)%Z → (k ≤ k0)%nat → (p ≤ p0)%nat →
  goes (spent c' k0 p0) m Q P' → goes (spent c k p) m Q P'.
Proof. intros Hc Hk Hp Hm s (? & ? & ?). apply Hm. split_and!; [lia|lia|lia]. Qed.
Lemma goes_weaken {A} P (m : M W A) Q (P1 P2 : W → Prop) : (∀ s, P1 s → P2 s) → goes P m Q P1 → goes P m Q P2.
Proof. intros Hw Hm s Hs. destruct (Hm s Hs) as (a & s' & Hrun & Hs' & Ha). exists a, s'. auto. Qed.
Lemma goes_ret {A} (P : W → Prop) (a : A) (Q : A → Prop) : Q a → goes P (ret a) Q P.
Proof. intros Ha s Hs. by exists a, s. Qed.

Lemma goes_done {A} c c' k k' p p' (a : A) (Q : A → Prop) : (c' <= c)%Z → (k ≤ k')%nat → (p ≤ p')%nat → Q a →
  goes (spent c k p) (ret a) Q (spent c' k' p').
Proof. intros Hc Hk Hp Ha s (? & ? & ?). exists a, s. split; [done|]. split; [|done]. split_and!; [lia|lia|lia]. Qed.

Lemma after_now {A} (f : Z → M W A) Q P' c k p :
  (∀ t, (c <= t)%Z → goes (spent t k p) (f t) Q P') → goes (spent c k p) (bind time_Now f) Q P'.
Proof.
  intros Hf s (Hs & Hk & Hp). destruct (timed_Now s) as (t & s1 & Hnow & Hclk).
  destruct (htrace_Now s) as (t' & s1' & l & Hnow' & Hl & ->). rewrite Hnow in Hnow'. injection Hnow' as <- <-.
  rewrite app_nil_r in Hl. destruct (Hf t ltac:(lia) s1) as (a & s2 & Hf2 & Hs2 & HQ); [rewrite <- Hl in *; split_and!; [lia|done|done]|].
  exists a, s2. by rewrite (bind_Ret _ _ _ _ _ Hnow).
Qed.

Lemma after_sleep {A} d (f : unit → M W A) Q P' c k p : (0 <= d)%Z →
  goes (spent (c + d) (if decide (d = 50000000%Z) then S k else k) p) (f tt) Q P' →
  goes (spent c k p) (bind (time_Sleep d) f) Q P'.
Proof.
  intros Hd Hf s (Hs & Hk & Hp). destruct (timed_Sleep d s Hd) as (s1 & Hsleep & Hclk).
  destruct (htrace_Sleep d s) as ([] & s1' & l & Hsleep' & Hl & ->). rewrite Hsleep in Hsleep'. injection Hsleep' as <-.
  destruct (Hf s1) as (a & s2 & Hf2 & Hs2 & HQ).
  - unfold spent. rewrite Hl, looks_app, probes_app. unfold looks at 2, probes at 2. cbn -[decide].
    split_and!; [lia| |lia]. destruct (decide _); cbn; lia.
  - exists a, s2. by rewrite (bind_Ret _ _ _ _ _ Hsleep).
Qed.

Ltac ends := repeat first [assumption | go_step]; try done; auto with go.

Lemma ends_TunnelDir c k p : total (spent c k p) TunnelDir.
Proof. unfold TunnelDir. ends. Qed.
Lemma ends_CurrentContext c k p o : total (spent c k p) (CurrentContext o).
Proof. unfold CurrentContext, kubeconfig_context. ends. Qed.
Lemma ends_complete_options c k p o : total (spent c k p) (complete_options o).
Proof. unfold complete_options. ends. Qed.
#[local] Hint Resolve ends_TunnelDir ends_CurrentContext ends_complete_options : go.
Lemma ends_GetTunnel c k p n : total (spent c k p) (GetTunnel n).
Proof. unfold GetTunnel. ends. Qed.
Lemma ends_SaveTunnel c k p i : total (spent c k p) (SaveTunnel i).
Proof. unfold SaveTunnel. ends. Qed.
Lemma ends_StopTunnel c k p i : total (spent c k p) (StopTunnel i).
Proof. unfold StopTunnel. ends. Qed.
#[local] Hint Resolve ends_GetTunnel ends_SaveTunnel ends_StopTunnel : go.

Lemma ends_IsTunnelHealthy c k p port :
  goes (spent c k p) (IsTunnelHealthy port) (λ _, True) (spent c k (S p)).
Proof.
  unfold IsTunnelHealthy. case_decide; [by apply goes_returns; [lia|lia|apply returns_ret]|].
  eapply (goes_bind _ _ (λ _, True) (spent c k (S p))); [|intros r _; by apply goes_ret].
  intros s (Hs & Hk & Hp). destruct (timed_Probe c 400000000 (local_url port +:+ "/healthz") s Hs) as (r & s1 & Hrun & Hc1 & _).
  destruct (htrace_Probe 400000000 (local_url port +:+ "/healthz") s) as (r' & s1' & l & Hrun' & Hl & ->).
  rewrite Hrun in Hrun'. injection Hrun' as <- <-. exists r, s1. split; [done|]. split; [|done].
  unfold spent. rewrite Hl, looks_app, probes_app. cbn. split; [done|lia].
Qed.

Lemma ends_existing_tunnel c k p n :
  goes (spent c k p) (existing_tunnel n) (λ _, True) (spent c k (S p)).
Proof.
  unfold existing_tunnel. apply goes_then; [apply ends_GetTunnel|]. intros [info|e].
  - eapply goes_bind; [apply ends_IsTunnelHealthy|]. intros [] _; [by apply goes_ret|].
    apply goes_then; [apply ends_StopTunnel|]. intros ?. by apply goes_ret.
  - by apply goes_returns; [lia|lia|apply returns_ret].
Qed.

(** One turn of each loop. *)
Lemma wait_port_S fuel deadline log n pid : wait_port (W := W) (S fuel) deadline log n pid =
  let! now := time_Now in
  if decide (now < deadline)%Z then
    let! _ := time_Sleep 50000000 in
    let! r := os_ReadFile log in
    match r with
    | Err _ => wait_port fuel deadline log n pid
    | Ok logData =>
        match announced_port logData with
        | Some p => ret (Some (Ok p))
        | None =>
            let! err := sys_Kill pid "0" in
            match err with
            | Some _ => ret (Some (Err (Errorf "kubectl port-forward exited for context %q: %s"
                          [AStr n; AStr (TrimSpace logData)])))
            | None => wait_port fuel deadline log n pid
            end
        end
    end
  else ret (Some (Ok 0%Z)).
Proof. reflexivity. Qed.
Lemma wait_healthy_S fuel deadline port : wait_healthy (W := W) (S fuel) deadline port =
  let! now := time_Now in
  if decide (now < deadline)%Z then
    let! healthy := IsTunnelHealthy port in
    if healthy then ret (Some true)
    else let! _ := time_Sleep 100000000 in wait_healthy fuel deadline port
  else ret (Some false).
Proof. reflexivity. Qed.

(** The waits: a turn for each interval before the deadline. *)
Lemma ends_wait_port n deadline log ctx pid : ∀ fuel c k p,
  (n < fuel)%nat → (deadline - c <= 50000000 * Z.of_nat n)%Z →
  goes (spent c k p) (wait_port fuel deadline log ctx pid) (λ r, r ≠ None) (spent c (k + n) p).
Proof.
  induction n as [|n IH]; intros [|fuel] c k p Hf Hc; try lia; rewrite wait_port_S; apply after_now; intros t Ht;
    (case_decide; [|by apply goes_done; [lia..|]]).
  { lia. }
  apply after_sleep; [lia|]. rewrite decide_True by done.
  assert (Hdone : ∀ r : option (res Z), r ≠ None →
    goes (spent (t + 50000000) (S k) p) (ret r) (λ r, r ≠ None) (spent c (k + S n) p)).
  { intros r Hr. by apply goes_done; [lia..|]. }
  assert (Hrec : goes (spent (t + 50000000) (S k) p) (wait_port fuel deadline log ctx pid) (λ r, r ≠ None) (spent c (k + S n) p)).
  { rewrite <- plus_n_Sm, <- Nat.add_succ_l. eapply goes_weaken; [|apply IH; lia]. intros s (? & ? & ?). split_and!; [lia|done|done]. }
  apply goes_then; [apply spent_ReadFile|]. intros [data|e]; [|done].
  destruct (announced_port data); [by apply Hdone|].
  apply goes_then; [apply spent_Kill|]. intros [e|]; [by apply Hdone|done].
Qed.

Lemma ends_wait_healthy n deadline port : ∀ fuel c k p,
  (n < fuel)%nat → (deadline - c <= 100000000 * Z.of_nat n)%Z →
  goes (spent c k p) (wait_healthy fuel deadline port) (λ r, r ≠ None) (spent c k (p + n)).
Proof.
  induction n as [|n IH]; intros [|fuel] c k p Hf Hc; try lia; rewrite wait_healthy_S; apply after_now; intros t Ht;
    (case_decide; [|by apply goes_done; [lia..|]]).
  { lia. }
  eapply goes_bind; [apply ends_IsTunnelHealthy|]. intros [] _.
  - by apply goes_done; [lia..|].
  - apply after_sleep; [lia|]. rewrite decide_False by done.
    rewrite <- plus_n_Sm, <- Nat.add_succ_l. eapply goes_weaken; [|apply IH; lia].
    intros s (? & ? & ?). split_and!; [lia|done|done].
Qed.

Lemma ends_start_tunnel fuel c k p opts n log : (101 ≤ fuel)%nat →
  goes (spent c k p) (start_tunnel fuel opts n log) (λ r, r ≠ None) (spent c (k + 100) (p + 30)).
Proof.
  intros Hf. unfold start_tunnel.
  assert (Hend : ∀ t k' p' (m : M W (option (res string))), (c <= t)%Z → (k' ≤ k + 100)%nat → (p' ≤ p + 30)%nat →
    (∀ c, returns (spent c (k + 100) (p + 30)) m (λ r, r ≠ None)) →
    goes (spent t k' p') m (λ r, r ≠ None) (spent c (k + 100) (p + 30))).
  { intros t k' p' m Ht Hk Hp Hm. apply (goes_later _ c _ _ (k + 100) (p + 30)); [done..|]. by apply goes_returns. }
  apply goes_then; [apply spent_Start|]. intros [pid|e]; [|apply Hend; try lia; intros; by apply returns_ret].
  apply after_now. intros t Ht. eapply goes_bind; [apply (ends_wait_port 100); lia|].
  intros [[port|e]|] Hr; [|apply Hend; try lia; intros; by apply returns_ret|done].
  case_decide; [apply Hend; try lia; intros; ends|].
  apply after_now. intros t' Ht'.
  eapply goes_bind; [apply (ends_wait_healthy 30); lia|]. intros [[]|] Hr'; [|apply Hend; try lia; intros; ends|done].
  apply after_now. intros t'' Ht''. apply Hend; try lia. intros. ends.
Qed.

Lemma ends_EnsureServerURL fuel opts c k p : (101 ≤ fuel)%nat →
  goes (spent c k p) (EnsureServerURL fuel opts) (λ r, r ≠ None) (spent c (k + 100) (p + 31)).
Proof.
  intros Hf. unfold EnsureServerURL.
  assert (Hend : ∀ p' (r : option (res string)), (p' ≤ p + 31)%nat → r ≠ None →
    goes (spent c k p') (ret r) (λ r, r ≠ None) (spent c (k + 100) (p + 31))).
  { intros p' r Hp Hr. apply goes_returns; [lia|done|by apply returns_ret]. }
  case_decide; [apply Hend; [lia|done]|].
  apply goes_then; [apply spent_Getenv|]. intros env. case_decide; [apply Hend; [lia|done]|].
  apply goes_then; [apply ends_CurrentContext|]. intros [[|ch ctx]|e]; [apply Hend; [lia|done]| |apply Hend; [lia|done]].
  apply goes_then; [apply ends_complete_options|]. intros opts'.
  eapply goes_bind; [apply ends_existing_tunnel|]. intros [url|] _; [apply Hend; [lia|done]|].
  apply goes_then; [apply ends_TunnelDir|]. intros [dir [e|]]; [apply Hend; [lia|done]|].
  apply goes_then; [apply spent_Create|]. intros [e|]; [apply Hend; [lia|done]|].
  replace (p + 31)%nat with (S p + 30)%nat by lia. by apply ends_start_tunnel.
Qed.

End Ends.

(** ** Where the records are *)

Lemma SanitizeContext_chars name : sall context_char (SanitizeContext name) = true ∧ SanitizeContext name ≠ "".
Proof.
  unfold SanitizeContext. set (l := rune_starts 0 name). case_decide as Hne; [done|]. split; [|done].
  clear Hne. induction l as [|c l IH]; [done|]. cbn [fmap list_fmap String.string_of_list_ascii sall].
  rewrite IH, andb_true_r. by destruct (context_char c) eqn:E.
Qed.

(** The bytes of a context's name that are kept stand for themselves. *)
Lemma context_char_ascii c : context_char c = true → (nat_of_ascii c < 128)%nat.
Proof.
  unfold context_char, ascii_in. rewrite !orb_true_iff, !andb_true_iff, !Nat.leb_le, !Ascii.eqb_eq.
  intros [[[[? | ?] | ?] | ->] | ->]; [lia|lia|lia|by apply Nat.ltb_lt|by apply Nat.ltb_lt].
Qed.
Lemma rune_size_ascii c s : (nat_of_ascii c < 128)%nat → rune_size (String c s) = 1%nat.
Proof.
  intros Hc. unfold rune_size, byte_in. cbn [stail].
  by rewrite !(proj2 (Nat.leb_gt _ (nat_of_ascii c))) by lia.
Qed.
Lemma SanitizeContext_kept name : sall context_char name = true → name ≠ "" → SanitizeContext name = name.
Proof.
  intros Hs Hne. unfold SanitizeContext.
  assert (String.string_of_list_ascii ((λ c, if context_char c then c else "_"%char) <$> rune_starts 0 name) = name) as ->.
  { clear Hne. induction name as [|c name IH]; [done|]. cbn [sall] in Hs. apply andb_true_iff in Hs as [Hc Hs].
    cbn [rune_starts]. rewrite rune_size_ascii by by apply context_char_ascii.
    cbn. by rewrite Hc, IH. }
  by rewrite decide_False.
Qed.

Lemma proper_record name : proper (SanitizeContext name +:+ ".json") ∧ SanitizeContext name +:+ ".json" ≠ "..".
Proof.
  destruct (SanitizeContext_chars name) as [Hs Hne]. destruct (SanitizeContext name) as [|c s]; [done|].
  cbn [sall] in Hs. apply andb_true_iff in Hs as [Hc Hs]. split; [|by intros [= -> ?]].
  split_and!; [done|by intros [= -> ?]|].
  rewrite string_in_app. apply orb_false_iff. split; [|done].
  assert (Hslash : ∀ s, sall context_char s = true → string_in "/" s = false).
  { clear. induction s as [|c s IH]; [done|]. cbn [sall string_in]. intros [Hc Hs]%andb_true_iff.
    apply orb_false_iff. split; [|by apply IH]. apply Ascii.eqb_neq. by intros <-. }
  apply Hslash. cbn [sall]. by rewrite Hc, Hs.
Qed.

(** The record of a context is a file right inside the directory of tunnels,
    whatever the context is called; and contexts whose names are made of letters,
    digits, hyphens and underscores have records of their own. *)
Theorem state_path_confined dir name name' : IsAbs dir = true →
  path_elems (state_path dir name) = path_elems dir ++ [SanitizeContext name +:+ ".json"] ∧
  (sall context_char name = true → name ≠ "" → sall context_char name' = true → name' ≠ "" →
   state_path dir name = state_path dir name' → name = name').
Proof.
  intros Ha. destruct (proper_record name) as [Hp Hd]. destruct (proper_record name') as [Hp' Hd']. split.
  - by apply path_elems_Join.
  - intros Hs Hne Hs' Hne' H. apply path_Join_inj in H; [|done..].
    rewrite !SanitizeContext_kept in H by done. by apply string_app_inj_r in H.
Qed.
