(* ===== verification/Kinds.v ===== *)
(** The four kinds of the API behind one interface: what the handlers of a kind
    promise over a store that keeps the contract, so that a client's theorems are
    proved once for all kinds. *)

From S2P Require Import Prelude GoStrings Types Codecs Bindings StoreApi Server ServerSpec.

(** The handlers of one kind, with the resources a view holds of it, and their laws. *)
Record Kind (S : Type) `{!Store S, !StoreLaws S} (A B : Type) := mkKind {
  k_name : string;
  k_meta : A → option ObjectMeta;
  k_spec : A → option B;
  k_valid : A → Prop;
  k_view : StoreView → gmap string A;
  k_put : gmap string A → StoreView → StoreView;
  k_get : NameRequest → M S (res A);
  k_update : option A → M S (res A);

  k_view_put m v : k_view (k_put m v) = m;
  k_get_runs s a n : s_inv s → ∃ f args,
    runs_to s_inv s_view (k_get (mkNameRequest a n)) s
      (match k_view (s_view s) !! res_key a n with Some x => Ok x | None => Err (ErrStatus CodeNotFound f args) end)
      (s_view s);
  k_update_runs s x m : s_inv s → k_valid x → k_meta x = Some m → om_name m ≠ "" → ∃ x',
    runs_to s_inv s_view (k_update (Some x)) s (Ok x')
      (k_put (<[meta_key m := x']> (k_view (s_view s))) (s_view s)) ∧
    k_spec x' = k_spec x ∧ om_name <$> k_meta x' = Some (om_name m);
}.
Arguments k_name {S _ _ A B} k. Arguments k_meta {S _ _ A B} k. Arguments k_spec {S _ _ A B} k.
Arguments k_valid {S _ _ A B} k. Arguments k_view {S _ _ A B} k. Arguments k_put {S _ _ A B} k.
Arguments k_get {S _ _ A B} k. Arguments k_update {S _ _ A B} k.
Arguments k_view_put {S _ _ A B} k. Arguments k_get_runs {S _ _ A B} k. Arguments k_update_runs {S _ _ A B} k.

Section Kinds.
Context {S : Type} `{!Store S, !StoreLaws S, !TimeNow S, !TimeLaws S}.

(** ** The handlers of workspaces and models *)

Lemma UpdateWorkspace_runs s w m : s_inv s → ws_metadata w = Some m → om_name m ≠ "" →
  ∃ c, let w' := saved_workspace (ws_set_metadata (Some (completed c m)) w) in
    runs_to s_inv s_view (srv_UpdateWorkspace (Some (Some w))) s (Ok w')
      (v_set_workspaces (<[meta_key m := w']> (v_workspaces (s_view s))) (s_view s)).
Proof.
  intros Hi Hm Hn. unfold srv_UpdateWorkspace. rewrite Hm.
  destruct (defaultMetadata_runs (Some m) (existing_of GetWorkspace ws_metadata) s _ Hi
    (existing_runs _ _ _ _ _ _ Hi (law_GetWorkspace s _ _ Hi))) as (c & (s1 & Hrun & Hi1 & Hv1) & _).
  exists c. cbv zeta. rewrite <- completed_eq in Hrun.
  destruct (law_SaveWorkspace s1 (ws_set_metadata (Some (completed c m)) w) _ Hi1 eq_refl Hn)
    as (s2 & Hsave & Hi2 & Hv2).
  exists s2. mstep. rewrite completed_key in Hv2. by rewrite Hv2, Hv1.
Qed.

Lemma UpdateModel_runs s x m : s_inv s → model_metadata x = Some m → om_name m ≠ "" →
  ∃ c, let x' := saved_model (model_set_metadata (Some (completed c m)) x) in
    runs_to s_inv s_view (srv_UpdateModel (Some (Some x))) s (Ok x')
      (v_set_models (<[meta_key m := x']> (v_models (s_view s))) (s_view s)).
Proof.
  intros Hi Hm Hn. unfold srv_UpdateModel. rewrite Hm.
  destruct (defaultMetadata_runs (Some m) (existing_of GetModel model_metadata) s _ Hi
    (existing_runs _ _ _ _ _ _ Hi (law_GetModel s _ _ Hi))) as (c & (s1 & Hrun & Hi1 & Hv1) & _).
  exists c. cbv zeta. rewrite <- completed_eq in Hrun.
  destruct (law_SaveModel s1 (model_set_metadata (Some (completed c m)) x) _ Hi1 eq_refl Hn)
    as (s2 & Hsave & Hi2 & Hv2).
  exists s2. mstep. rewrite completed_key in Hv2. by rewrite Hv2, Hv1.
Qed.

(** A lookup's handler, once its store call is known. *)
Ltac lookup_runs law a :=
  intros Hi; cbn [req_atespace req_name]; cbv zeta; fold (default_atespace a);
  eapply bind_runs; [by apply law|]; intros s1 Hi1 <-; rewrite res_key_default;
  destruct (_ !! _); by apply ret_runs.

Lemma srv_GetWorkspace_runs s a n : s_inv s →
  runs_to s_inv s_view (srv_GetWorkspace (Some (mkNameRequest a n))) s
    (match v_workspaces (s_view s) !! res_key a n with
     | Some w => Ok w
     | None => Err (not_found "workspace %q not found in atespace %q" n (default_atespace a))
     end) (s_view s).
Proof. unfold srv_GetWorkspace. lookup_runs law_GetWorkspace a. Qed.

Lemma srv_GetModel_runs s a n : s_inv s →
  runs_to s_inv s_view (srv_GetModel (Some (mkNameRequest a n))) s
    (match v_models (s_view s) !! res_key a n with
     | Some x => Ok x
     | None => Err (not_found "model %q not found in atespace %q" n (default_atespace a))
     end) (s_view s).
Proof. unfold srv_GetModel. lookup_runs law_GetModel a. Qed.

(** A deletion's handler, in the same way. *)
Ltac deletion_runs law a :=
  intros Hi; cbn [req_atespace req_name]; cbv zeta; fold (default_atespace a);
  eapply bind_runs; [by apply law|]; intros s1 Hi1 Hv1; rewrite res_key_default in Hv1;
  rewrite <- Hv1; by apply ret_runs.

Lemma srv_DeleteWorkspace_runs s a n : s_inv s →
  runs_to s_inv s_view (srv_DeleteWorkspace (Some (mkNameRequest a n))) s (Ok tt)
    (v_set_workspaces (delete (res_key a n) (v_workspaces (s_view s))) (s_view s)).
Proof. unfold srv_DeleteWorkspace. deletion_runs law_DeleteWorkspace a. Qed.

Lemma srv_DeleteModel_runs s a n : s_inv s →
  runs_to s_inv s_view (srv_DeleteModel (Some (mkNameRequest a n))) s (Ok tt)
    (v_set_models (delete (res_key a n) (v_models (s_view s))) (s_view s)).
Proof. unfold srv_DeleteModel. deletion_runs law_DeleteModel a. Qed.

Lemma srv_DeleteTask_runs s a n t : s_inv s → v_tasks (s_view s) !! res_key a n = Some t →
  runs_to s_inv s_view (srv_DeleteTask (Some (mkNameRequest a n))) s (Ok tt)
    (v_set_tasks (<[res_key a n := marked_deleting t]> (v_tasks (s_view s))) (s_view s)).
Proof.
  intros Hi Ht. unfold srv_DeleteTask. cbn [req_atespace req_name]. cbv zeta. fold (default_atespace a).
  pose proof (law_MarkTaskDeleting s (default_atespace a) n Hi) as Hm. rewrite res_key_default, Ht in Hm.
  eapply bind_runs; [exact Hm|]. intros s1 Hi1 <-. by apply ret_runs.
Qed.

(** ** The kinds *)

Ltac kind_get runs := intros s a n Hi; do 2 eexists; by apply runs.
(** An update's run, as the interface states it. *)
Ltac kind_update runs spec meta :=
  cbv zeta in runs; eexists; split_and!; [first [exact (proj1 runs)|exact runs]|etransitivity; [apply spec|done]|by erewrite meta by reflexivity].

Definition task_kind_of : Kind S Task TaskSpec.
Proof.
  refine (mkKind S _ _ Task TaskSpec KindTask task_metadata task_spec (λ t, ValidateTask (Some t) = None)
    v_tasks v_set_tasks (λ req, srv_GetTask (Some req)) (λ t, srv_UpdateTask (Some t)) _ _ _).
  - done.
  - kind_get srv_GetTask_runs.
  - intros s x m Hi Hx Hm Hn. destruct (UpdateTask_runs s x m Hi Hx Hm Hn) as (c & Hrun).
    kind_update Hrun saved_task_spec saved_task_metadata.
Defined.
Definition gateway_kind_of : Kind S Gateway GatewaySpec.
Proof.
  refine (mkKind S _ _ Gateway GatewaySpec KindGateway gw_metadata gw_spec (λ _, True)
    v_gateways v_set_gateways (λ req, srv_GetGateway (Some req)) (λ g, srv_UpdateGateway (Some g)) _ _ _).
  - done.
  - kind_get srv_GetGateway_runs.
  - intros s x m Hi _ Hm Hn. destruct (UpdateGateway_runs s x m Hi Hm Hn) as (c & Hrun).
    kind_update Hrun saved_gateway_spec saved_gateway_metadata.
Defined.
Definition workspace_kind_of : Kind S Workspace WorkspaceSpec.
Proof.
  refine (mkKind S _ _ Workspace WorkspaceSpec KindWorkspace ws_metadata ws_spec (λ _, True)
    v_workspaces v_set_workspaces (λ req, srv_GetWorkspace (Some req)) (λ w, srv_UpdateWorkspace (Some w)) _ _ _).
  - done.
  - kind_get srv_GetWorkspace_runs.
  - intros s x m Hi _ Hm Hn. destruct (UpdateWorkspace_runs s x m Hi Hm Hn) as (c & Hrun).
    kind_update Hrun saved_workspace_spec saved_workspace_metadata.
Defined.
Definition model_kind_of : Kind S Model ModelSpec.
Proof.
  refine (mkKind S _ _ Model ModelSpec KindModel model_metadata model_spec (λ _, True)
    v_models v_set_models (λ req, srv_GetModel (Some req)) (λ x, srv_UpdateModel (Some x)) _ _ _).
  - done.
  - kind_get srv_GetModel_runs.
  - intros s x m Hi _ Hm Hn. destruct (UpdateModel_runs s x m Hi Hm Hn) as (c & Hrun).
    kind_update Hrun saved_model_spec saved_model_metadata.
Defined.

End Kinds.
