(* ===== verification/Desk.v ===== *)
(** A user's desk: the command line run against the API server itself, over any
    store. What is printed is kept, and while a command waits the rest of the
    system goes on: each wait runs the next step of a schedule, and the context ends
    during the last one.

    [desk_client] is the client whose calls all reach the server and are all
    answered. [Line] puts a transport under any client: each call has a fate, and
    may fail before the server has seen it or after the server has acted. *)

From S2P Require Import Prelude GoStrings Types StoreApi Manifests Server Substrate AxClient Cli.

(** ** The world *)

Inductive output :=
| OText (s : string)
| OErr (s : string)
| OTable (padding : Z) (text : string)
| OYaml (n : ynode).

Record Desk (S : Type) := mkDesk {
  dk_store : S;
  dk_out : list output;
  dk_steps : list (M S unit);       (* what happens during the waits, the last one being cut short by the deadline *)
}.
Arguments mkDesk {S}. Arguments dk_store {S}. Arguments dk_out {S}. Arguments dk_steps {S}.

Section Desk.
Context {S : Type} `{!Store S, !TimeNow S}.

(** A call that reaches the server, and a line of output. *)
Definition lift {A} (m : M S A) : M (Desk S) A := λ d,
  match m (dk_store d) with (r, s) => (r, mkDesk s (dk_out d) (dk_steps d)) end.
Definition say (o : output) : M (Desk S) unit := λ d,
  (Ret tt, mkDesk (dk_store d) (dk_out d ++ [o]) (dk_steps d)).

Definition lift_client (c : AXClient S) : AXClient (Desk S) := {|
  grpc_NewClient t := lift (grpc_NewClient t);
  grpc_Close := lift grpc_Close;
  ctx_WithTimeout d := lift (ctx_WithTimeout d);
  rpc_GetTask req := lift (rpc_GetTask req);
  rpc_ListTasks req := lift (rpc_ListTasks req);
  rpc_UpdateTask t := lift (rpc_UpdateTask t);
  rpc_DeleteTask req := lift (rpc_DeleteTask req);
  rpc_SuspendTask req := lift (rpc_SuspendTask req);
  rpc_ResumeTask req := lift (rpc_ResumeTask req);
  rpc_GetGateway req := lift (rpc_GetGateway req);
  rpc_ListGateways req := lift (rpc_ListGateways req);
  rpc_UpdateGateway g := lift (rpc_UpdateGateway g);
  rpc_DeleteGateway req := lift (rpc_DeleteGateway req);
  rpc_GetWorkspace req := lift (rpc_GetWorkspace req);
  rpc_ListWorkspaces req := lift (rpc_ListWorkspaces req);
  rpc_UpdateWorkspace w := lift (rpc_UpdateWorkspace w);
  rpc_DeleteWorkspace req := lift (rpc_DeleteWorkspace req);
  rpc_GetModel req := lift (rpc_GetModel req);
  rpc_ListModels req := lift (rpc_ListModels req);
  rpc_UpdateModel x := lift (rpc_UpdateModel x);
  rpc_DeleteModel req := lift (rpc_DeleteModel req);
  rpc_WatchTask req := lift (rpc_WatchTask req);
  watch_Recv := lift watch_Recv;
|}.

#[export] Instance desk_client : AXClient (Desk S) :=
  lift_client (server_client (λ _, ret (Ok tt)) (ret WatchEOF)).

#[export] Instance desk_terminal : Terminal (Desk S) := {
  fmt_Print s := say (OText s);
  fmt_Eprint s := say (OErr s);
  tab_Flush p t := (say (OTable p t) ;;; ret None);
  yaml_Encode_out n := (say (OYaml n) ;;; ret None);
  io_ReadAll_stdin := ret (Ok "");
  net_Dial _ _ := ret false;
}.

#[export] Instance desk_context : Context (Desk S) := {
  ctx_Err := ret None;
  ctx_wait _ := λ d,
    match dk_steps d with
    | [] => (Ret (Some ErrCtx), d)
    | step :: rest =>
        match step (dk_store d) with
        | (Ret _, s) => (Ret (match rest with [] => Some ErrCtx | _ => None end), mkDesk s (dk_out d) rest)
        | (Panic, s) => (Panic, mkDesk s (dk_out d) rest)
        end
    end;
}.

#[export] Instance desk_time : TimeNow (Desk S) := lift time_Now.

Lemma lift_Ret {A} (m : M S A) d a s :
  m (dk_store d) = (Ret a, s) → lift m d = (Ret a, mkDesk s (dk_out d) (dk_steps d)).
Proof. unfold lift. by intros ->. Qed.

End Desk.

(** ** A transport that fails *)

(** How a call can fail on its way: the request never reaches the server, or the
    server acts on it and the reply does not come back. *)
Inductive fault :=
| Lost (e : error)
| Unanswered (e : error).
Definition fault_error (f : fault) : error := match f with Lost e => e | Unanswered e => e end.

(** A world reached over a transport: the fates of the next calls. Once they are used
    up, calls arrive and are answered. *)
Record Line (W : Type) := mkLine {
  ln_world : W;
  ln_calls : list (option fault);
}.
Arguments mkLine {W}. Arguments ln_world {W}. Arguments ln_calls {W}.

Section Line.
Context {W : Type}.

(** What does not use the transport. *)
Definition carry {A} (m : M W A) : M (Line W) A := λ l,
  match m (ln_world l) with (r, w) => (r, mkLine w (ln_calls l)) end.

(** A call. *)
Definition over {A} (call : M W (res A)) : M (Line W) (res A) := λ l,
  let rest := tail (ln_calls l) in
  match head (ln_calls l) with
  | Some (Some (Lost e)) => (Ret (Err e), mkLine (ln_world l) rest)
  | Some (Some (Unanswered e)) =>
      match call (ln_world l) with
      | (Ret _, w) => (Ret (Err e), mkLine w rest)
      | (Panic, w) => (Panic, mkLine w rest)
      end
  | _ => match call (ln_world l) with (r, w) => (r, mkLine w rest) end
  end.

#[export] Instance line_client `{!AXClient W} : AXClient (Line W) := {|
  grpc_NewClient t := carry (grpc_NewClient t);
  grpc_Close := carry grpc_Close;
  ctx_WithTimeout d := carry (ctx_WithTimeout d);
  rpc_GetTask req := over (rpc_GetTask req);
  rpc_ListTasks req := over (rpc_ListTasks req);
  rpc_UpdateTask t := over (rpc_UpdateTask t);
  rpc_DeleteTask req := over (rpc_DeleteTask req);
  rpc_SuspendTask req := over (rpc_SuspendTask req);
  rpc_ResumeTask req := over (rpc_ResumeTask req);
  rpc_GetGateway req := over (rpc_GetGateway req);
  rpc_ListGateways req := over (rpc_ListGateways req);
  rpc_UpdateGateway g := over (rpc_UpdateGateway g);
  rpc_DeleteGateway req := over (rpc_DeleteGateway req);
  rpc_GetWorkspace req := over (rpc_GetWorkspace req);
  rpc_ListWorkspaces req := over (rpc_ListWorkspaces req);
  rpc_UpdateWorkspace w := over (rpc_UpdateWorkspace w);
  rpc_DeleteWorkspace req := over (rpc_DeleteWorkspace req);
  rpc_GetModel req := over (rpc_GetModel req);
  rpc_ListModels req := over (rpc_ListModels req);
  rpc_UpdateModel x := over (rpc_UpdateModel x);
  rpc_DeleteModel req := over (rpc_DeleteModel req);
  rpc_WatchTask req := over (rpc_WatchTask req);
  watch_Recv := carry watch_Recv;
|}.

#[export] Instance line_terminal `{!Terminal W} : Terminal (Line W) := {
  fmt_Print s := carry (fmt_Print s);
  fmt_Eprint s := carry (fmt_Eprint s);
  tab_Flush p t := carry (tab_Flush p t);
  yaml_Encode_out n := carry (yaml_Encode_out n);
  io_ReadAll_stdin := carry io_ReadAll_stdin;
  net_Dial network addr := carry (net_Dial network addr);
}.

#[export] Instance line_context `{!Context W} : Context (Line W) := {
  ctx_Err := carry ctx_Err;
  ctx_wait d := carry (ctx_wait d);
}.

Lemma carry_Ret {A} (m : M W A) l a w :
  m (ln_world l) = (Ret a, w) → carry m l = (Ret a, mkLine w (ln_calls l)).
Proof. unfold carry. by intros ->. Qed.

(** A call that returns in the world returns over the line: its own answer, or the
    error of its fate with the world as the fate left it. *)
Lemma over_Ret {A} (call : M W (res A)) l r w : call (ln_world l) = (Ret r, w) →
  match head (ln_calls l) with
  | Some (Some f) => ∃ w', over call l = (Ret (Err (fault_error f)), mkLine w' (tail (ln_calls l))) ∧
      (w' = w ∨ w' = ln_world l)
  | _ => over call l = (Ret r, mkLine w (tail (ln_calls l)))
  end.
Proof.
  intros Hc. unfold over. rewrite Hc. destruct (head (ln_calls l)) as [[[e|e]|]|]; [| |done..].
  - eexists. split; [done|by right].
  - eexists. split; [done|by left].
Qed.
End Line.
