(* ===== verification/ApplySpec.v ===== *)
(** What ax apply does to the stored resources: the command line, the API server
    and a store that keeps the contract, put together. *)

From S2P Require Import Prelude GoStrings Types Codecs Bindings StoreApi RedisApi Manifests.
From S2P Require Import Server ServerSpec Substrate Bootstrap AxClient Cli Kinds Desk.

(** ** Resources of any kind *)

Inductive resource :=
| RTask (t : Task) | RGateway (g : Gateway) | RWorkspace (w : Workspace) | RModel (x : Model).

Definition r_kind (r : resource) : string :=
  match r with RTask _ => KindTask | RGateway _ => KindGateway | RWorkspace _ => KindWorkspace | RModel _ => KindModel end.
Definition r_meta (r : resource) : option ObjectMeta :=
  match r with
  | RTask t => task_metadata t | RGateway g => gw_metadata g
  | RWorkspace w => ws_metadata w | RModel x => model_metadata x
  end.
Definition r_name (r : resource) : string := meta_name (r_meta r).
(** Where a resource is kept: its kind and its key. *)
Definition address (r : resource) : string * string :=
  (r_kind r, meta_key (default zero_ObjectMeta (r_meta r))).

(** The resource a view holds at an address. *)
Definition stored (v : StoreView) (a : string * string) : option resource :=
  if decide (a.1 = KindTask) then RTask <$> v_tasks v !! a.2
  else if decide (a.1 = KindGateway) then RGateway <$> v_gateways v !! a.2
  else if decide (a.1 = KindWorkspace) then RWorkspace <$> v_workspaces v !! a.2
  else if decide (a.1 = KindModel) then RModel <$> v_models v !! a.2
  else None.

Lemma stored_task v key : stored v (KindTask, key) = RTask <$> v_tasks v !! key.
Proof. reflexivity. Qed.
Lemma stored_gateway v key : stored v (KindGateway, key) = RGateway <$> v_gateways v !! key.
Proof. reflexivity. Qed.
Lemma stored_workspace v key : stored v (KindWorkspace, key) = RWorkspace <$> v_workspaces v !! key.
Proof. reflexivity. Qed.
Lemma stored_model v key : stored v (KindModel, key) = RModel <$> v_models v !! key.
Proof. reflexivity. Qed.

Definition same_spec (r r' : resource) : bool :=
  match r, r' with
  | RTask t, RTask t' => bool_decide (task_spec t = task_spec t')
  | RGateway g, RGateway g' => bool_decide (gw_spec g = gw_spec g')
  | RWorkspace w, RWorkspace w' => bool_decide (ws_spec w = ws_spec w')
  | RModel x, RModel x' => bool_decide (model_spec x = model_spec x')
  | _, _ => false
  end.

(** A resource the server accepts. *)
Definition acceptable (r : resource) : Prop :=
  (∃ m, r_meta r = Some m ∧ om_name m ≠ "") ∧
  match r with RTask t => ValidateTask (Some t) = None | _ => True end.

(** How an apply classifies a resource, and what it prints. *)
Definition classify (v : StoreView) (r : resource) : string :=
  match stored v (address r) with
  | None => "created"
  | Some old => if same_spec old r then "unchanged" else "configured"
  end.
Definition apply_line (kind : string) (r : resource) (outcome : string) : output :=
  OText (kind +:+ ".ax.io/" +:+ r_name r +:+ " " +:+ outcome +:+ newline).

(** What an apply of one resource makes of a view. *)
Definition applied (r : resource) (v v' : StoreView) : Prop :=
  (∃ r', stored v' (address r) = Some r' ∧ same_spec r' r = true) ∧
  ∀ a, a ≠ address r → stored v' a = stored v a.

Section Apply.
Context {S : Type} `{!Store S, !StoreLaws S, !TimeNow S, !TimeLaws S}.
Context `{!GrpcStatus, !UnicodeTables, !YamlNodes, !ManifestDocs}.
Context `{!StrictJSON Task, !StrictJSON Gateway, !StrictJSON Workspace, !StrictJSON Model}.

(** The resource a document of a manifest holds. *)
Definition holds (doc : yaml_node) (r : resource) : Prop :=
  node_empty doc = false ∧ node_kind doc = Ok (r_kind r) ∧
  match r with
  | RTask t => Task_UnmarshalYAML doc = Ok t
  | RGateway g => Gateway_UnmarshalYAML doc = Ok g
  | RWorkspace w => Workspace_UnmarshalYAML doc = Ok w
  | RModel x => Model_UnmarshalYAML doc = Ok x
  end.

(** ** One resource *)

Lemma apply_resource_runs {A B} `{!EqDecision B} (k : Kind S A B) d x m :
  s_inv (dk_store d) → k_valid k x → k_meta k x = Some m → om_name m ≠ "" →
  ∃ x' s',
    apply_resource (k_name k) (Ok x) (k_meta k) (k_spec k) (λ req, lift (k_get k req)) (λ x, lift (k_update k x)) d =
      (Ret (Ok (k_name k, om_name m,
         match k_view k (s_view (dk_store d)) !! meta_key m with
         | None => "created"
         | Some old => if decide (k_spec k old = k_spec k x) then "unchanged" else "configured"
         end)), mkDesk s' (dk_out d) (dk_steps d)) ∧
    s_inv s' ∧ s_view s' = k_put k (<[meta_key m := x']> (k_view k (s_view (dk_store d)))) (s_view (dk_store d)) ∧
    k_spec k x' = k_spec k x.
Proof.
  intros Hi Hx Hm Hn.
  destruct (k_get_runs k (dk_store d) (om_atespace m) (om_name m) Hi) as (f & args & s1 & Hget & Hi1 & Hv1).
  destruct (k_update_runs k s1 x m Hi1 Hx Hm Hn) as (x' & (s2 & Hup & Hi2 & Hv2) & Hspec & Hname).
  exists x', s2. rewrite Hv1 in Hv2. split_and!; [|done..].
  unfold apply_resource. rewrite Hm. cbn [meta_atespace meta_name from_option].
  rewrite (bind_Ret _ _ _ _ _ (lift_Ret _ d _ _ Hget)).
  assert (Hstored : ∀ out, bind (S := Desk S) (B := res (string * string * string)) (lift (k_update k (Some x)))
      (λ stored, ret (match stored with Ok stored => Ok (k_name k, meta_name (k_meta k stored), out) | Err e => Err e end))
      (mkDesk s1 (dk_out d) (dk_steps d)) =
    (Ret (Ok (k_name k, om_name m, out)), mkDesk s2 (dk_out d) (dk_steps d))).
  { intros out. rewrite (bind_Ret _ _ _ _ _ (lift_Ret (k_update k (Some x)) (mkDesk s1 _ _) _ _ Hup)).
    cbn. unfold ret. destruct (k_meta k x') as [m'|]; [|done]. cbn in *. by injection Hname as ->. }
  change (meta_key m) with (res_key (om_atespace m) (om_name m)).
  destruct (_ !! res_key _ _) as [old|]; cbn [applyOutcome].
  - by case_decide; rewrite Hstored.
  - unfold status_is. rewrite status_Code_status, bool_decide_eq_true_2 by done. by rewrite Hstored.
Qed.

(** ** One document *)

Lemma applied_put {A} (wrap : A → resource) r m x' v v' (look : StoreView → gmap string A) :
  r_meta r = Some m →
  (∀ v key, stored v (r_kind r, key) = wrap <$> look v !! key) →
  same_spec (wrap x') r = true →
  look v' = <[meta_key m := x']> (look v) →
  (∀ a, a.1 ≠ r_kind r → stored v' a = stored v a) →
  applied r v v'.
Proof.
  intros Hm Hlook Hsame Hv' Hother. unfold applied, address. rewrite Hm. cbn [default]. split.
  - exists (wrap x'). by rewrite Hlook, Hv', lookup_insert_eq.
  - intros [kind key] Ha. destruct (decide (kind = r_kind r)) as [->|Hk]; [|by apply Hother].
    rewrite !Hlook, Hv', lookup_insert_ne; [done|]. intros Heq. apply Ha. by subst key.
Qed.

Definition lower_kind (r : resource) : string := ToLower (r_kind r).

Lemma applyDocument_runs d doc r : s_inv (dk_store d) → holds doc r → acceptable r →
  ∃ s', applyDocument doc d =
      (Ret (Ok (r_kind r, r_name r, classify (s_view (dk_store d)) r)), mkDesk s' (dk_out d) (dk_steps d)) ∧
    s_inv s' ∧ applied r (s_view (dk_store d)) (s_view s').
Proof.
  intros Hi (_ & Hkind & Hdec) ((m & Hm & Hn) & Hval).
  unfold applyDocument. rewrite Hkind.
  unfold classify, address, r_name. rewrite Hm. cbn [default meta_name from_option].
  destruct r as [t|g|w|x]; cbn [r_kind r_meta] in *.
  - destruct (apply_resource_runs task_kind_of d t m Hi Hval Hm Hn) as (x' & s' & Hrun & Hi' & Hv' & Hspec).
    exists s'. rewrite decide_True, Hdec by done. split_and!; [|done|].
    + etransitivity; [exact Hrun|]. rewrite stored_task. cbn -[decide]. destruct (v_tasks _ !! _); cbn -[decide]; [unfold bool_decide; by repeat case_decide|done].
    + apply (applied_put RTask (RTask t) m x' _ _ v_tasks); [done|done|by apply bool_decide_eq_true_2|by rewrite Hv'|].
      intros [kind key] Hk. rewrite Hv'. unfold stored. by rewrite !(decide_False (P := _ = KindTask)).
  - destruct (apply_resource_runs gateway_kind_of d g m Hi I Hm Hn) as (x' & s' & Hrun & Hi' & Hv' & Hspec).
    exists s'. rewrite decide_False, decide_True, Hdec by done. split_and!; [|done|].
    + etransitivity; [exact Hrun|]. rewrite stored_gateway. cbn -[decide]. destruct (v_gateways _ !! _); cbn -[decide]; [unfold bool_decide; by repeat case_decide|done].
    + apply (applied_put RGateway (RGateway g) m x' _ _ v_gateways); [done|done|by apply bool_decide_eq_true_2|by rewrite Hv'|].
      intros [kind key] Hk. rewrite Hv'. unfold stored. by rewrite !(decide_False (P := _ = KindGateway)).
  - destruct (apply_resource_runs workspace_kind_of d w m Hi I Hm Hn) as (x' & s' & Hrun & Hi' & Hv' & Hspec).
    exists s'. rewrite decide_False, decide_False, decide_True, Hdec by done. split_and!; [|done|].
    + etransitivity; [exact Hrun|]. rewrite stored_workspace. cbn -[decide]. destruct (v_workspaces _ !! _); cbn -[decide]; [unfold bool_decide; by repeat case_decide|done].
    + apply (applied_put RWorkspace (RWorkspace w) m x' _ _ v_workspaces); [done|done|by apply bool_decide_eq_true_2|by rewrite Hv'|].
      intros [kind key] Hk. rewrite Hv'. unfold stored. by rewrite !(decide_False (P := _ = KindWorkspace)).
  - destruct (apply_resource_runs model_kind_of d x m Hi I Hm Hn) as (x' & s' & Hrun & Hi' & Hv' & Hspec).
    exists s'. rewrite decide_False, decide_False, decide_False, decide_True, Hdec by done. split_and!; [|done|].
    + etransitivity; [exact Hrun|]. rewrite stored_model. cbn -[decide]. destruct (v_models _ !! _); cbn -[decide]; [unfold bool_decide; by repeat case_decide|done].
    + apply (applied_put RModel (RModel x) m x' _ _ v_models); [done|done|by apply bool_decide_eq_true_2|by rewrite Hv'|].
      intros [kind key] Hk. rewrite Hv'. unfold stored. by rewrite !(decide_False (P := _ = KindModel)).
Qed.

(** ** A manifest *)

Lemma applied_other r v v' r' : applied r v v' → address r' ≠ address r →
  stored v' (address r') = stored v (address r').
Proof. intros [_ Hother] Hne. by apply Hother. Qed.

Lemma classify_other r v v' r' : applied r v v' → address r' ≠ address r → classify v' r' = classify v r'.
Proof. intros Happ Hne. unfold classify. by rewrite (applied_other r v v' r'). Qed.

(** The resources of a manifest as stored: each with the spec it was applied with. *)
Definition all_stored (rs : list resource) (v : StoreView) : Prop :=
  Forall (λ r, ∃ r', stored v (address r) = Some r' ∧ same_spec r' r = true) rs.

Lemma classify_stored r v r' : stored v (address r) = Some r' → same_spec r' r = true → classify v r = "unchanged".
Proof. unfold classify. by intros -> ->. Qed.

Lemma apply_documents_runs docs rs : Forall2 holds docs rs → ∀ i d,
  s_inv (dk_store d) → Forall acceptable rs → NoDup (address <$> rs) →
  ∃ s',
    apply_documents i docs None d =
      (Ret None, mkDesk s' (dk_out d ++
        ((λ r, apply_line (lower_kind r) r (classify (s_view (dk_store d)) r)) <$> rs)) (dk_steps d)) ∧
    s_inv s' ∧ all_stored rs (s_view s') ∧
    ∀ a, a ∉ address <$> rs → stored (s_view s') a = stored (s_view (dk_store d)) a.
Proof.
  induction 1 as [|doc r docs rs Hdoc Hdocs IH]; intros i d Hi Hok Hnd; cbn [apply_documents].
  { exists (dk_store d). cbn. rewrite app_nil_r. split_and!; [by destruct d|done|apply Forall_nil_2|done]. }
  apply Forall_cons in Hok as [Hr Hok]. cbn in Hnd. apply NoDup_cons in Hnd as [Hnot Hnd].
  rewrite (proj1 Hdoc).
  destruct (applyDocument_runs d doc r Hi Hdoc Hr) as (s1 & Hrun & Hi1 & Happ).
  rewrite (bind_Ret _ _ _ _ _ Hrun).
  set (d1 := mkDesk s1 (dk_out d ++ [apply_line (lower_kind r) r (classify (s_view (dk_store d)) r)]) (dk_steps d)).
  destruct (IH (i + 1)%Z d1 Hi1 Hok Hnd) as (s2 & Hrun2 & Hi2 & Hstored & Hother).
  assert (Hne : ∀ r', r' ∈ rs → address r' ≠ address r).
  { intros r' Hr' Heq. apply Hnot. rewrite <- Heq. by apply list_elem_of_fmap_2. }
  exists s2. split_and!.
  - unfold println. cbn [fmt_Print desk_terminal]. unfold say, bind at 1. cbv beta iota. cbn [dk_store dk_out dk_steps].
    replace (ToLower (r_kind r) +:+ _) with (ToLower (r_kind r) +:+ ".ax.io/" +:+ r_name r +:+ " " +:+
      classify (s_view (dk_store d)) r) by done.
    etransitivity; [|etransitivity; [exact Hrun2|]].
    + unfold d1, apply_line, lower_kind. do 3 f_equal. by rewrite !sapp_assoc.
    + do 2 f_equal. cbn. rewrite <- app_assoc. cbn. do 2 f_equal.
      apply list_fmap_ext. intros j r' Hj. unfold apply_line. f_equal.
      rewrite (classify_other r (s_view (dk_store d)) (s_view s1) r'); [done|done|].
      apply Hne. by eapply list_elem_of_lookup_2.
  - done.
  - apply Forall_cons. split; [|done].
    destruct Happ as [(r' & Hr' & Hsame) _]. exists r'. split; [|done]. by rewrite Hother.
  - intros a Ha. cbn in Ha. apply not_elem_of_cons in Ha as [Ha1 Ha2].
    rewrite Hother by done. by apply Happ.
Qed.

(** C9: applying a manifest stores every resource with the spec of its document,
    changes nothing else, and reports each one as created, configured or unchanged
    by what was stored before; applying it again reports every one as unchanged and
    keeps their specs. *)
Theorem apply_converges docs rs i d : Forall2 holds docs rs →
  s_inv (dk_store d) → Forall acceptable rs → NoDup (address <$> rs) →
  ∃ s1 s2,
    let report d r := apply_line (lower_kind r) r (classify (s_view (dk_store d)) r) in
    let d1 := mkDesk s1 (dk_out d ++ (report d <$> rs)) (dk_steps d) in
    let d2 := mkDesk s2 (dk_out d1 ++ ((λ r, apply_line (lower_kind r) r "unchanged") <$> rs)) (dk_steps d) in
    apply_documents i docs None d = (Ret None, d1) ∧ apply_documents i docs None d1 = (Ret None, d2) ∧
    all_stored rs (s_view s1) ∧ all_stored rs (s_view s2) ∧
    ∀ a, a ∉ address <$> rs →
      stored (s_view s1) a = stored (s_view (dk_store d)) a ∧ stored (s_view s2) a = stored (s_view (dk_store d)) a.
Proof.
  intros Hdocs Hi Hok Hnd.
  destruct (apply_documents_runs docs rs Hdocs i d Hi Hok Hnd) as (s1 & Hrun1 & Hi1 & Hst1 & Ho1).
  set (d1 := mkDesk s1 (dk_out d ++ ((λ r, apply_line (lower_kind r) r (classify (s_view (dk_store d)) r)) <$> rs)) (dk_steps d)).
  destruct (apply_documents_runs docs rs Hdocs i d1 Hi1 Hok Hnd) as (s2 & Hrun2 & Hi2 & Hst2 & Ho2).
  exists s1, s2. cbv zeta. split_and!; [exact Hrun1| |done|done|].
  - etransitivity; [exact Hrun2|]. do 3 f_equal. apply list_fmap_ext. intros j r Hj. f_equal.
    apply list_elem_of_lookup_2 in Hj. unfold all_stored in Hst1. rewrite Forall_forall in Hst1.
    destruct (Hst1 r Hj) as (r' & Hr' & Hsame). by eapply classify_stored.
  - intros a Ha. split; [by apply Ho1|]. rewrite Ho2 by done. by apply Ho1.
Qed.

End Apply.
