(* ===== verification/DeleteSpec.v ===== *)
(** What ax delete promises over a transport that may fail: it returns, and reports
    success only when the record is gone; and with the controller at work in between,
    that is what happens unless a call fails. *)

From S2P Require Import Prelude GoStrings Types Codecs Bindings StoreApi RedisApi Manifests.
From S2P Require Import Server ServerSpec Substrate ModelConfig Bootstrap AxClient Cli Kinds Desk ApplySpec.
From S2P Require Import Reconciler ReconcilerSpec Worker WorkerSpec.

(** A step of the rest of the system: it returns and keeps the store sound. *)
Definition sound_step {S} `{!Store S, !StoreLaws S} (step : M S unit) : Prop :=
  ∀ s, s_inv s → ∃ s', step s = (Ret tt, s') ∧ s_inv s'.
(** A step after which there is no resource at an address. *)
Definition removes {S} `{!Store S, !StoreLaws S} (a : string * string) (step : M S unit) : Prop :=
  ∀ s, s_inv s → ∃ s', step s = (Ret tt, s') ∧ s_inv s' ∧ stored (s_view s') a = None.
(** A schedule with such a step before its last wait: there is time for another look. *)
Definition removed_in_time {S} `{!Store S, !StoreLaws S} (a : string * string) (steps : list (M S unit)) : Prop :=
  ∃ pre step post, steps = pre ++ step :: post ∧ post ≠ [] ∧ removes a step.
(** What the last wait of a schedule makes of a store. *)
Definition cut_short {S} (steps : list (M S unit)) (s s' : S) : Prop :=
  match last steps with Some step => step s = (Ret tt, s') | None => s' = s end.

(** A failure of the transport is not reported as NotFound: gRPC never generates that
    code itself, only a handler does. *)
Definition from_transport `{!GrpcStatus} (fate : option fault) : Prop :=
  match fate with Some f => status_is CodeNotFound (fault_error f) = false | None => True end.

Definition waiting (kind : string) (req : NameRequest) `{!UnicodeTables} : output :=
  OErr ("waiting for " +:+ ToLower kind +:+ " " +:+ req_atespace req +:+ "/" +:+ req_name req +:+
        " to be deleted..." +:+ newline).
Definition deleted (kind : string) (req : NameRequest) `{!UnicodeTables} : output :=
  OText (ToLower kind +:+ ".ax.io/" +:+ req_name req +:+ " deleted" +:+ newline).
Definition timed_out (kind : string) (req : NameRequest) `{!UnicodeTables} : error :=
  Errorf "timed out waiting for %s %s/%s to be deleted; it is still being torn down (check `ax describe` and the controller logs)"
    (resource_args kind req).
Definition not_checked (kind : string) (req : NameRequest) `{!UnicodeTables} (f : fault) : error :=
  Errorf "checking %s %s/%s after delete: %w" (resource_args kind req ++ [AWrap (fault_error f)]).
Definition not_deleted (kind : string) (req : NameRequest) `{!UnicodeTables} (f : fault) : error :=
  Errorf "deleting %s %s/%s: %w" (resource_args kind req ++ [AWrap (fault_error f)]).

Definition kinds : list string := [KindTask; KindGateway; KindWorkspace; KindModel].

Section Delete.
Context {S : Type} `{!Store S, !StoreLaws S, !TimeNow S, !TimeLaws S}.
Context `{!GrpcStatus, !UnicodeTables}.

(** The store behind the line, what was printed, and the waits that are left. *)
Definition store_of (l : Line (Desk S)) : S := dk_store (ln_world l).
Definition printed (l : Line (Desk S)) : list output := dk_out (ln_world l).
Definition waits (l : Line (Desk S)) : list (M S unit) := dk_steps (ln_world l).
Definition line_at (s : S) (out : list output) (steps : list (M S unit)) (calls : list (option fault)) : Line (Desk S) :=
  mkLine (mkDesk s out steps) calls.

Definition at_request (kind : string) (req : NameRequest) : string * string :=
  (kind, res_key (req_atespace req) (req_name req)).
Definition there (kind : string) (req : NameRequest) (s : S) : option resource := stored (s_view s) (at_request kind req).

(** ** One call *)

Lemma over_lift {A} (m : M S (res A)) (l : Line (Desk S)) r s' : m (store_of l) = (Ret r, s') →
  match head (ln_calls l) with
  | Some (Some f) => ∃ s1, bind (over (lift m)) (λ r, ret (reply_error r)) l =
        (Ret (Some (fault_error f)), line_at s1 (printed l) (waits l) (tail (ln_calls l))) ∧ (s1 = s' ∨ s1 = store_of l)
  | _ => bind (over (lift m)) (λ r, ret (reply_error r)) l =
        (Ret (reply_error r), line_at s' (printed l) (waits l) (tail (ln_calls l)))
  end.
Proof.
  intros Hm. pose proof (over_Ret (lift m) l r _ (lift_Ret m (ln_world l) r s' Hm)) as Hover.
  destruct (head (ln_calls l)) as [[f|]|].
  - destruct Hover as (w' & Hrun & Hw). rewrite (bind_Ret _ _ _ _ _ Hrun).
    destruct Hw as [->| ->]; [exists s'; split; [done|by left]|].
    exists (store_of l). split; [|by right]. unfold ret, line_at, store_of, printed, waits. by destruct (ln_world l).
  - by rewrite (bind_Ret _ _ _ _ _ Hover).
  - by rewrite (bind_Ret _ _ _ _ _ Hover).
Qed.

(** What a look reports. *)
Definition looked (kind : string) (req : NameRequest) (l : Line (Desk S)) (r : option error) : Prop :=
  match head (ln_calls l) with
  | Some (Some f) => r = Some (fault_error f)
  | _ => match there kind req (store_of l) with
         | Some _ => r = None
         | None => ∃ e, r = Some e ∧ status_is CodeNotFound e = true
         end
  end.

Lemma kind_lookup {A B} (k : Kind S A B) (wrap : A → resource) (l : Line (Desk S)) req :
  s_inv (store_of l) → (∀ v key, stored v (k_name k, key) = wrap <$> k_view k v !! key) →
  ∃ s' r, bind (over (lift (k_get k req))) (λ r, ret (reply_error r)) l =
      (Ret r, line_at s' (printed l) (waits l) (tail (ln_calls l))) ∧
    s_inv s' ∧ s_view s' = s_view (store_of l) ∧ looked (k_name k) req l r.
Proof.
  intros Hi Hlook. destruct req as [a n].
  destruct (k_get_runs k (store_of l) a n Hi) as (f & args & s1 & Hget & Hi1 & Hv1).
  pose proof (over_lift _ l _ _ Hget) as Hrun. unfold looked, there, at_request. cbn [req_atespace req_name]. rewrite Hlook.
  destruct (head (ln_calls l)) as [[g|]|].
  { destruct Hrun as (s2 & Hrun & Hs2). exists s2, (Some (fault_error g)).
    destruct Hs2 as [->| ->]; by split_and!. }
  all: exists s1; eexists; (split; [exact Hrun|]); (split; [done|]); (split; [done|]).
  all: destruct (_ !! _); cbn [fmap option_fmap option_map reply_error]; [done|].
  all: eexists; (split; [done|]); unfold status_is; by rewrite status_Code_status, bool_decide_eq_true_2.
Qed.

Lemma lookup_runs kind req (l : Line (Desk S)) : kind ∈ kinds → s_inv (store_of l) →
  ∃ s' r, lookup_call kind req l = (Ret r, line_at s' (printed l) (waits l) (tail (ln_calls l))) ∧
    s_inv s' ∧ s_view s' = s_view (store_of l) ∧ looked kind req l r.
Proof.
  intros Hk Hi. unfold kinds in Hk. rewrite !elem_of_cons, elem_of_nil in Hk.
  destruct Hk as [->|[->|[->|[->|[]]]]].
  - exact (kind_lookup task_kind_of RTask l req Hi stored_task).
  - exact (kind_lookup gateway_kind_of RGateway l req Hi stored_gateway).
  - exact (kind_lookup workspace_kind_of RWorkspace l req Hi stored_workspace).
  - exact (kind_lookup model_kind_of RModel l req Hi stored_model).
Qed.

(** ** The polling *)

Definition notice (kind : string) (req : NameRequest) (announced : bool) : list output :=
  if announced then [] else [waiting kind req].

Lemma announce_runs kind req (announced : bool) s out steps calls :
  when (negb announced)
    (fmt_Eprint ("waiting for " +:+ ToLower kind +:+ " " +:+ req_atespace req +:+ "/" +:+ req_name req +:+
                 " to be deleted..." +:+ newline)) (line_at s out steps calls) =
  (Ret tt, line_at s (out ++ notice kind req announced) steps calls).
Proof. destruct announced; cbn; [by rewrite app_nil_r|done]. Qed.

(** A wait runs the next step, and is the last when no step is left. *)
Lemma wait_step d step s s' out steps calls : step s = (Ret tt, s') →
  ctx_wait d (line_at s out (step :: steps) calls) =
    (Ret (match steps with [] => Some ErrCtx | _ => None end), line_at s' out steps calls).
Proof. intros Hs. cbn. unfold carry. cbn. by rewrite Hs. Qed.

Lemma noticed kind req announced out :
  out ++ notice kind req announced = out ∨ announced = false ∧ out ++ notice kind req announced = out ++ [waiting kind req].
Proof. destruct announced; [left; by rewrite app_nil_r|by right]. Qed.

(** How the polling ends, and what it leaves. A success is a look that found no record;
    a failure is a look that failed, or the deadline, which cuts the last wait short
    after a look that found the record, when nothing removed it before. *)
Definition polled (kind : string) (req : NameRequest) (l : Line (Desk S)) (announced : bool)
    (out : option error) (l' : Line (Desk S)) : Prop :=
  s_inv (store_of l') ∧
  match out with
  | None => there kind req (store_of l') = None
  | Some e =>
      (∃ f, Some f ∈ ln_calls l ∧ e = not_checked kind req f) ∨
      (e = timed_out kind req ∧ waits l' = [] ∧
       (∃ s, is_Some (there kind req s) ∧ cut_short (waits l) s (store_of l')) ∧
       is_Some (there kind req (store_of l)) ∧ ¬ removed_in_time (at_request kind req) (waits l))
  end ∧
  (printed l' = printed l ∨ announced = false ∧ printed l' = printed l ++ [waiting kind req]).

Lemma in_time_cons a step steps : removed_in_time a (step :: steps) →
  steps ≠ [] ∧ (removes a step ∨ removed_in_time a steps).
Proof.
  intros ([|x pre] & y & post & Heq & Hpost & Hrem); cbn in Heq; injection Heq as -> ->.
  - split; [done|by left].
  - split; [by destruct pre|]. right. by exists pre, y, post.
Qed.

Lemma tail_transport (calls : list (option fault)) : Forall from_transport calls → Forall from_transport (tail calls).
Proof. by destruct 1. Qed.
Lemma tail_in (calls : list (option fault)) f : Some f ∈ tail calls → Some f ∈ calls.
Proof. destruct calls; [done|]. cbn. by right. Qed.

(** A look, case by case. *)
Lemma looked_cases kind req (l : Line (Desk S)) r s1 : Forall from_transport (ln_calls l) →
  looked kind req l r → s_view s1 = s_view (store_of l) →
  match r with
  | None => is_Some (there kind req s1)
  | Some e => if status_is CodeNotFound e then there kind req s1 = None
              else ∃ f, Some f ∈ ln_calls l ∧ e = fault_error f
  end.
Proof.
  intros Hft Hr Hv. unfold there in *. rewrite Hv. unfold looked, there in Hr.
  destruct (head (ln_calls l)) as [[f|]|] eqn:Hhead.
  - destruct (ln_calls l) as [|c calls]; [done|]. cbn in Hhead. injection Hhead as ->.
    apply Forall_cons in Hft as [Hf _]. cbn in Hf. subst r. rewrite Hf. exists f. split; [by left|done].
  - destruct (stored _ _) eqn:Hst; [by subst r|]. destruct Hr as (e & -> & ->). done.
  - destruct (stored _ _) eqn:Hst; [by subst r|]. destruct Hr as (e & -> & ->). done.
Qed.

(** The rest of a polling, after a look that found the record and a wait, is that of
    the whole. *)
Lemma polled_on kind req (l l2 l' : Line (Desk S)) (announced : bool) out s1 step next steps :
  s_inv s1 → is_Some (there kind req (store_of l)) → step s1 = (Ret tt, store_of l2) →
  waits l = step :: next :: steps → waits l2 = next :: steps → ln_calls l2 = tail (ln_calls l) →
  (printed l2 = printed l ∨ announced = false ∧ printed l2 = printed l ++ [waiting kind req]) →
  polled kind req l2 true out l' → polled kind req l announced out l'.
Proof.
  intros Hi1 Hst Hstep Hw Hw2 Hc Hsaid (Hi & Hout & Hp). split; [done|]. split.
  - destruct out as [e|]; [|done]. destruct Hout as [(f & Hf & ->)|(-> & Hend & (s & Hs & Hcut) & Hst2 & Hnot)].
    + left. exists f. split; [|done]. rewrite Hc in Hf. by apply tail_in.
    + right. split_and!; [done|done| |done|].
      * exists s. split; [done|]. unfold cut_short in *. rewrite Hw2 in Hcut. by rewrite Hw.
      * rewrite Hw. intros [_ [Hrem|Hin]]%in_time_cons; [|apply Hnot; by rewrite Hw2].
        destruct (Hrem s1 Hi1) as (s2 & Hrun & _ & Hgone). rewrite Hstep in Hrun. injection Hrun as <-.
        unfold there in Hst2. rewrite Hgone in Hst2. by destruct Hst2.
  - destruct Hp as [->|[? _]]; done.
Qed.

(** How a look ends the polling. *)
Lemma found_gone kind req (l : Line (Desk S)) announced s1 : s_inv s1 → there kind req s1 = None →
  ∃ out l', ret (Some (@None error)) (line_at s1 (printed l) (waits l) (tail (ln_calls l))) = (Ret (Some out), l') ∧
    polled kind req l announced out l'.
Proof. intros Hi Hgone. eexists None, _. split; [done|]. split_and!; [done|done|by left]. Qed.
Lemma look_failed kind req (l : Line (Desk S)) announced s1 e : s_inv s1 →
  (∃ f, Some f ∈ ln_calls l ∧ e = fault_error f) →
  ∃ out l', ret (Some (Some (Errorf "checking %s %s/%s after delete: %w" (resource_args kind req ++ [AWrap e]))))
      (line_at s1 (printed l) (waits l) (tail (ln_calls l))) = (Ret (Some out), l') ∧
    polled kind req l announced out l'.
Proof.
  intros Hi (f & Hf & ->). eexists (Some _), _. split; [done|]. split_and!; [done|left; by exists f|by left].
Qed.

Lemma waitForDeletion_runs kind req : kind ∈ kinds → ∀ steps fuel announced (l : Line (Desk S)),
  waits l = steps → (length steps < fuel)%nat → Forall sound_step steps → Forall from_transport (ln_calls l) →
  s_inv (store_of l) →
  ∃ out l', waitForDeletion fuel kind req announced l = (Ret (Some out), l') ∧ polled kind req l announced out l'.
Proof.
  intros Hk steps. induction steps as [|step steps IH]; intros fuel announced l Hsteps Hf Hs Hft Hi;
    (destruct fuel as [|fuel]; [cbn in Hf; lia|]); cbn [waitForDeletion];
    destruct (lookup_runs kind req l Hk Hi) as (s1 & r & Hrun & Hi1 & Hv1 & Hr);
    rewrite (bind_Ret _ _ _ _ _ Hrun);
    pose proof (looked_cases kind req l r s1 Hft Hr Hv1) as Hlook.
  all: destruct r as [e|].
  all: try (destruct (status_is CodeNotFound e); [by apply found_gone|by apply look_failed]).
  all: assert (Hst : is_Some (there kind req (store_of l))) by (unfold there in *; by rewrite <- Hv1).
  all: rewrite (bind_Ret _ _ _ _ _ (announce_runs kind req announced s1 _ _ _)), Hsteps.
  - (* no wait is left *)
    eexists (Some _), _. split; [reflexivity|]. split_and!; [done| |by apply noticed].
    right. split_and!; [done|done| |done|rewrite Hsteps; by intros ([]&?&?&[=]&_)].
    exists s1. split; [done|]. unfold cut_short. by rewrite Hsteps.
  - apply Forall_cons in Hs as [Hstep Hs]. cbn in Hf.
    destruct (Hstep s1 Hi1) as (s2 & Hrun2 & Hi2). rewrite (bind_Ret _ _ _ _ _ (wait_step _ _ _ _ _ _ _ Hrun2)).
    set (l2 := line_at s2 (printed l ++ notice kind req announced) steps (tail (ln_calls l))).
    destruct steps as [|next steps].
    + (* the deadline cuts this wait short *)
      eexists (Some _), l2. split; [reflexivity|]. split_and!; [done| |by apply noticed].
      right. split_and!; [done|done| |done|rewrite Hsteps; by intros [[] _]%in_time_cons].
      exists s1. split; [done|]. unfold cut_short. by rewrite Hsteps.
    + destruct (IH fuel true l2 eq_refl ltac:(cbn in *; lia) Hs (tail_transport _ Hft) Hi2) as (out & l' & Hrun' & Hpolled).
      exists out, l'. split; [done|].
      apply (polled_on kind req l l2 l' announced out s1 step next steps); try done. by apply noticed.
Qed.

(** ** The request *)

(** The request is accepted, and takes effect at once except for a task, unless the
    call fails. *)
Lemma delete_call_runs kind req (l : Line (Desk S)) : kind ∈ kinds → s_inv (store_of l) →
  is_Some (there kind req (store_of l)) →
  ∃ call s', delete_call kind req = Some call ∧
    call l = (Ret (match head (ln_calls l) with Some (Some f) => Some (fault_error f) | _ => None end),
              line_at s' (printed l) (waits l) (tail (ln_calls l))) ∧ s_inv s' ∧
    (kind ≠ KindTask → (∀ f, head (ln_calls l) ≠ Some (Some f)) → there kind req s' = None).
Proof.
  intros Hk Hi Hst.
  assert (∃ m s1, delete_call kind req = Some (bind (over (lift m)) (λ r, ret (reply_error r))) ∧
    m (store_of l) = (Ret (Ok tt), s1) ∧ s_inv s1 ∧ (kind ≠ KindTask → there kind req s1 = None))
    as (m & s1 & Hcall & Hrun & Hi1 & Hnow).
  { unfold kinds in Hk. rewrite !elem_of_cons, elem_of_nil in Hk. destruct req as [a n].
    unfold there, at_request in *. cbn [req_atespace req_name] in *.
    destruct Hk as [->|[->|[->|[->|[]]]]].
    - rewrite stored_task in Hst. destruct (v_tasks _ !! _) as [t|] eqn:Ht; [|by destruct Hst].
      destruct (srv_DeleteTask_runs (store_of l) a n t Hi Ht) as (s' & Hrun & Hi' & _).
      by exists (srv_DeleteTask (Some (mkNameRequest a n))), s'.
    - destruct (srv_DeleteGateway_runs (store_of l) a n Hi) as (s' & Hrun & Hi' & Hv').
      exists (srv_DeleteGateway (Some (mkNameRequest a n))), s'. split_and!; [done..|].
      intros _. rewrite stored_gateway, Hv'. cbn. by rewrite lookup_delete_eq.
    - destruct (srv_DeleteWorkspace_runs (store_of l) a n Hi) as (s' & Hrun & Hi' & Hv').
      exists (srv_DeleteWorkspace (Some (mkNameRequest a n))), s'. split_and!; [done..|].
      intros _. rewrite stored_workspace, Hv'. cbn. by rewrite lookup_delete_eq.
    - destruct (srv_DeleteModel_runs (store_of l) a n Hi) as (s' & Hrun & Hi' & Hv').
      exists (srv_DeleteModel (Some (mkNameRequest a n))), s'. split_and!; [done..|].
      intros _. rewrite stored_model, Hv'. cbn. by rewrite lookup_delete_eq. }
  pose proof (over_lift m l _ _ Hrun) as Hover.
  destruct (head (ln_calls l)) as [[f|]|] eqn:Hhead.
  - destruct Hover as (s' & Hover & Hs'). exists (bind (over (lift m)) (λ r, ret (reply_error r))), s'.
    split_and!; [done|done|by destruct Hs' as [->| ->]|]. intros _ Hfree.
    by destruct (Hfree f).
  - exists (bind (over (lift m)) (λ r, ret (reply_error r))), s1. split_and!; [done..|]. intros Hnt _. by apply Hnow.
  - exists (bind (over (lift m)) (λ r, ret (reply_error r))), s1. split_and!; [done..|]. intros Hnt _. by apply Hnow.
Qed.

(** How a deletion ends. *)
Definition deletion (kind : string) (req : NameRequest) (l : Line (Desk S)) (out : option error) (l' : Line (Desk S)) : Prop :=
  s_inv (store_of l') ∧
  match out with
  | None => there kind req (store_of l') = None
  | Some e =>
      (∃ f, head (ln_calls l) = Some (Some f) ∧ e = not_deleted kind req f) ∨
      (∃ f, Some f ∈ tail (ln_calls l) ∧ e = not_checked kind req f) ∨
      (e = timed_out kind req ∧ waits l' = [] ∧
       (∃ s, is_Some (there kind req s) ∧ cut_short (waits l) s (store_of l')) ∧
       kind = KindTask ∧ ¬ removed_in_time (at_request kind req) (waits l))
  end ∧
  (∀ f, head (ln_calls l) = Some (Some f) → out = Some (not_deleted kind req f)) ∧
  ∃ wait, (wait = [] ∨ wait = [waiting kind req]) ∧
    printed l' = printed l ++ wait ++ match out with None => [deleted kind req] | Some _ => [] end.

Lemma first_fate (l : Line (Desk S)) :
  (∃ f, head (ln_calls l) = Some (Some f)) ∨
  (∀ f, head (ln_calls l) ≠ Some (Some f)) ∧
  match head (ln_calls l) with Some (Some f) => Some (fault_error f) | _ => None end = None.
Proof.
  destruct (ln_calls l) as [|[f|] calls]; cbn; [by right| |by right].
  left. by exists f.
Qed.

Lemma deleteResource_runs fuel kind req (l : Line (Desk S)) : kind ∈ kinds → s_inv (store_of l) →
  is_Some (there kind req (store_of l)) →
  Forall sound_step (waits l) → Forall from_transport (ln_calls l) → (length (waits l) < fuel)%nat →
  ∃ out l', deleteResource fuel kind req l = (Ret (Some out), l') ∧ deletion kind req l out l'.
Proof.
  intros Hk Hi Hst Hsteps Hft Hf.
  destruct (delete_call_runs kind req l Hk Hi Hst) as (call & s1 & Hcall & Hrun & Hi1 & Hnow).
  unfold deleteResource. rewrite Hcall, (bind_Ret _ _ _ _ _ Hrun). cbv beta.
  set (l1 := line_at s1 (printed l) (waits l) (tail (ln_calls l))).
  destruct (first_fate l) as [[f Hhead]|[Hhead Hfree]].
  { rewrite Hhead. exists (Some (not_deleted kind req f)), l1. split; [done|]. split_and!; [done| | |].
    - left. by exists f.
    - intros f'. rewrite Hhead. by intros [= ->].
    - exists []. split; [by left|]. by rewrite app_nil_r. }
  rewrite Hfree.
  destruct (waitForDeletion_runs kind req Hk (waits l) fuel false l1 eq_refl Hf Hsteps (tail_transport _ Hft) Hi1)
    as (out & l2 & Hwait & Hi2 & Hout & Hsaid). rewrite (bind_Ret _ _ _ _ _ Hwait).
  assert (∃ wait, (wait = [] ∨ wait = [waiting kind req]) ∧ printed l2 = printed l ++ wait) as (wait & Hw & Hl2).
  { destruct Hsaid as [Hsaid|[_ Hsaid]]; [exists []|exists [waiting kind req]]; (split; [by auto|]);
      rewrite Hsaid; [by rewrite app_nil_r|done]. }
  destruct out as [e|].
  - exists (Some e), l2. split; [done|]. split_and!; [done| |by intros f ?%Hhead|exists wait; by rewrite app_nil_r].
    destruct Hout as [Hout|(-> & Hend & Hlast & Hst1 & Hnot)]; [by right; left|]. right. right. split_and!; [done..| |done].
    destruct (decide (kind = KindTask)) as [|Hnt]; [done|]. change (store_of l1) with s1 in Hst1.
    rewrite (Hnow Hnt Hhead) in Hst1. by destruct Hst1.
  - exists None, (line_at (store_of l2) (printed l2 ++ [deleted kind req]) (waits l2) (ln_calls l2)). split.
    + unfold println, deleted. cbn [fmt_Print line_terminal desk_terminal]. unfold bind at 1, carry, say. cbn [ln_world ln_calls]. by rewrite !sapp_assoc.
    + split_and!; [done|done|by intros f ?%Hhead|]. exists wait. split; [done|]. cbn. by rewrite Hl2, <- app_assoc.
Qed.

(** C11: deleting a stored resource always returns, whatever the rest of the system does
    meanwhile and whichever calls fail on their way. It reports success only after a
    look that found no record. A failure is the deletion's own call failing, which is
    reported as such; or a look failing; or the deadline, which comes during the last
    wait, after a look that found the record, and only for a task that no step of the
    rest of the system removed before that wait. The wait is announced at most once,
    and the confirmation is printed exactly on success. *)
Theorem deleteResource_waits fuel kind req (l : Line (Desk S)) : kind ∈ kinds → s_inv (store_of l) →
  is_Some (there kind req (store_of l)) →
  Forall sound_step (waits l) → Forall from_transport (ln_calls l) → (length (waits l) < fuel)%nat →
  ∃ out l', deleteResource fuel kind req l = (Ret (Some out), l') ∧ deletion kind req l out l'.
Proof. apply deleteResource_runs. Qed.
End Delete.

(** ** With the controller *)

Section Controller.
Context {W : Type} `{!Store W, !StoreLaws W, !EventQueue W, !Host W}.
Context `{!Control W, !Context W, !Http W, !Ticker W, !TimeNow W, !TimeLaws W, !Detached W}.
Context `{!GrpcStatus, !Environment, !MapRange, !ErrorText, !Yaml, !UnicodeTables, !URLs}.

(** A turn of the controller on an event. *)
Definition turn (w : Worker (W := W)) (ev : TaskEvent) : M W unit := let! _ := processEvent w ev in ret tt.

Lemma turn_removes w ev : ev_action ev = "delete" →
  (∀ s, s_inv s → ∃ s', ReconcileDelete (ev_atespace ev) (ev_name ev) s = (Ret None, s')) →
  removes (KindTask, res_key (ev_atespace ev) (ev_name ev)) (turn w ev).
Proof.
  intros Hact Hclean s Hi. destruct (event_deletes_stored w ev s Hi Hact) as (cleanup & s1 & err & Hdel & _ & Hrun).
  destruct (Hclean s Hi) as (s1' & Hdel'). rewrite Hdel in Hdel'. injection Hdel' as -> _.
  destruct Hrun as (s' & Hrun & Hi' & Hv'). exists s'. unfold turn. rewrite (bind_Ret _ _ _ _ _ Hrun).
  split_and!; [done|done|]. rewrite stored_task, Hv'. cbn. by rewrite lookup_delete_eq.
Qed.

(** C10: ax delete of a stored task does not time out once the controller has had its
    turn on the delete event, before the last wait, and the control plane let it clean
    up, whatever else happens before and after. Either it succeeds, the record being
    gone and the confirmation printed last, or one of its calls failed on its way and
    it reports that call and confirms nothing. *)
Theorem delete_with_controller fuel w ev req (l : Line (Desk W)) pre post :
  ev_action ev = "delete" → ev_atespace ev = req_atespace req → ev_name ev = req_name req →
  (∀ s, s_inv s → ∃ s', ReconcileDelete (ev_atespace ev) (ev_name ev) s = (Ret None, s')) →
  waits l = pre ++ turn w ev :: post → post ≠ [] → Forall sound_step pre → Forall sound_step post →
  Forall from_transport (ln_calls l) →
  s_inv (store_of l) → is_Some (v_tasks (s_view (store_of l)) !! res_key (req_atespace req) (req_name req)) →
  (length (waits l) < fuel)%nat →
  ∃ out l', deleteResource fuel KindTask req l = (Ret (Some out), l') ∧
    match out with
    | None => v_tasks (s_view (store_of l')) !! res_key (req_atespace req) (req_name req) = None ∧
        last (printed l') = Some (deleted KindTask req)
    | Some e =>
        (printed l' = printed l ∨ printed l' = printed l ++ [waiting KindTask req]) ∧
        ∃ f, Some f ∈ ln_calls l ∧ (e = not_deleted KindTask req f ∨ e = not_checked KindTask req f)
    end.
Proof.
  intros Hact Ha Hn Hclean Hsteps Hpost0 Hpre Hpost Hft Hi Hst Hf.
  pose proof (turn_removes w ev Hact Hclean) as Hturn. rewrite Ha, Hn in Hturn.
  assert (Hsound : sound_step (turn w ev)).
  { intros s Hs. destruct (Hturn s Hs) as (s' & ? & ? & _). by exists s'. }
  destruct (deleteResource_runs fuel KindTask req l) as (out & l' & Hrun & _ & Hout & _ & wait & Hw & Hsaid).
  - left.
  - done.
  - unfold there, at_request. rewrite stored_task. destruct Hst as [t ->]. by eexists.
  - rewrite Hsteps. apply Forall_app. split; [done|]. by apply Forall_cons.
  - done.
  - done.
  - exists out, l'. split; [done|]. destruct out as [e|].
    + split; [rewrite Hsaid, app_nil_r; destruct Hw as [->| ->]; [left; by rewrite app_nil_r|by right]|].
      destruct Hout as [(f & Hf1 & ->)|[(f & Hf1 & ->)|(_ & _ & _ & _ & Hnot)]]; [exists f|exists f|].
      * split; [|by left]. destruct (ln_calls l); [done|]. cbn in Hf1. injection Hf1 as ->. by left.
      * split; [by apply tail_in|by right].
      * destruct Hnot. by exists pre, (turn w ev), post.
    + unfold there, at_request in Hout. rewrite stored_task in Hout. apply fmap_None in Hout.
      split; [done|]. by rewrite Hsaid, app_assoc, last_snoc.
Qed.
End Controller.
