(* ===== verification/MemoryQueue.v ===== *)
(** The event channel of the in-memory store as the queue of a controller: it hands
    out the queued events in order, the controller's other calls leave it alone, and a
    save queues its event while there is room. *)

From S2P Require Import Prelude GoStrings Types Bindings StoreApi MemoryStore MemoryInv MemoryProps.
From S2P Require Import Server ServerSpec Substrate ModelConfig Reconciler ReconcilerSpec Worker WorkerSpec QueueSpec.

Section Queue.
Context `{!MapRange}.

(** Subscriptions share the channel; a context that ends is what a Next without an
    event waits for. *)
#[export] Instance mem_queue : EventQueue MemoryStore := {
  q_subscription := unit;
  q_Subscribe _ _ := ret (Ok tt);
  q_Next _ :=
    let! r := MemoryStore.Next false false in
    ret (match r with Got ev => Ok ev | _ => Err ErrCtx end, tt);
  q_Ack _ ev := MemoryStore.Ack ev;
  q_Close _ := ret None;
}.

(** Every subscription has what is in the channel, which keeps nothing of what it handed
    out: acknowledging does nothing. A save finds room below its bound. *)
Definition mem_attached (_ : unit) (evs _ : list TaskEvent) (s : MemoryStore) : Prop := m_events s = evs.
Definition mem_room (evs : list TaskEvent) : Prop := (length evs < event_cap)%nat.

(** ** Calls that leave the channel alone *)

Definition steady {A} (m : MS A) : Prop := ∀ s, m_events (state_of m s) = m_events s.

Lemma steady_ret {A} (a : A) : steady (ret a).
Proof. done. Qed.
Lemma steady_panic {A} : steady (panic (A := A)).
Proof. done. Qed.
Lemma steady_get : steady get.
Proof. done. Qed.
Lemma steady_deref {A} (p : option A) : steady (deref p).
Proof. by destruct p. Qed.
Lemma steady_bind {A B} (m : MS A) (k : A → MS B) : steady m → (∀ a, steady (k a)) → steady (bind m k).
Proof.
  intros Hm Hk s. specialize (Hm s). unfold state_of, bind in *. destruct (m s) as [[a|] s1]; [|done].
  etrans; [apply (Hk a s1)|exact Hm].
Qed.
(** After a look at the state, what follows may use it. *)
Lemma steady_now {B} (k : MemoryStore → MS B) : (∀ s, m_events (state_of (k s) s) = m_events s) →
  steady (bind get k).
Proof. intros Hk s. apply Hk. Qed.
Lemma steady_from {A} (m : MS A) s s0 : steady m → m_events s = m_events s0 → m_events (m s).2 = m_events s0.
Proof. intros Hm <-. apply Hm. Qed.

Create HintDb steady discriminated.
#[local] Hint Resolve steady_ret steady_panic steady_get steady_deref : steady.

Lemma steady_new_status_opt st : steady (new_status_opt st).
Proof. by destruct st. Qed.
Lemma steady_try_send p c : steady (try_send p c).
Proof.
  apply steady_now. intros s. destruct (m_chans s !! c) as [ch|]; [|done]. unfold state_of. mstep.
  destruct (ch_closed ch); [done|]. by case_decide.
Qed.
Lemma steady_notify p cs : steady (notify p cs).
Proof. induction cs; cbn; [auto with steady|]. apply steady_bind; [apply steady_try_send|auto]. Qed.
Lemma steady_notify_watchers key p : steady (notify_watchers key p).
Proof. apply steady_now. intros s. apply steady_notify. Qed.
Lemma steady_clone_ptr l : steady (clone_ptr l).
Proof.
  apply steady_now. intros s. destruct (load s l) as [t|]; [|done]. unfold state_of. mstep.
  apply steady_from; [|done]. by apply steady_bind; [apply steady_new_status_opt|].
Qed.

Lemma steady_GetTask a n : steady (MemoryStore.GetTask a n).
Proof.
  apply steady_now. intros s. destruct (m_tasks s !! _) as [l|]; [|done].
  by destruct (load s l).
Qed.
Lemma steady_GetGateway a n : steady (MemoryStore.GetGateway a n).
Proof. apply steady_now. intros s. by destruct (m_gateways s !! _). Qed.
Lemma steady_GetWorkspace a n : steady (MemoryStore.GetWorkspace a n).
Proof. apply steady_now. intros s. by destruct (m_workspaces s !! _). Qed.
Lemma steady_GetModel a n : steady (MemoryStore.GetModel a n).
Proof. apply steady_now. intros s. by destruct (m_models s !! _). Qed.
Lemma steady_UpdateTaskStatus a n st : steady (MemoryStore.UpdateTaskStatus a n st).
Proof.
  apply steady_bind; [apply steady_new_status_opt|]. intros p. apply steady_now. intros s.
  destruct (m_tasks s !! _) as [l|]; [|done]. destruct (m_objs s !! l) as [o|]; [|done].
  unfold state_of. mstep.
  apply steady_from; [|done]. apply steady_bind; [apply steady_clone_ptr|]. intros cp.
  apply steady_bind; [apply steady_notify_watchers|]. auto with steady.
Qed.
Lemma steady_DeleteTask a n : steady (MemoryStore.DeleteTask a n).
Proof. done. Qed.

(** ** The clock and the control plane *)

#[export] Instance mem_now : TimeNow MemoryStore := time_now.
#[export] Instance mem_now_laws : TimeLaws MemoryStore.
Proof.
  intros s Hi. exists (clock_now (m_clock s)), (set_clock (clock_tick (m_clock s)) s).
  split; [apply time_now_run|]. split; [by destruct Hi|done].
Qed.

Section Plane.
Context `{!Host MemoryStore, !Control MemoryStore, !Context MemoryStore, !Http MemoryStore, !Ticker MemoryStore}.
Context `{!GrpcStatus, !Environment, !ErrorText, !Yaml, !UnicodeTables, !URLs}.

(** A control plane whose calls keep every condition that a tick of the clock keeps,
    and whose workers can be asked for their readiness. *)
Class PlaneApart : Prop := {
  plane_apart (I : MemoryStore → Prop) :
    (∀ s, I s → I (set_clock (clock_tick (m_clock s)) s)) → Responsive I (λ _, True) (λ _, True);
  plane_addressed (I : MemoryStore → Prop) : Addressed I (λ _, True);
}.
Context `{!PlaneApart}.

Lemma plane_at_view F v : (∀ s, F s → F (set_clock (clock_tick (m_clock s)) s)) →
  Responsive (at_view (W := MemoryStore) F v) (λ _, True) (λ _, True).
Proof.
  intros HF. apply plane_apart. intros s [[Hi Hf] Hv].
  split; [split; [by destruct Hi|by apply HF]|exact Hv].
Qed.

#[export] Instance mem_detached : Detached MemoryStore.
Proof. intros v. by apply plane_at_view. Qed.

#[export] Instance mem_reaching F : Reaching (W := MemoryStore) F.
Proof. intros v. apply plane_addressed. Qed.

#[export] Instance mem_framed evs : Framed (W := MemoryStore) (λ s, m_events s = evs).
Proof.
  split; cbn [StoreApi.GetTask StoreApi.GetGateway StoreApi.GetWorkspace StoreApi.GetModel
    StoreApi.UpdateTaskStatus StoreApi.DeleteTask mem_store]; try by (intros v; apply plane_at_view).
  all: intros s a n; first [intros [_ <-]|intros st [_ <-]];
    first [apply steady_GetTask|apply steady_GetGateway|apply steady_GetWorkspace|apply steady_GetModel
          |apply steady_UpdateTaskStatus|apply steady_DeleteTask].
Qed.

#[export] Instance mem_delivering : Delivering (W := MemoryStore) mem_attached.
Proof.
  split; [intros [] evs out; apply mem_framed|..].
  - intros [] ev evs out s Hi Hp. unfold mem_attached in Hp.
    exists tt, (set_events evs s). cbn [q_Next mem_queue]. unfold MemoryStore.Next, bind, get. rewrite Hp.
    split; [reflexivity|]. split; [|done]. destruct Hi as [? ? ? ? ? Hev]. split; try done.
    cbn. rewrite Hp in Hev. cbn in Hev. lia.
  - intros [] out s Hi Hp. unfold mem_attached in Hp. exists ErrCtx, tt, s.
    cbn [q_Next mem_queue]. unfold MemoryStore.Next, bind, get. rewrite Hp. by split_and!.
  - intros [] ev evs out s Hi Hp. exists s. split_and!; [done|exact Hi|done|exact Hp].
Qed.

(** What is offered to a channel with room is queued. *)
Lemma offered_room ev out (s s' : MemoryStore) : mem_room (m_events s) → m_events s' = offered ev (m_events s) →
  mem_attached tt (m_events s ++ [ev]) out s'.
Proof. intros Hroom Hev. unfold mem_attached. rewrite Hev. unfold offered. by rewrite decide_True by exact Hroom. Qed.

#[export] Instance mem_publishing : Publishing (W := MemoryStore) mem_attached mem_room.
Proof.
  split; [apply _|intros [] evs out s..].
  - intros t m Hi Hq Hroom Hm Hn. unfold mem_attached in Hq. subst evs.
    destruct (SaveTask_full s t m Hi Hm Hn) as (s' & Hsave & Hi' & Hv & Hev).
    eexists _, s'. split_and!; [exact Hsave|exact Hi'|exact Hv|by apply offered_room| |done].
    unfold ev_key. cbn. apply res_key_default.
  - intros a n t Hi Hq Hroom Ht. unfold mem_attached in Hq. subst evs.
    destruct (MarkTaskDeleting_full s a n t Hi Ht) as (s' & id & Hmark & Hi' & Hv & Hev).
    eexists _, s'. by split_and!; [exact Hmark|exact Hi'|exact Hv|by apply offered_room|..].
  - intros a n Hi Hq Ht. exists s. split_and!; [|exact Hi|done|exact Hq].
    apply (view_tasks_none _ _ (mi_heap s Hi)) in Ht.
    cbn. unfold MemoryStore.MarkTaskDeleting. mstep. by rewrite taskKey_res_key, Ht.
Qed.

End Plane.
End Queue.
