(* ===== verification/RedisQueue.v ===== *)
(** The event stream of the Redis store as the queue of a controller that is alone in
    its consumer group: it hands out the events of the stream in order, the
    controller's other calls leave it alone, and every save appends its event. The
    codec is an idealised one, which loses no message. *)

From S2P Require Import Prelude GoStrings Types Bindings StoreApi RedisApi RedisSort RedisStore RedisInv RedisSpec RedisProps.
From S2P Require Import Server ServerSpec Substrate ModelConfig Reconciler ReconcilerSpec Worker WorkerSpec QueueSpec.

Section Queue.
Context {R : Type} `{!RedisClient R, !TimeNow R, ids : EntryIds, text : ErrorText, !RedisLaws R}.
Context `{!ProtoJSON Task, !ProtoJSON Gateway, !ProtoJSON Workspace, !ProtoJSON Model}.
Variable opts : Options.

(** One receive: a read of the stream; a queue without an event is left when its
    context ends. *)
Definition redis_queue : EventQueue R := {|
  q_subscription := subscription;
  q_Subscribe := Subscribe opts;
  q_Next sub :=
    let! (r, sub) := Next opts sub [None] in
    ret (match r with Some r => r | None => Err ErrCtx end, sub);
  q_Ack := Ack opts;
  q_Close := subscription_Close;
|}.

Hypothesis Hopts : opts_ok opts.
Hypothesis Hbatch : (0 < ReadBatchSize opts)%Z.
Hypothesis json_task : ∀ t : Task, json_ok t.
Hypothesis json_gateway : ∀ g : Gateway, json_ok g.
Hypothesis json_workspace : ∀ w : Workspace, json_ok w.
Hypothesis json_model : ∀ x : Model, json_ok x.

#[local] Instance the_store : Store R := redis_store opts.
#[local] Instance the_laws : StoreLaws R :=
  redis_store_laws opts Hopts json_task json_gateway json_workspace json_model.
#[local] Instance the_queue : EventQueue R := redis_queue.

(** The entries of the group that are pending: those of the events that were handed out
    and not acknowledged, and those of the events the subscription holds. *)
Definition pending_for (sub : subscription) (out : list TaskEvent) (g : rgroup) : Prop :=
  ev_id <$> (out ++ sub_pending sub) ≡ₚ entry_id <$> (fst <$> rg_pending g) ∧
  NoDup (fst <$> rg_pending g) ∧ Forall (λ n, n < rg_last g)%nat (fst <$> rg_pending g).

Lemma took_pending sub sub' g g' es taken ev out :
  ev_id <$> (ev :: sub_pending sub') = (ev_id <$> sub_pending sub) ++ taken → took g g' es taken →
  pending_for sub out g → pending_for sub' (ev :: out) g'.
Proof.
  intros Hev (ns & -> & Hseq & Hlast & Hpend & _) (Hperm & Hnd & Hlt). unfold pending_for. rewrite Hpend.
  split_and!.
  - rewrite fmap_app in Hperm. rewrite (fmap_app entry_id), <- Hperm, <- (assoc_L (++)), <- Hev.
    rewrite !fmap_app, !fmap_cons. solve_Permutation.
  - apply NoDup_app. split_and!; [done| |rewrite Hseq; apply NoDup_seq].
    intros n Hn Hn'. rewrite Forall_forall in Hlt. specialize (Hlt n Hn). rewrite Hseq in Hn'.
    apply elem_of_seq in Hn'. lia.
  - rewrite Hlast. apply Forall_app. split; [eapply Forall_impl; [exact Hlt|cbn; lia]|].
    apply Forall_forall. intros n Hn. rewrite Hseq in Hn. apply elem_of_seq in Hn. lia.
Qed.

Lemma NoDup_without (i : nat) (l : list nat) : NoDup l → i ∈ l → l ≡ₚ i :: filter (λ n, n ≠ i) l.
Proof.
  intros Hnd Hi. apply NoDup_Permutation; [done|constructor; [|by apply NoDup_filter]|].
  - by intros [? _]%list_elem_of_filter.
  - intros n. rewrite elem_of_cons, list_elem_of_filter. destruct (decide (n = i)) as [->|]; naive_solver.
Qed.

Lemma without_fst (i : nat) (l : list (nat * string)) :
  fst <$> filter (λ p, fst p ≠ i) l = filter (λ n, n ≠ i) (fst <$> l).
Proof.
  induction l as [|[n c] l IH]; [done|]. rewrite filter_cons, fmap_cons, filter_cons. cbn [fst].
  destruct (decide (n ≠ i)); cbn; [by f_equal|exact IH].
Qed.

Lemma acked_pending sub g ev out : pending_for sub (ev :: out) g →
  ∃ i, ev_id ev = entry_id i ∧
    pending_for sub out (mkRgroup (rg_last g) (filter (λ p, fst p ≠ i) (rg_pending g))).
Proof.
  intros (Hperm & Hnd & Hlt).
  assert (ev_id ev ∈ entry_id <$> (fst <$> rg_pending g)) as (i & Hi & Hin)%list_elem_of_fmap.
  { rewrite <- Hperm. cbn. by left. }
  exists i. split; [done|]. unfold pending_for. cbn [rg_pending rg_last].
  rewrite without_fst.
  split_and!; [|by apply NoDup_filter|apply Forall_forall; intros n [_ Hn]%list_elem_of_filter; rewrite Forall_forall in Hlt; by apply Hlt].
  rewrite (NoDup_without i _ Hnd Hin) in Hperm. cbn in Hperm. rewrite Hi in Hperm. by apply (inj (cons _)) in Hperm.
Qed.

Variable group : string.

(** A subscription of the group, which is there and has no other member, that has [evs]
    still to hand out and of those handed out [out] not acknowledged. *)
Definition redis_attached (sub : subscription) (evs out : list TaskEvent) (r : R) : Prop :=
  sub_group sub = group ∧ ∃ g es, group_at opts group r g es ∧ inflight sub g es = evs ∧ (rg_last g ≤ length es)%nat
    ∧ pending_for sub out g.

Ltac kinds_in := by repeat (apply elem_of_cons; (by left) || right).

(** ** Calls that leave the stream and the groups alone *)

Definition same_stream (v v' : rserver) : Prop :=
  rs_groups v' = rs_groups v ∧ rs_keys v' !! StreamName opts = rs_keys v !! StreamName opts.

Lemma attached_same sub evs out r r' : r_up r' → same_stream (r_view r) (r_view r') →
  redis_attached sub evs out r → redis_attached sub evs out r'.
Proof.
  intros Hup [Hg Hk] (Hsg & g & es & (_ & Hgrp & Hes) & Hin). split; [done|]. exists g, es.
  split; [|done]. unfold group_at. by rewrite Hg, Hk.
Qed.

Lemma attached_serves {A} (m : M R A) sub evs out r a v : serves r_up r_view m r a v → same_stream (r_view r) v →
  redis_attached sub evs out r → redis_attached sub evs out (state_of m r).
Proof.
  intros (r' & Hm & Hup & <-) Hs Ha. unfold state_of. rewrite Hm. by apply (attached_same sub evs out r).
Qed.

Lemma same_refl v : same_stream v v.
Proof. done. Qed.
Lemma only_same K v v' : K ∈ kinds → rs_groups v' = rs_groups v → only opts K v v' → same_stream v v'.
Proof. intros HK Hg Ho. split; [done|]. by apply (only_stream opts K). Qed.

Lemma attached_GetTask sub evs out r a n : r_ok opts r → redis_attached sub evs out r →
  redis_attached sub evs out (state_of (GetTask opts a n) r).
Proof. intros Hok. by eapply attached_serves; [apply GetTask_serves|]. Qed.

Lemma attached_get {A} `{!ProtoJSON A} K (meta : A → option ObjectMeta) key e1 e2 sub evs out r a n :
  (∀ a n, key a n = rec_key opts K (a +:+ ":" +:+ n)) → r_ok opts r → kind_inv opts K meta (r_view r) →
  redis_attached sub evs out r → redis_attached sub evs out (state_of (get_record (A := A) key e1 e2 a n) r).
Proof. intros Hkey Hok Hk. by eapply attached_serves; [by apply (get_record_run opts K meta)|]. Qed.

Lemma attached_UpdateTaskStatus sub evs out r a n st : r_ok opts r → redis_attached sub evs out r →
  redis_attached sub evs out (state_of (UpdateTaskStatus opts a n st) r).
Proof.
  intros Hok Ha. destruct (GetTask_serves opts r a n Hok) as (r1 & Hget & Hup1 & Hv1).
  assert (redis_attached sub evs out r1) as Ha1 by (by apply (attached_same sub evs out r); [done|rewrite Hv1|done]).
  unfold UpdateTaskStatus, state_of. rewrite (bind_Ret _ _ _ _ _ Hget).
  destruct (found _) as [t|e]; [|exact Ha1].
  destruct (json_task (task_set_status st t)) as (d & HM & _). unfold write_status. rewrite HM.
  destruct (write_serves opts r1 (taskKey opts a n) d (taskPubSubChannel opts a n) Hopts Hup1) as (r2 & Hw & Hup2 & Hv2).
  rewrite (bind_Ret _ _ _ _ _ Hw). apply (attached_same sub evs out r1 r2); [done| |done]. rewrite Hv2.
  apply (only_same K_task); [kinds_in|done|]. exact (set_record_only opts K_task (a +:+ ":" +:+ n) d (r_view r1)).
Qed.

Lemma attached_DeleteTask sub evs out r a n : r_ok opts r → redis_attached sub evs out r →
  redis_attached sub evs out (state_of (DeleteTask opts a n) r).
Proof.
  intros [Hup Hinv] Ha.
  destruct (delete_serves opts K_task (taskKey opts) (taskIndexKey opts) (taskAtespaceIndexKey opts) a n r
    task_metadata ltac:(kinds_in) ltac:(done) ltac:(done) ltac:(done) Hup (ri_task _ _ Hinv)) as (r1 & Hd & Hup1 & Hv1).
  unfold DeleteTask, state_of. cbv zeta. fold (default_atespace a).
  unfold delete_indexed in Hd. cbv zeta in Hd. fold (default_atespace a) in Hd.
  rewrite (bind_Ret _ _ _ _ _ Hd). apply (attached_same sub evs out r r1); [done| |done]. rewrite Hv1.
  apply (only_same K_task); [kinds_in| |apply delete_state_only].
  unfold delete_state, zrem. by repeat case_match.
Qed.

(** ** The queue *)

Section Plane.
Context `{!Host R, !Control R, !Context R, !Http R, !Ticker R}.
Context `{!GrpcStatus, !Environment, !MapRange, !Yaml, !UnicodeTables, !URLs}.

(** A control plane whose calls keep every condition on what the server holds. *)
Class RedisApart : Prop := {
  redis_apart (I : R → Prop) :
    (∀ r r', I r → r_up r' → r_view r' = r_view r → I r') → Responsive I (λ _, True) (λ _, True);
  redis_addressed (I : R → Prop) : Addressed I (λ _, True);
}.
Context `{!RedisApart}.

Lemma attached_view sub evs out r r' : r_up r' → r_view r' = r_view r →
  redis_attached sub evs out r → redis_attached sub evs out r'.
Proof. intros Hup Hv. apply attached_same; [done|by rewrite Hv]. Qed.

#[local] Instance redis_framed sub evs out : Framed (W := R) (redis_attached sub evs out).
Proof.
  split; cbn [StoreApi.GetTask StoreApi.GetGateway StoreApi.GetWorkspace StoreApi.GetModel
    StoreApi.UpdateTaskStatus StoreApi.DeleteTask the_store redis_store].
  - intros r a n [Hi Ha]. by apply attached_GetTask.
  - intros r a n [Hi Ha]. by apply (attached_get K_gw gw_metadata); [|apply Hi|apply Hi|].
  - intros r a n [Hi Ha]. by apply (attached_get K_ws ws_metadata); [|apply Hi|apply Hi|].
  - intros r a n [Hi Ha]. by apply (attached_get K_model model_metadata); [|apply Hi|apply Hi|].
  - intros r a n st [Hi Ha]. by apply attached_UpdateTaskStatus.
  - intros r a n [Hi Ha]. by apply attached_DeleteTask.
  - intros v. apply redis_apart. intros r r' [[[Hup Hi] Ha] Hv] Hup' Hview.
    split; [split; [|by apply (attached_view sub evs out r)]|].
    + change (r_ok opts r'). split; [done|by rewrite Hview].
    + change (red_view opts r' = v). change (red_view opts r = v) in Hv.
      unfold red_view in *. by rewrite Hview.
Qed.

#[local] Instance redis_reaching F : Reaching (W := R) F.
Proof. intros v. apply redis_addressed. Qed.

(** What the queue's own calls keep. *)
Lemma queue_keeps r r' : r_up r' → rs_keys (r_view r') = rs_keys (r_view r) → r_ok opts r →
  r_ok opts r' ∧ red_view opts r' = red_view opts r.
Proof.
  intros Hup Hk [_ Hi]. destruct (r_inv_keys opts _ _ Hk Hi) as [Hi' Hv]. by split; [split|].
Qed.

#[local] Instance redis_delivering : Delivering (W := R) redis_attached.
Proof.
  split; [apply _|..].
  - intros sub ev evs out r Hi (Hs & g & es & Hg & Hin & Hle & Hp). rewrite <- Hs in Hg.
    pose proof (Next_step opts r sub g es Hbatch Hg) as Hstep. rewrite Hin in Hstep.
    destruct Hstep as (sub' & g' & r' & Hn & Hsg & _ & Hg' & Hin' & Hk & taken & Htaken & Htook).
    destruct (queue_keeps r r' (proj1 Hg') Hk Hi) as [Hi' Hv].
    exists sub', r'. split_and!; [|exact Hi'|exact Hv|].
    + cbn [q_Next the_queue redis_queue]. by rewrite (bind_Ret _ _ _ _ _ Hn).
    + split; [by rewrite Hsg|]. exists g', es. rewrite <- Hs.
      split_and!; [done|done|by destruct Htook as (? & _ & _ & _ & _ & Ht); apply Ht|by eapply took_pending].
  - intros sub out r Hi (Hs & g & es & Hg & Hin & Hle & Hp). rewrite <- Hs in Hg.
    pose proof (Next_step opts r sub g es Hbatch Hg) as Hstep. rewrite Hin in Hstep.
    destruct Hstep as (sub' & g' & r' & Hn & Hsg & Hg' & Hin' & Hk & Hs1 & Hs2 & Htook).
    destruct (queue_keeps r r' (proj1 Hg') Hk Hi) as [Hi' Hv].
    exists ErrCtx, sub', r'. split_and!; [|exact Hi'|exact Hv|].
    + cbn [q_Next the_queue redis_queue]. by rewrite (bind_Ret _ _ _ _ _ Hn).
    + split; [by rewrite Hsg|]. exists g', es. rewrite <- Hs.
      destruct Htook as (ns & Hns & _ & Hlast & Hpend & Ht). destruct ns; [|done].
      split_and!; [done|done|by apply Ht|]. unfold pending_for in *. rewrite Hpend, Hs2, Hlast, <- Hs1, app_nil_r.
      by rewrite Nat.add_0_r.
  - intros sub ev evs out r Hi (Hs & g & es & (Hup & Hg & Hes) & Hin & Hle & Hp). rewrite <- Hs in Hg.
    destruct (acked_pending sub g ev out Hp) as (i & Hev & Hp').
    destruct (law_XAck r (StreamName opts) (sub_group sub) g i Hup Hg) as (r' & Hack & Hup' & Hv').
    destruct (queue_keeps r r' Hup') as [Hi' Hv]; [by rewrite Hv'|exact Hi|].
    exists r'. split_and!; [|exact Hi'|exact Hv|].
    + cbn [q_Ack the_queue redis_queue]. unfold Ack. by rewrite Hev.
    + split; [exact Hs|]. eexists (mkRgroup (rg_last g) _), es. split; [|split_and!; [exact Hin|exact Hle|exact Hp']].
      split_and!; [exact Hup'| |by rewrite Hv'].
      rewrite Hv', <- Hs. cbn [rs_groups]. by rewrite lookup_insert_eq.
Qed.

(** An event that joins the stream waits behind the others. *)
Lemma attached_snoc sub evs out r r' g es vals : redis_attached sub evs out r → r_up r' →
  rs_groups (r_view r) !! (StreamName opts, group) = Some g →
  rs_keys (r_view r) !! StreamName opts = Some (RStream es) →
  rs_groups (r_view r') = rs_groups (r_view r) →
  rs_keys (r_view r') !! StreamName opts = Some (RStream (es ++ [vals])) →
  redis_attached sub (evs ++ [event_of (length es, vals)]) out r'.
Proof.
  intros (Hsg & g0 & es0 & (_ & Hg0 & Hes0) & Hin & Hle & Hp) Hup Hg Hes Hgs Hs.
  assert (g0 = g) as -> by congruence. assert (es0 = es) as -> by congruence.
  split; [exact Hsg|]. exists g, (es ++ [vals]). split_and!; [split_and!; [done|by rewrite Hgs|exact Hs]| | |].
  - unfold inflight in *. rewrite undelivered_snoc by done. rewrite (assoc_L (++)). by rewrite Hin.
  - rewrite length_app. lia.
  - done.
Qed.

Lemma marking_attached sub evs out r a n t : r_ok opts r → redis_attached sub evs out r →
  v_tasks (red_view opts r) !! res_key a n = Some t →
  ∃ ev r', MarkTaskDeleting opts a n r = (Ret None, r') ∧ redis_attached sub (evs ++ [ev]) out r'
    ∧ ev_key ev = res_key a n ∧ ev_action ev = "delete".
Proof.
  intros Hok Ha Ht. pose proof Ha as (Hsg & g & es & (_ & Hg & Hes) & _).
  destruct (GetTask_serves opts r (default_atespace a) n Hok) as (r1 & Hget & Hup1 & Hv1).
  change (v_tasks (red_view opts r)) with (records (A := Task) opts K_task (r_view r)) in Ht.
  rewrite res_key_default, Ht in Hget. cbn [found] in Hget.
  destruct (json_task (marked_deleting t)) as (d & HM & _).
  set (a' := default_atespace a) in *. set (vals := event_values "delete" a' n).
  set (v1 := published (taskPubSubChannel opts a' n) d (rs_set_key (taskKey opts a' n) (RString d) (r_view r))).
  assert (Hs1 : same_stream (r_view r) v1).
  { apply (only_same K_task); [kinds_in|done|]. exact (set_record_only opts K_task (a' +:+ ":" +:+ n) d (r_view r)). }
  assert (Hst : stream_at v1 (StreamName opts) = es) by (unfold stream_at; by rewrite (proj2 Hs1), Hes).
  assert (Hexec : serves r_up r_view (redis_Exec [CSet (taskKey opts a' n) d (TTL opts);
      CPublish (taskPubSubChannel opts a' n) d; CXAdd (StreamName opts) vals]) r1 None (appended opts vals v1)).
  { apply serves_exec; [done|by constructor; [apply Hopts|repeat constructor]|]. rewrite Hv1.
    erewrite exec_cons by reflexivity. rewrite exec_publish, exec_append; [done|].
    intros x. change (rs_keys _ !! StreamName opts) with (rs_keys v1 !! StreamName opts).
    rewrite (proj2 Hs1), Hes. intros [= <-]. by exists es. }
  destruct Hexec as (r2 & Hx & Hup2 & Hv2).
  exists (event_of (length es, vals)), r2. split_and!; [| |apply res_key_default|done].
  - unfold MarkTaskDeleting. cbv zeta. fold (default_atespace a). fold a'. rewrite (bind_Ret _ _ _ _ _ Hget).
    cbv beta iota. fold (marked_deleting t). rewrite HM. by rewrite (bind_Ret _ _ _ _ _ Hx).
  - apply (attached_snoc sub evs out r r2 g es vals); [done..| |]; rewrite Hv2.
    + exact (proj1 Hs1).
    + unfold appended. rewrite rs_keys_set, lookup_insert_eq. by rewrite Hst.
Qed.

#[local] Instance redis_publishing : Publishing (W := R) redis_attached (λ _, True).
Proof.
  split; [apply _|intros sub evs out r..].
  - intros t m Hi Ha _ Hm Hn. pose proof Ha as (_ & g & es & (Hup & Hg & Hes) & _).
    destruct (law_time r Hup) as (now & Hnow).
    destruct (SaveTask_after opts r t m now Hopts Hi Hm Hn (json_task _) Hnow)
      as (r' & Hsave & Hi' & _ & _ & Hs' & Hg').
    destruct (law_SaveTask r t m Hi Hm Hn) as (r1 & Hrun & _ & Hview).
    pose proof (eq_trans (eq_sym Hrun) Hsave) as [= ->].
    set (vals := event_values _ _ _) in Hs'.
    assert (stream_at (r_view r) (StreamName opts) = es) as Hstream by (unfold stream_at; by rewrite Hes).
    rewrite Hstream in Hs'. exists (event_of (length es, vals)), r'.
    split_and!; [exact Hsave|exact Hi'|exact Hview| |apply res_key_default|done].
    by apply (attached_snoc sub evs out r r' g es); [|apply Hi'|..].
  - intros a n t Hi Ha _ Ht. destruct (marking_attached sub evs out r a n t Hi Ha Ht) as (ev & r' & Hm & Ha' & Hk & Hact).
    pose proof (law_MarkTaskDeleting r a n Hi) as Hlaw. rewrite Ht in Hlaw.
    destruct Hlaw as (r1 & Hrun & Hi' & Hv').
    pose proof (eq_trans (eq_sym Hrun) Hm) as [= ->]. by exists ev, r'.
  - intros a n Hi Ha Ht. pose proof (law_MarkTaskDeleting r a n Hi) as Hlaw. rewrite Ht in Hlaw.
    destruct Hlaw as (r1 & Hrun & Hi' & Hv'). exists r1. split_and!; [exact Hrun|exact Hi'|exact Hv'|].
    destruct (GetTask_serves opts r (default_atespace a) n Hi) as (r2 & Hget & Hup2 & Hv2).
    change (v_tasks (s_view r)) with (records (A := Task) opts K_task (r_view r)) in Ht.
    rewrite res_key_default, Ht in Hget. cbn [found] in Hget.
    assert (MarkTaskDeleting opts a n r = (Ret (Some ErrNotFound), r2)) as Hm.
    { unfold MarkTaskDeleting. cbv zeta. fold (default_atespace a). by rewrite (bind_Ret _ _ _ _ _ Hget). }
    pose proof (eq_trans (eq_sym Hrun) Hm) as [= ->]. by apply (attached_view sub evs out r).
Qed.

(** ** A new group *)

(** A group that is created starts after the last entry: it has nothing to hand out,
    and the records are what they were. *)
Lemma Subscribe_attached r consumer : r_ok opts r →
  rs_groups (r_view r) !! (StreamName opts, group) = None →
  ∃ r', Subscribe opts group consumer r = (Ret (Ok (mkSubscription group consumer [])), r') ∧
    r_ok opts r' ∧ red_view opts r' = red_view opts r ∧
    redis_attached (mkSubscription group consumer []) [] [] r'.
Proof.
  intros [Hup Hi] Hg.
  assert (∃ es, stream_entries (rs_keys (r_view r) !! StreamName opts) = Some es) as [es Hes].
  { destruct (rs_keys (r_view r) !! StreamName opts) as [x|] eqn:E; [|by exists []].
    destruct (ri_stream _ _ Hi x E) as [es ->]. by exists es. }
  pose proof (law_XGroupCreateMkStream r (StreamName opts) group es Hup Hes) as Hlaw.
  rewrite Hg in Hlaw. destruct Hlaw as (r' & Hc & Hup' & Hv').
  exists r'. split; [unfold Subscribe; by rewrite (bind_Ret _ _ _ _ _ Hc)|].
  destruct (r_inv_stream opts (r_view r) es Hopts Hi) as [Hi1 Hv1].
  destruct (r_inv_keys opts (rs_set_key (StreamName opts) (RStream es) (r_view r)) (r_view r')
    ltac:(by rewrite Hv') Hi1) as [Hi2 Hv2].
  split; [by split|]. split; [unfold red_view; by rewrite Hv2|].
  split; [done|]. exists (mkRgroup (length es) []), es. split_and!; [split_and!; [done|..]|..].
  - rewrite Hv'. cbn [rs_groups new_group]. by rewrite lookup_insert_eq.
  - rewrite Hv'. cbn [rs_keys new_group]. by rewrite lookup_insert_eq.
  - unfold inflight, undelivered. cbn. by rewrite drop_ge by (by rewrite length_imap).
  - done.
  - split_and!; [done|apply NoDup_nil_2|by apply Forall_nil].
Qed.

(** A controller over Redis settles what the API server stores: once it has
    subscribed in a group of its own, an accepted update of a task is queued for it,
    one turn of its loop takes the event off the stream and acknowledges it, and a read
    of the task then returns what was stored with a status that is Failed, Suspended or
    Running as its specification asks. The group has nothing left to hand out. *)
Theorem redis_update_settles w r t m spec :
  (∀ sub evs out, resolver_framed (redis_attached sub evs out) (wk_reconciler w)) →
  wk_group w = group → r_ok opts r → map_Forall (λ _ t, task_spec t ≠ None) (v_tasks (red_view opts r)) →
  rs_groups (r_view r) !! (StreamName opts, group) = None →
  ValidateTask (Some t) = None → task_metadata t = Some m → om_name m ≠ "" → task_spec t = Some spec →
  ∃ sub r0 t' r1 r2 r3 err st g es,
    q_Subscribe (wk_group w) (wk_consumer w) r = (Ret (Ok sub), r0) ∧
    srv_UpdateTask (Some (Some t)) r0 = (Ret (Ok t'), r1) ∧ task_spec t' = Some spec ∧
    run_loop 1 w sub r1 = (Ret None, r2) ∧
    group_at opts group r2 g es ∧ undelivered g es = [] ∧ rg_pending g = [] ∧
    srv_GetTask (Some (mkNameRequest (om_atespace m) (om_name m))) r2 =
      (Ret (Ok (task_set_status (Some st) t')), r3) ∧
    settled spec err st.
Proof.
  intros Hr Hw Hok Hall Hg Hval Hm Hn Hspec. rewrite Hw.
  destruct (Subscribe_attached r (wk_consumer w) Hok Hg) as (r0 & Hsub & Hok0 & Hv0 & Ha0).
  set (sub := mkSubscription _ _ _) in *.
  destruct (update_run (W := R) (StoreLaws0 := the_laws) (EventQueue0 := the_queue) redis_attached
    (λ _, True) w sub [] [] r0 t m spec)
    as (t' & r1 & sub' & r2 & r3 & err & st & Hup & Hs' & Hrun & (_ & g & es & Hga & Hin & _ & Hp & _) & Hget & Hset);
    [exact Hr|exact Hok0| |exact Ha0|done..|].
  { unfold all_specified. change (map_Forall (λ _ t, task_spec t ≠ None) (v_tasks (red_view opts r0))). by rewrite Hv0. }
  exists sub, r0, t', r1, r2, r3, err, st, g, es. apply app_nil in Hin as [Hsp Hun].
  split_and!; [done..| |done|done]. rewrite Hsp in Hp. cbn in Hp.
  by apply Permutation_nil_l, eq_sym, fmap_nil_inv, fmap_nil_inv in Hp.
Qed.

End Plane.
End Queue.
