(* ===== verification/CliSpec.v ===== *)
(** What holds of the global flags, of ax ssh, and of the client that runs a command
    in a task's container. *)

From S2P Require Import Prelude GoStrings Types Codecs Bindings StoreApi RedisApi Manifests Server Substrate.
From S2P Require Import ModelConfig Container Bootstrap Tunnel Guest AxClient Cli.

(** ** Global flags *)

(** What a command line is made of: a global flag with its value, as two arguments
    or as one, and other words. *)
Inductive flag := FAtespace | FServer | FContext | FNamespace.
#[global] Instance flag_eq_dec : EqDecision flag.
Proof. solve_decision. Defined.

Inductive item := Spaced (f : flag) (short : bool) (v : string) | Joined (f : flag) (v : string) | Word (w : string).

Definition long_name (f : flag) : string :=
  match f with FAtespace => "--atespace" | FServer => "--server" | FContext => "--context" | FNamespace => "--namespace" end.
(** Only two flags have a short form. *)
Definition short_name (f : flag) : string :=
  match f with FAtespace => "-a" | FNamespace => "-n" | _ => long_name f end.

Definition render (i : item) : list string :=
  match i with
  | Spaced f short v => [if short then short_name f else long_name f; v]
  | Joined f v => [long_name f +:+ "=" +:+ v]
  | Word w => [w]
  end.

(** A word that is no global flag. *)
Definition plain (w : string) : Prop := w ≠ "" ∧ flag_setter w = None ∧ flag_value w = None.
Definition item_ok (i : item) : Prop := match i with Word w => plain w | _ => True end.

(** The value a flag ends up with: the last one given. *)
Fixpoint setting (f : flag) (items : list item) (v : string) : string :=
  match items with
  | [] => v
  | Spaced g _ v' :: items | Joined g v' :: items => setting f items (if decide (f = g) then v' else v)
  | Word _ :: items => setting f items v
  end.
Fixpoint words (items : list item) : list string :=
  match items with
  | [] => []
  | Word w :: items => w :: words items
  | _ :: items => words items
  end.

(** The command is the first word that does not start with a hyphen. *)
Fixpoint take_command (ws : list string) : string * list string :=
  match ws with
  | [] => ("", [])
  | w :: ws =>
      if HasPrefix w "-" then let '(c, rest) := take_command ws in (c, w :: rest) else (w, ws)
  end.

Definition setter (f : flag) : string → CliArgs → CliArgs :=
  match f with
  | FAtespace => ca_set_atespace | FServer => ca_set_server
  | FContext => ca_set_context | FNamespace => ca_set_namespace
  end.

Lemma flag_setter_name f (short : bool) : flag_setter (if short then short_name f else long_name f) = Some (setter f).
Proof. by destruct f, short. Qed.
Lemma flag_value_name f v : flag_setter (long_name f +:+ "=" +:+ v) = None ∧
  flag_value (long_name f +:+ "=" +:+ v) = Some (setter f v).
Proof. destruct f; (split; [done|]); unfold flag_value; cbn; done. Qed.

(** What is left of the arguments once a state has been reached. *)
Definition parsed (items : list item) (a : CliArgs) : CliArgs :=
  let '(cmd, rest) := if decide (ca_cmd a = "") then take_command (words items) else (ca_cmd a, words items) in
  mkCliArgs cmd (ca_clean a ++ rest)
    (setting FAtespace items (ca_atespace a)) (setting FServer items (ca_server a))
    (setting FContext items (ca_context a)) (setting FNamespace items (ca_namespace a)).

Lemma parsed_set f v i items a : words (i :: items) = words items →
  (∀ g x, setting g (i :: items) x = setting g items (if decide (g = f) then v else x)) →
  parsed (i :: items) a = parsed items (setter f v a).
Proof.
  intros Hw Hs. unfold parsed. rewrite Hw, !Hs. by destruct f.
Qed.

Lemma parse_items items : Forall item_ok items → ∀ a, parse_args (items ≫= render) a = parsed items a.
Proof.
  induction 1 as [|i items Hi Hitems IH]; intros a.
  { unfold parsed. destruct a as [c ? ? ? ? ?]. cbn. case_decide as Hc; rewrite app_nil_r; by subst. }
  destruct i as [f short v|f v|w]; cbn [mbind list_bind render app].
  - cbn [parse_args]. rewrite flag_setter_name. change (list_bind _ _ render items) with (items ≫= render).
    rewrite IH. symmetry. by apply parsed_set.
  - cbn [parse_args]. destruct (flag_value_name f v) as [-> ->].
    change (list_bind _ _ render items) with (items ≫= render). rewrite IH. symmetry. by apply parsed_set.
  - destruct Hi as (Hne & Hs & Hv). cbn [parse_args]. rewrite Hs, Hv.
    change (list_bind _ _ render items) with (items ≫= render).
    unfold parsed. cbn [words setting].
    destruct (decide (ca_cmd a = "")) as [Hc|Hc].
    + rewrite (bool_decide_eq_true_2 _ Hc). cbn [take_command andb]. destruct (HasPrefix w "-") eqn:Hp; cbn [negb].
      * rewrite IH. unfold parsed. cbn [ca_add ca_cmd ca_clean ca_atespace ca_server ca_context ca_namespace].
        rewrite decide_True by done. destruct (take_command (words items)) as [c rest]. by rewrite <- app_assoc.
      * rewrite IH. unfold parsed. cbn [ca_set_cmd ca_cmd ca_clean ca_atespace ca_server ca_context ca_namespace].
        by rewrite decide_False.
    + rewrite (bool_decide_eq_false_2 _ Hc). cbn [andb]. rewrite IH. unfold parsed.
      cbn [ca_add ca_cmd ca_clean ca_atespace ca_server ca_context ca_namespace].
      rewrite decide_False by done. by rewrite <- app_assoc.
Qed.

(** C33: a command line made of global flags and other words, in any order, is read
    as meant: the command is the first word without a hyphen, its arguments are the
    other words in order, and every flag has the last value given. *)
Theorem parse_args_items items : Forall item_ok items →
  parse_args (items ≫= render) no_args =
    mkCliArgs (fst (take_command (words items))) (snd (take_command (words items)))
      (setting FAtespace items "default") (setting FServer items "")
      (setting FContext items "") (setting FNamespace items "ax-system").
Proof.
  intros Hok. rewrite parse_items by done. unfold parsed. cbn [no_args ca_cmd ca_clean ca_atespace ca_server ca_context ca_namespace].
  rewrite decide_True by done. by destruct (take_command (words items)).
Qed.

Lemma parse_args_items_witness :
  parse_args ["get"; "-a"; "dev"; "tasks"; "--server=x"] no_args =
    mkCliArgs "get" ["tasks"] "dev" "x" "" "ax-system".
Proof.
  apply (parse_args_items [Word "get"; Spaced FAtespace true "dev"; Word "tasks"; Joined FServer "x"]).
  repeat constructor; done.
Defined.

(** The words of a remote command are read as global flags as well: of
    [ax ssh demo -- ls -a /tmp] the container is asked to run ls, and the task is
    looked up in the atespace /tmp. *)
Example ssh_swallows_flags :
  let a := parse_args ["ssh"; "demo"; "--"; "ls"; "-a"; "/tmp"] no_args in
  ca_atespace a = "/tmp" ∧ ca_clean a = ["demo"; "--"; "ls"] ∧ ssh_command (tail (ca_clean a)) [] = ["ls"].
Proof. done. Qed.

(** ** Running a command in the container *)

Inductive GuestEvent :=
| GRecv (r : output_recv)
| GOut (s : string)
| GErr (s : string)
| GState (r : res (bool * Z)).

(** A guest client whose calls return and are on record. *)
Class TracedGuest (W : Type) `{!GuestClient W, !Context W} := {
  guest_trace : W → list GuestEvent;
  gtrace_Start c d e : emits guest_trace (StartProcess c d e) (λ _ l, l = []);
  gtrace_Stream p : emits guest_trace (StreamProcessOutput p) (λ _ l, l = []);
  gtrace_Recv : emits guest_trace output_Recv (λ r l, l = [GRecv r]);
  gtrace_Get p : emits guest_trace (GetProcess p) (λ r l, l = [GState r]);
  gtrace_Out s : emits guest_trace (write_Stdout s) (λ _ l, l = [GOut s]);
  gtrace_Err s : emits guest_trace (write_Stderr s) (λ _ l, l = [GErr s]);
  gtrace_wait d : emits guest_trace (ctx_wait d) (λ _ l, l = []);
}.
#[export] Hint Resolve gtrace_Start gtrace_Stream gtrace_Recv gtrace_Get gtrace_Out gtrace_Err gtrace_wait : trace.

(** What was received on standard output and error before an exit, and what was
    written to the two writers. *)
Definition received (part : ProcessOutput → string) (l : list GuestEvent) : string :=
  String.concat "" (omap (λ e, match e with
    | GRecv (OutputMsg m) => match po_exit m with None => Some (part m) | Some _ => None end
    | _ => None end) l).
Definition written_out (l : list GuestEvent) : string :=
  String.concat "" (omap (λ e, match e with GOut s => Some s | _ => None end) l).
Definition written_err (l : list GuestEvent) : string :=
  String.concat "" (omap (λ e, match e with GErr s => Some s | _ => None end) l).

(** The exit code is the one the process had. *)
Definition exited_with (code : Z) (l : list GuestEvent) : Prop :=
  (∃ m, GRecv (OutputMsg m) ∈ l ∧ po_exit m = Some code) ∨ GState (Ok (false, code)) ∈ l.

Lemma concat_cons (x : string) xs : String.concat "" (x :: xs) = x +:+ String.concat "" xs.
Proof. destruct xs; cbn; [by rewrite sapp_nil_r|done]. Qed.
Lemma concat_app (xs ys : list string) : String.concat "" (xs ++ ys) = String.concat "" xs +:+ String.concat "" ys.
Proof.
  induction xs as [|x xs IH]; [done|]. change ((x :: xs) ++ ys) with (x :: (xs ++ ys)).
  by rewrite !concat_cons, IH, sapp_assoc.
Qed.

(** The three texts of a record, as far as a copy is faithful. *)
Definition copied (l : list GuestEvent) : Prop :=
  written_out l = received po_stdout l ∧ written_err l = received po_stderr l.

Lemma copied_app l l' : copied l → copied l' → copied (l ++ l').
Proof.
  unfold copied, written_out, written_err, received. intros [H1 H2] [H3 H4].
  rewrite !omap_app, !concat_app. by rewrite H1, H2, H3, H4.
Qed.

Section Exec.
Context {W : Type} `{TracedGuest W}.

Definition reply_ok (out : option exit_reply) (l : list GuestEvent) : Prop :=
  match out with
  | Some (code, None) => exited_with code l
  | Some (code, Some _) => code = 1%Z
  | None => True
  end.

Lemma reply_ok_app out l l' : reply_ok out l' → reply_ok out (l ++ l').
Proof.
  destruct out as [[code [e|]]|]; cbn; [done| |done]. intros [(m & Hm & Hc)|Hs]; [left|right].
  - exists m. split; [|done]. apply elem_of_app. auto.
  - apply elem_of_app. auto.
Qed.

(** The events of a message without an exit, when both writers are set. *)
Definition copy_events (m : ProcessOutput) : list GuestEvent :=
  GRecv (OutputMsg m) :: (if decide (po_stdout m ≠ "") then [GOut (po_stdout m)] else []) ++
  (if decide (po_stderr m ≠ "") then [GErr (po_stderr m)] else []).

Lemma copy_events_copied m : po_exit m = None → copied (copy_events m).
Proof.
  intros Hm. unfold copied, written_out, written_err, received, copy_events.
  destruct (decide (po_stdout m ≠ "")) as [?|Ho%dec_stable], (decide (po_stderr m ≠ "")) as [?|He%dec_stable];
    cbn; rewrite Hm; cbn; by rewrite ?Ho, ?He.
Qed.

Lemma exec_stream_copies fuel opts : eo_stdout opts = true → eo_stderr opts = true →
  emits guest_trace (exec_stream fuel opts) (λ out l, copied l ∧
    match out with Some (inr reply) => reply_ok (Some reply) l | _ => True end).
Proof.
  intros Ho He. induction fuel as [|fuel IH]; cbn [exec_stream]; [by apply emits_ret|].
  eapply emits_event; [apply gtrace_Recv|]. intros [|e|m]; [by apply emits_ret|by apply emits_ret|].
  destruct (po_exit m) as [code|] eqn:Hm; cbv beta iota.
  { apply emits_ret. split.
    - unfold copied, written_out, written_err, received. cbn. by rewrite Hm.
    - left. exists m. split; [left|done]. }
  rewrite Ho, He.
  eapply emits_weaken with (P := λ out l, ∃ l', l = tail (copy_events m) ++ l' ∧ copied l' ∧
    match out with Some (inr reply) => reply_ok (Some reply) l' | _ => True end).
  2:{ intros out l (l' & -> & Hl' & Hr). change (GRecv (OutputMsg m) :: tail (copy_events m) ++ l') with (copy_events m ++ l').
      split; [by apply copied_app; [apply copy_events_copied|]|].
      destruct out as [[]|]; [done|by apply reply_ok_app|done]. }
  assert (Hdone : emits guest_trace (exec_stream fuel opts) (λ out l, ∃ l', l = [] ++ l' ∧ copied l' ∧
    match out with Some (inr reply) => reply_ok (Some reply) l' | _ => True end)).
  { eapply emits_weaken; [exact IH|]. intros out l Hl. by exists l. }
  unfold copy_events. cbn [tail].
  destruct (decide (po_stdout m ≠ "")) as [Hso|Hso], (decide (po_stderr m ≠ "")) as [Hse|Hse];
    repeat (case_decide; [try tauto|try tauto]); cbn [app]; try exact Hdone.
  - eapply emits_same; [apply gtrace_Out|]. intros _. eapply emits_same; [apply gtrace_Err|]. intros _.
    eapply emits_weaken; [exact Hdone|]. intros out l (l' & -> & ?). by exists l'.
  - eapply emits_same; [apply gtrace_Out|]. intros _. apply emits_pure.
    eapply emits_weaken; [exact Hdone|]. intros out l (l' & -> & ?). by exists l'.
  - apply emits_pure. eapply emits_same; [apply gtrace_Err|]. intros _.
    eapply emits_weaken; [exact Hdone|]. intros out l (l' & -> & ?). by exists l'.
Qed.

Lemma exec_poll_state fuel pid : emits guest_trace (exec_poll fuel pid) (λ out l, copied l ∧ reply_ok out l).
Proof.
  induction fuel as [|fuel IH]; cbn [exec_poll]; [by apply emits_ret|].
  eapply emits_event; [apply gtrace_Get|]. intros [[[] code]|e]; cbv beta iota.
  - eapply emits_silent; [apply gtrace_wait|]. intros [e|]; [by apply emits_ret|].
    eapply emits_weaken; [exact IH|]. intros out l [Hl Hr]. split.
    + by apply (copied_app [GState (Ok (true, code))]).
    + by apply (reply_ok_app _ [GState (Ok (true, code))]).
  - apply emits_ret. split; [done|]. right. left.
  - by apply emits_ret.
Qed.

(** C32: running a command in the container copies the output of the process, each
    stream whole and in order, and returns the exit code the process had; a call
    that fails is reported with exit code 1. *)
Theorem Exec_faithful fuel opts : eo_stdout opts = true → eo_stderr opts = true →
  emits guest_trace (Exec fuel opts) (λ out l,
    written_out l = received po_stdout l ∧ written_err l = received po_stderr l ∧
    match out with
    | Some (code, None) => exited_with code l
    | Some (code, Some _) => code = 1%Z
    | None => True
    end).
Proof.
  intros Ho He. eapply emits_weaken with (P := λ out l, copied l ∧ reply_ok out l).
  2:{ by intros out l [[? ?] ?]. }
  unfold Exec. destruct (eo_command opts) as [|c cs]; [by apply emits_ret|].
  eapply emits_silent; [apply gtrace_Start|]. intros [pid|e]; [|by apply emits_ret].
  eapply emits_silent; [apply gtrace_Stream|]. intros [e|]; [by apply emits_ret|].
  eapply emits_bind; [by apply exec_stream_copies|]. intros [[[]|reply]|] l [Hl Hr]; cbv beta iota.
  - eapply emits_weaken; [apply exec_poll_state|]. intros out l' [Hl' Hr'].
    split; [by apply copied_app|by apply reply_ok_app].
  - apply emits_ret. rewrite app_nil_r. by split.
  - apply emits_ret. by rewrite app_nil_r.
Qed.
End Exec.
