(* ===== verification/Flags.v ===== *)
(** Package flag, as the mains use it: string, integer, boolean and repeatable flags
    of a command line that exits on an error. [Parse_items] states that a command line
    is read as it is meant. *)

From S2P Require Import Prelude GoStrings.

(** ** strconv *)

Definition ParseBool (s : string) : option bool :=
  if decide (s ∈ ["1"; "t"; "T"; "TRUE"; "true"; "True"]) then Some true
  else if decide (s ∈ ["0"; "f"; "F"; "FALSE"; "false"; "False"]) then Some false
  else None.

(** The value of a digit in bases up to 36. *)
Definition digit_of (c : ascii) : option Z :=
  let n := Z.of_N (N_of_ascii (lower_byte c)) in
  if ((48 <=? n) && (n <=? 57))%Z then Some (n - 48)%Z
  else if ((97 <=? n) && (n <=? 122))%Z then Some (n - 87)%Z
  else None.

(** Digits with underscores anywhere; their places are checked by [underscores_ok]. *)
Fixpoint digits_in (base : Z) (s : string) (acc : Z) : option Z :=
  match s with
  | EmptyString => Some acc
  | String c s =>
      if Ascii.eqb c "_" then digits_in base s acc
      else match digit_of c with
           | Some d => if (d <? base)%Z then digits_in base s (acc * base + d)%Z else None
           | None => None
           end
  end.

(** [saw] is the last character: a digit (or the base prefix), an underscore, or
    something else. *)
Inductive last_seen := SawStart | SawDigit | SawUnderscore | SawOther.
Fixpoint underscores_from (hexadecimal : bool) (saw : last_seen) (s : string) : bool :=
  match s with
  | EmptyString => match saw with SawUnderscore => false | _ => true end
  | String c s =>
      if match digit_of c with Some d => (d <? (if hexadecimal then 16 else 10))%Z | None => false end
      then underscores_from hexadecimal SawDigit s
      else if Ascii.eqb c "_" then
        match saw with SawDigit => underscores_from hexadecimal SawUnderscore s | _ => false end
      else match saw with SawUnderscore => false | _ => underscores_from hexadecimal SawOther s end
  end.

(** The prefix of a number: its base and what follows. *)
Definition base_prefix (s : string) : option (Z * string) :=
  match s with
  | String "0" (String c rest) =>
      let c := lower_byte c in
      if Ascii.eqb c "b" then Some (2%Z, rest)
      else if Ascii.eqb c "o" then Some (8%Z, rest)
      else if Ascii.eqb c "x" then Some (16%Z, rest)
      else None
  | _ => None
  end.
Definition underscores_ok (s : string) : bool :=
  match base_prefix s with
  | Some (base, rest) => underscores_from (bool_decide (base = 16%Z)) SawDigit rest
  | None => underscores_from false SawStart s
  end.

(** strconv.ParseUint(s, 0, 64) before the range check. *)
Definition unsigned_literal (s : string) : option Z :=
  if decide (s = "") then None
  else
    let v := match base_prefix s with
             | Some (base, EmptyString) => digits_in 8 (stail s) 0
             | Some (base, rest) => digits_in base rest 0
             | None => match s with
                       | String "0" rest => digits_in 8 rest 0
                       | _ => digits_in 10 s 0
                       end
             end in
    if underscores_ok s then v else None.

(** strconv.ParseInt(s, 0, 64) *)
Definition ParseInt (s : string) : option Z :=
  let v := match s with
           | String "-" s => Z.opp <$> unsigned_literal s
           | String "+" s => unsigned_literal s
           | _ => unsigned_literal s
           end in
  match v with
  | Some z => if decide (int64_min ≤ z ≤ int64_max)%Z then Some z else None
  | None => None
  end.

Example literals :
  (ParseInt <$> ["80"; "0x50"; "0b1010000"; "0120"; "-1_0"; "0_7"; "0"]) =
    Some <$> [80; 80; 80; 80; -10; 7; 0]%Z
  ∧ (ParseInt <$> [""; "-"; "_1"; "1__0"; "0x"; "08"; "9223372036854775808"]) = replicate 7 None.
Proof. split; vm_compute; reflexivity. Qed.

(** ** Flags *)

(** A flag stores what it is set to in the settings. *)
Inductive Flag (S : Type) :=
| StringVar (set : string → S → S)
| IntVar (set : Z → S → S)
| BoolVar (set : bool → S → S).
Arguments StringVar {S}. Arguments IntVar {S}. Arguments BoolVar {S}.
Abbreviation FlagSet S := (gmap string (Flag S)).

(** The settings with the remaining arguments, or the exit code of the program. *)
Inductive Parsed (S : Type) :=
| Settings (s : S) (args : list string)
| Exits (code : Z).
Arguments Settings {S}. Arguments Exits {S}.

(** The name and the value in an argument that follows its hyphens. *)
Definition flag_parts (body : string) : string * option string :=
  match body with
  | String c rest =>
      match cut "=" rest with
      | Some (name, value) => (String c name, Some value)
      | None => (body, None)
      end
  | EmptyString => ("", None)
  end.

(** What follows the hyphens of an argument that looks like a flag. *)
Definition flag_body (arg : string) : option string :=
  match arg with
  | String "-" (String "-" EmptyString) => None
  | String "-" (String "-" body) => Some body
  | String "-" EmptyString => None
  | String "-" body => Some body
  | _ => None
  end.

Section Parse.
Context {S : Type} (flags : FlagSet S).

Definition set_flag (f : Flag S) (value : string) (s : S) : option S :=
  match f with
  | StringVar set => Some (set value s)
  | IntVar set => (λ z, set z s) <$> ParseInt value
  | BoolVar set => (λ b, set b s) <$> ParseBool value
  end.

Fixpoint Parse (args : list string) (s : S) : Parsed S :=
  match args with
  | [] => Settings s []
  | arg :: args' =>
      if decide (arg = "--") then Settings s args'
      else
        match flag_body arg with
        | None => Settings s args
        | Some body =>
            if HasPrefix body "-" || HasPrefix body "=" then Exits 2
            else
              let '(name, value) := flag_parts body in
              match flags !! name with
              | None => if decide (name = "help" ∨ name = "h") then Exits 0 else Exits 2
              | Some f =>
                  match f, value with
                  | BoolVar _, None =>
                      match set_flag f "true" s with Some s => Parse args' s | None => Exits 2 end
                  | _, Some v => match set_flag f v s with Some s => Parse args' s | None => Exits 2 end
                  | _, None =>
                      match args' with
                      | [] => Exits 2
                      | v :: args'' => match set_flag f v s with Some s => Parse args'' s | None => Exits 2 end
                      end
                  end
              end
        end
  end.

End Parse.

(** ** Command lines as they are meant

    A flag with one or two hyphens, its value joined by "=" or in an argument of its
    own; a boolean flag may have no value. *)
Inductive Item :=
| Joined (two : bool) (name value : string)
| Spaced (two : bool) (name value : string)
| Switch (two : bool) (name : string).

Definition hyphens (two : bool) : string := if two then "--" else "-".
Definition item_args (i : Item) : list string :=
  match i with
  | Joined two name value => [hyphens two +:+ name +:+ "=" +:+ value]
  | Spaced two name value => [hyphens two +:+ name; value]
  | Switch two name => [hyphens two +:+ name]
  end.

Definition flag_name (name : string) : Prop :=
  name ≠ "" ∧ HasPrefix name "-" = false ∧ string_in "=" name = false.

(** The flag and the value of an item. *)
Definition item_setting (i : Item) : string * string :=
  match i with Joined _ n v => (n, v) | Spaced _ n v => (n, v) | Switch _ n => (n, "true") end.

Section Items.
Context {S : Type} (flags : FlagSet S).

Definition is_bool (f : Flag S) : bool := match f with BoolVar _ => true | _ => false end.

(** An item of the flag set: a value in an argument of its own is not for a boolean
    flag, and only that may go without. *)
Definition item_ok (i : Item) : Prop :=
  let name := fst (item_setting i) in
  flag_name name ∧ ∃ f, flags !! name = Some f ∧
    match i with Joined _ _ _ => True | Spaced _ _ _ => is_bool f = false | Switch _ _ => is_bool f = true end.

Definition apply_item (s : S) (i : Item) : option S :=
  let '(name, value) := item_setting i in
  flags !! name ≫= λ f, set_flag f value s.
Fixpoint apply_items (items : list Item) (s : S) : option S :=
  match items with [] => Some s | i :: items => apply_item s i ≫= apply_items items end.

(** What ends the flags: the end of the arguments, two hyphens, or another word. *)
Inductive tail_of : list string → list string → Prop :=
| tail_end : tail_of [] []
| tail_hyphens l : tail_of ("--" :: l) l
| tail_word w l : w ≠ "--" → flag_body w = None → tail_of (w :: l) (w :: l).

Lemma flag_name_head name : flag_name name → ∃ c rest, name = String c rest ∧ c ≠ "-"%char ∧ c ≠ "="%char.
Proof.
  intros (Hn & Hp & Hin). destruct name as [|c rest]; [done|]. exists c, rest. split; [done|]. split; intros ->.
  - cbn in Hp. discriminate.
  - cbn in Hin. discriminate.
Qed.

Lemma flag_body_hyphens two name t : flag_name name → flag_body (hyphens two +:+ name +:+ t) = Some (name +:+ t)
  ∧ hyphens two +:+ name +:+ t ≠ "--"
  ∧ HasPrefix (name +:+ t) "-" = false ∧ HasPrefix (name +:+ t) "=" = false.
Proof.
  intros (c & rest & -> & Hc & He)%flag_name_head.
  assert (HasPrefix (String c (rest +:+ t)) "-" = false ∧ HasPrefix (String c (rest +:+ t)) "=" = false) as [H1 H2].
  { split; apply not_true_iff_false; intros [u Hu]%HasPrefix_spec; injection Hu as E _; by destruct (Hc E) || destruct (He E). }
  assert (flag_body (hyphens two +:+ String c rest +:+ t) = Some (String c (rest +:+ t))) as Hbody.
  { clear -Hc. destruct two, c as [[] [] [] [] [] [] [] []]; done. }
  rewrite Hbody. destruct two; cbn; (split_and!; [done|intros E; inversion E; subst; by destruct Hc|done|done]).
Qed.

Lemma flag_parts_joined name value : flag_name name →
  flag_parts (name +:+ "=" +:+ value) = (name, Some value).
Proof.
  intros Hn. pose proof Hn as (_ & _ & Hin). apply flag_name_head in Hn as (c & rest & -> & _).
  cbn in Hin. apply orb_false_iff in Hin as [_ Hin].
  change (flag_parts (String c rest +:+ "=" +:+ value)) with
    (match cut "=" (rest +:+ String "=" value) with
     | Some (name, v) => (String c name, Some v) | None => (String c (rest +:+ String "=" value), None) end).
  by rewrite cut_app.
Qed.
Lemma flag_parts_bare name : flag_name name → flag_parts name = (name, None).
Proof.
  intros Hn. pose proof Hn as (_ & _ & Hin). apply flag_name_head in Hn as (c & rest & -> & _).
  cbn in Hin. apply orb_false_iff in Hin as [_ Hin]. unfold flag_parts. by rewrite (proj2 (cut_None _ _) Hin).
Qed.

(** One item is taken at a time. *)
Lemma Parse_item i rest s : item_ok i →
  Parse flags (item_args i ++ rest) s =
    match apply_item s i with Some s' => Parse flags rest s' | None => Exits 2 end.
Proof.
  intros (Hn & f & Hf & Hkind). unfold apply_item.
  destruct i as [two name value|two name value|two name]; cbn [item_setting fst] in *;
    rewrite Hf; cbn [option_bind mbind]; cbn [item_args app Parse].
  - destruct (flag_body_hyphens two name ("=" +:+ value) Hn) as (-> & Hne & -> & ->).
    rewrite decide_False by done. cbn [orb]. rewrite (flag_parts_joined _ _ Hn), Hf. by destruct f.
  - destruct (flag_body_hyphens two name "" Hn) as (Hb & Hne & H1 & H2). rewrite sapp_nil_r in *.
    rewrite decide_False, Hb, H1, H2 by done. cbn [orb]. rewrite (flag_parts_bare _ Hn), Hf. by destruct f.
  - destruct (flag_body_hyphens two name "" Hn) as (Hb & Hne & H1 & H2). rewrite sapp_nil_r in *.
    rewrite decide_False, Hb, H1, H2 by done. cbn [orb]. rewrite (flag_parts_bare _ Hn), Hf. by destruct f.
Qed.

(** A command line is read as meant: item by item, up to what ends the flags. *)
Lemma Parse_items items args rest s : Forall item_ok items → tail_of args rest →
  Parse flags (concat (item_args <$> items) ++ args) s =
    match apply_items items s with Some s' => Settings s' rest | None => Exits 2 end.
Proof.
  intros Hitems Htail. revert s. induction Hitems as [|i items Hi _ IH]; intros s.
  - cbn. destruct Htail as [| |w l Hw Hb]; [done|done|]. cbn [Parse]. by rewrite decide_False, Hb.
  - cbn [fmap list_fmap concat]. rewrite <- app_assoc, Parse_item by done. cbn [apply_items].
    destruct (apply_item s i); [apply IH|done].
Qed.

End Items.
