(* ===== verification/Mains.v ===== *)
(** The programs (cmd/ax-server/main.go, cmd/ax-controller/main.go and the flags of
    cmd/ax-task-runner/main.go): their settings, and how they put the parts together.
    The command line of ax itself is in [Cli]. *)

From S2P Require Import Prelude GoStrings Types Bindings StoreApi Substrate ModelConfig ModelClient Metadata.
From S2P Require Import Container Secrets Connect Flags Reconciler Worker Bootstrap Setup Runner.

(** A Redis client for an address and a password, with a handle, and its Close; the
    HTTP server of ax-server: serving an address until the context ends ([None]) or
    ListenAndServe fails with an error other than ErrServerClosed, and the shutdown
    within a time limit. *)
Class Daemon (W : Type) := {
  goredis_NewClient : string → string → M W N;
  goredis_Close : N → M W unit;
  http_Serve : string → M W (option error);
  http_Shutdown : Z → M W unit;
}.

(** ** ax-server *)

Record ServerSettings := mkServerSettings {
  listenAddr : string;
  redisAddr : string;
  redisPassword : string;
}.
Definition server_defaults : ServerSettings := mkServerSettings ":8080" "localhost:6379" "".
Definition server_flags : FlagSet ServerSettings :=
  {["addr" := StringVar (λ v s, mkServerSettings v (redisAddr s) (redisPassword s));
    "redis-addr" := StringVar (λ v s, mkServerSettings (listenAddr s) v (redisPassword s));
    "redis-password" := StringVar (λ v s, mkServerSettings (listenAddr s) (redisAddr s) v)]}.

(** ** ax-controller *)

Record ControllerSettings := mkControllerSettings {
  cs_redisAddr : string;
  cs_redisPassword : string;
  cs_redisGroup : string;
  cs_redisConsumer : string;
  cs_substrate : ClientOptions;
  cs_template : string;
  cs_templateAtespace : string;
}.
Definition on_redis (addr password : string → string) (s : ControllerSettings) : ControllerSettings :=
  mkControllerSettings (addr (cs_redisAddr s)) (password (cs_redisPassword s)) (cs_redisGroup s)
    (cs_redisConsumer s) (cs_substrate s) (cs_template s) (cs_templateAtespace s).
Definition on_group (group consumer : string → string) (s : ControllerSettings) : ControllerSettings :=
  mkControllerSettings (cs_redisAddr s) (cs_redisPassword s) (group (cs_redisGroup s))
    (consumer (cs_redisConsumer s)) (cs_substrate s) (cs_template s) (cs_templateAtespace s).
Definition on_substrate (f : ClientOptions → ClientOptions) (s : ControllerSettings) : ControllerSettings :=
  mkControllerSettings (cs_redisAddr s) (cs_redisPassword s) (cs_redisGroup s) (cs_redisConsumer s)
    (f (cs_substrate s)) (cs_template s) (cs_templateAtespace s).
Definition on_template (template atespace : string → string) (s : ControllerSettings) : ControllerSettings :=
  mkControllerSettings (cs_redisAddr s) (cs_redisPassword s) (cs_redisGroup s) (cs_redisConsumer s)
    (cs_substrate s) (template (cs_template s)) (atespace (cs_templateAtespace s)).

Definition controller_defaults : ControllerSettings :=
  mkControllerSettings "localhost:6379" "" "ax-controllers" ""
    (mkClientOptions "api.ate-system.svc.cluster.local:443" "api.ate-system.svc" "" "" false false)
    "default-template" "ax-system".

Definition controller_flags : FlagSet ControllerSettings := list_to_map [
  ("redis-addr", StringVar (λ v, on_redis (λ _, v) id));
  ("redis-password", StringVar (λ v, on_redis id (λ _, v)));
  ("redis-group", StringVar (λ v, on_group (λ _, v) id));
  ("redis-consumer", StringVar (λ v, on_group id (λ _, v)));
  ("substrate-endpoint", StringVar (λ v, on_substrate (λ o,
     mkClientOptions v (co_authority o) (co_token_file o) (co_ca_file o) (co_insecure_tls o) (co_plaintext o))));
  ("substrate-authority", StringVar (λ v, on_substrate (λ o,
     mkClientOptions (co_target o) v (co_token_file o) (co_ca_file o) (co_insecure_tls o) (co_plaintext o))));
  ("substrate-token-file", StringVar (λ v, on_substrate (λ o,
     mkClientOptions (co_target o) (co_authority o) v (co_ca_file o) (co_insecure_tls o) (co_plaintext o))));
  ("substrate-ca-file", StringVar (λ v, on_substrate (λ o,
     mkClientOptions (co_target o) (co_authority o) (co_token_file o) v (co_insecure_tls o) (co_plaintext o))));
  ("substrate-insecure-tls", BoolVar (λ b, on_substrate (λ o,
     mkClientOptions (co_target o) (co_authority o) (co_token_file o) (co_ca_file o) b (co_plaintext o))));
  ("substrate-plaintext", BoolVar (λ b, on_substrate (λ o,
     mkClientOptions (co_target o) (co_authority o) (co_token_file o) (co_ca_file o) (co_insecure_tls o) b)));
  ("template", StringVar (λ v, on_template (λ _, v) id));
  ("template-atespace", StringVar (λ v, on_template id (λ _, v)))].

(** ** ax-task-runner *)

Record RunnerSettings := mkRunnerSettings { rs_port : Z; rs_taskFile : string; rs_wsFiles : list string }.
Definition runner_defaults : RunnerSettings := mkRunnerSettings DefaultPort "" [].
Definition runner_flags : FlagSet RunnerSettings :=
  {["port" := IntVar (λ v s, mkRunnerSettings v (rs_taskFile s) (rs_wsFiles s));
    "task-file" := StringVar (λ v s, mkRunnerSettings (rs_port s) v (rs_wsFiles s));
    "workspace-file" := StringVar (λ v s, mkRunnerSettings (rs_port s) (rs_taskFile s) (rs_wsFiles s ++ [v]))]}.

Section Mains.
Context {W : Type} `{!EnvVars W, !Daemon W}.

(** The variable when it is set, else what was given. *)
Definition from_env (variable given : string) : M W string :=
  let! v := os_Getenv variable in ret (if decide (v ≠ "") then v else given).

Definition server_settings (args : list string) : M W (Parsed ServerSettings) :=
  match Parse server_flags args server_defaults with
  | Exits code => ret (Exits code)
  | Settings s rest =>
      let! addr := from_env "ADDR" (listenAddr s) in
      let! redis := from_env "REDIS_ADDR" (redisAddr s) in
      let! password := from_env "REDIS_PASSWORD" (redisPassword s) in
      ret (Settings (mkServerSettings addr redis password) rest)
  end.

(** The exit code. A failure of the listener exits on the spot: nothing is shut down
    or closed. *)
Definition ax_server_main (args : list string) : M W Z :=
  let! settings := server_settings args in
  match settings with
  | Exits code => ret code
  | Settings s _ =>
      let! rClient := goredis_NewClient (redisAddr s) (redisPassword s) in
      let! failed := http_Serve (listenAddr s) in
      match failed with
      | Some _ => ret 1%Z
      | None =>
          let! _ := http_Shutdown 5000000000 in
          let! _ := goredis_Close rClient in
          ret 0%Z
      end
  end.

(** REDIS_PASSWORD counts only when no password was given. *)
Definition controller_settings (args : list string) : M W (Parsed ControllerSettings) :=
  match Parse controller_flags args controller_defaults with
  | Exits code => ret (Exits code)
  | Settings s rest =>
      let! redis := from_env "REDIS_ADDR" (cs_redisAddr s) in
      let! envPass := os_Getenv "REDIS_PASSWORD" in
      let password := if decide (envPass ≠ "" ∧ cs_redisPassword s = "") then envPass else cs_redisPassword s in
      ret (Settings (on_redis (λ _, redis) (λ _, password) s) rest)
  end.

Section Controller.
Context `{!Files W, !FileReads W, !Dialer W, !Certificates, !Cluster W, !SecretJson}.
Context `{!Store W, !EventQueue W, !Host W, !Control W, !Context W, !Http W, !Ticker W, !TimeNow W}.
Context `{!GrpcStatus, !Environment, !MapRange, !ErrorText, !Yaml, !UnicodeTables, !URLs}.

(** The exit code after at most [turns] turns of the worker's loop, [None] while it
    runs. The store and the control service of the worker are those of the clients
    made here. *)
Definition ax_controller_main (turns : nat) (args : list string) : M W (option Z) :=
  let! settings := controller_settings args in
  match settings with
  | Exits code => ret (Some code)
  | Settings s _ =>
      let! subClient := NewClientWithOptions (cs_substrate s) [] in
      match subClient with
      | Err _ => ret (Some 1%Z)
      | Ok subClient =>
          let reconciler := NewTaskReconciler GetKubernetesSecret (cs_template s) (cs_templateAtespace s) in
          let! rClient := goredis_NewClient (cs_redisAddr s) (cs_redisPassword s) in
          let! worker := NewWorker reconciler (cs_redisGroup s) (cs_redisConsumer s) in
          let! err := Worker.Run turns worker in
          match err with
          | None => ret None
          | Some ErrCtx =>
              let! _ := goredis_Close rClient in
              let! _ := Close (Some subClient) in
              ret (Some 0%Z)
          | Some _ => ret (Some 1%Z)
          end
      end
  end.
End Controller.

Section TaskRunner.
Context `{!Files W, !FileReads W, !Commands W, !Context W, !TimeNow W, !HttpClient W, !Cluster W, !SecretJson}.
Context `{!Processes W, !Serving W, !GuestServices W, !SpecReader}.
Context `{!UnicodeTables, !URLs, !Json, !HttpTimes, !MapRange, !ModelYaml, !Durations}.
Context `{!ErrorText, !Quoting, !CommandJson, !Rfc3339}.

Definition ax_task_runner_main (AXDir : string) (args : list string) : M W Z :=
  match Parse runner_flags args runner_defaults with
  | Exits code => ret code
  | Settings s _ =>
      let! err := runner_main GetKubernetesSecret AXDir (rs_port s) (rs_taskFile s) (rs_wsFiles s) in
      ret (match err with Some _ => 1%Z | None => 0%Z end)
  end.
End TaskRunner.

End Mains.
