(* ===== verification/MainsSpec.v ===== *)
(** What the programs do with their settings (Mains): ax-server connects to Redis and
    serves where its environment, else its flags, else its defaults say. *)

From S2P Require Import Prelude GoStrings Types StoreApi Substrate ModelConfig ModelClient Metadata.
From S2P Require Import Container Connect Flags Mains.

(** The last value a command line gives to a flag. *)
Definition last_value (name : string) (items : list Item) (given : string) : string :=
  fold_left (λ acc i, if decide (fst (item_setting i) = name) then snd (item_setting i) else acc) items given.

(** What is seen of ax-server. *)
Inductive ServerEvent :=
| SRedis (addr password : string) (client : N)
| SServe (addr : string) (failed : option error)
| SShutdown (limit : Z)
| SClose (client : N).

Class TracedServer (W : Type) `{!EnvVars W, !Daemon W} := {
  server_events : W → list ServerEvent;
  server_env : string → string;
  server_Getenv n : emits server_events (os_Getenv n) (λ v l, l = [] ∧ v = server_env n);
  server_NewClient addr pw : emits server_events (goredis_NewClient addr pw) (λ c l, l = [SRedis addr pw c]);
  server_Serve addr : emits server_events (http_Serve addr) (λ failed l, l = [SServe addr failed]);
  server_Shutdown d : emits server_events (http_Shutdown d) (λ _ l, l = [SShutdown d]);
  server_Close c : emits server_events (goredis_Close c) (λ _ l, l = [SClose c]);
}.
#[export] Hint Resolve server_NewClient server_Serve server_Shutdown server_Close : trace.

(** The flags of ax-server hold what the command line gives them last. *)
Lemma server_items items s : Forall (item_ok server_flags) items →
  apply_items server_flags items s = Some (mkServerSettings (last_value "addr" items (listenAddr s))
    (last_value "redis-addr" items (redisAddr s)) (last_value "redis-password" items (redisPassword s))).
Proof.
  intros Hitems. revert s. induction Hitems as [|i items (Hn & f & Hf & _) _ IH]; intros s; [by destruct s|].
  cbn [apply_items]. unfold apply_item, last_value. cbn [fold_left].
  destruct (item_setting i) as [name value]; cbn [fst snd] in *. rewrite Hf. cbn [option_bind mbind].
  unfold server_flags in Hf.
  apply lookup_insert_Some in Hf as [[<- <-]|[_ Hf]]; [|apply lookup_insert_Some in Hf as [[<- <-]|[_ Hf]];
    [|apply lookup_singleton_Some in Hf as [<- <-]]]; cbn [set_flag option_bind mbind];
    by rewrite IH.
Qed.

Section Spec.
Context {W : Type} `{!EnvVars W, !Daemon W, !TracedServer W}.

(** A setting: the variable, else the flag, else the default. *)
Definition setting (variable name : string) (items : list Item) (given : string) : string :=
  if decide (server_env variable ≠ "") then server_env variable else last_value name items given.

Lemma from_env_setting variable given : emits server_events (from_env variable given) (λ v l,
  l = [] ∧ v = if decide (server_env variable ≠ "") then server_env variable else given).
Proof.
  unfold from_env. eapply emits_bind; [apply server_Getenv|]. intros v l [-> ->]. by apply emits_ret.
Qed.

(** C38: ax-server connects to the Redis server and listens at the address its
    environment names, else the last flag, else the defaults, however the flags are
    written. It ends with exit code 0 exactly when it was told to stop, and then shuts
    down within five seconds and closes its connection; when the listener fails it
    exits at once. *)
Theorem ax_server_main_runs items args rest :
  Forall (item_ok server_flags) items → tail_of args rest →
  emits server_events (ax_server_main (concat (item_args <$> items) ++ args)) (λ code l,
    ∃ client failed,
      l = SRedis (setting "REDIS_ADDR" "redis-addr" items "localhost:6379")
            (setting "REDIS_PASSWORD" "redis-password" items "") client
          :: SServe (setting "ADDR" "addr" items ":8080") failed
          :: match failed with None => [SShutdown 5000000000; SClose client] | Some _ => [] end
      ∧ code = match failed with None => 0%Z | Some _ => 1%Z end).
Proof.
  intros Hitems Htail. unfold ax_server_main, server_settings.
  rewrite (Parse_items _ _ _ _ _ Hitems Htail), server_items by done.
  do 3 (apply emits_assoc; eapply emits_bind; [apply from_env_setting|]; intros ? ? [-> ->]).
  apply emits_pure. cbn [listenAddr redisAddr redisPassword server_defaults].
  emit_step. emit_step. destruct a0 as [e|].
  - apply emits_ret. by exists a, (Some e).
  - emit_step. emit_step. apply emits_ret. by exists a, None.
Qed.

End Spec.

(** A controller takes its password from the environment only when no flag gives one. *)
Lemma controller_password `{!EnvVars W} args s rest w v :
  Parse controller_flags args controller_defaults = Settings s rest →
  (∀ n w, os_Getenv n w = (Ret (v n), w)) →
  controller_settings args w = (Ret (Settings (on_redis (λ a, if decide (v "REDIS_ADDR" ≠ "") then v "REDIS_ADDR" else a)
    (λ p, if decide (p = "") then v "REDIS_PASSWORD" else p) s) rest), w).
Proof.
  intros Hp Hv. unfold controller_settings, from_env. rewrite Hp. unfold bind, ret. rewrite !Hv.
  do 3 f_equal. unfold on_redis. f_equal.
  destruct (decide (cs_redisPassword s = "")) as [E|E], (decide (v "REDIS_PASSWORD" = "")) as [E'|E'];
    rewrite ?(decide_True (P := _ ∧ _)), ?(decide_False (P := _ ∧ _)) by tauto; congruence.
Qed.
