(* ===== verification/SshSpec.v ===== *)
(** What holds of ax ssh: when a command is started in a container, and what becomes
    of the port-forward it may need. *)

From S2P Require Import Prelude GoStrings Types Codecs Bindings StoreApi RedisApi Manifests Server Substrate.
From S2P Require Import ModelConfig Container Bootstrap Tunnel Guest AxClient Cli.

(** The calls that matter; the others leave no event. *)
Inductive SshEvent :=
| SFetch (req : NameRequest) (r : res Task)
| SDial (target : string) (md : option (string * string)) (err : option error)
| SStart (argv : list string) (r : res string)
| SKubectl (args : list string) (r : res Z)
| SKill (pid : Z) (signal : string) (err : option error).

Class TracedSsh (W : Type) `{!AXClient W, !Terminal W, !FileReads W, !EnvVars W, !Workstation W, !GuestClient W, !Context W} := {
  ssh_trace : W → list SshEvent;
  strace_NewClient t : emits ssh_trace (grpc_NewClient t) (λ _ l, l = []);
  strace_Close : emits ssh_trace grpc_Close (λ _ l, l = []);
  strace_Timeout d : emits ssh_trace (ctx_WithTimeout d) (λ _ l, l = []);
  (* a stored task has metadata: the server fills it in *)
  strace_GetTask req : emits ssh_trace (rpc_GetTask req)
    (λ r l, l = [SFetch req r] ∧ ∀ t, r = Ok t → is_Some (task_metadata t));
  strace_net d a : emits ssh_trace (net_Dial d a) (λ _ l, l = []);
  strace_Dial t md : emits ssh_trace (guest_Dial t md) (λ err l, l = [SDial t md err]);
  strace_gClose : emits ssh_trace guest_Close (λ _ l, l = []);
  strace_Start c d e : emits ssh_trace (StartProcess c d e) (λ r l, l = [SStart c r]);
  strace_Stream p : emits ssh_trace (StreamProcessOutput p) (λ _ l, l = []);
  strace_Recv : emits ssh_trace output_Recv (λ _ l, l = []);
  strace_Get p : emits ssh_trace (GetProcess p) (λ _ l, l = []);
  strace_Out s : emits ssh_trace (write_Stdout s) (λ _ l, l = []);
  strace_Err s : emits ssh_trace (write_Stderr s) (λ _ l, l = []);
  strace_wait d : emits ssh_trace (ctx_wait d) (λ _ l, l = []);
  strace_Getenv n : emits ssh_trace (os_Getenv n) (λ _ l, l = []);
  strace_Home : emits ssh_trace os_UserHomeDir (λ _ l, l = []);
  strace_Read p : emits ssh_trace (os_ReadFile p) (λ _ l, l = []);
  strace_Output a : emits ssh_trace (kubectl_Output a) (λ _ l, l = []);
  strace_Pipe : emits ssh_trace os_Pipe (λ _ l, l = []);
  strace_unpipe : emits ssh_trace close_Pipe (λ _ l, l = []);
  strace_Kubectl a log : emits ssh_trace (kubectl_Start a log) (λ r l, l = [SKubectl a r]);
  strace_inputs : emits ssh_trace forward_inputs (λ _ l, l = []);
  strace_Kill p s : emits ssh_trace (sys_Kill p s) (λ err l, l = [SKill p s err]);
}.
#[export] Hint Resolve strace_NewClient strace_Close strace_Timeout strace_net strace_Dial
  strace_gClose strace_Start strace_Stream strace_Recv strace_Get strace_Out strace_Err strace_wait
  strace_Getenv strace_Home strace_Read strace_Output strace_Pipe strace_unpipe strace_Kubectl
  strace_inputs strace_Kill : trace.

(** The port-forwards that were started, and one that was stopped. *)
Definition forwards (l : list SshEvent) : list Z :=
  omap (λ e, match e with SKubectl _ (Ok pid) => Some pid | _ => None end) l.
Definition stopped (pid : Z) (l : list SshEvent) : Prop :=
  (∃ err, SKill (- pid) "SIGTERM" err ∈ l) ∧ ∃ err, SKill pid "SIGKILL" err ∈ l.
Definition starts (l : list SshEvent) : list (list string) :=
  omap (λ e, match e with SStart argv _ => Some argv | _ => None end) l.

Lemma stopped_app pid l l' : stopped pid l → stopped pid (l' ++ l).
Proof. intros [[e1 H1] [e2 H2]]. split; eexists; apply elem_of_app; right; eassumption. Qed.

Lemma starts_app l l' : starts (l ++ l') = starts l ++ starts l'.
Proof. apply omap_app. Qed.
Lemma forwards_app l l' : forwards (l ++ l') = forwards l ++ forwards l'.
Proof. apply omap_app. Qed.

Section Ssh.
Context {W : Type} `{TracedSsh W, !TunnelFormats}.

Ltac silently := repeat emit_step; try done.

Lemma ssh_CurrentContext o : emits ssh_trace (CurrentContext o) (λ _ l, l = []).
Proof. unfold CurrentContext, kubeconfig_context. silently. Qed.

(** Stopping a port-forward leaves two signals. *)
Lemma ssh_cleanup pid : emits ssh_trace (forward_cleanup pid)
  (λ _ l, ∃ e1 e2, l = [SKill (- pid) "SIGTERM" e1; SKill pid "SIGKILL" e2]).
Proof. unfold forward_cleanup. silently. eauto. Qed.

Lemma stopped_two pid e1 e2 l : stopped pid ([SKill (- pid) "SIGTERM" e1; SKill pid "SIGKILL" e2] ++ l).
Proof. split; eexists; [left|right; left]. Qed.

Lemma forward_wait_stops tr pid output inputs : emits ssh_trace (forward_wait tr pid output inputs)
  (λ r l, match r with Ok _ => l = [] | Err _ => ∃ e1 e2, l = [SKill (- pid) "SIGTERM" e1; SKill pid "SIGKILL" e2] end).
Proof.
  assert (Hfail : ∀ e : error, emits ssh_trace (forward_cleanup pid ;;; ret (Err e))
    (λ (r : res Z) l, match r with Ok _ => l = [] | Err _ => ∃ e1 e2, l = [SKill (- pid) "SIGTERM" e1; SKill pid "SIGKILL" e2] end)).
  { intros e. eapply emits_bind; [apply ssh_cleanup|]. intros ? l (e1 & e2 & ->). apply emits_ret. by exists e1, e2. }
  revert output. induction inputs as [|[chunk| |] inputs IH]; intros output; cbn [forward_wait]; try apply Hfail.
  destruct (announced_port _); [by apply emits_ret|apply IH].
Qed.

(** A port-forward that is handed out was started once; one that fails is stopped. *)
Lemma PortForward_stops c ns t p : emits ssh_trace (PortForward c ns t p) (λ r l,
  match r with
  | Ok (_, pid) => ∃ args, l = [SKubectl args (Ok pid)]
  | Err _ => starts l = [] ∧ ∀ pid, pid ∈ forwards l → stopped pid l
  end).
Proof.
  unfold PortForward. eapply emits_silent; [apply ssh_CurrentContext|]. intros current.
  eapply emits_silent; [apply strace_Pipe|]. intros [e|].
  { apply emits_ret. split; [done|]. intros pid Hp. by apply elem_of_nil in Hp. }
  eapply emits_event; [apply strace_Kubectl|]. intros [pid|e].
  - eapply emits_silent; [apply strace_inputs|]. intros inputs.
    eapply emits_bind; [apply forward_wait_stops|]. intros [port|e] l Hl; cbn in Hl; apply emits_ret; rewrite app_nil_r.
    + subst l. by eexists.
    + destruct Hl as (e1 & e2 & ->). split; [done|]. intros pid' ->%list_elem_of_singleton.
      split; eexists; [right; left|right; right; left].
  - eapply emits_silent; [apply strace_unpipe|]. intros _. apply emits_ret.
    split; [done|]. intros pid Hp. by apply elem_of_nil in Hp.
Qed.

Lemma ssh_exec_stream fuel opts : emits ssh_trace (exec_stream fuel opts) (λ _ l, l = []).
Proof.
  induction fuel as [|fuel IH]; cbn [exec_stream]; [by apply emits_ret|]. silently; exact IH.
Qed.
Lemma ssh_exec_poll fuel pid : emits ssh_trace (exec_poll fuel pid) (λ _ l, l = []).
Proof. induction fuel as [|fuel IH]; cbn [exec_poll]; [by apply emits_ret|]. silently; exact IH. Qed.

Lemma Exec_starts fuel opts : eo_command opts ≠ [] →
  emits ssh_trace (Exec fuel opts) (λ _ l, ∃ r, l = [SStart (eo_command opts) r]).
Proof.
  intros Hne. unfold Exec. destruct (eo_command opts) as [|c cs]; [done|].
  eapply emits_event; [apply strace_Start|]. intros [pid|e]; [|apply emits_ret; by eexists].
  eapply emits_silent; [apply strace_Stream|]. intros [e|]; [apply emits_ret; by eexists|].
  eapply emits_silent; [apply ssh_exec_stream|]. intros [[[]|reply]|]; [|apply emits_ret; by eexists..].
  eapply emits_weaken; [apply ssh_exec_poll|]. intros out l ->. by eexists.
Qed.

(** The connection to the guest: the last dial worked when it is handed out, and a
    port-forward goes with it. *)
Definition connected_via (actor : string) (r : res (option Z)) (l : list SshEvent) : Prop :=
  starts l = [] ∧
  match r with
  | Ok None => ∃ target, l = [SDial target None None]
  | Ok (Some pid) => ∃ args target, l = [SKubectl args (Ok pid);
      SDial target (if decide (actor ≠ "") then Some ("ate-target-actor", actor) else None) None]
  | Err _ => (∀ pid, pid ∈ forwards l → stopped pid l) ∨ ∃ target md e, SDial target md (Some e) ∈ l
  end.

Lemma guest_connect_via c endpoint actor : emits ssh_trace (guest_connect c endpoint actor) (connected_via actor).
Proof.
  unfold guest_connect, Dial, DialTarget. eapply emits_silent; [apply strace_net|]. intros [].
  - apply emits_assoc. eapply emits_event; [apply strace_Dial|]. intros [e|]; apply emits_ret; split; try done.
    + right. do 3 eexists. left.
    + by eexists.
  - eapply emits_bind; [apply PortForward_stops|]. intros [[port pid]|e] l Hl; cbn in Hl.
    + destruct Hl as (args & ->). apply emits_assoc.
      eapply emits_event; [apply strace_Dial|]. intros [e|]; apply emits_ret; split; try done.
      * right. do 3 eexists. right. left.
      * by do 2 eexists.
    + apply emits_ret. rewrite app_nil_r. destruct Hl. by split; [|left].
Qed.

(** The task a command may run in. *)
Definition ssh_allowed (task : Task) : Prop :=
  ∃ st spec, task_status task = Some st ∧ task_spec task = Some spec ∧
    st_phase st = "Running" ∧ st_worker_ip st ≠ "" ∧ ts_debug spec = true.

Lemma ssh_target_allowed name task r : ssh_target name task = Ok r → ssh_allowed task.
Proof.
  unfold ssh_target. destruct (task_status task) as [st|] eqn:Hst; [|done].
  case_decide as Hphase; [done|]. destruct (task_spec task) as [spec|] eqn:Hspec; [|done]. cbn [from_option].
  destruct (ts_debug spec) eqn:Hd; [|done]. cbn [negb]. case_decide as Hip; [done|]. intros _.
  by exists st, spec.
Qed.

Lemma command_or_shell_nonempty cmd : command_or_shell cmd ≠ [].
Proof. by destruct cmd. Qed.

(** What a run of ax ssh leaves behind. *)
Definition ssh_run (atespace : string) (args : list string) (out : option ended) (l : list SshEvent) : Prop :=
  (starts l = [] ∨ ∃ name rest task r, args = name :: rest ∧
     SFetch (mkNameRequest atespace name) (Ok task) ∈ l ∧ ssh_allowed task ∧
     starts l = [command_or_shell (ssh_command rest [])] ∧
     SStart (command_or_shell (ssh_command rest [])) r ∈ l) ∧
  match out with
  | Some (Returned _) => (∀ pid, pid ∈ forwards l → stopped pid l) ∨ ∃ target md e, SDial target md (Some e) ∈ l
  | Some (Exited code) => code ≠ 0%Z ∧ ∀ pid signal err, SKill pid signal err ∉ l
  | None => True
  end.

(** The end of a run in which nothing was started in the container. *)
Lemma ssh_fails atespace args e l : starts l = [] →
  ((∀ pid, pid ∈ forwards l → stopped pid l) ∨ ∃ target md e, SDial target md (Some e) ∈ l) →
  emits ssh_trace (W := W) (grpc_Close ;;; ret (Some (Returned (Some e))))
    (λ out l', ssh_run atespace args out (l ++ l')).
Proof.
  intros Hl Hok. eapply emits_silent; [apply strace_Close|]. intros _. apply emits_ret.
  rewrite app_nil_r. split; [by left|done].
Qed.

Lemma no_forwards_ok l : forwards l = [] → ∀ pid, pid ∈ forwards l → stopped pid l.
Proof. intros -> pid Hp. by apply elem_of_nil in Hp. Qed.

(** What a connection leaves in the record: no kill, and the port-forward that is
    handed out. *)
Lemma connected_forwards actor forward l : connected_via actor (Ok forward) l →
  forwards l = match forward with Some pid => [pid] | None => [] end ∧ ∀ pid signal err, SKill pid signal err ∉ l.
Proof.
  intros [_ Hl]. destruct forward as [pid|]; [destruct Hl as (args & target & ->)|destruct Hl as (target & ->)];
    (split; [done|]); intros ? ? ?; rewrite !not_elem_of_cons; by repeat split; try apply not_elem_of_nil.
Qed.

(** The end of a command that was started: from the reply on. *)
Lemma ssh_ends atespace name rest task r forward actor l reply :
  ssh_allowed task → connected_via actor (Ok forward) l →
  let argv := command_or_shell (ssh_command rest []) in
  emits ssh_trace (W := W)
    (let close := guest_Close ;;; match forward with Some pid => forward_cleanup pid | None => ret tt end ;;; grpc_Close in
     match reply with
     | None => ret None
     | Some (_, Some e) => close ;;; ret (Some (Returned (Some e)))
     | Some (code, None) =>
         if decide (code ≠ 0)%Z then ret (Some (Exited code)) else close ;;; ret (Some (Returned None))
     end)
    (λ out l', ssh_run atespace (name :: rest) out
       ([SFetch (mkNameRequest atespace name) (Ok task)] ++ l ++ [SStart argv r] ++ l')).
Proof.
  intros Hallowed Hvia argv. destruct (connected_forwards _ _ _ Hvia) as [Hfw Hkill].
  assert (Hrun : ∀ l', starts l' = [] → ∀ out : option ended,
    match out with
    | Some (Returned _) => ∀ pid, pid ∈ forwards l ++ forwards l' → stopped pid l'
    | Some (Exited code) => code ≠ 0%Z ∧ l' = []
    | None => True
    end →
    ssh_run atespace (name :: rest) out ([SFetch (mkNameRequest atespace name) (Ok task)] ++ l ++ [SStart argv r] ++ l')).
  { intros l' Hl' out Hout. split.
    - right. exists name, rest, task, r. split_and!; [done|left|done| |].
      + by rewrite !starts_app, Hl', (proj1 Hvia).
      + right. apply elem_of_app. right. left.
    - destruct out as [[err|code]|]; [|destruct Hout as [Hc ->]; split; [done|]|done].
      + left. intros pid Hp. do 3 apply stopped_app. apply Hout.
        by rewrite !forwards_app in Hp.
      + intros pid signal err. rewrite !elem_of_app, !list_elem_of_singleton, elem_of_nil.
        intros [?|[?|[?|?]]]; [done|by eapply Hkill|done|done]. }
  assert (Hclose : ∀ err, emits ssh_trace (W := W)
    ((guest_Close ;;; match forward with Some pid => forward_cleanup pid | None => ret tt end ;;; grpc_Close) ;;;
     ret (Some (Returned err)))
    (λ out l', ssh_run atespace (name :: rest) out
       ([SFetch (mkNameRequest atespace name) (Ok task)] ++ l ++ [SStart argv r] ++ l'))).
  { intros err. apply emits_assoc. eapply emits_silent; [apply strace_gClose|]. intros _. apply emits_assoc.
    destruct forward as [pid|].
    - eapply emits_bind; [apply ssh_cleanup|]. intros ? l' (e1 & e2 & ->).
      eapply emits_silent; [apply strace_Close|]. intros _. apply emits_ret. apply Hrun; [done|].
      rewrite Hfw. intros pid' ->%list_elem_of_singleton. apply (stopped_two pid e1 e2 []).
    - apply emits_pure. eapply emits_silent; [apply strace_Close|]. intros _. apply emits_ret.
      apply Hrun; [done|]. rewrite Hfw. intros pid Hp. by apply elem_of_nil in Hp. }
  cbv zeta. destruct reply as [[code [e|]]|].
  - apply Hclose.
  - case_decide; [|apply Hclose]. apply emits_ret. by apply Hrun.
  - apply emits_ret. by apply Hrun.
Qed.

Lemma runSSH_runs fuel url atespace ctx args :
  emits ssh_trace (runSSH fuel url atespace ctx args) (ssh_run atespace args).
Proof.
  unfold runSSH. destruct args as [|name rest].
  { apply emits_ret. split; [by left|]. left. by apply no_forwards_ok. }
  unfold getAXClient. apply emits_assoc. eapply emits_silent; [apply strace_NewClient|]. intros [e|]; apply emits_pure.
  { apply emits_ret. split; [by left|]. left. by apply no_forwards_ok. }
  eapply emits_silent; [apply strace_Timeout|]. intros _.
  eapply emits_bind; [apply strace_GetTask|]. intros [task|e] l [-> Hmeta]; cbv beta iota.
  2:{ apply (ssh_fails atespace (name :: rest) _ [_]); [done|]. left. by apply no_forwards_ok. }
  destruct (ssh_target name task) as [[endpoint actor]|e] eqn:Htarget.
  2:{ apply (ssh_fails atespace (name :: rest) _ [_]); [done|]. left. by apply no_forwards_ok. }
  apply ssh_target_allowed in Htarget. destruct (Hmeta task eq_refl) as [meta ->]. apply emits_pure.
  eapply emits_bind; [apply guest_connect_via|]. intros [forward|e] l [Hl Hr]; cbv beta iota.
  2:{ eapply emits_weaken; [apply (ssh_fails atespace (name :: rest) e (SFetch (mkNameRequest atespace name) (Ok task) :: l))|].
      - exact Hl.
      - destruct Hr as [Hr|(t & md & x & Hx)]; [left|right].
        { intros pid Hp. apply (stopped_app pid l [_]). by apply Hr. } do 3 eexists. right. exact Hx.
      - done. }
  eapply emits_bind; [apply Exec_starts, command_or_shell_nonempty|]. intros reply l' (r & ->). cbn [eo_command].
  eapply ssh_ends; [done|]. split; [exact Hl|exact Hr].
Qed.

(** C31: a command is started in a container only for the task that was asked for, as
    the server has it: running, with debugging switched on and a worker's address;
    it is the command given, or a shell, and it is started at most once. *)
Theorem runSSH_gated fuel url atespace ctx args :
  emits ssh_trace (runSSH fuel url atespace ctx args) (λ _ l,
    starts l = [] ∨ ∃ name rest task, args = name :: rest ∧
      SFetch (mkNameRequest atespace name) (Ok task) ∈ l ∧ ssh_allowed task ∧
      starts l = [command_or_shell (ssh_command rest [])]).
Proof.
  eapply emits_weaken; [apply runSSH_runs|].
  intros out l [[Hl|(name & rest & task & _ & Ha & Hf & Hall & Hs & _)] _]; [by left|]. right. by exists name, rest, task.
Qed.

(** C35: when ax ssh returns, the port-forward it started has been stopped, unless
    dialing through it failed; but when the remote command ends with another exit
    code than 0, the process exits at once and leaves the port-forward running. *)
Theorem runSSH_cleanup fuel url atespace ctx args :
  emits ssh_trace (runSSH fuel url atespace ctx args) (λ out l,
    match out with
    | Some (Returned _) =>
        (∀ pid, pid ∈ forwards l → stopped pid l) ∨ ∃ target md e, SDial target md (Some e) ∈ l
    | Some (Exited code) => code ≠ 0%Z ∧ ∀ pid signal err, SKill pid signal err ∉ l
    | None => True
    end).
Proof. eapply emits_weaken; [apply runSSH_runs|]. by intros out l [_ Hout]. Qed.
End Ssh.
