(* ===== verification/MemoryExamples.v ===== *)
(** The theorems about the API server, the controller and the in-memory store at
    concrete inputs: a store with one task, a control plane that grants every
    request, and the event channel of the store as the controller's queue. *)

From S2P Require Import Prelude GoStrings Types Bindings MemoryStore MemoryInv MemoryProps.
From S2P Require Import StoreApi Server ServerSpec Substrate ModelConfig Reconciler ReconcilerSpec.
From S2P Require Import Worker WorkerSpec QueueSpec SystemSpec MemoryQueue ModelSpec ModelClient ClientSpec.

(** ** The setting *)

Definition ex_meta : ObjectMeta := mkObjectMeta "demo" "" None.
Definition ex_task : Task := mkTask "" "" (Some ex_meta) (Some zero_TaskSpec) None.
Definition ex_bare : Task := mkTask "" "" (Some ex_meta) None None.
Definition ex_empty : MemoryStore := NewStore Z.of_nat.
Definition ex_one : MemoryStore := snd (MemoryStore.SaveTask ex_task ex_empty).
Definition ex_two : MemoryStore :=
  snd (MemoryStore.SaveTask (mkTask "" "" (Some (mkObjectMeta "other" "" None)) None None) ex_one).

Lemma ex_save_inv s t : mem_inv s → is_Some (task_metadata t) →
  om_name (default zero_ObjectMeta (task_metadata t)) ≠ "" → mem_inv (snd (MemoryStore.SaveTask t s)).
Proof.
  intros Hi [m Hm] Hn. rewrite Hm in Hn. destruct (mem_SaveTask_run s t m Hi Hm Hn) as (s' & -> & ? & _). done.
Qed.
Lemma ex_empty_inv : mem_inv ex_empty.
Proof. apply NewStore_inv. Qed.
Lemma ex_one_inv : mem_inv ex_one.
Proof. apply ex_save_inv; [apply ex_empty_inv|by eexists|done]. Qed.
Lemma ex_two_inv : mem_inv ex_two.
Proof. apply ex_save_inv; [apply ex_one_inv|by eexists|done]. Qed.

(** A control plane that grants every request, and runs every actor. *)
Definition ex_actor : Actor := mkActor None None (Some (mkActorStatus (ActorStateOther 3) (Some "10.0.0.7"))).
Definition grant_all {W} : Control W := {|
  CreateAtespace _ := ret None; ctl_GetActorTemplate _ := ret (None, None);
  CreateActorTemplate t := ret (Some t, None); ctl_ListActorTemplates _ := ret (Ok ([], ""));
  ctl_DeleteActorTemplate _ := ret None; CreateActor a := ret (Some a, None);
  GetActor _ := ret (Some ex_actor, None); ctl_DeleteActor _ _ := ret None;
  ctl_ResumeActor _ := ret (Ok (Some ex_actor)); ctl_SuspendActor _ := ret None;
  CreateActorEgressPolicy _ _ := ret None; GetActorEgressPolicy _ := ret (None, None);
  UpdateActorEgressPolicy _ _ := ret None;
|}.
#[export] Instance ex_control : Control MemoryStore := grant_all.
#[export] Instance ex_context : Context MemoryStore := { ctx_Err := ret None; ctx_wait _ := ret None }.
#[export] Instance ex_http : Http MemoryStore := λ _ _, ret (Ok 200%Z).
#[export] Instance ex_ticker : Ticker MemoryStore := ret 3%nat.
#[export] Instance ex_host : Host MemoryStore := ret "node-1".
#[export] Instance ex_status : GrpcStatus := {
  status_Code e := match e with ErrStatus c _ _ => c | _ => CodeUnknown end;
  status_Code_status _ _ _ := eq_refl;
}.
#[export] Instance ex_env : Environment := λ _, "".
#[export] Instance ex_error_text : ErrorText := λ _, "error".
#[export] Instance ex_tables : UnicodeTables := λ s, s.
#[export] Instance ex_urls : URLs := {
  url_Parse s := match strip_prefix "https://" s with
    | Some host => Ok (mkURL "https" false host "" "" "" "" "")
    | None =>
        match strip_prefix "http://" s with
        | Some host => Ok (mkURL "http" false host "" "" "" "" "")
        | None => Err (ErrForeign 2)
        end
    end;
  url_String u := url_scheme u +:+ "://" +:+ url_host u;
  url_Redacted u := url_scheme u +:+ "://" +:+ url_host u; query_Set q k v := k +:+ "=" +:+ v;
}.
#[export] Instance ex_yaml : Yaml := {
  yaml_Task t := Ok (task_kind t); yaml_Model m := Ok (from_option ms_model "" (model_spec m));
  yaml_encoder := list Workspace; yaml_NewEncoder := [];
  yaml_Encode w l := Ok (l ++ [w]); yaml_Close l := Ok l; yaml_String _ := "---";
}.

Definition ex_reconciler : TaskReconciler MemoryStore :=
  NewTaskReconciler (λ _ _ _, ret (Ok "key")) "" "".
Definition ex_worker : Worker (W := MemoryStore) := mkWorker ex_reconciler "ax-controllers" "node-1".
Definition ex_event (action : string) : TaskEvent := mkTaskEvent "1-0" "default" "demo" action.

#[export] Instance ex_plane : PlaneApart.
Proof.
  split.
  - intros I HI. split; intros; try by apply returns_ret.
    intros s Hs. exists (clock_now (m_clock s)), (set_clock (clock_tick (m_clock s)) s).
    split; [apply time_now_run|]. split; [by apply HI|done].
  - intros I o _. apply returns_ret. intros actor [= <-]. right. by eexists.
Qed.
Lemma ex_resolver (I : MemoryStore → Prop) : resolver_total (I := I) ex_reconciler.
Proof. intros f [= <-] ? ? ?. by apply returns_ret. Qed.
#[export] Instance ex_queue_laws : QueueLaws (W := MemoryStore).
Proof.
  split; intros; try by apply returns_ret.
  intros s [Hi Hs]. destruct (Next_run false false s Hi) as (r & s' & Hrun & Hi').
  assert (mem_view s' = mem_view s) as Hv.
  { unfold MemoryStore.Next, bind, get in Hrun. destruct (m_events s) in Hrun; by injection Hrun as _ <-. }
  eexists _, s'. split; [cbn [q_Next mem_queue]; rewrite (bind_Ret _ _ _ _ _ Hrun); reflexivity|]. split; [|done]. split; [exact Hi'|].
  change (map_Forall (λ _ t, task_spec t ≠ None) (v_tasks (mem_view s'))). by rewrite Hv.
Qed.

(** ** The in-memory store *)

Lemma ex_one_reachable : reachable ex_one.
Proof.
  eapply (reachable_step _ (OpSaveTask ex_task)); [apply (reachable_init Z.of_nat)|done|].
  vm_compute. reflexivity.
Qed.

Lemma memory_store_safe_witness :
  ∃ s', run_op (OpListTasks "" 5 0) ex_one = (Ret tt, s') ∧ mem_inv s'.
Proof. apply (memory_store_safe ex_one (OpListTasks "" 5 0) ex_one_reachable). done. Defined.

Lemma memory_ListTasks_page_witness :
  ∃ l, l ≡ₚ filter (λ t, in_scope "" (task_metadata t) = true) (map_to_list (v_tasks (mem_view ex_two))).*2 ∧
    MemoryStore.ListTasks "" 1 1 ex_two = (Ret (Ok (take 1 (drop 1 l))), ex_two).
Proof. apply (memory_ListTasks_page ex_two "" 1 1 ex_two_inv). done. Defined.

Lemma memory_ListTasks_overflow_witness :
  fst (MemoryStore.ListTasks "" int64_max 1 ex_two) = Panic.
Proof.
  apply (memory_ListTasks_overflow ex_two int64_max 1 ex_two_inv);
    [split; vm_compute; congruence..|reflexivity|vm_compute; congruence].
Defined.

Lemma memory_SaveTask_publishes_witness : ∃ s' ev,
  MemoryStore.SaveTask ex_task ex_empty = (Ret (None, task_defaults ex_task), s') ∧
  v_tasks (mem_view s') !! "default:demo" = Some (task_defaults ex_task) ∧
  ev_atespace ev = "default" ∧ ev_name ev = "demo" ∧ ev_action ev = "reconcile" ∧ m_events s' = [ev].
Proof. apply (memory_SaveTask_publishes ex_empty ex_task ex_meta ex_empty_inv); [reflexivity|discriminate]. Defined.

Lemma memory_watch_close_witness :
  ∃ c s1 s2, MemoryStore.WatchTask "" "demo" ex_one = (Ret c, s1) ∧
    close_watch "default:demo" c s1 = (Ret None, s2) ∧ close_watch "default:demo" c s2 = (Ret None, s2) ∧
    default [] (m_watchers s2 !! "default:demo") = default [] (m_watchers ex_one !! "default:demo") ∧
    (∀ k, k ≠ "default:demo" → m_watchers s2 !! k = m_watchers ex_one !! k) ∧
    m_chans ex_one !! c = None ∧ m_chans s2 !! c = Some (mkChan [] true).
Proof. exact (memory_watch_close ex_one "" "demo" ex_one_inv). Defined.

(** ** The API server *)

Lemma ex_one_s_inv : s_inv (S := MemoryStore) ex_one.
Proof. exact ex_one_inv. Qed.

Lemma UpdateTask_then_GetTask_witness : ∃ t' c s' s'',
  srv_UpdateTask (Some (Some ex_task)) ex_one = (Ret (Ok t'), s') ∧
  srv_GetTask (Some (mkNameRequest "" "demo")) s' = (Ret (Ok t'), s'') ∧
  task_metadata t' = Some (om_set_creation (Some c) (saved_meta ex_meta)).
Proof.
  destruct (UpdateTask_then_GetTask ex_one ex_task ex_meta ex_one_s_inv)
    as (t' & c & s' & s'' & Hup & _ & Hm & _ & _ & Hget); [reflexivity..|discriminate|].
  exists t', c, s', s''. split; [exact Hup|]. split; [exact Hget|exact Hm].
Defined.

Lemma UpdateTask_resets_status_witness : ∃ t' s',
  srv_UpdateTask (Some (Some ex_task)) ex_one = (Ret (Ok t'), s') ∧
  v_tasks (mem_view s') !! "default:demo" = Some t' ∧
  task_status t' = Some (st_set_phase "Pending" zero_TaskStatus).
Proof. apply (UpdateTask_resets_status ex_one ex_task ex_meta ex_one_s_inv); [reflexivity..|discriminate|reflexivity]. Defined.

Lemma Suspend_then_Resume_witness : ∃ t1 s1 t2 s2,
  srv_SuspendTask (Some (mkNameRequest "" "demo")) ex_one = (Ret (Ok t1), s1) ∧
  v_tasks (mem_view s1) !! "default:demo" = Some t1 ∧
  task_spec t1 = Some (ts_set_suspend true zero_TaskSpec) ∧
  srv_ResumeTask (Some (mkNameRequest "" "demo")) s1 = (Ret (Ok t2), s2) ∧
  task_spec t2 = Some (ts_set_suspend false zero_TaskSpec) ∧
  task_metadata t2 = Some (saved_meta (saved_meta ex_meta)) ∧
  task_status t2 = Some (pending_status (Some (pending_status None))) ∧
  mem_view s2 = v_set_tasks (<["default:demo" := t2]> (v_tasks (mem_view ex_one))) (mem_view ex_one).
Proof. apply (Suspend_then_Resume ex_one "" "demo" (task_defaults ex_task) ex_one_s_inv). reflexivity. Defined.

Lemma DeleteTask_keeps_record_witness : ∃ t' s' s'',
  srv_DeleteTask (Some (mkNameRequest "" "demo")) ex_one = (Ret (Ok tt), s') ∧
  srv_GetTask (Some (mkNameRequest "" "demo")) s' = (Ret (Ok t'), s'') ∧
  task_status t' = Some (st_set_phase PhaseTerminating (pending_status None)) ∧
  task_spec t' = Some zero_TaskSpec ∧ task_metadata t' = Some (saved_meta ex_meta) ∧
  mem_view s'' = v_set_tasks (<["default:demo" := t']> (v_tasks (mem_view ex_one))) (mem_view ex_one).
Proof. apply (DeleteTask_keeps_record ex_one "" "demo" (task_defaults ex_task) ex_one_s_inv). reflexivity. Defined.

Lemma absent_resources_witness :
  runs_to mem_inv mem_view (srv_DeleteTask (Some (mkNameRequest "" "gone"))) ex_one
    (Err (not_found "task %q not found in atespace %q" "gone" "default")) (mem_view ex_one).
Proof. apply (absent_resources ex_one "" "gone" ex_one_s_inv); reflexivity. Defined.

Definition ex_gateway : Gateway := mkGateway "" "" (Some (mkObjectMeta "out" "" None)) None.

Lemma gateway_lifecycle_witness : ∃ g' s1,
  srv_UpdateGateway (Some (Some ex_gateway)) ex_one = (Ret (Ok g'), s1) ∧ gw_spec g' = None.
Proof.
  destruct (gateway_lifecycle ex_one ex_gateway (mkObjectMeta "out" "" None) ex_one_s_inv)
    as (g' & c & s1 & s2 & s3 & s4 & Hup & Hspec & _); [reflexivity|discriminate|].
  exists g', s1. split; [exact Hup|exact Hspec].
Defined.

Definition ex_unbound : Task :=
  mkTask "" "" (Some ex_meta) (Some (mkTaskSpec false "" [] [] None [Some (mkWorkspaceRef "" "" "")] None false)) None.

Lemma UpdateTask_rejects_witness : ∃ f args,
  srv_UpdateTask (Some (Some ex_unbound)) ex_one = (Ret (Err (ErrStatus CodeInvalidArgument f args)), ex_one).
Proof.
  apply (UpdateTask_rejects (Some (Some ex_unbound)) ex_one).
  intros t [= <-]. vm_compute. eexists. reflexivity.
Defined.

Definition ex_phase (p : string) : Task := task_set_status (Some (st_set_phase p zero_TaskStatus)) ex_task.

Lemma watch_until_terminal_witness :
  watch_loop log_Send [WatchUpdate (ex_phase "Pending"); WatchUpdate (ex_phase "Failed"); WatchUpdate ex_task] [] =
    (Ret (Some None), [mkWatchTaskResponse (ex_phase "Pending") "MODIFIED";
                       mkWatchTaskResponse (ex_phase "Failed") "MODIFIED"]).
Proof.
  apply (watch_until_terminal [ex_phase "Pending"] (ex_phase "Failed") [WatchUpdate ex_task] []);
    [repeat constructor|reflexivity].
Defined.

(** ** The reconciler *)

(** A control plane that keeps the templates of an atespace, by name. *)
Definition Templates : Type := gset string.
Definition named_template (name : string) : option ActorTemplate :=
  Some (BuildActorTemplate "default" name "" ∅ [] "").
#[export] Instance tm_control : Control Templates := {
  CreateAtespace _ := ret None; ctl_GetActorTemplate _ := ret (None, None);
  CreateActorTemplate t := λ s, (Ret (Some t, None), {[template_name (Some t)]} ∪ s);
  ctl_ListActorTemplates _ := λ s, (Ret (Ok (named_template <$> elements s, "")), s);
  ctl_DeleteActorTemplate o := λ s, (Ret None, s ∖ {[ref_name o]});
  CreateActor a := ret (Some a, None); GetActor _ := ret (Some ex_actor, None);
  ctl_DeleteActor _ _ := ret None; ctl_ResumeActor _ := ret (Ok (Some ex_actor));
  ctl_SuspendActor _ := ret None; CreateActorEgressPolicy _ _ := ret None;
  GetActorEgressPolicy _ := ret (None, None); UpdateActorEgressPolicy _ _ := ret None;
}.
#[export] Instance tm_context : Context Templates := { ctx_Err := ret None; ctx_wait _ := ret None }.
#[export] Instance tm_http : Http Templates := λ _ _, ret (Ok 503%Z).
#[export] Instance tm_ticker : Ticker Templates := ret 2%nat.
#[export] Instance tm_now : TimeNow Templates := ret 0%Z.

Definition tm_has (name : string) (s : Templates) : Prop := name ∈ s.
Lemma tm_responsive name : Responsive (tm_has name) (λ _, True) (λ o, ref_name o ≠ name).
Proof.
  unfold tm_has. split; intros; try by apply returns_ret.
  - intros s Hs. eexists _, _. split; [reflexivity|]. split; [|done]. by apply elem_of_union_r.
  - intros s Hs. by eexists _, _.
  - intros s Hs. eexists _, _. split; [reflexivity|]. split; [|done].
    apply elem_of_difference. split; [done|]. by rewrite elem_of_singleton.
Qed.

#[local] Instance tm_addressed name : Addressed (tm_has name) (λ _, True).
Proof. intros o _. apply returns_ret. intros actor [= <-]. right. by eexists. Qed.

(** Deleting the task job keeps the template of the task job-tmpl. *)
Lemma ReconcileDelete_confined_witness :
  total (tm_has "job-tmpl-tmpl-0123abcd") (ReconcileDelete (W := Templates) "" "job") ∧
  snd (ReconcileDelete (W := Templates) "" "job" {["job-tmpl-0123abcd"; "job-tmpl-tmpl-0123abcd"]})
    = {["job-tmpl-tmpl-0123abcd"]}.
Proof.
  split; [|vm_compute; reflexivity].
  apply (ReconcileDelete_confined (Responsive0 := tm_responsive "job-tmpl-tmpl-0123abcd") "" "job");
    [exact Logic.I|]. intros name Hp. cbn. intros ->. vm_compute in Hp. discriminate.
Defined.

Definition tm_reconciler : TaskReconciler Templates := NewTaskReconciler (λ _ _ _, ret (Ok "")) "" "".
Lemma tm_resolver (I : Templates → Prop) : resolver_total (I := I) tm_reconciler.
Proof. intros f [= <-] ? ? ?. by apply returns_ret. Qed.

Lemma reconcile_reports_witness :
  returns (tm_has "other") (reconcile tm_reconciler ex_task None None []) (λ res, ∃ st,
    task_status (fst res) = Some st ∧ outcome false zero_TaskStatus st (snd res)).
Proof.
  apply (reconcile_reports (Responsive0 := tm_responsive "other") tm_reconciler ex_task None None []
    (tm_resolver _) Logic.I).
Defined.

Lemma reconcile_keeps_witness :
  returns (tm_has "other") (reconcile tm_reconciler (ex_phase "Running") None None []) (λ res, ∃ st,
    fst res = mkTask "" "" (Some (saved_meta ex_meta)) (Some (ts_set_image DefaultTaskImage zero_TaskSpec)) (Some st) ∧
    (st_true (st_set_phase "Running" zero_TaskStatus) condWorkspaceReady = true → st_true st condWorkspaceReady = true) ∧
    (NoDup (A := string) [] → NoDup (cond_type <$> st_conditions st)) ∧
    (st_actor st = "demo" ∧ st_id st ≠ "" ∨ ∃ e, snd res = Some (Errorf "ensuring atespace: %w" [AWrap e]))).
Proof.
  apply (reconcile_keeps (Responsive0 := tm_responsive "other") tm_reconciler (ex_phase "Running") None None []
    (tm_resolver _) Logic.I).
Defined.

(** ** The worker *)

Lemma processEvent_settles_witness : ∃ err st, settled zero_TaskSpec err st ∧
  runs_to s_inv s_view (processEvent ex_worker (ex_event "reconcile")) ex_one err
    (with_task (res_key "default" "demo") (task_set_status (Some st) (task_defaults ex_task)) (s_view ex_one)).
Proof.
  apply (processEvent_settles ex_worker (ex_event "reconcile") ex_one (task_defaults ex_task) zero_TaskSpec);
    [intros v; apply ex_resolver|exact ex_one_s_inv|discriminate|reflexivity|reflexivity].
Defined.

Lemma processEvent_delete_witness : ∃ cleanup s1 err,
  ReconcileDelete "default" "demo" ex_one = (Ret cleanup, s1) ∧ (cleanup = None ↔ err = None) ∧
  runs_to s_inv s_view (processEvent ex_worker (ex_event "delete")) ex_one err
    (match cleanup with
     | None => v_set_tasks (delete (res_key "default" "demo") (v_tasks (s_view ex_one))) (s_view ex_one)
     | Some _ => mem_view ex_one
     end).
Proof. apply (processEvent_delete ex_worker (ex_event "delete") ex_one ex_one_s_inv). reflexivity. Defined.

Lemma specless_task_panics_witness : ∃ t' s1,
  srv_UpdateTask (Some (Some ex_bare)) ex_one = (Ret (Ok t'), s1) ∧
  fst (processEvent ex_worker (ex_event "reconcile") s1) = Panic.
Proof.
  destruct (specless_task_panics ex_worker ex_bare ex_meta ex_one ex_one_s_inv) as (t' & s1 & Hup & Hev);
    [reflexivity|discriminate|reflexivity|].
  exists t', s1. split; [exact Hup|]. apply Hev; [discriminate|reflexivity].
Defined.

Lemma Run_safe_witness : total (specified (W := MemoryStore)) (Run 100 ex_worker).
Proof. apply (Run_safe 100 ex_worker). intros v. apply ex_resolver. Defined.

Lemma ex_one_specified : all_specified (mem_view ex_one).
Proof.
  unfold all_specified.
  assert (v_tasks (mem_view ex_one) = {["default:demo" := task_defaults ex_task]}) as -> by (vm_compute; reflexivity).
  by apply map_Forall_singleton.
Qed.

Lemma run_loop_refines_witness : ∃ sub' s',
  run_loop (length (m_events ex_one) + 1) ex_worker tt ex_one = run_loop 1 ex_worker sub' s' ∧
  mem_inv s' ∧ mem_attached sub' [] [] s' ∧ events_effect (mem_view ex_one) (m_events ex_one) (mem_view s').
Proof.
  exact (run_loop_refines (EventQueue0 := mem_queue) mem_attached ex_worker (m_events ex_one) [] 1 tt ex_one
    (λ _ _ _ _, ex_resolver _) ex_one_inv ex_one_specified eq_refl).
Defined.

Lemma queue_drained_witness : ∃ s',
  run_loop 1 ex_worker tt ex_one = (Ret None, s') ∧
  settled_as (task_defaults ex_task) zero_TaskSpec (v_tasks (mem_view s') !! "default:demo").
Proof.
  destruct (queue_drained (StoreLaws0 := mem_store_laws) (EventQueue0 := mem_queue) mem_attached ex_worker (m_events ex_one) [] tt ex_one
    (λ _ _ _ _, ex_resolver _) ex_one_inv ex_one_specified eq_refl) as (s' & Hrun & _ & Hset & _).
  exists s'. split; [exact Hrun|].
  apply Hset; [reflexivity|reflexivity|by left|by repeat constructor].
Defined.

(** The update of a task that is already queued once. *)
Lemma update_settles_witness : ∃ t' s1 sub' s2 s3 err st,
  srv_UpdateTask (Some (Some ex_task)) ex_one = (Ret (Ok t'), s1) ∧ task_spec t' = Some zero_TaskSpec ∧
  run_loop (length (m_events ex_one) + 1) ex_worker tt s1 = (Ret None, s2) ∧ mem_attached sub' [] [] s2 ∧
  srv_GetTask (Some (mkNameRequest "" "demo")) s2 = (Ret (Ok (task_set_status (Some st) t')), s3) ∧
  settled zero_TaskSpec err st.
Proof.
  apply (update_settles (StoreLaws0 := mem_store_laws) (EventQueue0 := mem_queue) mem_attached mem_room ex_worker tt
    (m_events ex_one) [] ex_one ex_task ex_meta zero_TaskSpec (λ _ _ _ _, ex_resolver _) ex_one_inv ex_one_specified eq_refl);
    [vm_compute; lia|reflexivity|reflexivity|discriminate|reflexivity|by repeat constructor].
Defined.

(** Two calls before the controller has its turns. *)
Definition sys_one : MemoryStore := snd (served (CallUpdate ex_task) ex_empty).
Definition sys_two : MemoryStore := snd (served (CallSuspend (mkNameRequest "" "demo")) sys_one).
Abbreviation ex_step := (system_step (StoreLaws0 := mem_store_laws) (EventQueue0 := mem_queue) mem_attached mem_room ex_worker).

Lemma ex_call c s s' : proper c → (length (m_events s) < event_cap)%nat → served c s = (Ret tt, s') →
  ex_step (tt, s) (tt, s').
Proof.
  intros Hc Hroom Hs.
  apply (step_call (StoreLaws0 := mem_store_laws) (EventQueue0 := mem_queue) mem_attached mem_room ex_worker c);
    [done|by intros evs out <-|exact Hs].
Qed.

Lemma system_converges_witness : ∃ evs sub' s',
  rtc ex_step (tt, ex_empty) (tt, sys_two) ∧
  mem_attached tt evs [] sys_two ∧ run_loop (length evs) ex_worker tt sys_two = (Ret None, s') ∧ mem_inv s' ∧
  mem_attached sub' [] [] s' ∧ map_Forall (λ _, at_rest) (v_tasks (mem_view s')).
Proof.
  assert (Hsteps : rtc ex_step (tt, ex_empty) (tt, sys_two)).
  { eapply rtc_l; [apply (ex_call (CallUpdate ex_task) ex_empty sys_one)|].
    - split; [discriminate|by exists ex_meta].
    - vm_compute. lia.
    - vm_compute. reflexivity.
    - eapply rtc_l; [apply (ex_call (CallSuspend (mkNameRequest "" "demo")) sys_one sys_two)|apply rtc_refl].
      + done.
      + vm_compute. lia.
      + vm_compute. reflexivity. }
  destruct (system_converges (StoreLaws0 := mem_store_laws) (EventQueue0 := mem_queue) mem_attached mem_room
    ex_worker tt ex_empty tt sys_two (λ _ _ _ _, ex_resolver _) ex_empty_inv eq_refl eq_refl Hsteps) as (evs & sub' & s' & H).
  exists evs, sub', s'. split; [exact Hsteps|exact H].
Defined.

(** ** Models and manifests *)

Definition ex_model : Model := mkModel "" "" (Some (mkObjectMeta "default-model" "" None))
  (Some (mkModelSpec "openai" "gpt" None None "" "https://models.internal/" ∅ "" "")).

Lemma baseURLFor_safe_witness : ∃ raw parsed, url_Parse raw = Ok parsed ∧
  "https://models.internal" = TrimRightByte "/" (url_String parsed) ∧ url_has_user parsed = false.
Proof.
  destruct (baseURLFor_safe (ConfigFromCRD (Some ex_model)) "openai" "https://models.internal")
    as (raw & parsed & Hp & Hu & _ & _ & Hn & _); [vm_compute; reflexivity|].
  exists raw, parsed. split; [exact Hp|]. split; [exact Hu|exact Hn].
Defined.

Lemma injectModelEnvironment_spec_witness :
  returns (λ _ : MemoryStore, True) (injectModelEnvironment ex_reconciler "default" ex_model ∅) (λ res, ∀ env',
    res = Ok env' → ∃ y u, yaml_Model ex_model = Ok y ∧
      EffectiveBaseURL (ConfigFromCRD (Some ex_model)) = Ok u ∧
      model_env y (ConfigFromCRD (Some ex_model)) u ∅ env').
Proof. apply (injectModelEnvironment_spec ex_reconciler "default" ex_model ∅ (ex_resolver _)). Defined.

Lemma ValidateTask_first_error_witness :
  ValidateTask (Some ex_unbound) = Some (bind_error_text 0 NameRequired) ∧ valid_bindings [] ∧
  ¬ valid_bindings [mkWorkspaceRef "" "" ""].
Proof.
  apply (ValidateTask_first_error ex_unbound
    (mkTaskSpec false "" [] [] None [Some (mkWorkspaceRef "" "" "")] None false) 0 NameRequired); reflexivity.
Defined.

(** ** The model client *)

(** A provider that gives the answers of a script, and the answers given. *)
Definition Script : Type := (list (res HttpResponse) * list (res HttpResponse)).
#[export] Instance sc_http : HttpClient Script := λ _ s,
  let r := default (Err (ErrForeign 3)) (head (fst s)) in (Ret r, (tail (fst s), snd s ++ [r])).
#[export] Instance sc_context : Context Script := { ctx_Err := ret None; ctx_wait _ := ret None }.
#[export] Instance sc_now : TimeNow Script := ret 0%Z.
#[export] Instance sc_recorded : Recorded Script.
Proof.
  refine {| answers := snd |}; intros; do 2 eexists; (split; [reflexivity|reflexivity]).
Defined.
#[export] Instance ex_times : HttpTimes := λ _, None.
#[export] Instance ex_json : Json := {
  json_Marshal _ := Ok "{}"; json_Valid _ := true; json_string s := Some s; json_parts _ := None;
  decode_openai _ := Err (ErrForeign 4); decode_anthropic _ := Err (ErrForeign 4);
  decode_gemini _ := Err (ErrForeign 4);
}.
Definition sc_answer (status : Z) : res HttpResponse := Ok (mkHttpResponse status ∅ "").
Definition sc_start : Script := ([sc_answer 503; sc_answer 429; sc_answer 200; sc_answer 500], []).

Lemma postJSON_replays_witness : ∃ out l s',
  postJSON DefaultConfig ProtocolOpenAI "https://models.internal" ∅ sc_start = (Ret out, s') ∧
  answers s' = answers sc_start ++ l ∧ (length l ≤ 3)%nat ∧
  Forall (λ r, ∃ resp, r = Ok resp ∧ hp_status resp ∈ [429; 502; 503; 504]%Z) (take (length l - 1) l) ∧
  ∀ resp, out = Ok resp → last l = Some (Ok resp) ∧ (200 ≤ hp_status resp < 300)%Z.
Proof. apply (postJSON_replays DefaultConfig ProtocolOpenAI "https://models.internal" ∅ sc_start). Defined.

(** The script's third answer is the one returned. *)
Example postJSON_third_answer :
  fst (postJSON DefaultConfig ProtocolOpenAI "https://models.internal" ∅ sc_start) = Ret (sc_answer 200).
Proof. vm_compute. reflexivity. Qed.
