(* ===== verification/QueueExamples.v ===== *)
(** A controller that works on the event stream of the reference Redis server. *)

From S2P Require Import Prelude GoStrings Types Codecs Bindings StoreApi RedisApi RedisStore RedisInv RedisSpec RedisProps.
From S2P Require Import StoresAgree Server ServerSpec Substrate ModelConfig Reconciler ReconcilerSpec.
From S2P Require Import Worker WorkerSpec QueueSpec RedisQueue MemoryExamples.

#[local] Existing Instances agree_ids agree_text text_json.
#[local] Instance qx_control : Control ref_world := grant_all.
#[local] Instance qx_context : Context ref_world := { ctx_Err := ret None; ctx_wait _ := ret None }.
#[local] Instance qx_http : Http ref_world := λ _ _, ret (Ok 200%Z).
#[local] Instance qx_ticker : Ticker ref_world := ret 3%nat.
#[local] Instance qx_host : Host ref_world := ret "node-1".

#[local] Instance qx_apart : RedisApart (R := ref_world).
Proof.
  split.
  - intros I HI. split; intros; try by apply returns_ret.
    intros r Hr. eexists _, (fst r, clock_tick (snd r)). split; [reflexivity|]. split; [by eapply HI|done].
  - intros I o _. apply returns_ret. intros actor [= <-]. right. by eexists.
Qed.

Definition qx_worker : Worker (W := ref_world) :=
  mkWorker (NewTaskReconciler (λ _ _ _, ret (Ok "key")) "" "") "ax-controllers" "node-1".
Definition qx_start : ref_world := empty_world Z.of_nat.
Definition qx_spec : TaskSpec := default zero_TaskSpec (task_spec agree_task).

Lemma redis_update_settles_witness : ∃ sub r0 t' r1 r2 r3 err st g es,
  Subscribe default_opts "ax-controllers" "node-1" qx_start = (Ret (Ok sub), r0) ∧
  srv_UpdateTask (Store0 := redis_store default_opts) (Some (Some agree_task)) r0 = (Ret (Ok t'), r1) ∧
  run_loop (Store0 := redis_store default_opts) (EventQueue0 := redis_queue default_opts) 1 qx_worker sub r1
    = (Ret None, r2) ∧
  group_at default_opts "ax-controllers" r2 g es ∧ undelivered g es = [] ∧ rg_pending g = [] ∧
  srv_GetTask (Store0 := redis_store default_opts) (Some (mkNameRequest "" "demo")) r2 =
    (Ret (Ok (task_set_status (Some st) t')), r3) ∧
  settled qx_spec err st.
Proof.
  destruct (redis_update_settles default_opts default_opts_ok (ltac:(done) : (0 < ReadBatchSize default_opts)%Z)
    text_json_ok text_json_ok text_json_ok text_json_ok "ax-controllers" qx_worker qx_start agree_task
    (mkObjectMeta "demo" "" None) qx_spec) as (sub & r0 & t' & r1 & r2 & r3 & err & st & g & es & Hsub & Hup & _ & Hrest).
  - intros sub evs out v f Hf. injection Hf as <-. intros a n k. by apply returns_ret.
  - reflexivity.
  - apply empty_world_ok.
  - change (map_Forall (λ _ t, task_spec t ≠ None) (v_tasks (red_view default_opts qx_start))).
    replace (v_tasks (red_view default_opts qx_start)) with (∅ : gmap string Task); [apply map_Forall_empty|].
    reflexivity.
  - reflexivity.
  - reflexivity.
  - reflexivity.
  - discriminate.
  - reflexivity.
  - exists sub, r0, t', r1, r2, r3, err, st, g, es. split; [exact Hsub|]. split; [exact Hup|exact Hrest].
Defined.
