(* ===== verification/CliExamples.v ===== *)
(** The theorems about the command line at concrete inputs: a user's machine with
    files, a clock and a cluster to forward to; a manifest applied to the in-memory
    store; a task deleted while the controller works; a command in a container. *)

From S2P Require Import Prelude GoStrings Paths Types Codecs Bindings StoreApi MemoryStore MemoryInv RedisApi Manifests.
From S2P Require Import Server ServerSpec Substrate ModelConfig Reconciler Worker WorkerSpec Container Bootstrap.
From S2P Require Import Tunnel Guest AxClient Cli TunnelSpec Kinds Desk ApplySpec DeleteSpec CliSpec SshSpec.
From S2P Require Import QueueSpec MemoryQueue MemoryExamples.

(** ** The user's machine *)

Record Machine := mkMachine {
  mc_host : list HostEvent;
  mc_ssh : list SshEvent;
  mc_guest : list GuestEvent;
  mc_files : gmap string string;
  mc_env : gmap string string;
  mc_clock : Z;
  mc_stream : list output_recv;          (* what the guest still has to say *)
  mc_task : Task;                        (* the task the server has *)
}.
Definition mc_log (h : list HostEvent) (s : list SshEvent) (g : list GuestEvent) (m : Machine) : Machine :=
  mkMachine (mc_host m ++ h) (mc_ssh m ++ s) (mc_guest m ++ g) (mc_files m) (mc_env m) (mc_clock m) (mc_stream m) (mc_task m).
Definition mc_write (p d : string) (m : Machine) : Machine :=
  mkMachine (mc_host m ++ [HWrite p d None]) (mc_ssh m) (mc_guest m) (<[p := d]> (mc_files m)) (mc_env m) (mc_clock m) (mc_stream m) (mc_task m).
Definition mc_sleep (d : Z) (m : Machine) : Machine :=
  mkMachine (mc_host m ++ [HSleep d]) (mc_ssh m) (mc_guest m) (mc_files m) (mc_env m) (mc_clock m + d) (mc_stream m) (mc_task m).
Definition mc_next (m : Machine) : output_recv * Machine :=
  let r := default OutputEOF (head (mc_stream m)) in
  (r, mkMachine (mc_host m) (mc_ssh m) (mc_guest m ++ [GRecv r]) (mc_files m) (mc_env m) (mc_clock m) (tail (mc_stream m)) (mc_task m)).

#[export] Instance mc_Files : Files Machine := {
  os_Getwd := ret (Ok "/");
  os_MkdirAll d := λ m, (Ret None, mc_log [HMkdir d None] [] [] m);
  os_Stat _ := ret None;
  os_WriteFile p d := λ m, (Ret None, mc_write p d m);
}.
#[export] Instance mc_Reads : FileReads Machine := λ p m,
  let r := match mc_files m !! p with Some d => Ok d | None => Err (ErrForeign 1) end in
  (Ret r, mc_log [HRead p r] [] [] m).
#[export] Instance mc_Env : EnvVars Machine := {
  os_Getenv n := λ m, let v := default "" (mc_env m !! n) in (Ret v, mc_log [HEnv n v] [] [] m);
  os_Setenv _ _ := ret tt;
  os_Environ := ret [];
}.
#[export] Instance mc_Time : TimeNow Machine := λ m, (Ret (mc_clock m), m).
#[export] Instance mc_Context : Context Machine := { ctx_Err := ret None; ctx_wait _ := ret None }.
#[export] Instance mc_Workstation : Workstation Machine := {
  os_UserHomeDir := ret (Ok "/home/u");
  os_Remove p := λ m, (Ret None, mc_log [HRemove p None] [] [] m);
  os_ReadDir _ := ret (Ok []);
  os_Create p := λ m, (Ret None, mc_log [HCreate p None] [] [] m);
  os_Pipe := ret None;
  close_Pipe := ret tt;
  kubectl_Output a := λ m, (Ret (Err (ErrForeign 2)), mc_log [HOutput a (Err (ErrForeign 2))] [] [] m);
  kubectl_Start a _ := λ m, (Ret (Ok 42%Z), mc_log [HStart a (Ok 42%Z)] [SKubectl a (Ok 42%Z)] [] m);
  sys_Kill p s := λ m, (Ret None, mc_log [HKill p s None] [SKill p s None] [] m);
  http_Probe _ u := λ m, (Ret (Ok 200%Z), mc_log [HProbe u (Ok 200%Z)] [] [] m);
  time_Sleep d := λ m, (Ret tt, mc_sleep d m);
  forward_inputs := ret [ForwardOutput "Forwarding from 127.0.0.1:4711 -> 80"];
}.
#[export] Instance mc_Guest : GuestClient Machine := {
  guest_Dial t md := λ m, (Ret None, mc_log [] [SDial t md None] [] m);
  guest_Close := ret tt;
  StartProcess c _ _ := λ m, (Ret (Ok "p1"), mc_log [] [SStart c (Ok "p1")] [] m);
  StreamProcessOutput _ := ret None;
  output_Recv := λ m, let '(r, m) := mc_next m in (Ret r, m);
  GetProcess _ := λ m, (Ret (Ok (false, 0%Z)), mc_log [] [] [GState (Ok (false, 0%Z))] m);
  write_Stdout s := λ m, (Ret tt, mc_log [] [] [GOut s] m);
  write_Stderr s := λ m, (Ret tt, mc_log [] [] [GErr s] m);
}.

(** The server has one task, and nobody else answers. *)
Definition mc_fetch (req : NameRequest) : M Machine (res Task) := λ m,
  let t := task_set_metadata (Some (default ex_meta (task_metadata (mc_task m)))) (mc_task m) in
  (Ret (Ok t), mc_log [] [SFetch req (Ok t)] [] m).
Definition refused {A} : M Machine (res A) := ret (Err (ErrForeign 3)).
#[export] Instance mc_client : AXClient Machine := {|
  grpc_NewClient _ := ret None; grpc_Close := ret tt; ctx_WithTimeout _ := ret tt;
  rpc_GetTask := mc_fetch; rpc_ListTasks _ := refused; rpc_UpdateTask _ := refused; rpc_DeleteTask _ := refused;
  rpc_SuspendTask _ := refused; rpc_ResumeTask _ := refused;
  rpc_GetGateway _ := refused; rpc_ListGateways _ := refused; rpc_UpdateGateway _ := refused; rpc_DeleteGateway _ := refused;
  rpc_GetWorkspace _ := refused; rpc_ListWorkspaces _ := refused; rpc_UpdateWorkspace _ := refused; rpc_DeleteWorkspace _ := refused;
  rpc_GetModel _ := refused; rpc_ListModels _ := refused; rpc_UpdateModel _ := refused; rpc_DeleteModel _ := refused;
  rpc_WatchTask _ := refused; watch_Recv := ret WatchEOF;
|}.
#[export] Instance mc_terminal : Terminal Machine := {
  fmt_Print _ := ret tt; fmt_Eprint _ := ret tt; tab_Flush _ _ := ret None; yaml_Encode_out _ := ret None;
  io_ReadAll_stdin := ret (Ok ""); net_Dial _ _ := ret false;
}.
#[export] Instance mc_formats : TunnelFormats := {
  json_Marshal_tunnel i := Ok (to_text (ti_context i, ti_namespace i, ti_service i, (ti_port i, ti_pid i, ti_created i)));
  json_Unmarshal_tunnel s := match of_text s with
    | Some (c, n, v, (p, d, t)) => Ok (mkTunnelInfo c n v p d t)
    | None => Err (ErrForeign 4)
    end;
  yaml_current_context _ := Err (ErrForeign 5);
}.

Ltac recorded := intros; do 3 eexists; repeat split; cbn; rewrite ?app_nil_r; try done.
#[export] Instance mc_traced : TracedHost Machine.
Proof. refine {| host_trace := mc_host |}; recorded. Defined.
#[export] Instance mc_traced_guest : TracedGuest Machine.
Proof. refine {| guest_trace := mc_guest |}; recorded. Defined.
#[export] Instance mc_traced_ssh : TracedSsh Machine.
Proof. refine {| ssh_trace := mc_ssh |}; recorded. by intros t [= <-]. Defined.

Ltac on_time := intros; intros m Hm; do 2 eexists; split_and!; [reflexivity|exact Hm|done].
#[export] Instance mc_timed : TimedHost Machine.
Proof.
  refine {| clk := mc_clock |}; try on_time.
  - intros s. exists (mc_clock s), s. split; [done|lia].
  - intros d s Hd. eexists. split; [reflexivity|]. cbn. lia.
Defined.

Definition mc_start (files env : gmap string string) (stream : list output_recv) (task : Task) : Machine :=
  mkMachine [] [] [] files env 0 stream task.

(** ** Tunnels *)


Lemma state_path_confined_witness :
  path_elems (state_path "/home/u/.ax/tunnels" "../../etc") = ["home"; "u"; ".ax"; "tunnels"; "______etc.json"] ∧
  (state_path "/home/u" "prod" = state_path "/home/u" "test" → "prod" = "test").
Proof.
  split.
  - exact (proj1 (state_path_confined "/home/u/.ax/tunnels" "../../etc" "x" eq_refl)).
  - apply (proj2 (state_path_confined "/home/u" "prod" "test" eq_refl)); done.
Defined.

(** A tunnel that was made for one context and namespace is used for another context,
    whose name differs in a character that is replaced, and for another namespace:
    what the record says of both is not looked at. *)
Definition tunnel_files : gmap string string :=
  {[ "/home/u/.ax/tunnels/prod_eu.json" :=
     to_text ("prod.eu", "ax-system", "ax-server", (4711%Z, 7%Z, 0%Z)) ]}.
Example tunnel_of_another_context :
  fst (EnsureServerURL 101 (mkTunnelOptions "" "prod_eu" "staging" "" "" 0) (mc_start tunnel_files ∅ [] ex_task)) =
  Ret (Some (Ok "http://127.0.0.1:4711")).
Proof. vm_compute. reflexivity. Qed.

(** ** A manifest *)

(** A document of the example is its kind and the encoded resource. *)
#[local] Instance nodes : YamlNodes := {
  yaml_node := string * string;
  node_Decode n := Ok (AString (snd n));
  json_Marshal_any v := match v with AString s => Ok s | _ => Err (ErrForeign 6) end;
}.
#[local] Instance docs : ManifestDocs := {
  yaml_Documents _ := ([], None);
  node_Kind n := if decide (fst n = "") then 0%Z else DocumentNode;
  node_Content _ := 1%nat;
  node_kind n := Ok (fst n);
}.
#[local] Instance strict {A} `{Countable A} : StrictJSON A := λ s,
  match of_text s with Some x => Ok x | None => Err (ErrForeign 7) end.

Definition new_task : Task := mkTask "" "Task" (Some (mkObjectMeta "fresh" "" None)) (Some zero_TaskSpec) None.
Definition changed_task : Task :=
  mkTask "" "Task" (Some ex_meta) (Some (ts_set_image "img" zero_TaskSpec)) None.
Definition manifest : list resource := [RTask new_task; RTask changed_task].
Definition manifest_docs : list yaml_node := [(KindTask, to_text new_task); (KindTask, to_text changed_task)].

Definition ex_desk (steps : list (M MemoryStore unit)) : Desk MemoryStore := mkDesk ex_one [] steps.

Lemma manifest_holds : Forall2 holds manifest_docs manifest.
Proof.
  repeat constructor; unfold Task_UnmarshalYAML, unmarshalYAML; cbn [node_Decode nodes snd json_Marshal_any];
    unfold Unmarshal_strict, strict; by rewrite of_text_to_text.
Qed.

Definition text_line (s : string) : output := OText (s +:+ newline).

Lemma apply_converges_witness : ∃ s1 s2 : MemoryStore,
  let d1 := mkDesk s1 [text_line "task.ax.io/fresh created"; text_line "task.ax.io/demo configured"] [] in
  let d2 := mkDesk s2 (dk_out d1 ++ [text_line "task.ax.io/fresh unchanged"; text_line "task.ax.io/demo unchanged"]) [] in
  apply_documents (W := Desk MemoryStore) 1 manifest_docs None (ex_desk []) = (Ret None, d1) ∧
  apply_documents (W := Desk MemoryStore) 1 manifest_docs None d1 = (Ret None, d2) ∧
  all_stored manifest (s_view s1) ∧ all_stored manifest (s_view s2).
Proof.
  destruct (apply_converges manifest_docs manifest 1 (ex_desk []) manifest_holds ex_one_s_inv)
    as (s1 & s2 & Hrun1 & Hrun2 & Hst1 & Hst2 & _).
  - repeat constructor; eexists; done.
  - apply (bool_decide_unpack _). vm_compute. exact I.
  - exists s1, s2. split; [exact Hrun1|]. split; [exact Hrun2|]. by split.
Defined.

(** ** Deletion *)

Definition demo_req : NameRequest := mkNameRequest "default" "demo".
Definition idle : M MemoryStore unit := ret tt.
Lemma idle_sound : sound_step idle.
Proof. intros s Hs. by exists s. Qed.

Lemma demo_stored : is_Some (stored (s_view ex_one) (at_request KindTask demo_req)).
Proof. apply (bool_decide_unpack _). vm_compute. exact I. Qed.

Definition ex_line (steps : list (M MemoryStore unit)) (calls : list (option fault)) : Line (Desk MemoryStore) :=
  mkLine (ex_desk steps) calls.
Definition dropped : fault := Lost (Errorf "connection refused" []).

Lemma deleteResource_waits_witness : ∃ out l',
  let l := ex_line [idle; idle] [None; None; Some dropped] in
  deleteResource 3 KindTask demo_req l = (Ret (Some out), l') ∧ deletion KindTask demo_req l out l' ∧
  out = Some (not_checked KindTask demo_req dropped).
Proof.
  destruct (deleteResource_waits 3 KindTask demo_req (ex_line [idle; idle] [None; None; Some dropped])) as (out & l' & Hrun & Hdel).
  - left.
  - exact ex_one_s_inv.
  - exact demo_stored.
  - repeat constructor; apply idle_sound.
  - repeat constructor.
  - cbn. lia.
  - exists out, l'. split; [exact Hrun|]. split; [exact Hdel|].
    assert (Hout : fst (deleteResource 3 KindTask demo_req (ex_line [idle; idle] [None; None; Some dropped])) =
      Ret (Some (Some (not_checked KindTask demo_req dropped)))) by (vm_compute; reflexivity).
    rewrite Hrun in Hout. by injection Hout.
Defined.

Lemma delete_with_controller_witness : ∃ l',
  deleteResource 4 KindTask demo_req (ex_line [idle; turn ex_worker (ex_event "delete"); idle] []) = (Ret (Some None), l') ∧
  v_tasks (s_view (store_of l')) !! "default:demo" = None ∧
  last (printed l') = Some (text_line "task.ax.io/demo deleted").
Proof.
  destruct (delete_with_controller 4 ex_worker (ex_event "delete") demo_req
    (ex_line [idle; turn ex_worker (ex_event "delete"); idle] []) [idle] [idle]) as (out & l' & Hrun & Hout).
  - reflexivity.
  - reflexivity.
  - reflexivity.
  - intros s _. eexists. vm_compute. reflexivity.
  - reflexivity.
  - discriminate.
  - repeat constructor. apply idle_sound.
  - repeat constructor. apply idle_sound.
  - constructor.
  - exact ex_one_s_inv.
  - apply (bool_decide_unpack _). vm_compute. exact I.
  - cbn. lia.
  - exists l'. destruct out as [e|]; [destruct Hout as (_ & f & Hf & _); by apply elem_of_nil in Hf|].
    destruct Hout as [Hgone Hlast]. split; [exact Hrun|]. split; [exact Hgone|]. rewrite Hlast. reflexivity.
Defined.

(** ** A command in the container *)

Definition ssh_task (debug : bool) : Task :=
  mkTask "" "Task" (Some ex_meta) (Some (mkTaskSpec false "" [] [] None [] None debug))
    (Some (st_set_phase "Running" (st_set_worker_ip "10.0.0.7" zero_TaskStatus))).
Definition out_msg (s e : string) : output_recv := OutputMsg (mkProcessOutput None s e).
Definition exit_msg (code : Z) : output_recv := OutputMsg (mkProcessOutput (Some code) "" "").
Definition ssh_box (code : Z) : Machine :=
  mc_start ∅ {[ "KUBECONTEXT" := "prod" ]} [out_msg "a" ""; out_msg "b" "!"; exit_msg code] (ssh_task true).

Lemma Exec_faithful_witness : ∃ code l m,
  Exec 5 (mkExecOptions ["ls"] "" ∅ true true) (ssh_box 3) = (Ret (Some (code, None)), m) ∧ mc_guest m = l ∧
  written_out l = received po_stdout l ∧ exited_with code l.
Proof.
  destruct (Exec_faithful 5 (mkExecOptions ["ls"] "" ∅ true true) eq_refl eq_refl (ssh_box 3))
    as (out & m & l & Hrun & Hl & Hout & _ & Hexit).
  assert (Hcode : fst (Exec 5 (mkExecOptions ["ls"] "" ∅ true true) (ssh_box 3)) = Ret (Some (3%Z, None)))
    by (vm_compute; reflexivity).
  rewrite Hrun in Hcode. injection Hcode as ->. exists 3%Z, l, m.
  split; [exact Hrun|]. split; [exact Hl|]. by split.
Defined.

(** The output is copied, and a command that succeeds leaves no port-forward. *)
Example ssh_succeeds :
  let r := runSSH 9 "http://127.0.0.1:8080" "" "" ["demo"; "--"; "ls"] (ssh_box 0) in
  fst r = Ret (Some (Returned None)) ∧ written_out (mc_guest (snd r)) = "ab" ∧ written_err (mc_guest (snd r)) = "!" ∧
  starts (mc_ssh (snd r)) = [["ls"]] ∧ forwards (mc_ssh (snd r)) = [42%Z] ∧
  drop 4 (mc_ssh (snd r)) = [SKill (-42) "SIGTERM" None; SKill 42 "SIGKILL" None].
Proof. vm_compute. done. Qed.

(** A command that fails does. *)
Example ssh_leaves_forward :
  let r := runSSH 9 "http://127.0.0.1:8080" "" "" ["demo"; "--"; "ls"] (ssh_box 3) in
  fst r = Ret (Some (Exited 3)) ∧ forwards (mc_ssh (snd r)) = [42%Z] ∧ drop 4 (mc_ssh (snd r)) = [].
Proof. vm_compute. done. Qed.

(** Without debugging the command is refused. *)
Example ssh_refused :
  starts (mc_ssh (snd (runSSH 9 "" "" "" ["demo"] (mc_start ∅ ∅ [] (ssh_task false))))) = [].
Proof. vm_compute. done. Qed.

(** ** Ages *)

Example ages : formatAge 59999999999 = "59s" ∧ formatAge (90 * Minute) = "1h" ∧ formatAge (49 * Hour) = "2d" ∧
  formatAge (- Second) = "-1s".
Proof. vm_compute. done. Qed.
