(* ===== verification/ProgramExamples.v ===== *)
(** The programs and their connections at concrete inputs. *)

From S2P Require Import Prelude GoStrings Types StoreApi Substrate ModelConfig ModelClient Metadata.
From S2P Require Import Container Connect ConnectSpec Flags Mains MainsSpec.

(** ** A host on which ax-server is started *)

Record ServerHost := mkServerHost { sh_events : list ServerEvent }.
Definition sh_log (e : ServerEvent) (h : ServerHost) : ServerHost := mkServerHost (sh_events h ++ [e]).
Definition sh_env (n : string) : string := if decide (n = "REDIS_ADDR") then "redis:6379" else "".

#[export] Instance sh_EnvVars : EnvVars ServerHost := {
  os_Getenv n := ret (sh_env n); os_Setenv _ _ := ret tt; os_Environ := ret [];
}.
#[export] Instance sh_Daemon : Daemon ServerHost := {
  goredis_NewClient addr pw := λ h, (Ret 1%N, sh_log (SRedis addr pw 1) h);
  goredis_Close c := λ h, (Ret tt, sh_log (SClose c) h);
  http_Serve addr := λ h, (Ret None, sh_log (SServe addr None) h);
  http_Shutdown d := λ h, (Ret tt, sh_log (SShutdown d) h);
}.
#[export] Instance sh_Traced : TracedServer ServerHost.
Proof.
  refine {| server_events := sh_events; server_env := sh_env |}; intros; do 3 eexists;
    repeat split; by rewrite ?app_nil_r.
Defined.

(** The flags of a command line, one of them overridden by the environment. *)
Definition sh_items : list Item := [Joined true "addr" ":9090"; Spaced false "redis-addr" "elsewhere:1"].
Definition sh_args : list string := concat (item_args <$> sh_items) ++ ["--"; "rest"].

Lemma sh_items_ok : Forall (item_ok server_flags) sh_items.
Proof. repeat constructor; try done; eexists; split; reflexivity. Qed.

Lemma ax_server_main_runs_witness :
  sh_args = ["--addr=:9090"; "-redis-addr"; "elsewhere:1"; "--"; "rest"]
  ∧ sh_events (state_of (ax_server_main sh_args) (mkServerHost [])) =
      [SRedis "redis:6379" "" 1; SServe ":9090" None; SShutdown 5000000000; SClose 1]
  ∧ emits server_events (ax_server_main sh_args) (λ code l, ∃ client failed,
      l = SRedis "redis:6379" "" client :: SServe ":9090" failed
          :: match failed with None => [SShutdown 5000000000; SClose client] | Some _ => [] end
      ∧ code = match failed with None => 0%Z | Some _ => 1%Z end).
Proof.
  split; [reflexivity|]. split; [vm_compute; reflexivity|].
  exact (ax_server_main_runs sh_items ["--"; "rest"] ["rest"] sh_items_ok (tail_hyphens ["rest"])).
Defined.

(** Flags that are misspelled, or asked about. *)
Example flags_end :
  result_of (ax_server_main ["-port"; "80"]) (mkServerHost []) = Ret 2%Z
  ∧ result_of (ax_server_main ["--help"]) (mkServerHost []) = Ret 0%Z
  ∧ Parse runner_flags ["-port=0x1F90"; "-workspace-file"; "a"; "--workspace-file=b"] runner_defaults
      = Settings (mkRunnerSettings 8080 "" ["a"; "b"]) []
  ∧ Parse runner_flags ["-port"; "eighty"] runner_defaults = Exits 2.
Proof. repeat split; vm_compute; reflexivity. Qed.

(** ** A pod that connects to Substrate *)

Record Pod := mkPod { pod_events : list DialEvent; pod_files : gmap string string }.
Definition pod_log (e : DialEvent) (p : Pod) : Pod := mkPod (pod_events p ++ [e]) (pod_files p).
Definition pod_read (p : Pod) (f : string) : res string :=
  match pod_files p !! f with Some data => Ok data | None => Err (ErrForeign 1) end.

#[export] Instance pod_Files : Files Pod := {
  os_Getwd := ret (Ok "/"); os_MkdirAll _ := ret None; os_WriteFile _ _ := ret None;
  os_Stat f := λ p,
    let err := match pod_files p !! f with Some _ => None | None => Some (ErrForeign 1) end in
    (Ret err, pod_log (DStat f err) p);
}.
#[export] Instance pod_FileReads : FileReads Pod := λ f p,
  (Ret (pod_read p f), pod_log (DRead f (pod_read p f)) p).
#[export] Instance pod_EnvVars : EnvVars Pod := {
  os_Getenv n := λ p, (Ret "", pod_log (DEnv n "") p); os_Setenv _ _ := ret tt; os_Environ := ret [];
}.
#[export] Instance pod_Dialer : Dialer Pod := {
  grpc_NewClient target opts := λ p, (Ret (Ok 1%N), pod_log (DDial target opts (Ok 1%N)) p);
  conn_Close _ := ret None;
}.
#[export] Instance pod_Certificates : Certificates := λ pem, HasPrefix pem "-----BEGIN CERTIFICATE-----".
#[export] Instance pod_Traced : TracedDial Pod.
Proof.
  refine {| dials := pod_events |}; intros; do 3 eexists; repeat split; by rewrite ?app_nil_r.
Defined.

Definition pod_mounts : gmap string string :=
  {[defaultTokenFile := "jwt"; caBundle := "-----BEGIN CERTIFICATE-----"]}.

(** The token and the certificates of a pod are found where they are mounted; a
    file without a certificate ends the attempt; plaintext asks for none, and sends
    the token all the same. *)
Example pod_connects :
  last (pod_events (state_of (NewClient "" []) (mkPod [] pod_mounts))) =
    Some (DDial defaultTarget
      [WithTransportCredentials (credentials_NewTLS
         (mkTLSConfig false serviceName (Some "-----BEGIN CERTIFICATE-----")));
       WithAuthority serviceName; WithPerRPCCredentials defaultTokenFile] (Ok 1%N))
  ∧ result_of (NewClientWithOptions (mkClientOptions "host:443" "" "" defaultTokenFile false false) [])
      (mkPod [] pod_mounts)
    = Ret (Err (Errorf "failed to parse CA certificate from %q" [AStr defaultTokenFile]))
  ∧ last (pod_events (state_of (NewClientWithOptions (mkClientOptions "host:80" "" "" "" false true) [])
      (mkPod [] pod_mounts))) =
    Some (DDial "host:80" [WithTransportCredentials insecure_NewCredentials;
      WithPerRPCCredentials defaultTokenFile] (Ok 1%N)).
Proof. repeat split; vm_compute; reflexivity. Qed.
